(** * Stratosphere asset layer: cooked-model reader and asset manager

    A shallow embedding of
    - [Engine::smodel::LoadSModelFile] and its helpers (the cooked [.smodel]
      container reader and validator),
    - [Engine::TextureAsset::uploadRGBA8_Deferred] and
      [uploadEncodedImage_Deferred] (deferred texture upload),
    - [Engine::AssetManager] (the four reference-counted registries,
      [loadMesh], [loadModel] and [garbageCollect]),
    followed by the properties established about them.

    Conventions.
    - A fixed-width unsigned integer is a [Z]; every C++ operation that can
      leave the range is written with its wrap-around ([u32], [u64]).
    - A [float] is carried as its IEEE-754 binary32 bit pattern and compared
      through [SpecFloat].
    - [std::unordered_map] is [gmap]; its unspecified iteration order is the
      order of [map_to_list].
    - Calls into Vulkan, stb_image and the mesh uploader are recorded in a
      trace; what they answer is given by the platform as a function of the
      calls made so far. *)

From Stdlib Require Import ZArith Lia Floats.SpecFloat.
From stdpp Require Import gmap strings list fin_maps pretty.

Local Open Scope Z_scope.

(* ================================================================= *)
(** ** Machine integers and floats *)

Definition u16 (x : Z) : Z := x mod 2 ^ 16.
Definition u32 (x : Z) : Z := x mod 2 ^ 32.
Definition u64 (x : Z) : Z := x mod 2 ^ 64.

Definition UINT32_MAX : Z := 2 ^ 32 - 1.
Definition UINT64_MAX : Z := 2 ^ 64 - 1.

Definition is_u16 (x : Z) : Prop := 0 <= x < 2 ^ 16.
Definition is_u32 (x : Z) : Prop := 0 <= x < 2 ^ 32.
Definition is_u64 (x : Z) : Prop := 0 <= x < 2 ^ 64.

(** Decoding of a binary32 bit pattern (sign bit 31, exponent bits 30..23,
    fraction bits 22..0) into a [spec_float] in canonical form. *)
Definition f32_of_bits (b : Z) : spec_float :=
  let s := Z.testbit b 31 in
  let e := Z.land (Z.shiftr b 23) 255 in
  let m := Z.land b 8388607 in
  if e =? 0 then
    match m with
    | Zpos p => S754_finite s p (-149)
    | _ => S754_zero s
    end
  else if e =? 255 then
    (if m =? 0 then S754_infinity s else S754_nan)
  else
    match m + 8388608 with
    | Zpos p => S754_finite s p (e - 150)
    | _ => S754_nan
    end.

(** [a < b] on two binary32 values given by their bit patterns (false as
    soon as one of them is a NaN, as in C++). *)
Definition f32_lt (a b : Z) : bool := SFltb (f32_of_bits a) (f32_of_bits b).

(* ================================================================= *)
(** ** Results with a reason string *)

(** [LoadSModelFile] returns [bool] and writes the reason to [outError];
    here a failure is [inl reason]. *)
Definition Res (A : Type) : Type := string + A.

Definition res_bind {A B : Type} (k : A -> Res B) (r : Res A) : Res B :=
  match r with
  | inl e => inl e
  | inr a => k a
  end.

#[global] Instance Res_bind : MBind Res := @res_bind.
#[global] Instance Res_ret : MRet Res := fun _ a => inr a.

(** [if (bad) { outError = msg; return false; }] *)
Definition reject (bad : bool) (msg : string) : Res unit :=
  if bad then inl msg else inr tt.

Definition is_ok {A : Type} (r : Res A) : bool :=
  match r with inl _ => false | inr _ => true end.

(** [fmap] on results. *)
Definition res_map {A B : Type} (f : A -> B) (r : Res A) : Res B :=
  match r with
  | inl e => inl e
  | inr a => inr (f a)
  end.

(** A counted [for] loop whose body may return early with an error:
    [for (i = start; ...; ++i) body(i)], run [n] times. *)
Fixpoint for_from (body : Z -> Res unit) (i : Z) (n : nat) : Res unit :=
  match n with
  | O => inr tt
  | S n' =>
      match body i with
      | inl e => inl e
      | inr _ => for_from body (i + 1) n'
      end
  end.

(** [for (uint32_t i = 0; i < count; ++i) body(i)] *)
Definition for_u32 (count : Z) (body : Z -> Res unit) : Res unit :=
  for_from body 0 (Z.to_nat count).

(* ================================================================= *)
(** ** The cooked container: header and records *)

Module smodel.

(** [SModelHeader], with the fields [LoadSModelFile] reads.  The offsets and
    sizes are [uint64_t], the remaining fields [uint32_t] ([versionMajor] and
    [versionMinor] are [uint16_t]). *)
Record SModelHeader : Type := {
  magic : Z;
  versionMajor : Z;
  versionMinor : Z;
  fileSizeBytes : Z;
  flags : Z;
  meshCount : Z;
  primitiveCount : Z;
  materialCount : Z;
  textureCount : Z;
  meshesOffset : Z;
  primitivesOffset : Z;
  materialsOffset : Z;
  texturesOffset : Z;
  stringTableOffset : Z;
  blobOffset : Z;
  stringTableSize : Z;
  blobSize : Z;
  nodeCount : Z;
  nodesOffset : Z;
  nodePrimitiveIndexCount : Z;
  nodePrimitiveIndicesOffset : Z;
  nodeChildIndicesCount : Z;
  nodeChildIndicesOffset : Z;
  animClipsCount : Z;
  animClipsOffset : Z;
  animChannelsCount : Z;
  animChannelsOffset : Z;
  animSamplersCount : Z;
  animSamplersOffset : Z;
  animTimesCount : Z;
  animTimesOffset : Z;
  animValuesCount : Z;
  animValuesOffset : Z
}.

(** [SModelMeshRecord] (80 bytes). *)
Record SModelMeshRecord : Type := {
  mesh_nameStrOffset : Z;
  vertexStride : Z;
  vertexCount : Z;
  mesh_indexCount : Z;
  layoutFlags : Z;
  indexType : Z;
  vertexDataOffset : Z;
  vertexDataSize : Z;
  indexDataOffset : Z;
  indexDataSize : Z;
  aabbMin : list Z;
  aabbMax : list Z
}.

(** [SModelTextureRecord] (64 bytes). *)
Record SModelTextureRecord : Type := {
  tex_nameStrOffset : Z;
  uriStrOffset : Z;
  colorSpace : Z;
  encoding : Z;
  wrapU : Z;
  wrapV : Z;
  minFilter : Z;
  magFilter : Z;
  mipFilter : Z;
  maxAnisotropy : Z;
  imageDataOffset : Z;
  imageDataSize : Z;
  tex_reserved0 : Z;
  tex_reserved1 : Z
}.

(** [SModelMaterialRecord] (104 bytes).  The five texture indices are
    [int32_t]: a signed [Z], [-1] meaning no texture. *)
Record SModelMaterialRecord : Type := {
  mat_nameStrOffset : Z;
  baseColorFactor : list Z;
  emissiveFactor : list Z;
  metallicFactor : Z;
  roughnessFactor : Z;
  normalScale : Z;
  occlusionStrength : Z;
  alphaCutoff : Z;
  alphaMode : Z;
  doubleSided : Z;
  baseColorTexture : Z;
  normalTexture : Z;
  metallicRoughnessTexture : Z;
  occlusionTexture : Z;
  emissiveTexture : Z;
  baseColorTexCoord : Z;
  normalTexCoord : Z;
  metallicRoughnessTexCoord : Z;
  occlusionTexCoord : Z;
  emissiveTexCoord : Z;
  mat_reserved : Z
}.

(** [SModelPrimitiveRecord]: the fields the loader and [loadModel] read
    ([vertexOffset] is [int32_t]). *)
Record SModelPrimitiveRecord : Type := {
  meshIndex : Z;
  materialIndex : Z;
  firstIndex : Z;
  prim_indexCount : Z;
  vertexOffset : Z
}.

(** [SModelNodeRecord]: the fields the loader reads. *)
Record SModelNodeRecord : Type := {
  parentIndex : Z;
  firstChildIndex : Z;
  childCount : Z;
  firstPrimitiveIndex : Z;
  node_primitiveCount : Z
}.

(** [SModelAnimationClipRecord] (16 bytes); [durationSec] is a float. *)
Record SModelAnimationClipRecord : Type := {
  nameOffset : Z;
  durationSec : Z;
  firstChannel : Z;
  channelCount : Z
}.

(** [SModelAnimationChannelRecord] (8 bytes); [path] and [samplerIndex] are
    [uint16_t]. *)
Record SModelAnimationChannelRecord : Type := {
  targetNode : Z;
  path : Z;
  samplerIndex : Z
}.

(** [SModelAnimationSamplerRecord] (20 bytes); [interpolation] and
    [valueType] are [uint8_t]. *)
Record SModelAnimationSamplerRecord : Type := {
  firstTime : Z;
  timeCount : Z;
  firstValue : Z;
  valueCount : Z;
  interpolation : Z;
  valueType : Z
}.

(** [enum class SModelAnimPath : uint16_t] *)
Definition SModelAnimPath_Translation : Z := 0.
Definition SModelAnimPath_Rotation : Z := 1.
Definition SModelAnimPath_Scale : Z := 2.

(** [enum class SModelAnimInterpolation : uint8_t] *)
Definition SModelAnimInterpolation_Step : Z := 0.
Definition SModelAnimInterpolation_Linear : Z := 1.
Definition SModelAnimInterpolation_CubicSpline : Z := 2.

(** [enum class SModelAnimValueType : uint8_t] *)
Definition SModelAnimValueType_Vec3 : Z := 0.
Definition SModelAnimValueType_Quat : Z := 1.

(** [sizeof] of the record types, as the headers' [static_assert]s state. *)
Definition sizeof_SModelMeshRecord : Z := 80.
Definition sizeof_SModelMaterialRecord : Z := 104.
Definition sizeof_SModelTextureRecord : Z := 64.
Definition sizeof_SModelAnimationClipRecord : Z := 16.
Definition sizeof_SModelAnimationChannelRecord : Z := 8.
Definition sizeof_SModelAnimationSamplerRecord : Z := 20.
Definition sizeof_uint32 : Z := 4.
Definition sizeof_float : Z := 4.

(** What the sources do not fix: the declarations of the version-3 header,
    of the primitive and node records and of [isHeaderCompatible] live in
    headers that are not part of the sources.  Their sizes and the
    compatibility test are parameters of the reader. *)
Record Layout : Type := {
  sizeof_SModelHeader : Z;
  sizeof_SModelPrimitiveRecord : Z;
  sizeof_SModelNodeRecord : Z;
  isHeaderCompatible : SModelHeader -> bool
}.

(** The bytes of a file as the reader sees them.  The reader never looks at
    single bytes: it casts the start of the buffer to a header and table
    offsets to arrays of records.  [img_meshes i] is the record read at index
    [i] of the array at [meshesOffset], and so on for the other tables;
    [img_stringTable] is the byte sequence at [stringTableOffset];
    [img_stbi off len] is what [stbi_load_from_memory] makes of the [len]
    blob bytes at blob offset [off]: [None] when it returns null, else the
    decoded width and height (both [int]). *)
Record SModelImage : Type := {
  img_header : SModelHeader;
  img_meshes : Z -> SModelMeshRecord;
  img_primitives : Z -> SModelPrimitiveRecord;
  img_materials : Z -> SModelMaterialRecord;
  img_textures : Z -> SModelTextureRecord;
  img_nodes : Z -> SModelNodeRecord;
  img_nodePrimitiveIndices : Z -> Z;
  img_nodeChildIndices : Z -> Z;
  img_animClips : Z -> SModelAnimationClipRecord;
  img_animChannels : Z -> SModelAnimationChannelRecord;
  img_animSamplers : Z -> SModelAnimationSamplerRecord;
  img_animTimes : Z -> Z;
  img_animValues : Z -> Z;
  img_stringTable : list Z;
  img_stbi : Z -> Z -> option (Z * Z)
}.

(** A file on disk: [tellg] after opening at the end (a signed 64-bit
    [std::streamsize]), whether [read] delivers the bytes, and the bytes. *)
Record DiskFile : Type := {
  df_tellg : Z;
  df_read_ok : bool;
  df_image : SModelImage
}.

(** The file system: [None] when the file cannot be opened. *)
Definition FileSystem : Type := string -> option DiskFile.

(** [SModelFileView]: the owned bytes and the typed pointers into them.  A
    pointer is [None] when null, else the byte offset from the start of the
    buffer. *)
Record SModelFileView : Type := {
  fileBytes : SModelImage;
  fileBytes_size : Z;
  header : SModelHeader;
  meshes : option Z;
  primitives : option Z;
  materials : option Z;
  textures : option Z;
  nodes : option Z;
  nodePrimitiveIndices : option Z;
  nodeChildIndices : option Z;
  stringTable : option Z;
  blob : option Z;
  animClips : option Z;
  animChannels : option Z;
  animSamplers : option Z;
  animTimes : option Z;
  animValues : option Z
}.

(* ----------------------------------------------------------------- *)
(** *** Local helpers *)

(** [isRangeInsideFile]: the three comparisons of the source, the sum being
    a [uint64_t] sum. *)
Definition isRangeInsideFile (begin size fileSize : Z) : bool :=
  if fileSize <? begin then false
  else if fileSize <? size then false
  else if fileSize <? u64 (begin + size) then false
  else true.

(** [tableRangeValid<T>]: [bytes = count * sizeof(T)] in [uint64_t]. *)
Definition tableRangeValid (sizeofT tableOffset count fileSize : Z) : Res unit :=
  let bytes := u64 (count * sizeofT) in
  if isRangeInsideFile tableOffset bytes fileSize then inr tt
  else inl ("Table out of file bounds. offset=" +:+ pretty tableOffset
            +:+ " bytes=" +:+ pretty bytes
            +:+ " fileSize=" +:+ pretty fileSize).

(** [ptrAt<T>]: null for an empty table, else the pointer when the table is
    in range.  The caller tests [outError.empty()] right after the call;
    [outError] is empty before it and [tableRangeValid] writes a non-empty
    reason, so that test is the [inl] case here. *)
Definition ptrAt (sizeofT fileSize offset count : Z) : Res (option Z) :=
  if count =? 0 then inr None
  else
    match tableRangeValid sizeofT offset count fileSize with
    | inl e => inl e
    | inr _ => inr (Some offset)
    end.

(** The bytes of a C string: up to the first zero byte. *)
Fixpoint c_str (bytes : list Z) : list Z :=
  match bytes with
  | [] => []
  | b :: rest => if b =? 0 then [] else b :: c_str rest
  end.

(** [SModelFileView::getStringOrEmpty] (the header pointer of a view is
    never null here). *)
Definition getStringOrEmpty (v : SModelFileView) (strOffset : Z) : list Z :=
  match stringTable v with
  | None => []
  | Some _ =>
      if strOffset =? 0 then []
      else if stringTableSize (header v) <=? strOffset then []
      else
        let maxRemaining := stringTableSize (header v) - strOffset in
        let s := take (Z.to_nat maxRemaining)
                      (drop (Z.to_nat strOffset) (img_stringTable (fileBytes v))) in
        if existsb (Z.eqb 0) s then c_str s else []
  end.

(* ----------------------------------------------------------------- *)
(** *** [LoadSModelFile], stage by stage *)

(** Reading the file and the header checks. *)
Definition read_and_check_header (L : Layout) (fs : FileSystem) (path : string)
  : Res (Z * SModelImage) :=
  match fs path with
  | None => inl ("Failed to open file: " +:+ path)
  | Some f =>
      let fileSize := df_tellg f in
      reject (fileSize <=? 0) ("File is empty: " +:+ path);;
      reject (negb (df_read_ok f)) ("Failed to read file bytes: " +:+ path);;
      let uFileSize := fileSize in
      reject (uFileSize <? sizeof_SModelHeader L)
             "File too small to contain SModelHeader.";;
      let h := img_header (df_image f) in
      reject (negb (isHeaderCompatible L h))
             "SModel header incompatible (bad magic or unsupported version).";;
      reject (negb (fileSizeBytes h =? 0) && negb (fileSizeBytes h =? uFileSize))
             "SModel header fileSizeBytes does not match actual file size.";;
      mret (uFileSize, df_image f)
  end.

(** "Validate section bounds". *)
Definition validate_section_bounds (L : Layout) (h : SModelHeader) (uFileSize : Z)
  : Res unit :=
  reject (negb (isRangeInsideFile (stringTableOffset h) (stringTableSize h) uFileSize))
         "String table out of bounds.";;
  reject (negb (isRangeInsideFile (blobOffset h) (blobSize h) uFileSize))
         "Blob section out of bounds.";;
  tableRangeValid sizeof_SModelMeshRecord (meshesOffset h) (meshCount h) uFileSize;;
  tableRangeValid (sizeof_SModelPrimitiveRecord L) (primitivesOffset h) (primitiveCount h) uFileSize;;
  tableRangeValid sizeof_SModelMaterialRecord (materialsOffset h) (materialCount h) uFileSize;;
  tableRangeValid sizeof_SModelTextureRecord (texturesOffset h) (textureCount h) uFileSize;;
  (if 0 <? nodeCount h
   then tableRangeValid (sizeof_SModelNodeRecord L) (nodesOffset h) (nodeCount h) uFileSize
   else inr tt);;
  (if 0 <? nodePrimitiveIndexCount h
   then
     let bytes := u64 (nodePrimitiveIndexCount h * sizeof_uint32) in
     reject (negb (isRangeInsideFile (nodePrimitiveIndicesOffset h) bytes uFileSize))
            "NodePrimitiveIndices table out of file bounds."
   else inr tt);;
  (if 0 <? nodeChildIndicesCount h
   then
     let bytes := u64 (nodeChildIndicesCount h * sizeof_uint32) in
     reject (negb (isRangeInsideFile (nodeChildIndicesOffset h) bytes uFileSize))
            "NodeChildIndices table out of file bounds."
   else inr tt);;
  (if 0 <? animClipsCount h
   then tableRangeValid sizeof_SModelAnimationClipRecord (animClipsOffset h) (animClipsCount h) uFileSize
   else inr tt);;
  (if 0 <? animChannelsCount h
   then tableRangeValid sizeof_SModelAnimationChannelRecord (animChannelsOffset h) (animChannelsCount h) uFileSize
   else inr tt);;
  (if 0 <? animSamplersCount h
   then tableRangeValid sizeof_SModelAnimationSamplerRecord (animSamplersOffset h) (animSamplersCount h) uFileSize
   else inr tt);;
  (if 0 <? animTimesCount h
   then tableRangeValid sizeof_float (animTimesOffset h) (animTimesCount h) uFileSize
   else inr tt);;
  (if 0 <? animValuesCount h
   then tableRangeValid sizeof_float (animValuesOffset h) (animValuesCount h) uFileSize
   else inr tt).

(** "Build pointers/views". *)
Definition build_view (img : SModelImage) (uFileSize : Z) : Res SModelFileView :=
  let h := img_header img in
  clips ← ptrAt sizeof_SModelAnimationClipRecord uFileSize (animClipsOffset h) (animClipsCount h);
  channels ← ptrAt sizeof_SModelAnimationChannelRecord uFileSize (animChannelsOffset h) (animChannelsCount h);
  samplers ← ptrAt sizeof_SModelAnimationSamplerRecord uFileSize (animSamplersOffset h) (animSamplersCount h);
  times ← ptrAt sizeof_float uFileSize (animTimesOffset h) (animTimesCount h);
  values ← ptrAt sizeof_float uFileSize (animValuesOffset h) (animValuesCount h);
  mret {| fileBytes := img;
          fileBytes_size := uFileSize;
          header := h;
          meshes := Some (meshesOffset h);
          primitives := Some (primitivesOffset h);
          materials := Some (materialsOffset h);
          textures := Some (texturesOffset h);
          nodes := if 0 <? nodeCount h then Some (nodesOffset h) else None;
          nodePrimitiveIndices :=
            if 0 <? nodePrimitiveIndexCount h
            then Some (nodePrimitiveIndicesOffset h) else None;
          nodeChildIndices :=
            if 0 <? nodeChildIndicesCount h
            then Some (nodeChildIndicesOffset h) else None;
          stringTable := Some (stringTableOffset h);
          blob := Some (blobOffset h);
          animClips := clips;
          animChannels := channels;
          animSamplers := samplers;
          animTimes := times;
          animValues := values |}.

(** "Validate mesh VB/IB slices": the body of the loop, for mesh [i].  The
    two sums are [uint64_t] sums. *)
Definition validate_mesh (v : SModelFileView) (i : Z) : Res unit :=
  let m := img_meshes (fileBytes v) i in
  let blobSize := blobSize (header v) in
  reject (blobSize <? u64 (vertexDataOffset m + vertexDataSize m))
         ("Mesh vertex data slice out of blob bounds (meshIndex=" +:+ pretty i +:+ ")");;
  reject (blobSize <? u64 (indexDataOffset m + indexDataSize m))
         ("Mesh index data slice out of blob bounds (meshIndex=" +:+ pretty i +:+ ")");;
  reject ((vertexCount m =? 0) || (vertexStride m =? 0))
         ("Mesh has invalid vertexCount/vertexStride (meshIndex=" +:+ pretty i +:+ ")");;
  let expectedVBSize := u64 (vertexCount m * vertexStride m) in
  reject (negb (vertexDataSize m =? expectedVBSize))
         ("Mesh vertexDataSize mismatch (meshIndex=" +:+ pretty i +:+ ")").

(** "Validate texture image slices", for texture [i]. *)
Definition validate_texture (v : SModelFileView) (i : Z) : Res unit :=
  let t := img_textures (fileBytes v) i in
  let blobSize := blobSize (header v) in
  reject (blobSize <? u64 (imageDataOffset t + imageDataSize t))
         ("Texture image data slice out of blob bounds (textureIndex=" +:+ pretty i +:+ ")").

(** "Validate primitive references", for primitive [i]. *)
Definition validate_primitive (v : SModelFileView) (i : Z) : Res unit :=
  let p := img_primitives (fileBytes v) i in
  reject (meshCount (header v) <=? meshIndex p)
         ("Primitive references invalid meshIndex (primitiveIndex=" +:+ pretty i +:+ ")");;
  reject (materialCount (header v) <=? materialIndex p)
         ("Primitive references invalid materialIndex (primitiveIndex=" +:+ pretty i +:+ ")").

(** The lambda [checkTex] of the material loop. *)
Definition checkTex (v : SModelFileView) (i : Z) (texIndex : Z) (fieldName : string)
  : Res unit :=
  if texIndex <? 0 then inr tt
  else
    reject (textureCount (header v) <=? u32 texIndex)
           ("Material references invalid texture index (materialIndex=" +:+ pretty i
            +:+ ", field=" +:+ fieldName +:+ ")").

(** "Validate material texture indices", for material [i]. *)
Definition validate_material (v : SModelFileView) (i : Z) : Res unit :=
  let mat := img_materials (fileBytes v) i in
  checkTex v i (baseColorTexture mat) "baseColorTexture";;
  checkTex v i (normalTexture mat) "normalTexture";;
  checkTex v i (metallicRoughnessTexture mat) "metallicRoughnessTexture";;
  checkTex v i (occlusionTexture mat) "occlusionTexture";;
  checkTex v i (emissiveTexture mat) "emissiveTexture".

(** "V2: validate node graph", for node [ni].  Index sums are [uint32_t]
    sums. *)
Definition validate_node (v : SModelFileView) (ni : Z) : Res unit :=
  let nodeCount := nodeCount (header v) in
  let idxCount := nodePrimitiveIndexCount (header v) in
  let childIdxCount := nodeChildIndicesCount (header v) in
  let primCount := primitiveCount (header v) in
  let nr := img_nodes (fileBytes v) ni in
  reject (negb (parentIndex nr =? UINT32_MAX) && (nodeCount <=? parentIndex nr))
         "Node parentIndex out of bounds";;
  (if 0 <? childCount nr
   then
     reject (bool_decide (nodeChildIndices v = None))
            "Node has children but nodeChildIndices table is missing";;
     reject (firstChildIndex nr =? UINT32_MAX)
            "Node has children but firstChildIndex == UINT32_MAX";;
     reject (childIdxCount <? u32 (firstChildIndex nr + childCount nr))
            "Node child index range out of bounds";;
     for_u32 (childCount nr) (fun k =>
       let c := img_nodeChildIndices (fileBytes v) (u32 (firstChildIndex nr + k)) in
       reject (nodeCount <=? c) "Node references invalid child node index";;
       reject (negb (parentIndex (img_nodes (fileBytes v) c) =? ni))
              "Node child parentIndex mismatch")
   else inr tt);;
  (if 0 <? node_primitiveCount nr
   then
     reject (idxCount <? u32 (firstPrimitiveIndex nr + node_primitiveCount nr))
            "Node primitive index range out of bounds";;
     for_u32 (node_primitiveCount nr) (fun k =>
       let pidx :=
         img_nodePrimitiveIndices (fileBytes v) (u32 (firstPrimitiveIndex nr + k)) in
       reject (primCount <=? pidx) "Node references invalid primitive index")
   else inr tt).

(** The null checks on the animation pointers. *)
Definition check_anim_pointers (v : SModelFileView) : Res unit :=
  let h := header v in
  reject ((0 <? animClipsCount h) && bool_decide (animClips v = None))
         "animClipsCount > 0 but animClips pointer is null";;
  reject ((0 <? animChannelsCount h) && bool_decide (animChannels v = None))
         "animChannelsCount > 0 but animChannels pointer is null";;
  reject ((0 <? animSamplersCount h) && bool_decide (animSamplers v = None))
         "animSamplersCount > 0 but animSamplers pointer is null";;
  reject ((0 <? animTimesCount h) && bool_decide (animTimes v = None))
         "animTimesCount > 0 but animTimes pointer is null";;
  reject ((0 <? animValuesCount h) && bool_decide (animValues v = None))
         "animValuesCount > 0 but animValues pointer is null".

Definition isValidPath (p : Z) : bool :=
  (p =? SModelAnimPath_Translation) || (p =? SModelAnimPath_Rotation)
  || (p =? SModelAnimPath_Scale).

Definition isValidInterpolation (interp : Z) : bool :=
  (interp =? SModelAnimInterpolation_Step) || (interp =? SModelAnimInterpolation_Linear)
  || (interp =? SModelAnimInterpolation_CubicSpline).

Definition isValidValueType (vt : Z) : bool :=
  (vt =? SModelAnimValueType_Vec3) || (vt =? SModelAnimValueType_Quat).

(** "Validate clips", for clip [ci]. *)
Definition validate_clip (v : SModelFileView) (ci : Z) : Res unit :=
  let clip := img_animClips (fileBytes v) ci in
  reject (f32_lt (durationSec clip) 0) "Animation clip durationSec < 0";;
  reject (animChannelsCount (header v) <? u32 (firstChannel clip + channelCount clip))
         "Animation clip channel range out of bounds".

(** "Validate channels", for channel [ch]. *)
Definition validate_channel (v : SModelFileView) (ch : Z) : Res unit :=
  let chan := img_animChannels (fileBytes v) ch in
  reject (nodeCount (header v) <=? targetNode chan)
         "Animation channel targetNode out of bounds";;
  reject (animSamplersCount (header v) <=? samplerIndex chan)
         "Animation channel samplerIndex out of bounds";;
  reject (negb (isValidPath (path chan))) "Animation channel path is invalid".

(** The checks on sampler [si] that come before its times are compared. *)
Definition validate_sampler_ranges (v : SModelFileView) (si : Z) : Res unit :=
  let s := img_animSamplers (fileBytes v) si in
  let timesCount := animTimesCount (header v) in
  let valuesCount := animValuesCount (header v) in
  reject (timeCount s <? 1) "Animation sampler timeCount < 1";;
  reject (timesCount <? u32 (firstTime s + timeCount s))
         "Animation sampler time range out of bounds";;
  reject (valuesCount <? u32 (firstValue s + valueCount s))
         "Animation sampler value range out of bounds";;
  reject (negb (isValidInterpolation (interpolation s)))
         "Animation sampler interpolation is invalid";;
  reject (negb (isValidValueType (valueType s)))
         "Animation sampler valueType is invalid";;
  let expected :=
    if valueType s =? SModelAnimValueType_Vec3
    then u64 (timeCount s * 3) else u64 (timeCount s * 4) in
  reject (negb (valueCount s =? expected))
         "Animation sampler valueCount does not match timeCount * valueWidth".

Definition times_not_nondecreasing : string :=
  "Animation sampler times are not non-decreasing".

(** [times[ti] < times[ti - 1]] with [times = animTimes + firstTime]. *)
Definition time_decreases (v : SModelFileView) (s : SModelAnimationSamplerRecord)
    (ti : Z) : bool :=
  f32_lt (img_animTimes (fileBytes v) (firstTime s + ti))
         (img_animTimes (fileBytes v) (firstTime s + (ti - 1))).

(** [for (uint32_t ti = 1; ti < s.timeCount; ++ti)] *)
Definition validate_sampler_times (v : SModelFileView) (si : Z) : Res unit :=
  let s := img_animSamplers (fileBytes v) si in
  for_from (fun ti => reject (time_decreases v s ti) times_not_nondecreasing)
           1 (Z.to_nat (timeCount s - 1)).

(** "Validate samplers", for sampler [si]. *)
Definition validate_sampler (v : SModelFileView) (si : Z) : Res unit :=
  validate_sampler_ranges v si;;
  validate_sampler_times v si.

(** Everything [LoadSModelFile] does before the sampler loop. *)
Definition LoadSModelFile_before_samplers (L : Layout) (fs : FileSystem) (path : string)
  : Res SModelFileView :=
  '(uFileSize, img) ← read_and_check_header L fs path;
  validate_section_bounds L (img_header img) uFileSize;;
  v ← build_view img uFileSize;
  for_u32 (meshCount (header v)) (validate_mesh v);;
  for_u32 (textureCount (header v)) (validate_texture v);;
  for_u32 (primitiveCount (header v)) (validate_primitive v);;
  for_u32 (materialCount (header v)) (validate_material v);;
  (if 0 <? nodeCount (header v)
   then for_u32 (nodeCount (header v)) (validate_node v)
   else inr tt);;
  check_anim_pointers v;;
  for_u32 (animClipsCount (header v)) (validate_clip v);;
  for_u32 (animChannelsCount (header v)) (validate_channel v);;
  mret v.

(** [LoadSModelFile]: [inr view] is [return true] with [outView] filled,
    [inl reason] is [return false] with [outError = reason]. *)
Definition LoadSModelFile (L : Layout) (fs : FileSystem) (path : string)
  : Res SModelFileView :=
  v ← LoadSModelFile_before_samplers L fs path;
  for_u32 (animSamplersCount (header v)) (validate_sampler v);;
  mret v.

End smodel.

(* ================================================================= *)
(** ** Vulkan-side vocabulary *)

Inductive VkSamplerAddressMode : Type :=
| VK_SAMPLER_ADDRESS_MODE_REPEAT
| VK_SAMPLER_ADDRESS_MODE_CLAMP_TO_EDGE
| VK_SAMPLER_ADDRESS_MODE_MIRRORED_REPEAT.

Inductive VkFilter : Type :=
| VK_FILTER_NEAREST
| VK_FILTER_LINEAR.

Inductive VkSamplerMipmapMode : Type :=
| VK_SAMPLER_MIPMAP_MODE_NEAREST
| VK_SAMPLER_MIPMAP_MODE_LINEAR.

Inductive VkFormat : Type :=
| VK_FORMAT_R8G8B8A8_UNORM
| VK_FORMAT_R8G8B8A8_SRGB.

Inductive VkImageLayout : Type :=
| VK_IMAGE_LAYOUT_UNDEFINED
| VK_IMAGE_LAYOUT_TRANSFER_DST_OPTIMAL
| VK_IMAGE_LAYOUT_SHADER_READ_ONLY_OPTIMAL.

(** [toVkWrap]: 0=Repeat, 1=Clamp, 2=Mirror, [default] falls into case 0. *)
Definition toVkWrap (wrap : Z) : VkSamplerAddressMode :=
  if wrap =? 1 then VK_SAMPLER_ADDRESS_MODE_CLAMP_TO_EDGE
  else if wrap =? 2 then VK_SAMPLER_ADDRESS_MODE_MIRRORED_REPEAT
  else VK_SAMPLER_ADDRESS_MODE_REPEAT.

(** [toVkFilter]: 0=Nearest, 1=Linear, [default] falls into case 0. *)
Definition toVkFilter (f : Z) : VkFilter :=
  if f =? 1 then VK_FILTER_LINEAR else VK_FILTER_NEAREST.

(** [toVkMip]: 0=None, 1=Nearest, 2=Linear, [default] falls into case 0. *)
Definition toVkMip (m : Z) : VkSamplerMipmapMode :=
  if m =? 1 then VK_SAMPLER_MIPMAP_MODE_NEAREST
  else if m =? 2 then VK_SAMPLER_MIPMAP_MODE_LINEAR
  else VK_SAMPLER_MIPMAP_MODE_NEAREST.

(** The payload handed to [MeshAsset::upload].  A byte vector copied out of
    a file is named by where it was copied from: offset and length. *)
Record MeshData : Type := {
  md_vertexCount : Z;
  md_indexCount : Z;
  md_vertexStride : Z;
  md_indexFormat : Z;
  md_aabbMin : list Z;
  md_aabbMax : list Z;
  md_vertexBytes : Z * Z;
  md_indices16 : option (Z * Z);
  md_indices32 : option (Z * Z)
}.

(** The calls that leave the asset layer. *)
Inductive GpuCall : Type :=
| vkCreateCommandPool
| vkDestroyCommandPool
| BeginUploadContext_call
| EndSubmitAndWait_call
| CreateStagingBuffer (pixelBytes : Z)
| CreateImage2D (width height : Z) (format : VkFormat) (mipLevels : Z)
| CmdTransitionImageLayout (oldLayout newLayout : VkImageLayout)
| CmdCopyBufferToImage (width height : Z)
| CmdGenerateMipmaps (format : VkFormat) (width height mipLevels : Z)
| CreateImageView2D (format : VkFormat) (mipLevels : Z)
| CreateTextureSampler (wrapU wrapV : VkSamplerAddressMode)
    (minFilter magFilter : VkFilter) (mipMode : VkSamplerMipmapMode)
    (maxAnisotropy : Z) (maxLod : Z)
| vkDestroySampler
| vkDestroyImageView
| vkDestroyImage
| vkFreeMemory
| MeshAsset_upload (data : MeshData)
| MeshAsset_destroy.

(** The four resource kinds. *)
Inductive Kind : Type := KMesh | KTexture | KMaterial | KModel.

#[global] Instance Kind_eq_dec : EqDecision Kind.
Proof. solve_decision. Defined.

(** One entry of the trace: a call with what it answered ([true] for
    [VK_SUCCESS] or [true]; a [void] call is logged with [true]), or the
    registration of identifier [id] in the registry of kind [k].  A trace
    lists its entries newest first. *)
Inductive Event : Type :=
| Gpu (c : GpuCall) (ok : bool)
| Registered (k : Kind) (id : Z).

Definition Trace : Type := list Event.

(** The world outside the asset manager. *)
Record Platform : Type := {
  layout : smodel.Layout;
  files : smodel.FileSystem;
  (** [LoadSMeshV0FromFile]: [None] when it returns false. *)
  smesh_files : string -> option MeshData;
  (** What a call answers, given everything logged before it. *)
  respond : Trace -> GpuCall -> bool
}.

(** A call whose answer is looked at. *)
Definition call (P : Platform) (c : GpuCall) (t : Trace) : bool * Trace :=
  let ok := respond P t c in (ok, Gpu c ok :: t).

(** A [void] call. *)
Definition call_void (c : GpuCall) (t : Trace) : Trace := Gpu c true :: t.

(* ================================================================= *)
(** ** The upload transaction and [TextureAsset] *)

(** [UploadContext]: of its fields the texture path reads [begun] and [cmd]
    ([true] when not [VK_NULL_HANDLE]) and appends to [pendingStaging]
    (kept here as the payload sizes of the staging buffers). *)
Record UploadContext : Type := {
  begun : bool;
  cmd : bool;
  pendingStaging : list Z
}.

(** Modelled from the spec: [BeginUploadContext] is not part of the sources.
    "begin(device-context) opens a recording scope bound to a transient
    command-recording resource; it fails if the underlying command resource
    cannot be created". *)
Definition BeginUploadContext (P : Platform) (t : Trace) : bool * UploadContext * Trace :=
  let '(ok, t1) := call P BeginUploadContext_call t in
  (ok, {| begun := ok; cmd := ok; pendingStaging := [] |}, t1).

(** Modelled from the spec: [EndSubmitAndWait] is not part of the sources.
    "end() submits all recorded work on the transaction's queue and blocks
    the calling context until execution completes, then releases every
    staging buffer collected during the scope". *)
Definition EndSubmitAndWait (P : Platform) (ctx : UploadContext) (t : Trace)
  : bool * UploadContext * Trace :=
  let '(ok, t1) := call P EndSubmitAndWait_call t in
  (ok, {| begun := false; cmd := cmd ctx; pendingStaging := [] |}, t1).

(** [TextureAsset]: a Vulkan handle is [true] when not [VK_NULL_HANDLE]. *)
Record TextureAsset : Type := {
  m_image : bool;
  m_memory : bool;
  m_view : bool;
  m_sampler : bool;
  m_width : Z;
  m_height : Z;
  m_mipLevels : Z;
  m_format : VkFormat
}.

(** The default member initialisers. *)
Definition TextureAsset_new : TextureAsset :=
  {| m_image := false; m_memory := false; m_view := false; m_sampler := false;
     m_width := 0; m_height := 0; m_mipLevels := 1;
     m_format := VK_FORMAT_R8G8B8A8_UNORM |}.

Definition TextureAsset_isValid (a : TextureAsset) : bool := m_image a.

(** [TextureAsset::destroy]. *)
Definition TextureAsset_destroy (a : TextureAsset) (t : Trace) : TextureAsset * Trace :=
  let t1 := if m_sampler a then call_void vkDestroySampler t else t in
  let t2 := if m_view a then call_void vkDestroyImageView t1 else t1 in
  let t3 := if m_image a then call_void vkDestroyImage t2 else t2 in
  let t4 := if m_memory a then call_void vkFreeMemory t3 else t3 in
  (TextureAsset_new, t4).

(** [calcMipLevels]: [floor(log2(maxDim)) + 1], which for an integer
    [maxDim >= 1] is [Z.log2 maxDim + 1]. *)
Definition calcMipLevels (width height : Z) : Z :=
  let maxDim := Z.max width height in
  if maxDim =? 0 then 1 else u32 (Z.log2 maxDim + 1).

(** [static_cast<int>] of a [size_t] and [static_cast<int32_t>] of a
    [uint32_t]: the low 32 bits, read as a signed number. *)
Definition to_int (x : Z) : Z := (x + 2 ^ 31) mod 2 ^ 32 - 2 ^ 31.

(** [TextureAsset::uploadRGBA8_Deferred] (the version with mip levels).
    [rgbaPixels] is [true] for a non-null pointer.  Returns the [bool] of
    the source together with the asset, the context and the trace as the
    call leaves them. *)
Definition uploadRGBA8_Deferred (P : Platform) (ctx : UploadContext)
    (a : TextureAsset) (rgbaPixels : bool) (width height : Z) (srgbFormat : bool)
    (wrapU wrapV : VkSamplerAddressMode) (minFilter magFilter : VkFilter)
    (mipMode : VkSamplerMipmapMode) (maxAnisotropy : Z) (t : Trace)
  : bool * TextureAsset * UploadContext * Trace :=
  if negb (begun ctx) || negb (cmd ctx) then (false, a, ctx, t)
  else if negb rgbaPixels || (width =? 0) || (height =? 0) then (false, a, ctx, t)
  else
    let '(a0, t0) :=
      if TextureAsset_isValid a then TextureAsset_destroy a t else (a, t) in
    let mips := calcMipLevels width height in
    let fmt := if srgbFormat then VK_FORMAT_R8G8B8A8_SRGB else VK_FORMAT_R8G8B8A8_UNORM in
    let a1 := {| m_image := m_image a0; m_memory := m_memory a0;
                 m_view := m_view a0; m_sampler := m_sampler a0;
                 m_width := width; m_height := height;
                 m_mipLevels := mips; m_format := fmt |} in
    let pixelBytes := u64 (u64 (width * height) * 4) in
    let '(r1, t1) := call P (CreateStagingBuffer pixelBytes) t0 in
    if negb r1 then (false, a1, ctx, t1)
    else
      let ctx1 := {| begun := begun ctx; cmd := cmd ctx;
                     pendingStaging := pendingStaging ctx ++ [pixelBytes] |} in
      let '(r2, t2) := call P (CreateImage2D width height fmt mips) t1 in
      if negb r2 then (false, a1, ctx1, t2)
      else
        let a2 := {| m_image := true; m_memory := true;
                     m_view := m_view a1; m_sampler := m_sampler a1;
                     m_width := width; m_height := height;
                     m_mipLevels := mips; m_format := fmt |} in
        let t3 := call_void (CmdTransitionImageLayout VK_IMAGE_LAYOUT_UNDEFINED
                               VK_IMAGE_LAYOUT_TRANSFER_DST_OPTIMAL) t2 in
        let t4 := call_void (CmdCopyBufferToImage width height) t3 in
        let '(mips', t5) :=
          if 1 <? mips then
            let '(okMips, t4') :=
              call P (CmdGenerateMipmaps fmt (to_int width) (to_int height) mips) t4 in
            if negb okMips then
              (1, call_void (CmdTransitionImageLayout VK_IMAGE_LAYOUT_TRANSFER_DST_OPTIMAL
                               VK_IMAGE_LAYOUT_SHADER_READ_ONLY_OPTIMAL) t4')
            else (mips, t4')
          else
            (mips, call_void (CmdTransitionImageLayout VK_IMAGE_LAYOUT_TRANSFER_DST_OPTIMAL
                                VK_IMAGE_LAYOUT_SHADER_READ_ONLY_OPTIMAL) t4) in
        let a3 := {| m_image := true; m_memory := true;
                     m_view := m_view a2; m_sampler := m_sampler a2;
                     m_width := width; m_height := height;
                     m_mipLevels := mips'; m_format := fmt |} in
        let '(r6, t6) := call P (CreateImageView2D fmt mips') t5 in
        if negb r6 then (false, a3, ctx1, t6)
        else
          let a4 := {| m_image := true; m_memory := true;
                       m_view := true; m_sampler := m_sampler a3;
                       m_width := width; m_height := height;
                       m_mipLevels := mips'; m_format := fmt |} in
          let maxLod := if 0 <? mips' then mips' - 1 else 0 in
          let '(r7, t7) :=
            call P (CreateTextureSampler wrapU wrapV minFilter magFilter mipMode
                      maxAnisotropy maxLod) t6 in
          if negb r7 then (false, a4, ctx1, t7)
          else
            (true,
             {| m_image := true; m_memory := true; m_view := true; m_sampler := true;
                m_width := width; m_height := height;
                m_mipLevels := mips'; m_format := fmt |},
             ctx1, t7).

(** [TextureAsset::uploadEncodedImage_Deferred].  The encoded bytes are the
    [encodedSize] bytes at blob offset [encodedOffset] of [img]; the pointer
    [view.blob + offset] itself is never null. *)
Definition uploadEncodedImage_Deferred (P : Platform) (ctx : UploadContext)
    (a : TextureAsset) (img : smodel.SModelImage) (encodedOffset encodedSize : Z)
    (srgbFormat : bool) (wrapU wrapV : VkSamplerAddressMode)
    (minFilter magFilter : VkFilter) (mipMode : VkSamplerMipmapMode)
    (maxAnisotropy : Z) (t : Trace)
  : bool * TextureAsset * UploadContext * Trace :=
  if encodedSize =? 0 then (false, a, ctx, t)
  else
    match smodel.img_stbi img encodedOffset (to_int encodedSize) with
    | None => (false, a, ctx, t)
    | Some (w, h) =>
        if (w <=? 0) || (h <=? 0) then (false, a, ctx, t)
        else
          uploadRGBA8_Deferred P ctx a true (u32 w) (u32 h) srgbFormat
            wrapU wrapV minFilter magFilter mipMode maxAnisotropy t
    end.

(* ================================================================= *)
(** ** Handles, assets and registry entries *)

(** Modelled from the spec: [Handles.h] is not part of the sources.  "Handle
    {identifier, generation} -- opaque, per resource kind"; a
    default-constructed handle is the invalid handle.  The four handle types
    have this one shape; [id] is [uint64_t]. *)
Record Handle : Type := {
  id : Z;
  h_generation : Z
}.

Abbreviation MeshHandle := Handle.
Abbreviation TextureHandle := Handle.
Abbreviation MaterialHandle := Handle.
Abbreviation ModelHandle := Handle.

(** [MeshHandle{}] and its siblings. *)
Definition Handle_default : Handle := {| id := 0; h_generation := 0 |}.

(** Modelled from the spec: [isValid] of a handle (in [Handles.h]) tells the
    invalid handle from the handles a registry returns; identifiers are
    counted from 1, the invalid handle carries 0. *)
Definition isValid (h : Handle) : bool := negb (id h =? 0).

#[global] Instance Handle_eq_dec : EqDecision Handle.
Proof. solve_decision. Defined.

(** [MeshAsset]: its [upload] is not part of the sources; the asset is
    known by the payload it was uploaded from. *)
Record MeshAsset : Type := {
  uploaded : MeshData
}.

(** [MaterialAsset]; [debugName] holds the bytes of the C string. *)
Record MaterialAsset : Type := {
  baseColorFactor : list Z;
  emissiveFactor : list Z;
  metallicFactor : Z;
  roughnessFactor : Z;
  normalScale : Z;
  occlusionStrength : Z;
  alphaCutoff : Z;
  alphaMode : Z;
  doubleSided : Z;
  baseColorTexture : TextureHandle;
  normalTexture : TextureHandle;
  metallicRoughnessTexture : TextureHandle;
  occlusionTexture : TextureHandle;
  emissiveTexture : TextureHandle;
  baseColorTexCoord : Z;
  normalTexCoord : Z;
  metallicRoughnessTexCoord : Z;
  occlusionTexCoord : Z;
  emissiveTexCoord : Z;
  mat_debugName : list Z
}.

(** [ModelPrimitive]. *)
Record ModelPrimitive : Type := {
  mesh : MeshHandle;
  material : MaterialHandle;
  firstIndex : Z;
  indexCount : Z;
  vertexOffset : Z
}.

Definition ModelPrimitive_default : ModelPrimitive :=
  {| mesh := Handle_default; material := Handle_default;
     firstIndex := 0; indexCount := 0; vertexOffset := 0 |}.

(** [ModelAsset]. *)
Record ModelAsset : Type := {
  model_primitives : list ModelPrimitive;
  model_debugName : list Z
}.

(** The registry entries.  Their declarations ([AssetManager.h]) are not
    part of the sources; the fields are those the manager uses.  [asset] is a
    [std::unique_ptr] ([None] when null); [refCount] is 32 bits wide, as the
    [uint32_t initialRef] it is initialised from. *)
Record MeshEntry : Type := {
  mesh_asset : option MeshAsset;
  mesh_generation : Z;
  mesh_refCount : Z;
  mesh_path : string
}.

Record TextureEntry : Type := {
  texture_asset : option TextureAsset;
  texture_generation : Z;
  texture_refCount : Z
}.

Record MaterialEntry : Type := {
  material_asset : option MaterialAsset;
  material_generation : Z;
  material_refCount : Z;
  textureDeps : list TextureHandle
}.

Record ModelEntry : Type := {
  model_asset : option ModelAsset;
  model_generation : Z;
  model_refCount : Z;
  model_path : string;
  meshDeps : list MeshHandle;
  materialDeps : list MaterialHandle
}.

(** What [get], [addRef] and [release] use of an entry, whatever its kind.
    The source writes the three functions out once per kind, with the same
    body; here the body is written once over this interface. *)
Class RegistryEntry (E A : Type) : Type := {
  asset : E -> option A;
  generation : E -> Z;
  refCount : E -> Z;
  with_refCount : Z -> E -> E;
  generation_with_refCount : forall n e, generation (with_refCount n e) = generation e;
  refCount_with_refCount : forall n e, refCount (with_refCount n e) = n;
  asset_with_refCount : forall n e, asset (with_refCount n e) = asset e;
  with_refCount_same : forall e, with_refCount (refCount e) e = e;
  with_refCount_twice : forall n k e, with_refCount n (with_refCount k e) = with_refCount n e
}.

#[global, refine] Instance MeshEntry_entry : RegistryEntry MeshEntry MeshAsset := {|
  asset := mesh_asset;
  generation := mesh_generation;
  refCount := mesh_refCount;
  with_refCount n e :=
    {| mesh_asset := mesh_asset e; mesh_generation := mesh_generation e;
       mesh_refCount := n; mesh_path := mesh_path e |}
|}.
Proof. all: try reflexivity. intros []; reflexivity. Defined.

#[global, refine] Instance TextureEntry_entry : RegistryEntry TextureEntry TextureAsset := {|
  asset := texture_asset;
  generation := texture_generation;
  refCount := texture_refCount;
  with_refCount n e :=
    {| texture_asset := texture_asset e; texture_generation := texture_generation e;
       texture_refCount := n |}
|}.
Proof. all: try reflexivity. intros []; reflexivity. Defined.

#[global, refine] Instance MaterialEntry_entry : RegistryEntry MaterialEntry MaterialAsset := {|
  asset := material_asset;
  generation := material_generation;
  refCount := material_refCount;
  with_refCount n e :=
    {| material_asset := material_asset e; material_generation := material_generation e;
       material_refCount := n; textureDeps := textureDeps e |}
|}.
Proof. all: try reflexivity. intros []; reflexivity. Defined.

#[global, refine] Instance ModelEntry_entry : RegistryEntry ModelEntry ModelAsset := {|
  asset := model_asset;
  generation := model_generation;
  refCount := model_refCount;
  with_refCount n e :=
    {| model_asset := model_asset e; model_generation := model_generation e;
       model_refCount := n; model_path := model_path e;
       meshDeps := meshDeps e; materialDeps := materialDeps e |}
|}.
Proof. all: try reflexivity. intros []; reflexivity. Defined.

(* ----------------------------------------------------------------- *)
(** *** One registry *)

(** [find(h.id)] followed by the generation test. *)
Definition resolve {E A : Type} `{RegistryEntry E A} (m : gmap Z E) (h : Handle)
  : option E :=
  match m !! id h with
  | Some e => if generation e =? h_generation h then Some e else None
  | None => None
  end.

(** [getMesh], [getTexture], [getMaterial], [getModel]: the asset pointer,
    null when the identifier is unknown or the generation differs. *)
Definition registry_get {E A : Type} `{RegistryEntry E A} (m : gmap Z E) (h : Handle)
  : option A :=
  match resolve m h with
  | Some e => asset e
  | None => None
  end.

(** [addRef]: [refCount++] on a 32-bit counter. *)
Definition registry_addRef {E A : Type} `{RegistryEntry E A} (m : gmap Z E) (h : Handle)
  : gmap Z E :=
  match resolve m h with
  | Some e => <[id h := with_refCount (u32 (refCount e + 1)) e]> m
  | None => m
  end.

(** [release]: [if (refCount > 0) refCount--]. *)
Definition registry_release {E A : Type} `{RegistryEntry E A} (m : gmap Z E) (h : Handle)
  : gmap Z E :=
  match resolve m h with
  | Some e =>
      if 0 <? refCount e then <[id h := with_refCount (refCount e - 1) e]> m else m
  | None => m
  end.

(** [std::unordered_map::emplace]: inserts unless the key is present. *)
Definition emplace {K V : Type} `{Countable K} (k : K) (v : V) (m : gmap K V) : gmap K V :=
  match m !! k with
  | Some _ => m
  | None => <[k := v]> m
  end.

(* ================================================================= *)
(** ** [AssetManager] *)

(** The members that change: the four registries, the two path caches and
    the four identifier counters ([uint64_t]).  The device, physical device,
    queue and queue family index given to the constructor never change and
    only travel into the calls of the trace. *)
Record AssetManager : Type := {
  m_meshes : gmap Z MeshEntry;
  m_textures : gmap Z TextureEntry;
  m_materials : gmap Z MaterialEntry;
  m_models : gmap Z ModelEntry;
  m_meshPathCache : gmap string MeshHandle;
  m_modelPathCache : gmap string ModelHandle;
  m_nextMeshID : Z;
  m_nextTextureID : Z;
  m_nextMaterialID : Z;
  m_nextModelID : Z
}.

(** Modelled from the spec: the member initialisers ([AssetManager.h]) are
    not part of the sources.  A fresh manager has empty registries and
    caches, and "allocates the next monotonic identifier" starting at 1, the
    identifier 0 being the invalid handle's. *)
Definition AssetManager_new : AssetManager :=
  {| m_meshes := ∅; m_textures := ∅; m_materials := ∅; m_models := ∅;
     m_meshPathCache := ∅; m_modelPathCache := ∅;
     m_nextMeshID := 1; m_nextTextureID := 1;
     m_nextMaterialID := 1; m_nextModelID := 1 |}.

Definition set_meshes (f : gmap Z MeshEntry -> gmap Z MeshEntry) (s : AssetManager)
  : AssetManager :=
  {| m_meshes := f (m_meshes s); m_textures := m_textures s;
     m_materials := m_materials s; m_models := m_models s;
     m_meshPathCache := m_meshPathCache s; m_modelPathCache := m_modelPathCache s;
     m_nextMeshID := m_nextMeshID s; m_nextTextureID := m_nextTextureID s;
     m_nextMaterialID := m_nextMaterialID s; m_nextModelID := m_nextModelID s |}.

Definition set_textures (f : gmap Z TextureEntry -> gmap Z TextureEntry) (s : AssetManager)
  : AssetManager :=
  {| m_meshes := m_meshes s; m_textures := f (m_textures s);
     m_materials := m_materials s; m_models := m_models s;
     m_meshPathCache := m_meshPathCache s; m_modelPathCache := m_modelPathCache s;
     m_nextMeshID := m_nextMeshID s; m_nextTextureID := m_nextTextureID s;
     m_nextMaterialID := m_nextMaterialID s; m_nextModelID := m_nextModelID s |}.

Definition set_materials (f : gmap Z MaterialEntry -> gmap Z MaterialEntry)
    (s : AssetManager) : AssetManager :=
  {| m_meshes := m_meshes s; m_textures := m_textures s;
     m_materials := f (m_materials s); m_models := m_models s;
     m_meshPathCache := m_meshPathCache s; m_modelPathCache := m_modelPathCache s;
     m_nextMeshID := m_nextMeshID s; m_nextTextureID := m_nextTextureID s;
     m_nextMaterialID := m_nextMaterialID s; m_nextModelID := m_nextModelID s |}.

Definition set_models (f : gmap Z ModelEntry -> gmap Z ModelEntry) (s : AssetManager)
  : AssetManager :=
  {| m_meshes := m_meshes s; m_textures := m_textures s;
     m_materials := m_materials s; m_models := f (m_models s);
     m_meshPathCache := m_meshPathCache s; m_modelPathCache := m_modelPathCache s;
     m_nextMeshID := m_nextMeshID s; m_nextTextureID := m_nextTextureID s;
     m_nextMaterialID := m_nextMaterialID s; m_nextModelID := m_nextModelID s |}.

Definition set_meshPathCache (f : gmap string MeshHandle -> gmap string MeshHandle)
    (s : AssetManager) : AssetManager :=
  {| m_meshes := m_meshes s; m_textures := m_textures s;
     m_materials := m_materials s; m_models := m_models s;
     m_meshPathCache := f (m_meshPathCache s); m_modelPathCache := m_modelPathCache s;
     m_nextMeshID := m_nextMeshID s; m_nextTextureID := m_nextTextureID s;
     m_nextMaterialID := m_nextMaterialID s; m_nextModelID := m_nextModelID s |}.

Definition set_modelPathCache (f : gmap string ModelHandle -> gmap string ModelHandle)
    (s : AssetManager) : AssetManager :=
  {| m_meshes := m_meshes s; m_textures := m_textures s;
     m_materials := m_materials s; m_models := m_models s;
     m_meshPathCache := m_meshPathCache s; m_modelPathCache := f (m_modelPathCache s);
     m_nextMeshID := m_nextMeshID s; m_nextTextureID := m_nextTextureID s;
     m_nextMaterialID := m_nextMaterialID s; m_nextModelID := m_nextModelID s |}.

Definition set_nextMeshID (n : Z) (s : AssetManager) : AssetManager :=
  {| m_meshes := m_meshes s; m_textures := m_textures s;
     m_materials := m_materials s; m_models := m_models s;
     m_meshPathCache := m_meshPathCache s; m_modelPathCache := m_modelPathCache s;
     m_nextMeshID := n; m_nextTextureID := m_nextTextureID s;
     m_nextMaterialID := m_nextMaterialID s; m_nextModelID := m_nextModelID s |}.

Definition set_nextTextureID (n : Z) (s : AssetManager) : AssetManager :=
  {| m_meshes := m_meshes s; m_textures := m_textures s;
     m_materials := m_materials s; m_models := m_models s;
     m_meshPathCache := m_meshPathCache s; m_modelPathCache := m_modelPathCache s;
     m_nextMeshID := m_nextMeshID s; m_nextTextureID := n;
     m_nextMaterialID := m_nextMaterialID s; m_nextModelID := m_nextModelID s |}.

Definition set_nextMaterialID (n : Z) (s : AssetManager) : AssetManager :=
  {| m_meshes := m_meshes s; m_textures := m_textures s;
     m_materials := m_materials s; m_models := m_models s;
     m_meshPathCache := m_meshPathCache s; m_modelPathCache := m_modelPathCache s;
     m_nextMeshID := m_nextMeshID s; m_nextTextureID := m_nextTextureID s;
     m_nextMaterialID := n; m_nextModelID := m_nextModelID s |}.

Definition set_nextModelID (n : Z) (s : AssetManager) : AssetManager :=
  {| m_meshes := m_meshes s; m_textures := m_textures s;
     m_materials := m_materials s; m_models := m_models s;
     m_meshPathCache := m_meshPathCache s; m_modelPathCache := m_modelPathCache s;
     m_nextMeshID := m_nextMeshID s; m_nextTextureID := m_nextTextureID s;
     m_nextMaterialID := m_nextMaterialID s; m_nextModelID := n |}.

(* ----------------------------------------------------------------- *)
(** *** [get], [addRef], [release] per kind *)

Definition getMesh (s : AssetManager) (h : MeshHandle) : option MeshAsset :=
  registry_get (m_meshes s) h.
Definition getTexture (s : AssetManager) (h : TextureHandle) : option TextureAsset :=
  registry_get (m_textures s) h.
Definition getMaterial (s : AssetManager) (h : MaterialHandle) : option MaterialAsset :=
  registry_get (m_materials s) h.
Definition getModel (s : AssetManager) (h : ModelHandle) : option ModelAsset :=
  registry_get (m_models s) h.

Definition addRef_Mesh (h : MeshHandle) (s : AssetManager) : AssetManager :=
  set_meshes (fun m => registry_addRef m h) s.
Definition addRef_Texture (h : TextureHandle) (s : AssetManager) : AssetManager :=
  set_textures (fun m => registry_addRef m h) s.
Definition addRef_Material (h : MaterialHandle) (s : AssetManager) : AssetManager :=
  set_materials (fun m => registry_addRef m h) s.
Definition addRef_Model (h : ModelHandle) (s : AssetManager) : AssetManager :=
  set_models (fun m => registry_addRef m h) s.

Definition release_Mesh (h : MeshHandle) (s : AssetManager) : AssetManager :=
  set_meshes (fun m => registry_release m h) s.
Definition release_Texture (h : TextureHandle) (s : AssetManager) : AssetManager :=
  set_textures (fun m => registry_release m h) s.
Definition release_Material (h : MaterialHandle) (s : AssetManager) : AssetManager :=
  set_materials (fun m => registry_release m h) s.
Definition release_Model (h : ModelHandle) (s : AssetManager) : AssetManager :=
  set_models (fun m => registry_release m h) s.

(** [addRef] and [release], overloaded on the handle type in the source,
    selected here by the kind. *)
Definition addRef (k : Kind) (h : Handle) (s : AssetManager) : AssetManager :=
  match k with
  | KMesh => addRef_Mesh h s
  | KTexture => addRef_Texture h s
  | KMaterial => addRef_Material h s
  | KModel => addRef_Model h s
  end.

Definition release (k : Kind) (h : Handle) (s : AssetManager) : AssetManager :=
  match k with
  | KMesh => release_Mesh h s
  | KTexture => release_Texture h s
  | KMaterial => release_Material h s
  | KModel => release_Model h s
  end.

(** The reference count stored under identifier [i] in the registry of kind
    [k], if there is an entry. *)
Definition refCount_of (k : Kind) (s : AssetManager) (i : Z) : option Z :=
  match k with
  | KMesh => refCount <$> m_meshes s !! i
  | KTexture => refCount <$> m_textures s !! i
  | KMaterial => refCount <$> m_materials s !! i
  | KModel => refCount <$> m_models s !! i
  end.

(* ----------------------------------------------------------------- *)
(** *** Creating entries *)

(** [createMeshFromData_Internal]. *)
Definition createMeshFromData_Internal (P : Platform) (data : MeshData) (path : string)
    (initialRef : Z) (s : AssetManager) (t : Trace) : MeshHandle * AssetManager * Trace :=
  let '(pr, t1) := call P vkCreateCommandPool t in
  if negb pr then (Handle_default, s, t1)
  else
    let '(ok, t2) := call P (MeshAsset_upload data) t1 in
    let t3 := call_void vkDestroyCommandPool t2 in
    if negb ok then (Handle_default, s, t3)
    else
      let i := m_nextMeshID s in
      let entry := {| mesh_asset := Some {| uploaded := data |};
                      mesh_generation := 1;
                      mesh_refCount := initialRef;
                      mesh_path := path |} in
      let s1 := set_meshes (emplace i entry) (set_nextMeshID (u64 (i + 1)) s) in
      ({| id := i; h_generation := 1 |}, s1, Registered KMesh i :: t3).

(** [createTexture_Internal]. *)
Definition createTexture_Internal (tex : option TextureAsset) (initialRef : Z)
    (s : AssetManager) (t : Trace) : TextureHandle * AssetManager * Trace :=
  let i := m_nextTextureID s in
  let e := {| texture_asset := tex; texture_generation := 1;
              texture_refCount := initialRef |} in
  let s1 := set_textures (emplace i e) (set_nextTextureID (u64 (i + 1)) s) in
  ({| id := i; h_generation := 1 |}, s1, Registered KTexture i :: t).

(** The dependency handles [createMaterial_Internal] gathers. *)
Definition gather_textureDeps (mat : option MaterialAsset) : list TextureHandle :=
  match mat with
  | None => []
  | Some a =>
      (if isValid (baseColorTexture a) then [baseColorTexture a] else [])
      ++ (if isValid (normalTexture a) then [normalTexture a] else [])
      ++ (if isValid (metallicRoughnessTexture a) then [metallicRoughnessTexture a] else [])
      ++ (if isValid (occlusionTexture a) then [occlusionTexture a] else [])
      ++ (if isValid (emissiveTexture a) then [emissiveTexture a] else [])
  end.

(** [createMaterial_Internal]. *)
Definition createMaterial_Internal (mat : option MaterialAsset) (initialRef : Z)
    (s : AssetManager) (t : Trace) : MaterialHandle * AssetManager * Trace :=
  let i := m_nextMaterialID s in
  let e := {| material_asset := mat; material_generation := 1;
              material_refCount := initialRef;
              textureDeps := gather_textureDeps mat |} in
  let s1 := set_materials (emplace i e) (set_nextMaterialID (u64 (i + 1)) s) in
  ({| id := i; h_generation := 1 |}, s1, Registered KMaterial i :: t).

(** [createModel_Internal]. *)
Definition createModel_Internal (model : option ModelAsset) (path : string)
    (initialRef : Z) (s : AssetManager) (t : Trace) : ModelHandle * AssetManager * Trace :=
  let i := m_nextModelID s in
  let e := {| model_asset := model; model_generation := 1;
              model_refCount := initialRef; model_path := path;
              meshDeps := []; materialDeps := [] |} in
  let s1 := set_models (emplace i e) (set_nextModelID (u64 (i + 1)) s) in
  ({| id := i; h_generation := 1 |}, s1, Registered KModel i :: t).

(** [loadMesh]. *)
Definition loadMesh (P : Platform) (cookedMeshPath : string) (s : AssetManager)
    (t : Trace) : MeshHandle * AssetManager * Trace :=
  match m_meshPathCache s !! cookedMeshPath with
  | Some h => (h, addRef_Mesh h s, t)
  | None =>
      match smesh_files P cookedMeshPath with
      | None => (Handle_default, s, t)
      | Some data =>
          let '(h, s1, t1) := createMeshFromData_Internal P data cookedMeshPath 1 s t in
          if isValid h
          then (h, set_meshPathCache (emplace cookedMeshPath h) s1, t1)
          else (h, s1, t1)
      end
  end.

(* ----------------------------------------------------------------- *)
(** *** [loadModel] *)

(** [for (uint32_t i = start; ...; i++)] over a state, [n] rounds. *)
Fixpoint iter_from {St : Type} (body : Z -> St -> St) (i : Z) (n : nat) (s : St) : St :=
  match n with
  | O => s
  | S n' => iter_from body (i + 1) n' (body i s)
  end.

(** The same with a body that may leave the function ([inl]). *)
Fixpoint iter_until {St F : Type} (body : Z -> St -> F + St) (i : Z) (n : nat) (s : St)
  : F + St :=
  match n with
  | O => inr s
  | S n' =>
      match body i s with
      | inl f => inl f
      | inr s' => iter_until body (i + 1) n' s'
      end
  end.

(** [v[i]] on a [std::vector] of handles (within range for every validated
    container; the default handle stands for a read past the end). *)
Definition vec_at (v : list Handle) (i : Z) : Handle :=
  default Handle_default (v !! Z.to_nat i).

(** [v[i] = h]. *)
Definition vec_set {A : Type} (v : list A) (i : Z) (x : A) : list A :=
  <[Z.to_nat i := x]> v.

(** The state of the texture loop: the handle vector, the transaction, the
    manager and the trace. *)
Definition TexLoop : Type := list TextureHandle * UploadContext * AssetManager * Trace.

(** One round of "Upload textures (deferred)".  [inl] is the failure branch
    just before its cleanup. *)
Definition upload_texture (P : Platform) (view : smodel.SModelFileView) (i : Z)
    (st : TexLoop) : UploadContext * AssetManager * Trace + TexLoop :=
  let '(textureHandles, upload, s, t) := st in
  let tr := smodel.img_textures (smodel.fileBytes view) i in
  let isSRGB := smodel.colorSpace tr =? 1 in
  let wrapU := toVkWrap (smodel.wrapU tr) in
  let wrapV := toVkWrap (smodel.wrapV tr) in
  let minF := toVkFilter (smodel.minFilter tr) in
  let magF := toVkFilter (smodel.magFilter tr) in
  let mipM := toVkMip (smodel.mipFilter tr) in
  let '(ok, tex, upload1, t1) :=
    uploadEncodedImage_Deferred P upload TextureAsset_new (smodel.fileBytes view)
      (smodel.imageDataOffset tr) (smodel.imageDataSize tr)
      isSRGB wrapU wrapV minF magF mipM (smodel.maxAnisotropy tr) t in
  if negb ok then inl (upload1, s, t1)
  else
    let '(h, s1, t2) := createTexture_Internal (Some tex) 0 s t1 in
    inr (vec_set textureHandles i h, upload1, s1, t2).

(** The lambda [grabTex]. *)
Definition grabTex (textureHandles : list TextureHandle) (idx : Z) : TextureHandle :=
  if idx <? 0 then Handle_default else vec_at textureHandles (u32 idx).

(** [if (h.isValid()) addRef(h);] on a texture handle. *)
Definition addRef_valid_Texture (h : TextureHandle) (s : AssetManager) : AssetManager :=
  if isValid h then addRef_Texture h s else s.

(** One round of "Create materials (CPU only)". *)
Definition create_material (view : smodel.SModelFileView)
    (textureHandles : list TextureHandle) (i : Z)
    (st : list MaterialHandle * AssetManager * Trace)
  : list MaterialHandle * AssetManager * Trace :=
  let '(materialHandles, s, t) := st in
  let m := smodel.img_materials (smodel.fileBytes view) i in
  let mat :=
    {| mat_debugName := smodel.getStringOrEmpty view (smodel.mat_nameStrOffset m);
       baseColorFactor := smodel.baseColorFactor m;
       emissiveFactor := smodel.emissiveFactor m;
       metallicFactor := smodel.metallicFactor m;
       roughnessFactor := smodel.roughnessFactor m;
       normalScale := smodel.normalScale m;
       occlusionStrength := smodel.occlusionStrength m;
       alphaCutoff := smodel.alphaCutoff m;
       alphaMode := smodel.alphaMode m;
       doubleSided := smodel.doubleSided m;
       baseColorTexture := grabTex textureHandles (smodel.baseColorTexture m);
       normalTexture := grabTex textureHandles (smodel.normalTexture m);
       metallicRoughnessTexture :=
         grabTex textureHandles (smodel.metallicRoughnessTexture m);
       occlusionTexture := grabTex textureHandles (smodel.occlusionTexture m);
       emissiveTexture := grabTex textureHandles (smodel.emissiveTexture m);
       baseColorTexCoord := smodel.baseColorTexCoord m;
       normalTexCoord := smodel.normalTexCoord m;
       metallicRoughnessTexCoord := smodel.metallicRoughnessTexCoord m;
       occlusionTexCoord := smodel.occlusionTexCoord m;
       emissiveTexCoord := smodel.emissiveTexCoord m |} in
  let '(mh, s1, t1) := createMaterial_Internal (Some mat) 0 s t in
  let materialHandles1 := vec_set materialHandles i mh in
  let s2 :=
    match getMaterial s1 mh with
    | Some createdMat =>
        addRef_valid_Texture (emissiveTexture createdMat)
          (addRef_valid_Texture (occlusionTexture createdMat)
             (addRef_valid_Texture (metallicRoughnessTexture createdMat)
                (addRef_valid_Texture (normalTexture createdMat)
                   (addRef_valid_Texture (baseColorTexture createdMat) s1))))
    | None => s1
    end in
  (materialHandles1, s2, t1).

(** The [MeshData] built from mesh record [mr]. *)
Definition meshData_of_record (mr : smodel.SModelMeshRecord) : MeshData :=
  let indexFormat := if smodel.indexType mr =? 0 then 0 else 1 in
  {| md_vertexCount := smodel.vertexCount mr;
     md_indexCount := smodel.mesh_indexCount mr;
     md_vertexStride := smodel.vertexStride mr;
     md_indexFormat := indexFormat;
     md_aabbMin := smodel.aabbMin mr;
     md_aabbMax := smodel.aabbMax mr;
     md_vertexBytes := (smodel.vertexDataOffset mr, smodel.vertexDataSize mr);
     md_indices16 :=
       if indexFormat =? 0
       then Some (smodel.indexDataOffset mr, smodel.mesh_indexCount mr * 2) else None;
     md_indices32 :=
       if indexFormat =? 0
       then None else Some (smodel.indexDataOffset mr, smodel.mesh_indexCount mr * 4) |}.

(** One round of "Create meshes (GPU upload)": the handle that comes back
    is stored as it is. *)
Definition create_mesh (P : Platform) (view : smodel.SModelFileView)
    (cookedModelPath : string) (i : Z) (st : list MeshHandle * AssetManager * Trace)
  : list MeshHandle * AssetManager * Trace :=
  let '(meshHandles, s, t) := st in
  let mr := smodel.img_meshes (smodel.fileBytes view) i in
  let md := meshData_of_record mr in
  let '(h, s1, t1) :=
    createMeshFromData_Internal P md (cookedModelPath +:+ "#mesh" +:+ pretty i) 0 s t in
  (vec_set meshHandles i h, s1, t1).

(** The state of the primitive loop: the model's primitives, the two
    dependency lists and the manager. *)
Definition PrimLoop : Type :=
  list ModelPrimitive * list MeshHandle * list MaterialHandle * AssetManager.

(** One round of "Create model primitives". *)
Definition create_primitive (view : smodel.SModelFileView)
    (meshHandles : list MeshHandle) (materialHandles : list MaterialHandle) (i : Z)
    (st : PrimLoop) : PrimLoop :=
  let '(prims, meshDeps0, matDeps0, s) := st in
  let p := smodel.img_primitives (smodel.fileBytes view) i in
  let prim := {| mesh := vec_at meshHandles (smodel.meshIndex p);
                 material := vec_at materialHandles (smodel.materialIndex p);
                 firstIndex := smodel.firstIndex p;
                 indexCount := smodel.prim_indexCount p;
                 vertexOffset := smodel.vertexOffset p |} in
  let prims1 := vec_set prims i prim in
  let '(s1, meshDeps1) :=
    if isValid (mesh prim)
    then (addRef_Mesh (mesh prim) s, meshDeps0 ++ [mesh prim])
    else (s, meshDeps0) in
  let '(s2, matDeps1) :=
    if isValid (material prim)
    then (addRef_Material (material prim) s1, matDeps0 ++ [material prim])
    else (s1, matDeps0) in
  (prims1, meshDeps1, matDeps1, s2).

(** "Fill dependency lists inside the ModelEntry". *)
Definition fill_model_deps (h : ModelHandle) (meshDeps0 : list MeshHandle)
    (matDeps0 : list MaterialHandle) (s : AssetManager) : AssetManager :=
  set_models (fun m =>
    match m !! id h with
    | Some e =>
        <[id h := {| model_asset := model_asset e;
                     model_generation := model_generation e;
                     model_refCount := model_refCount e;
                     model_path := model_path e;
                     meshDeps := meshDeps0;
                     materialDeps := matDeps0 |}]> m
    | None => m
    end) s.

(** [loadModel] after a successful parse and a successful single submit:
    materials, meshes, primitives, the model entry and the path cache. *)
Definition loadModel_build (P : Platform) (cookedModelPath : string)
    (view : smodel.SModelFileView) (textureHandles : list TextureHandle)
    (s : AssetManager) (t : Trace) : ModelHandle * AssetManager * Trace :=
  let h := smodel.header view in
  let '(materialHandles, s1, t1) :=
    iter_from (create_material view textureHandles) 0
      (Z.to_nat (smodel.materialCount h))
      (replicate (Z.to_nat (smodel.materialCount h)) Handle_default, s, t) in
  let '(meshHandles, s2, t2) :=
    iter_from (create_mesh P view cookedModelPath) 0
      (Z.to_nat (smodel.meshCount h))
      (replicate (Z.to_nat (smodel.meshCount h)) Handle_default, s1, t1) in
  let '(prims, meshDeps0, matDeps0, s3) :=
    iter_from (create_primitive view meshHandles materialHandles) 0
      (Z.to_nat (smodel.primitiveCount h))
      (replicate (Z.to_nat (smodel.primitiveCount h)) ModelPrimitive_default,
       [], [], s2) in
  let model := {| model_primitives := prims; model_debugName := [] |} in
  let '(modelHandle, s4, t4) :=
    createModel_Internal (Some model) cookedModelPath 1 s3 t2 in
  let s5 := fill_model_deps modelHandle meshDeps0 matDeps0 s4 in
  (modelHandle, set_modelPathCache (emplace cookedModelPath modelHandle) s5, t4).

(** [loadModel] on a cache miss, given the parsed view. *)
Definition loadModel_upload (P : Platform) (cookedModelPath : string)
    (view : smodel.SModelFileView) (s : AssetManager) (t : Trace)
  : ModelHandle * AssetManager * Trace :=
  let '(pr, t1) := call P vkCreateCommandPool t in
  if negb pr then (Handle_default, s, t1)
  else
    let '(begunOk, upload, t2) := BeginUploadContext P t1 in
    if negb begunOk then (Handle_default, s, call_void vkDestroyCommandPool t2)
    else
      let n := Z.to_nat (smodel.textureCount (smodel.header view)) in
      match iter_until (upload_texture P view) 0 n
              (replicate n Handle_default, upload, s, t2) with
      | inl (upload1, s1, t3) =>
          let '(_, _, t4) := EndSubmitAndWait P upload1 t3 in
          (Handle_default, s1, call_void vkDestroyCommandPool t4)
      | inr (textureHandles, upload1, s1, t3) =>
          let '(submitted, _, t4) := EndSubmitAndWait P upload1 t3 in
          if negb submitted
          then (Handle_default, s1, call_void vkDestroyCommandPool t4)
          else
            loadModel_build P cookedModelPath view textureHandles s1
              (call_void vkDestroyCommandPool t4)
      end.

(** [AssetManager::loadModel]. *)
Definition loadModel (P : Platform) (cookedModelPath : string) (s : AssetManager)
    (t : Trace) : ModelHandle * AssetManager * Trace :=
  match m_modelPathCache s !! cookedModelPath with
  | Some h => (h, addRef_Model h s, t)
  | None =>
      match smodel.LoadSModelFile (layout P) (files P) cookedModelPath with
      | inl _ => (Handle_default, s, t)
      | inr view => loadModel_upload P cookedModelPath view s t
      end
  end.

(* ----------------------------------------------------------------- *)
(** *** [garbageCollect] *)

(** Each sweep walks its registry once; an entry met with [refCount == 0]
    is erased on the spot.  A sweep never changes the entries of its own
    registry other than by erasing the one it stands on, so the entry read
    through the iterator is the one listed by [map_to_list] at the start. *)

(** Sweep 1, at model [(i, e)]. *)
Definition sweep_model (s : AssetManager) (ie : Z * ModelEntry) : AssetManager :=
  let '(i, e) := ie in
  if model_refCount e =? 0
  then
    let s1 := foldl (fun acc mh => release_Mesh mh acc) s (meshDeps e) in
    let s2 := foldl (fun acc mat => release_Material mat acc) s1 (materialDeps e) in
    let s3 := set_modelPathCache (delete (model_path e)) s2 in
    set_models (delete i) s3
  else s.

(** Sweep 2, at material [(i, e)]. *)
Definition sweep_material (s : AssetManager) (ie : Z * MaterialEntry) : AssetManager :=
  let '(i, e) := ie in
  if material_refCount e =? 0
  then
    let s1 := foldl (fun acc th => release_Texture th acc) s (textureDeps e) in
    set_materials (delete i) s1
  else s.

(** Sweep 3, at mesh [(i, e)]; [MeshAsset::destroy] is not part of the
    sources and is logged as one call. *)
Definition sweep_mesh (st : AssetManager * Trace) (ie : Z * MeshEntry)
  : AssetManager * Trace :=
  let '(s, t) := st in
  let '(i, e) := ie in
  if mesh_refCount e =? 0
  then
    let t1 := match mesh_asset e with
              | Some _ => call_void MeshAsset_destroy t
              | None => t
              end in
    (set_meshes (delete i) (set_meshPathCache (delete (mesh_path e)) s), t1)
  else (s, t).

(** Sweep 4, at texture [(i, e)]. *)
Definition sweep_texture (st : AssetManager * Trace) (ie : Z * TextureEntry)
  : AssetManager * Trace :=
  let '(s, t) := st in
  let '(i, e) := ie in
  if texture_refCount e =? 0
  then
    let t1 := match texture_asset e with
              | Some a => (TextureAsset_destroy a t).2
              | None => t
              end in
    (set_textures (delete i) s, t1)
  else (s, t).

(** [AssetManager::garbageCollect]: models, then materials, then meshes,
    then textures. *)
Definition garbageCollect (s : AssetManager) (t : Trace) : AssetManager * Trace :=
  let s1 := foldl sweep_model s (map_to_list (m_models s)) in
  let s2 := foldl sweep_material s1 (map_to_list (m_materials s1)) in
  let st3 := foldl sweep_mesh (s2, t) (map_to_list (m_meshes s2)) in
  foldl sweep_texture st3 (map_to_list (m_textures st3.1)).

(* ================================================================= *)
(** ** Runs of the manager *)

(** The states a manager can be in, each with the trace that led to it:
    a fresh manager, and whatever a call of its public interface makes of a
    reachable state.  Every call may meet a different platform, and
    [addRef] and [release] take any handle a caller can write down. *)
Inductive reachable : AssetManager -> Trace -> Prop :=
| reach_new :
    reachable AssetManager_new []
| reach_loadMesh P path s t :
    reachable s t ->
    reachable (loadMesh P path s t).1.2 (loadMesh P path s t).2
| reach_loadModel P path s t :
    reachable s t ->
    reachable (loadModel P path s t).1.2 (loadModel P path s t).2
| reach_addRef k h s t :
    reachable s t ->
    reachable (addRef k h s) t
| reach_release k h s t :
    reachable s t ->
    reachable (release k h s) t
| reach_garbageCollect s t :
    reachable s t ->
    reachable (garbageCollect s t).1 (garbageCollect s t).2.

(** The identifiers registered for kind [k] along a trace, newest first. *)
Fixpoint issued (k : Kind) (t : Trace) : list Z :=
  match t with
  | [] => []
  | Registered k' i :: rest =>
      if decide (k' = k) then i :: issued k rest else issued k rest
  | Gpu _ _ :: rest => issued k rest
  end.

(** [n, n - 1, ..., 1]. *)
Fixpoint countdown (n : nat) : list Z :=
  match n with
  | O => []
  | S n' => Z.of_nat n :: countdown n'
  end.

(** The counter of kind [k]. *)
Definition next_id (k : Kind) (s : AssetManager) : Z :=
  match k with
  | KMesh => m_nextMeshID s
  | KTexture => m_nextTextureID s
  | KMaterial => m_nextMaterialID s
  | KModel => m_nextModelID s
  end.

(** Identifier [i] has an entry in the registry of kind [k]. *)
Definition present (k : Kind) (s : AssetManager) (i : Z) : Prop :=
  match k with
  | KMesh => is_Some (m_meshes s !! i)
  | KTexture => is_Some (m_textures s !! i)
  | KMaterial => is_Some (m_materials s !! i)
  | KModel => is_Some (m_models s !! i)
  end.

(** The generation stamp stored under identifier [i], if any. *)
Definition generation_of (k : Kind) (s : AssetManager) (i : Z) : option Z :=
  match k with
  | KMesh => generation <$> m_meshes s !! i
  | KTexture => generation <$> m_textures s !! i
  | KMaterial => generation <$> m_materials s !! i
  | KModel => generation <$> m_models s !! i
  end.

(** [get] by kind: whether the lookup finds an asset. *)
Definition get_absent (k : Kind) (s : AssetManager) (h : Handle) : Prop :=
  match k with
  | KMesh => getMesh s h = None
  | KTexture => getTexture s h = None
  | KMaterial => getMaterial s h = None
  | KModel => getModel s h = None
  end.

(** Fewer than [2^64 - 1] identifiers of kind [k] were handed out so far:
    the 64-bit counter, which starts at 1, has not wrapped. *)
Definition ids_left (k : Kind) (t : Trace) : Prop :=
  Z.of_nat (length (issued k t)) < UINT64_MAX.

(** Every entry carries generation 1. *)
Definition gens_one (s : AssetManager) : Prop :=
  forall k i g, generation_of k s i = Some g -> g = 1.

(** Every cached model handle resolves. *)
Definition model_cache_resolves (s : AssetManager) : Prop :=
  forall p h, m_modelPathCache s !! p = Some h ->
    is_Some (resolve (m_models s) h).

(* ----------------------------------------------------------------- *)
(** *** Reading a trace *)

Definition is_submit (e : Event) : bool :=
  match e with
  | Gpu EndSubmitAndWait_call _ => true
  | _ => false
  end.

(** The calls a texture upload may make: object creation, recorded
    commands, and the teardown of what the asset held before. *)
Definition is_texture_upload (e : Event) : bool :=
  match e with
  | Gpu (CreateStagingBuffer _) _
  | Gpu (CreateImage2D _ _ _ _) _
  | Gpu (CmdTransitionImageLayout _ _) _
  | Gpu (CmdCopyBufferToImage _ _) _
  | Gpu (CmdGenerateMipmaps _ _ _ _) _
  | Gpu (CreateImageView2D _ _) _
  | Gpu (CreateTextureSampler _ _ _ _ _ _ _) _
  | Gpu vkDestroySampler _
  | Gpu vkDestroyImageView _
  | Gpu vkDestroyImage _
  | Gpu vkFreeMemory _ => true
  | _ => false
  end.

Definition is_registered (k : Kind) (e : Event) : bool :=
  match e with
  | Registered k' _ => bool_decide (k' = k)
  | Gpu _ _ => false
  end.

Definition count_submits (t : Trace) : nat := length (List.filter is_submit t).

Definition count_registered (k : Kind) (t : Trace) : nat :=
  length (List.filter (is_registered k) t).

(* ----------------------------------------------------------------- *)
(** *** Containers that differ in their sampler settings only *)

(** The five sampler fields of a texture record. *)
Record SamplerFields : Type := {
  sf_wrapU : Z;
  sf_wrapV : Z;
  sf_minFilter : Z;
  sf_magFilter : Z;
  sf_mipFilter : Z
}.

(** Texture record [r] with its five sampler fields replaced. *)
Definition with_sampler_fields (e : SamplerFields) (r : smodel.SModelTextureRecord)
  : smodel.SModelTextureRecord :=
  {| smodel.tex_nameStrOffset := smodel.tex_nameStrOffset r;
     smodel.uriStrOffset := smodel.uriStrOffset r;
     smodel.colorSpace := smodel.colorSpace r;
     smodel.encoding := smodel.encoding r;
     smodel.wrapU := sf_wrapU e;
     smodel.wrapV := sf_wrapV e;
     smodel.minFilter := sf_minFilter e;
     smodel.magFilter := sf_magFilter e;
     smodel.mipFilter := sf_mipFilter e;
     smodel.maxAnisotropy := smodel.maxAnisotropy r;
     smodel.imageDataOffset := smodel.imageDataOffset r;
     smodel.imageDataSize := smodel.imageDataSize r;
     smodel.tex_reserved0 := smodel.tex_reserved0 r;
     smodel.tex_reserved1 := smodel.tex_reserved1 r |}.

(** The file [img] with the sampler fields of texture record [i] replaced
    by [g i], everything else as it was. *)
Definition with_samplers (g : Z -> SamplerFields) (img : smodel.SModelImage)
  : smodel.SModelImage :=
  {| smodel.img_header := smodel.img_header img;
     smodel.img_meshes := smodel.img_meshes img;
     smodel.img_primitives := smodel.img_primitives img;
     smodel.img_materials := smodel.img_materials img;
     smodel.img_textures := fun i => with_sampler_fields (g i) (smodel.img_textures img i);
     smodel.img_nodes := smodel.img_nodes img;
     smodel.img_nodePrimitiveIndices := smodel.img_nodePrimitiveIndices img;
     smodel.img_nodeChildIndices := smodel.img_nodeChildIndices img;
     smodel.img_animClips := smodel.img_animClips img;
     smodel.img_animChannels := smodel.img_animChannels img;
     smodel.img_animSamplers := smodel.img_animSamplers img;
     smodel.img_animTimes := smodel.img_animTimes img;
     smodel.img_animValues := smodel.img_animValues img;
     smodel.img_stringTable := smodel.img_stringTable img;
     smodel.img_stbi := smodel.img_stbi img |}.

Definition file_with_samplers (g : Z -> SamplerFields) (f : smodel.DiskFile)
  : smodel.DiskFile :=
  {| smodel.df_tellg := smodel.df_tellg f;
     smodel.df_read_ok := smodel.df_read_ok f;
     smodel.df_image := with_samplers g (smodel.df_image f) |}.

(** Platform [P] with every file's sampler fields replaced through [g]. *)
Definition platform_with_samplers (g : Z -> SamplerFields) (P : Platform) : Platform :=
  {| layout := layout P;
     files := fun p => file_with_samplers g <$> files P p;
     smesh_files := smesh_files P;
     respond := respond P |}.

(** A view over the file with replaced sampler fields. *)
Definition view_with_samplers (g : Z -> SamplerFields) (v : smodel.SModelFileView)
  : smodel.SModelFileView :=
  {| smodel.fileBytes := with_samplers g (smodel.fileBytes v);
     smodel.fileBytes_size := smodel.fileBytes_size v;
     smodel.header := smodel.header v;
     smodel.meshes := smodel.meshes v;
     smodel.primitives := smodel.primitives v;
     smodel.materials := smodel.materials v;
     smodel.textures := smodel.textures v;
     smodel.nodes := smodel.nodes v;
     smodel.nodePrimitiveIndices := smodel.nodePrimitiveIndices v;
     smodel.nodeChildIndices := smodel.nodeChildIndices v;
     smodel.stringTable := smodel.stringTable v;
     smodel.blob := smodel.blob v;
     smodel.animClips := smodel.animClips v;
     smodel.animChannels := smodel.animChannels v;
     smodel.animSamplers := smodel.animSamplers v;
     smodel.animTimes := smodel.animTimes v;
     smodel.animValues := smodel.animValues v |}.

(** Two settings of the five sampler fields that the mapping to Vulkan
    cannot tell apart. *)
Definition same_vk_sampler (e1 e2 : SamplerFields) : Prop :=
  toVkWrap (sf_wrapU e1) = toVkWrap (sf_wrapU e2)
  /\ toVkWrap (sf_wrapV e1) = toVkWrap (sf_wrapV e2)
  /\ toVkFilter (sf_minFilter e1) = toVkFilter (sf_minFilter e2)
  /\ toVkFilter (sf_magFilter e1) = toVkFilter (sf_magFilter e2)
  /\ toVkMip (sf_mipFilter e1) = toVkMip (sf_mipFilter e2).

(** A setting outside the values the format knows (wrap 0..2, filter 0..1,
    mip 0..2). *)
Definition unrecognized_sampler (e : SamplerFields) : Prop :=
  ~ (0 <= sf_wrapU e <= 2) /\ ~ (0 <= sf_wrapV e <= 2)
  /\ ~ (0 <= sf_minFilter e <= 1) /\ ~ (0 <= sf_magFilter e <= 1)
  /\ ~ (0 <= sf_mipFilter e <= 2).

(** A setting whose five fields are all among the values the format
    knows. *)
Definition sampler_in_range (e : SamplerFields) : Prop :=
  0 <= sf_wrapU e <= 2 /\ 0 <= sf_wrapV e <= 2
  /\ 0 <= sf_minFilter e <= 1 /\ 0 <= sf_magFilter e <= 1
  /\ 0 <= sf_mipFilter e <= 2.

(** A field value [x] if it lies in [0..hi], and 0 otherwise. *)
Definition known_or_zero (hi x : Z) : Z :=
  if (0 <=? x) && (x <=? hi) then x else 0.

(** Setting [e] with every field outside the known values replaced by 0,
    the value whose case the [default] label shares. *)
Definition in_range_sampler (e : SamplerFields) : SamplerFields :=
  {| sf_wrapU := known_or_zero 2 (sf_wrapU e);
     sf_wrapV := known_or_zero 2 (sf_wrapV e);
     sf_minFilter := known_or_zero 1 (sf_minFilter e);
     sf_magFilter := known_or_zero 1 (sf_magFilter e);
     sf_mipFilter := known_or_zero 2 (sf_mipFilter e) |}.

(* ================================================================= *)
(** ** Concrete containers and platforms *)

(** A layout for the examples: a 204-byte header and 20-byte primitive and
    node records; the compatibility test looks at the magic 'SMOD' and the
    major version. *)
Definition example_layout : smodel.Layout :=
  {| smodel.sizeof_SModelHeader := 204;
     smodel.sizeof_SModelPrimitiveRecord := 20;
     smodel.sizeof_SModelNodeRecord := 20;
     smodel.isHeaderCompatible := fun h =>
       (smodel.magic h =? 0x444F4D53) && (smodel.versionMajor h <=? 3) |}.

(** A 4096-byte file: header, one mesh, one primitive, one material, one
    texture, an 8-byte string table, [nSamplers] animation samplers over
    three times and nine values, and a 3072-byte blob at offset 1024. *)
Definition example_header (nSamplers : Z) : smodel.SModelHeader :=
  {| smodel.magic := 0x444F4D53;
     smodel.versionMajor := 3;
     smodel.versionMinor := 0;
     smodel.fileSizeBytes := 4096;
     smodel.flags := 0;
     smodel.meshCount := 1;
     smodel.primitiveCount := 1;
     smodel.materialCount := 1;
     smodel.textureCount := 1;
     smodel.meshesOffset := 204;
     smodel.primitivesOffset := 284;
     smodel.materialsOffset := 304;
     smodel.texturesOffset := 408;
     smodel.stringTableOffset := 472;
     smodel.blobOffset := 1024;
     smodel.stringTableSize := 8;
     smodel.blobSize := 3072;
     smodel.nodeCount := 0;
     smodel.nodesOffset := 0;
     smodel.nodePrimitiveIndexCount := 0;
     smodel.nodePrimitiveIndicesOffset := 0;
     smodel.nodeChildIndicesCount := 0;
     smodel.nodeChildIndicesOffset := 0;
     smodel.animClipsCount := 0;
     smodel.animClipsOffset := 0;
     smodel.animChannelsCount := 0;
     smodel.animChannelsOffset := 0;
     smodel.animSamplersCount := nSamplers;
     smodel.animSamplersOffset := 480;
     smodel.animTimesCount := 3;
     smodel.animTimesOffset := 500;
     smodel.animValuesCount := 9;
     smodel.animValuesOffset := 512 |}.

(** Four vertices of 32 bytes and six 16-bit indices. *)
Definition example_mesh : smodel.SModelMeshRecord :=
  {| smodel.mesh_nameStrOffset := 0;
     smodel.vertexStride := 32;
     smodel.vertexCount := 4;
     smodel.mesh_indexCount := 6;
     smodel.layoutFlags := 0;
     smodel.indexType := 0;
     smodel.vertexDataOffset := 0;
     smodel.vertexDataSize := 128;
     smodel.indexDataOffset := 128;
     smodel.indexDataSize := 12;
     smodel.aabbMin := [0; 0; 0];
     smodel.aabbMax := [0; 0; 0] |}.

(** An sRGB texture of 100 encoded bytes at blob offset [imageOffset], with
    the sampler fields [e]. *)
Definition example_texture (imageOffset : Z) (e : SamplerFields)
  : smodel.SModelTextureRecord :=
  with_sampler_fields e
    {| smodel.tex_nameStrOffset := 0;
       smodel.uriStrOffset := 0;
       smodel.colorSpace := 1;
       smodel.encoding := 0;
       smodel.wrapU := 0;
       smodel.wrapV := 0;
       smodel.minFilter := 0;
       smodel.magFilter := 0;
       smodel.mipFilter := 0;
       smodel.maxAnisotropy := 0x3F800000;
       smodel.imageDataOffset := imageOffset;
       smodel.imageDataSize := 100;
       smodel.tex_reserved0 := 0;
       smodel.tex_reserved1 := 0 |}.

(** A material whose base colour is texture 0 and which has no other
    texture. *)
Definition example_material : smodel.SModelMaterialRecord :=
  {| smodel.mat_nameStrOffset := 0;
     smodel.baseColorFactor := [0x3F800000; 0x3F800000; 0x3F800000; 0x3F800000];
     smodel.emissiveFactor := [0; 0; 0];
     smodel.metallicFactor := 0x3F800000;
     smodel.roughnessFactor := 0x3F800000;
     smodel.normalScale := 0x3F800000;
     smodel.occlusionStrength := 0x3F800000;
     smodel.alphaCutoff := 0x3F000000;
     smodel.alphaMode := 0;
     smodel.doubleSided := 0;
     smodel.baseColorTexture := 0;
     smodel.normalTexture := -1;
     smodel.metallicRoughnessTexture := -1;
     smodel.occlusionTexture := -1;
     smodel.emissiveTexture := -1;
     smodel.baseColorTexCoord := 0;
     smodel.normalTexCoord := 0;
     smodel.metallicRoughnessTexCoord := 0;
     smodel.occlusionTexCoord := 0;
     smodel.emissiveTexCoord := 0;
     smodel.mat_reserved := 0 |}.

Definition example_primitive : smodel.SModelPrimitiveRecord :=
  {| smodel.meshIndex := 0;
     smodel.materialIndex := 0;
     smodel.firstIndex := 0;
     smodel.prim_indexCount := 6;
     smodel.vertexOffset := 0 |}.

Definition example_node : smodel.SModelNodeRecord :=
  {| smodel.parentIndex := UINT32_MAX;
     smodel.firstChildIndex := 0;
     smodel.childCount := 0;
     smodel.firstPrimitiveIndex := 0;
     smodel.node_primitiveCount := 0 |}.

Definition example_clip : smodel.SModelAnimationClipRecord :=
  {| smodel.nameOffset := 0;
     smodel.durationSec := 0x3F800000;
     smodel.firstChannel := 0;
     smodel.channelCount := 0 |}.

Definition example_channel : smodel.SModelAnimationChannelRecord :=
  {| smodel.targetNode := 0; smodel.path := 0; smodel.samplerIndex := 0 |}.

(** A linear Vec3 sampler over times 0..2 and values 0..8. *)
Definition example_sampler : smodel.SModelAnimationSamplerRecord :=
  {| smodel.firstTime := 0;
     smodel.timeCount := 3;
     smodel.firstValue := 0;
     smodel.valueCount := 9;
     smodel.interpolation := 1;
     smodel.valueType := 0 |}.

(** The times table: [0.0f], [0.5f], [0.2f] as binary32 bit patterns. *)
Definition example_times (i : Z) : Z :=
  if i =? 0 then 0x00000000
  else if i =? 1 then 0x3F000000
  else 0x3E4CCCCD.

(** The example file; every encoded image decodes to 64 x 32 pixels. *)
Definition example_image (nSamplers imageOffset : Z) (e : SamplerFields)
  : smodel.SModelImage :=
  {| smodel.img_header := example_header nSamplers;
     smodel.img_meshes := fun _ => example_mesh;
     smodel.img_primitives := fun _ => example_primitive;
     smodel.img_materials := fun _ => example_material;
     smodel.img_textures := fun _ => example_texture imageOffset e;
     smodel.img_nodes := fun _ => example_node;
     smodel.img_nodePrimitiveIndices := fun _ => 0;
     smodel.img_nodeChildIndices := fun _ => 0;
     smodel.img_animClips := fun _ => example_clip;
     smodel.img_animChannels := fun _ => example_channel;
     smodel.img_animSamplers := fun _ => example_sampler;
     smodel.img_animTimes := example_times;
     smodel.img_animValues := fun _ => 0;
     smodel.img_stringTable := [0; 0; 0; 0; 0; 0; 0; 0];
     smodel.img_stbi := fun _ _ => Some (64, 32) |}.

Definition example_file (img : smodel.SModelImage) : smodel.DiskFile :=
  {| smodel.df_tellg := 4096; smodel.df_read_ok := true; smodel.df_image := img |}.

(** The disk of the examples:
    - [quad.smodel]: the example file without animation;
    - [odd.smodel]: the same with sampler fields outside the known values;
    - [anim.smodel]: the same as [quad.smodel] with one animation sampler
      whose times are 0.0, 0.5, 0.2;
    - [wrap.smodel]: the same as [quad.smodel] with the texture's image at
      blob offset [2^64 - 50]. *)
Definition example_files : smodel.FileSystem := fun p =>
  if String.eqb p "quad.smodel"
  then Some (example_file (example_image 0 256 (Build_SamplerFields 0 0 1 1 2)))
  else if String.eqb p "odd.smodel"
  then Some (example_file (example_image 0 256 (Build_SamplerFields 7 9 5 4 3)))
  else if String.eqb p "anim.smodel"
  then Some (example_file (example_image 1 256 (Build_SamplerFields 0 0 1 1 2)))
  else if String.eqb p "wrap.smodel"
  then Some (example_file (example_image 0 (2 ^ 64 - 50) (Build_SamplerFields 0 0 1 1 2)))
  else None.

(** A platform where every call succeeds. *)
Definition example_platform : Platform :=
  {| layout := example_layout;
     files := example_files;
     smesh_files := fun _ => None;
     respond := fun _ _ => true |}.

(** A platform where [MeshAsset::upload] fails and every other call
    succeeds. *)
Definition mesh_upload_fails : Platform :=
  {| layout := example_layout;
     files := example_files;
     smesh_files := fun _ => None;
     respond := fun _ c =>
       match c with
       | MeshAsset_upload _ => false
       | _ => true
       end |}.

(** A manager holding one model, cached under [quad.smodel], whose
    reference count is [rc]. *)
Definition manager_with_model (rc : Z) : AssetManager :=
  set_modelPathCache (insert "quad.smodel" {| id := 1; h_generation := 1 |})
    (set_models (insert 1
       {| model_asset := Some {| model_primitives := []; model_debugName := [] |};
          model_generation := 1;
          model_refCount := rc;
          model_path := "quad.smodel";
          meshDeps := [];
          materialDeps := [] |})
       (set_nextModelID 2 AssetManager_new)).

(** A manager holding one texture whose reference count is [rc]. *)
Definition manager_with_texture (rc : Z) : AssetManager :=
  set_textures (insert 1
    {| texture_asset := Some TextureAsset_new;
       texture_generation := 1;
       texture_refCount := rc |})
    (set_nextTextureID 2 AssetManager_new).

(* ----------------------------------------------------------------- *)
(** *** Reference counts seen through a handle *)

(** The reference count of the entry handle [h] resolves to in the registry
    of kind [k]; [None] when [h] is stale or invalid. *)
Definition resolved_refCount (k : Kind) (s : AssetManager) (h : Handle) : option Z :=
  match k with
  | KMesh => refCount <$> resolve (m_meshes s) h
  | KTexture => refCount <$> resolve (m_textures s) h
  | KMaterial => refCount <$> resolve (m_materials s) h
  | KModel => refCount <$> resolve (m_models s) h
  end.

(* ----------------------------------------------------------------- *)
(** *** Auxiliary notions for the proofs *)

(** The model registry, the model path cache and the model counter are the
    same in [s'] as in [s]. *)
Definition keeps_models (s s' : AssetManager) : Prop :=
  m_models s' = m_models s /\ m_modelPathCache s' = m_modelPathCache s
  /\ m_nextModelID s' = m_nextModelID s.

(** The handle of the first model a fresh manager registers. *)
Definition quad_handle : ModelHandle := {| id := 1; h_generation := 1 |}.

(** The manager and the trace after loading [quad.smodel] into a fresh
    manager on the example platform. *)
Definition quad_loaded : AssetManager * Trace :=
  let r := loadModel example_platform "quad.smodel" AssetManager_new [] in (r.1.2, r.2).

(** The same after [n] calls of [addRef] on the model handle. *)
Definition quad_referenced (n : nat) : AssetManager :=
  Nat.iter n (addRef KModel quad_handle) quad_loaded.1.

(** Trace [t'] is [t] with newer events in front of it, all of which
    satisfy [Q]. *)
Definition extends_with (Q : Event -> bool) (t t' : Trace) : Prop :=
  exists evs, t' = evs ++ t /\ forallb Q evs = true.

(** What the texture loop may log: texture upload calls and texture
    registrations. *)
Definition is_texture_phase (e : Event) : bool :=
  is_texture_upload e || is_registered KTexture e.

(** What may be logged after the submit: anything but a submit, a texture
    upload call or a texture registration. *)
Definition is_build_phase (e : Event) : bool :=
  negb (is_submit e) && negb (is_texture_upload e) && negb (is_registered KTexture e).

(* ----------------------------------------------------------------- *)
(** *** How a registry may move *)

(** The entry under identifier [i] of kind [k] exists, carries generation 1
    and owns an asset. *)
Definition good_entry {E A : Type} `{RegistryEntry E A} (m : gmap Z E) (i : Z) : Prop :=
  exists e, m !! i = Some e /\ generation e = 1 /\ is_Some (asset e).

Definition good (k : Kind) (s : AssetManager) (i : Z) : Prop :=
  match k with
  | KMesh => good_entry (m_meshes s) i
  | KTexture => good_entry (m_textures s) i
  | KMaterial => good_entry (m_materials s) i
  | KModel => good_entry (m_models s) i
  end.

(** Between two states with their traces, kind [k] either registers
    nothing (counter and registrations as before, no new identifier in the
    registry) or registers exactly the identifier the counter stood on. *)
Definition kind_step (k : Kind) (st st' : AssetManager * Trace) : Prop :=
  (next_id k st'.1 = next_id k st.1
   /\ issued k st'.2 = issued k st.2
   /\ forall i, present k st'.1 i -> present k st.1 i)
  \/ (next_id k st'.1 = u64 (next_id k st.1 + 1)
      /\ issued k st'.2 = next_id k st.1 :: issued k st.2
      /\ forall i, present k st'.1 i -> present k st.1 i \/ i = next_id k st.1).

(** An entry of the later state is good, unless it was there before and
    was not good then. *)
Definition keeps_good (k : Kind) (st st' : AssetManager * Trace) : Prop :=
  forall i, present k st'.1 i ->
    (present k st.1 i /\ (good k st.1 i -> good k st'.1 i)) \/ good k st'.1 i.

(** A cached handle of the later state was cached before under the same
    path, or carries generation 1. *)
Definition caches_step (st st' : AssetManager * Trace) : Prop :=
  (forall p h, m_meshPathCache st'.1 !! p = Some h ->
     m_meshPathCache st.1 !! p = Some h \/ h_generation h = 1)
  /\ (forall p h, m_modelPathCache st'.1 !! p = Some h ->
        m_modelPathCache st.1 !! p = Some h \/ h_generation h = 1).

(** One move of the manager, as far as identifiers and generations are
    concerned. *)
Definition advance (st st' : AssetManager * Trace) : Prop :=
  (forall k, kind_step k st st' /\ keeps_good k st st') /\ caches_step st st'.

(** Any number of moves. *)
Definition advances : relation (AssetManager * Trace) := rtc advance.

(** Every cached handle carries generation 1. *)
Definition cached_gens_one (s : AssetManager) : Prop :=
  (forall p h, m_meshPathCache s !! p = Some h -> h_generation h = 1)
  /\ (forall p h, m_modelPathCache s !! p = Some h -> h_generation h = 1).

(** What holds of every reachable state: entries are good, cached handles
    carry generation 1, and while identifiers of kind [k] last, the counter
    is one more than the number of registrations, the registrations are
    1, 2, ... in order, and the registry holds registered identifiers
    only. *)
Definition registry_invariant (st : AssetManager * Trace) : Prop :=
  (forall k i, present k st.1 i -> good k st.1 i)
  /\ cached_gens_one st.1
  /\ (forall k, ids_left k st.2 ->
        next_id k st.1 = 1 + Z.of_nat (length (issued k st.2))
        /\ issued k st.2 = countdown (length (issued k st.2))
        /\ forall i, present k st.1 i -> 1 <= i < next_id k st.1).

(** An event that is a call. *)
Definition is_gpu (e : Event) : bool :=
  match e with
  | Gpu _ _ => true
  | Registered _ _ => false
  end.

(** The manager and trace inside the states of the loops of [loadModel]. *)
Definition tex_state (st : TexLoop) : AssetManager * Trace := (st.1.2, st.2).

Definition tex_exit_state (f : UploadContext * AssetManager * Trace)
  : AssetManager * Trace := (f.1.2, f.2).

Definition loop_state {H : Type} (st : H * AssetManager * Trace)
  : AssetManager * Trace := (st.1.2, st.2).

(** A handle the manager gives out: the default one, or one of
    generation 1. *)
Definition handed_out (h : Handle) : Prop :=
  h = Handle_default \/ h_generation h = 1.

(* ----------------------------------------------------------------- *)
(** *** Counting references *)

(** How often handle [h0] stands in a dependency list. *)
Definition occurrences (h0 : Handle) (deps : list Handle) : nat :=
  length (filter (fun h => h = h0) deps).

(** Identifier [i] has an entry of generation 1 whose count is at most
    [n]. *)
Definition bounded {E A : Type} `{RegistryEntry E A} (m : gmap Z E) (i : Z) (n : nat)
  : Prop :=
  exists e, m !! i = Some e /\ generation e = 1 /\ 0 <= refCount e <= Z.of_nat n.

(** The handle of generation 1 for identifier [i]. *)
Definition handle_of (i : Z) : Handle := {| id := i; h_generation := 1 |}.

(** The five texture slots of a material. *)
Definition material_textures (mat : MaterialAsset) : list TextureHandle :=
  [baseColorTexture mat; normalTexture mat; metallicRoughnessTexture mat;
   occlusionTexture mat; emissiveTexture mat].

(** What [garbageCollect] needs to take a model with all it holds in one
    pass: the model [imod] is unreferenced, the material [imat] is
    referenced no more often than the model lists it, the texture [itex] no
    more often than the material lists it, and the mesh [imesh], if there is
    one, no more often than the model lists it. *)
Definition cascade_ready (imod imat imesh itex : Z) (s : AssetManager) : Prop :=
  exists emod emat,
    m_models s !! imod = Some emod /\ model_refCount emod = 0
    /\ m_materials s !! imat = Some emat
    /\ bounded (m_materials s) imat (occurrences (handle_of imat) (materialDeps emod))
    /\ bounded (m_textures s) itex (occurrences (handle_of itex) (textureDeps emat))
    /\ (m_meshes s !! imesh = None
        \/ bounded (m_meshes s) imesh (occurrences (handle_of imesh) (meshDeps emod))).

(** [addRef] through a handle, when the handle is valid. *)
Definition addRef_valid (k : Kind) (h : Handle) (s : AssetManager) : AssetManager :=
  if isValid h then addRef k h s else s.

(** The list a valid handle is pushed on. *)
Definition valid_dep (h : Handle) : list Handle := if isValid h then [h] else [].

(** The handles of a loaded model of one primitive: the model holds one
    primitive; its mesh and material handles, and the
    texture handles of its material, are the handles of the entries the
    load registered, or the default handle. *)
Definition single_model (imod imat imesh itex : Z) (s : AssetManager) : Prop :=
  exists model prim,
    getModel s (handle_of imod) = Some model
    /\ model_primitives model = [prim]
    /\ (mesh prim = handle_of imesh \/ mesh prim = Handle_default)
    /\ (material prim = handle_of imat \/ material prim = Handle_default)
    /\ forall mat, getMaterial s (handle_of imat) = Some mat ->
         forall th, th ∈ material_textures mat ->
           th = handle_of itex \/ th = Handle_default.

(** Every cached model handle names an entry of the handle's generation
    that was registered under the cached path. *)
Definition model_cache_linked (s : AssetManager) : Prop :=
  forall p h, m_modelPathCache s !! p = Some h ->
    exists e, m_models s !! id h = Some e
              /\ model_generation e = h_generation h /\ model_path e = p.

(* ----------------------------------------------------------------- *)
(** *** Field widths *)

(** The counts of a header fit their [uint32_t] fields, its offsets and
    sizes their [uint64_t] fields. *)
Definition header_in_range (h : smodel.SModelHeader) : Prop :=
  Forall is_u32
    [smodel.meshCount h; smodel.primitiveCount h; smodel.materialCount h;
     smodel.textureCount h; smodel.nodeCount h; smodel.nodePrimitiveIndexCount h;
     smodel.nodeChildIndicesCount h; smodel.animClipsCount h;
     smodel.animChannelsCount h; smodel.animSamplersCount h;
     smodel.animTimesCount h; smodel.animValuesCount h]
  /\ Forall is_u64
       [smodel.meshesOffset h; smodel.primitivesOffset h; smodel.materialsOffset h;
        smodel.texturesOffset h; smodel.stringTableOffset h; smodel.stringTableSize h;
        smodel.blobOffset h; smodel.blobSize h; smodel.nodesOffset h;
        smodel.nodePrimitiveIndicesOffset h; smodel.nodeChildIndicesOffset h;
        smodel.animClipsOffset h; smodel.animChannelsOffset h;
        smodel.animSamplersOffset h; smodel.animTimesOffset h;
        smodel.animValuesOffset h].

(** The record sizes of a layout fit 32 bits. *)
Definition layout_in_range (L : smodel.Layout) : Prop :=
  0 <= smodel.sizeof_SModelPrimitiveRecord L < 2 ^ 32
  /\ 0 <= smodel.sizeof_SModelNodeRecord L < 2 ^ 32.

(** The five texture indices of a material record. *)
Definition material_texture_indices (m : smodel.SModelMaterialRecord) : list Z :=
  [smodel.baseColorTexture m; smodel.normalTexture m;
   smodel.metallicRoughnessTexture m; smodel.occlusionTexture m;
   smodel.emissiveTexture m].

(* ----------------------------------------------------------------- *)
(** *** A container with a node graph and an animation *)

(** A 4096-byte file like the example file, with two nodes (node 1 is the
    child of node 0 and draws primitive 0), one clip of one channel that
    moves node 1, and one sampler over three times and nine values. *)
Definition scene_header : smodel.SModelHeader :=
  {| smodel.magic := 0x444F4D53;
     smodel.versionMajor := 3;
     smodel.versionMinor := 0;
     smodel.fileSizeBytes := 4096;
     smodel.flags := 0;
     smodel.meshCount := 1;
     smodel.primitiveCount := 1;
     smodel.materialCount := 1;
     smodel.textureCount := 1;
     smodel.meshesOffset := 204;
     smodel.primitivesOffset := 284;
     smodel.materialsOffset := 304;
     smodel.texturesOffset := 408;
     smodel.stringTableOffset := 472;
     smodel.blobOffset := 1024;
     smodel.stringTableSize := 8;
     smodel.blobSize := 3072;
     smodel.nodeCount := 2;
     smodel.nodesOffset := 548;
     smodel.nodePrimitiveIndexCount := 1;
     smodel.nodePrimitiveIndicesOffset := 588;
     smodel.nodeChildIndicesCount := 1;
     smodel.nodeChildIndicesOffset := 592;
     smodel.animClipsCount := 1;
     smodel.animClipsOffset := 596;
     smodel.animChannelsCount := 1;
     smodel.animChannelsOffset := 612;
     smodel.animSamplersCount := 1;
     smodel.animSamplersOffset := 480;
     smodel.animTimesCount := 3;
     smodel.animTimesOffset := 500;
     smodel.animValuesCount := 9;
     smodel.animValuesOffset := 512 |}.

Definition scene_nodes (i : Z) : smodel.SModelNodeRecord :=
  if i =? 0
  then {| smodel.parentIndex := UINT32_MAX;
          smodel.firstChildIndex := 0;
          smodel.childCount := 1;
          smodel.firstPrimitiveIndex := 0;
          smodel.node_primitiveCount := 0 |}
  else {| smodel.parentIndex := 0;
          smodel.firstChildIndex := 0;
          smodel.childCount := 0;
          smodel.firstPrimitiveIndex := 0;
          smodel.node_primitiveCount := 1 |}.

(** The times [0.0f], [0.5f], [1.0f]. *)
Definition scene_times (i : Z) : Z :=
  if i =? 0 then 0x00000000
  else if i =? 1 then 0x3F000000
  else 0x3F800000.

(** The string table holds ["ab"] at offset 1 and the unterminated ["cde"]
    at offset 5. *)
Definition scene_image : smodel.SModelImage :=
  {| smodel.img_header := scene_header;
     smodel.img_meshes := fun _ => example_mesh;
     smodel.img_primitives := fun _ => example_primitive;
     smodel.img_materials := fun _ => example_material;
     smodel.img_textures := fun _ =>
       example_texture 256 (Build_SamplerFields 0 0 1 1 2);
     smodel.img_nodes := scene_nodes;
     smodel.img_nodePrimitiveIndices := fun _ => 0;
     smodel.img_nodeChildIndices := fun _ => 1;
     smodel.img_animClips := fun _ =>
       {| smodel.nameOffset := 1; smodel.durationSec := 0x3F800000;
          smodel.firstChannel := 0; smodel.channelCount := 1 |};
     smodel.img_animChannels := fun _ =>
       {| smodel.targetNode := 1; smodel.path := 0; smodel.samplerIndex := 0 |};
     smodel.img_animSamplers := fun _ => example_sampler;
     smodel.img_animTimes := scene_times;
     smodel.img_animValues := fun _ => 0;
     smodel.img_stringTable := [0; 97; 98; 0; 0; 99; 100; 101];
     smodel.img_stbi := fun _ _ => Some (64, 32) |}.

Definition scene_files : smodel.FileSystem := fun p =>
  if String.eqb p "scene.smodel" then Some (example_file scene_image) else None.

(** The sizes of the staging buffers a trace created, oldest first. *)
Fixpoint staged (t : Trace) : list Z :=
  match t with
  | [] => []
  | Gpu (CreateStagingBuffer n) true :: rest => staged rest ++ [n]
  | _ :: rest => staged rest
  end.

(** The calls that give a GPU object back. *)
Definition is_destroy_call (e : Event) : bool :=
  match e with
  | Gpu vkDestroySampler _ | Gpu vkDestroyImageView _ | Gpu vkDestroyImage _
  | Gpu vkFreeMemory _ | Gpu MeshAsset_destroy _ => true
  | _ => false
  end.

(** Every cached mesh handle names an entry of the handle's generation
    that was registered under the cached path. *)
Definition mesh_cache_linked (s : AssetManager) : Prop :=
  forall p h, m_meshPathCache s !! p = Some h ->
    exists e, m_meshes s !! id h = Some e
              /\ mesh_generation e = h_generation h /\ mesh_path e = p.

(** The mesh path cache is the same in [s'] as in [s], and every mesh
    entry of [s] is still there in [s'], up to its count. *)
Definition keeps_mesh_entries (s s' : AssetManager) : Prop :=
  m_meshPathCache s' = m_meshPathCache s
  /\ forall i e, m_meshes s !! i = Some e ->
       exists n, m_meshes s' !! i = Some (with_refCount n e).

(** A cooked mesh of three vertices and three 16-bit indices. *)
Definition triangle_mesh : MeshData :=
  {| md_vertexCount := 3; md_indexCount := 3; md_vertexStride := 32;
     md_indexFormat := 0;
     md_aabbMin := [0; 0; 0]; md_aabbMax := [0; 0; 0];
     md_vertexBytes := (0, 96);
     md_indices16 := Some (96, 6);
     md_indices32 := None |}.

(** The platform of the examples with one cooked mesh file beside the
    container. *)
Definition mesh_platform : Platform :=
  {| layout := example_layout;
     files := example_files;
     smesh_files := fun p => if String.eqb p "tri.smesh" then Some triangle_mesh else None;
     respond := fun _ _ => true |}.

(** Manager [s'] is [s] with nothing changed but the texture registry and
    its counter: every texture entry of [s] is still there as it was, and
    every texture entry that is new in [s'] has reference count zero. *)
Definition adds_idle_textures (s s' : AssetManager) : Prop :=
  m_meshes s' = m_meshes s /\ m_materials s' = m_materials s
  /\ m_models s' = m_models s
  /\ m_meshPathCache s' = m_meshPathCache s
  /\ m_modelPathCache s' = m_modelPathCache s
  /\ m_nextMeshID s' = m_nextMeshID s /\ m_nextMaterialID s' = m_nextMaterialID s
  /\ m_nextModelID s' = m_nextModelID s
  /\ forall i, m_textures s' !! i = m_textures s !! i
               \/ (m_textures s !! i = None
                   /\ exists e, m_textures s' !! i = Some e /\ texture_refCount e = 0).

(** A platform where the submit of the upload transaction fails and every
    other call succeeds. *)
Definition submit_fails : Platform :=
  {| layout := example_layout;
     files := example_files;
     smesh_files := fun _ => None;
     respond := fun _ c =>
       match c with
       | EndSubmitAndWait_call => false
       | _ => true
       end |}.

(* ----------------------------------------------------------------- *)
(** *** Counting what is open *)

(** The events that open or close a command pool: a
    [vkCreateCommandPool] that succeeded, and a [vkDestroyCommandPool]. *)
Definition is_pool_event (e : Event) : bool :=
  match e with
  | Gpu vkCreateCommandPool true | Gpu vkDestroyCommandPool _ => true
  | _ => false
  end.

(** The command pools open at the end of trace [t]: the pools created
    less the pools destroyed. *)
Fixpoint pools_open (t : Trace) : Z :=
  match t with
  | [] => 0
  | Gpu vkCreateCommandPool true :: rest => pools_open rest + 1
  | Gpu vkDestroyCommandPool _ :: rest => pools_open rest - 1
  | _ :: rest => pools_open rest
  end.

(** At every point of trace [t], no pool or one pool was open. *)
Fixpoint one_pool_at_a_time (t : Trace) : bool :=
  match t with
  | [] => true
  | e :: rest =>
      (0 <=? pools_open (e :: rest)) && (pools_open (e :: rest) <=? 1)
      && one_pool_at_a_time rest
  end.

(** [n] pools are open at the end of [t], and never more than one was. *)
Definition pool_state (n : Z) (t : Trace) : Prop :=
  pools_open t = n /\ one_pool_at_a_time t = true.

(** The events that bring a mesh buffer to life or end it: a
    [MeshAsset::upload] that succeeded, and a [MeshAsset::destroy]. *)
Definition is_mesh_event (e : Event) : bool :=
  match e with
  | Gpu (MeshAsset_upload _) true | Gpu MeshAsset_destroy _ => true
  | _ => false
  end.

(** The mesh buffers alive at the end of trace [t]: the uploads that
    succeeded less the buffers destroyed. *)
Fixpoint mesh_buffers (t : Trace) : Z :=
  match t with
  | [] => 0
  | Gpu (MeshAsset_upload _) true :: rest => mesh_buffers rest + 1
  | Gpu MeshAsset_destroy _ :: rest => mesh_buffers rest - 1
  | _ :: rest => mesh_buffers rest
  end.

(** The mesh buffers alive that no mesh entry accounts for. *)
Definition mesh_balance (st : AssetManager * Trace) : Z :=
  mesh_buffers st.2 - Z.of_nat (size (m_meshes st.1)).

(** A run from [st] to [st'] that leaves the balance as it was, as long as
    it starts in a state where the registry invariant holds and ends with
    mesh identifiers left. *)
Definition keeps_mesh_balance (st st' : AssetManager * Trace) : Prop :=
  advances st st'
  /\ (registry_invariant st -> ids_left KMesh st'.2 ->
      mesh_balance st' = mesh_balance st).

(** [AssetManager::~AssetManager]: [destroy] on every mesh and every
    texture that owns an asset, then all six maps are cleared.  The
    manager returned is what the members hold when the body is left. *)
Definition AssetManager_destroy (s : AssetManager) (t : Trace) : AssetManager * Trace :=
  let t1 :=
    foldl (fun acc (kv : Z * MeshEntry) =>
             match mesh_asset kv.2 with
             | Some _ => call_void MeshAsset_destroy acc
             | None => acc
             end) t (map_to_list (m_meshes s)) in
  let t2 :=
    foldl (fun acc (kv : Z * TextureEntry) =>
             match texture_asset kv.2 with
             | Some a => (TextureAsset_destroy a acc).2
             | None => acc
             end) t1 (map_to_list (m_textures s)) in
  ({| m_meshes := ∅; m_textures := ∅; m_materials := ∅; m_models := ∅;
      m_meshPathCache := ∅; m_modelPathCache := ∅;
      m_nextMeshID := m_nextMeshID s; m_nextTextureID := m_nextTextureID s;
      m_nextMaterialID := m_nextMaterialID s; m_nextModelID := m_nextModelID s |}, t2).

(** A texture asset that holds all four GPU objects, with nonzero
    dimensions and between 1 and 32 mip levels. *)
Definition complete (a : TextureAsset) : Prop :=
  m_image a = true /\ m_memory a = true /\ m_view a = true /\ m_sampler a = true
  /\ 0 < m_width a < 2 ^ 32 /\ 0 < m_height a < 2 ^ 32
  /\ 1 <= m_mipLevels a <= 32.

(** Every texture entry owns a complete asset. *)
Definition textures_complete (s : AssetManager) : Prop :=
  forall i e, m_textures s !! i = Some e ->
    exists a, texture_asset e = Some a /\ complete a.

(* ================================================================= *)
(** * Properties *)

(* ================================================================= *)
(** ** Loops with an early exit *)

Lemma for_from_first_error (body : Z -> Res unit) (i : Z) (n : nat) (k : Z) (e : string) :
  i <= k < i + Z.of_nat n ->
  (forall j, i <= j < k -> body j = inr tt) ->
  body k = inl e ->
  for_from body i n = inl e.
Proof.
  revert i. induction n as [|n IH]; intros i Hk Hbefore Hat.
  - lia.
  - simpl. destruct (Z.eq_dec i k) as [->|Hne].
    + now rewrite Hat.
    + rewrite (Hbefore i) by lia. apply IH; [lia | | exact Hat].
      intros j Hj. apply Hbefore. lia.
Qed.

Lemma for_from_all_ok (body : Z -> Res unit) (i : Z) (n : nat) :
  (forall j, i <= j < i + Z.of_nat n -> body j = inr tt) ->
  for_from body i n = inr tt.
Proof.
  revert i. induction n as [|n IH]; intros i Hall; simpl; [reflexivity|].
  rewrite (Hall i) by lia. apply IH. intros j Hj. apply Hall. lia.
Qed.

Lemma for_from_ok_inv (body : Z -> Res unit) (i : Z) (n : nat) :
  for_from body i n = inr tt ->
  forall j, i <= j < i + Z.of_nat n -> body j = inr tt.
Proof.
  revert i. induction n as [|n IH]; intros i Hok j Hj; [lia|].
  simpl in Hok. destruct (body i) as [e|[]] eqn:Hi; [discriminate|].
  destruct (Z.eq_dec j i) as [->|Hne]; [exact Hi|].
  apply (IH (i + 1)); [exact Hok | lia].
Qed.

Lemma for_from_ext (f g : Z -> Res unit) (i : Z) (n : nat) :
  (forall j, i <= j < i + Z.of_nat n -> f j = g j) ->
  for_from f i n = for_from g i n.
Proof.
  revert i. induction n as [|n IH]; intros i Hfg; simpl; [reflexivity|].
  rewrite <- (Hfg i) by lia. destruct (f i); [reflexivity|].
  apply IH. intros j Hj. apply Hfg. lia.
Qed.

(** A loop whose body rejects with one fixed reason fails with that reason
    as soon as some round rejects. *)
Lemma for_from_reject_some (p : Z -> bool) (msg : string) (i : Z) (n : nat) (k : Z) :
  i <= k < i + Z.of_nat n ->
  p k = true ->
  for_from (fun j => reject (p j) msg) i n = inl msg.
Proof.
  revert i. induction n as [|n IH]; intros i Hk Hp; [lia|].
  simpl. destruct (p i) eqn:Hi; simpl; [reflexivity|].
  apply IH; [|exact Hp]. destruct (Z.eq_dec i k) as [->|]; [congruence | lia].
Qed.

Lemma for_from_reject_none (p : Z -> bool) (msg : string) (i : Z) (n : nat) :
  for_from (fun j => reject (p j) msg) i n = inr tt ->
  forall k, i <= k < i + Z.of_nat n -> p k = false.
Proof.
  intros Hok k Hk. pose proof (for_from_ok_inv _ _ _ Hok k Hk) as H.
  simpl in H. destruct (p k); [discriminate | reflexivity].
Qed.

(* ================================================================= *)
(** ** The container reader *)

Section Reader.

Import smodel.

(** With a file size below [2^63] (it comes from a positive
    [std::streamsize]) the three comparisons of [isRangeInsideFile] admit
    no wrapped sum. *)
Lemma isRangeInsideFile_sound (begin size fileSize : Z) :
  0 <= begin -> 0 <= size -> fileSize < 2 ^ 63 ->
  isRangeInsideFile begin size fileSize = true ->
  begin + size <= fileSize.
Proof.
  intros Hb Hs Hf. unfold isRangeInsideFile, u64.
  destruct (fileSize <? begin) eqn:H1; [discriminate|].
  destruct (fileSize <? size) eqn:H2; [discriminate|].
  destruct (fileSize <? (begin + size) mod 2 ^ 64) eqn:H3; [discriminate|].
  intros _. apply Z.ltb_ge in H1, H2, H3.
  rewrite Z.mod_small in H3 by lia. exact H3.
Qed.

(** A table of 32-bit many records of less than [2^32] bytes each that
    [tableRangeValid] accepts lies inside the file. *)
Lemma tableRangeValid_sound (sizeofT tableOffset count fileSize : Z) :
  0 <= sizeofT < 2 ^ 32 -> is_u32 count -> 0 <= tableOffset ->
  fileSize < 2 ^ 63 ->
  tableRangeValid sizeofT tableOffset count fileSize = inr tt ->
  tableOffset + count * sizeofT <= fileSize.
Proof.
  intros Hsz Hc Ho Hf. unfold tableRangeValid.
  destruct (isRangeInsideFile _ _ _) eqn:Hin; [|discriminate].
  intros _. unfold is_u32 in Hc.
  assert (0 <= count * sizeofT < 2 ^ 64) as Hp by nia.
  unfold u64 in Hin. rewrite Z.mod_small in Hin by exact Hp.
  apply isRangeInsideFile_sound in Hin; lia.
Qed.

(** The blob-slice test of [validate_texture] is the bare comparison of a
    64-bit sum: an offset and a size whose sum passes [2^64] are accepted
    whenever the wrapped sum is small. *)
Lemma validate_texture_wraps (v : SModelFileView) (i : Z) :
  let t := img_textures (fileBytes v) i in
  is_u64 (imageDataOffset t) -> is_u64 (imageDataSize t) ->
  2 ^ 64 <= imageDataOffset t + imageDataSize t ->
  imageDataOffset t + imageDataSize t - 2 ^ 64 <= blobSize (header v) ->
  validate_texture v i = inr tt.
Proof.
  intros t Ho Hs Hsum Hle. unfold validate_texture, reject, u64. fold t.
  unfold is_u64 in Ho, Hs.
  replace ((imageDataOffset t + imageDataSize t) mod 2 ^ 64)
    with (imageDataOffset t + imageDataSize t - 2 ^ 64).
  - destruct (Z.ltb_spec (blobSize (header v))
                (imageDataOffset t + imageDataSize t - 2 ^ 64)); [lia | reflexivity].
  - apply Z.mod_unique_pos with (q := 1); lia.
Qed.

End Reader.

(** C2 (evaluation at the failing input).  In [wrap.smodel] the texture
    record places its 100 image bytes at blob offset [2^64 - 50]: offset and
    size are two 64-bit values whose sum exceeds the blob size (and [2^64]),
    so the slice does not lie inside the blob; [LoadSModelFile] nevertheless
    accepts the file, because [validate_texture] compares the wrapped
    sum (50) with the blob size. *)
Theorem C2_wrapped_blob_slice_is_accepted :
  let img := example_image 0 (2 ^ 64 - 50) (Build_SamplerFields 0 0 1 1 2) in
  let t := smodel.img_textures img 0 in
  is_u64 (smodel.imageDataOffset t) /\ is_u64 (smodel.imageDataSize t)
  /\ smodel.blobSize (smodel.img_header img)
     < smodel.imageDataOffset t + smodel.imageDataSize t
  /\ u64 (smodel.imageDataOffset t + smodel.imageDataSize t) = 50
  /\ is_ok (smodel.LoadSModelFile example_layout example_files "wrap.smodel") = true.
Proof.
  cbv zeta. unfold is_u64. simpl.
  repeat split; try lia; vm_compute; reflexivity.
Qed.

(** C8.  A container that passes every check made before the sampler loop,
    whose samplers before [si] are valid and whose sampler [si] passes its
    range and enum checks but has a time smaller than the time before it, is
    rejected by [LoadSModelFile] with the non-decreasing-times reason: no
    view is produced. *)
Theorem C8_decreasing_times_are_rejected (L : smodel.Layout) (fs : smodel.FileSystem)
    (path : string) (v : smodel.SModelFileView) (si ti : Z) :
  smodel.LoadSModelFile_before_samplers L fs path = inr v ->
  0 <= si < smodel.animSamplersCount (smodel.header v) ->
  (forall j, 0 <= j < si -> smodel.validate_sampler v j = inr tt) ->
  smodel.validate_sampler_ranges v si = inr tt ->
  1 <= ti < smodel.timeCount (smodel.img_animSamplers (smodel.fileBytes v) si) ->
  smodel.time_decreases v (smodel.img_animSamplers (smodel.fileBytes v) si) ti = true ->
  smodel.LoadSModelFile L fs path = inl smodel.times_not_nondecreasing.
Proof.
  intros Hpre Hsi Hbefore Hranges Hti Hdec.
  unfold smodel.LoadSModelFile. rewrite Hpre. simpl.
  assert (smodel.validate_sampler v si = inl smodel.times_not_nondecreasing) as Hat.
  { unfold smodel.validate_sampler. rewrite Hranges. simpl.
    unfold smodel.validate_sampler_times.
    apply for_from_reject_some with (k := ti); [lia | exact Hdec]. }
  unfold for_u32.
  rewrite (for_from_first_error _ 0 _ si smodel.times_not_nondecreasing);
    [reflexivity | lia | | exact Hat].
  intros j Hj. apply Hbefore. lia.
Qed.

(** C8 at [anim.smodel]: one sampler with times 0.0, 0.5, 0.2. *)
Lemma C8_witness :
  smodel.LoadSModelFile example_layout example_files "anim.smodel"
  = inl smodel.times_not_nondecreasing.
Proof.
  eapply (C8_decreasing_times_are_rejected example_layout example_files
            "anim.smodel" _ 0 2).
  - vm_compute. reflexivity.
  - vm_compute. split; [discriminate | reflexivity].
  - intros j Hj. lia.
  - vm_compute. reflexivity.
  - vm_compute. split; [discriminate | reflexivity].
  - vm_compute. reflexivity.
Defined.

(* ================================================================= *)
(** ** One registry: [resolve], [addRef], [release] *)

Section Registry.

Context {E A : Type} {RE : RegistryEntry E A}.

Implicit Types (m : gmap Z E) (h : Handle) (e : E).

Lemma resolve_Some m h e :
  resolve m h = Some e <-> m !! id h = Some e /\ generation e = h_generation h.
Proof.
  unfold resolve. destruct (m !! id h) as [e'|].
  - destruct (Z.eqb_spec (generation e') (h_generation h)) as [Hg|Hg].
    + split; [intros [= <-]; auto | intros [[= <-] _]; reflexivity].
    + split; [discriminate | intros [[= <-] Hg']; contradiction].
  - split; [discriminate | intros [? _]; discriminate].
Qed.

Lemma resolve_None_lookup m h : m !! id h = None -> resolve m h = None.
Proof. unfold resolve. intros ->. reflexivity. Qed.

Lemma registry_get_None_lookup m h : m !! id h = None -> registry_get m h = None.
Proof. unfold registry_get. intros Hm. now rewrite resolve_None_lookup. Qed.

Lemma lookup_registry_addRef m h i :
  registry_addRef m h !! i =
    match resolve m h with
    | Some e =>
        if decide (id h = i) then Some (with_refCount (u32 (refCount e + 1)) e)
        else m !! i
    | None => m !! i
    end.
Proof.
  unfold registry_addRef. destruct (resolve m h); [|reflexivity].
  apply lookup_insert.
Qed.

Lemma lookup_registry_release m h i :
  registry_release m h !! i =
    match resolve m h with
    | Some e =>
        if decide (id h = i)
        then Some (if 0 <? refCount e then with_refCount (refCount e - 1) e else e)
        else m !! i
    | None => m !! i
    end.
Proof.
  unfold registry_release. destruct (resolve m h) as [e|] eqn:Hr; [|reflexivity].
  apply resolve_Some in Hr as [Hm _].
  destruct (0 <? refCount e).
  - apply lookup_insert.
  - destruct (decide (id h = i)) as [<-|]; [exact Hm | reflexivity].
Qed.

(** [addRef] then [release] through the same handle puts the registry back
    as it was, unless the count stood at its 32-bit maximum. *)
Lemma registry_release_addRef m h :
  (forall e, resolve m h = Some e -> 0 <= refCount e < UINT32_MAX) ->
  registry_release (registry_addRef m h) h = m.
Proof.
  intros Hrc. unfold registry_addRef.
  destruct (resolve m h) as [e|] eqn:Hr.
  - specialize (Hrc e eq_refl). unfold UINT32_MAX in Hrc.
    pose proof Hr as Hr'. apply resolve_Some in Hr' as [Hm Hg].
    unfold registry_release.
    assert (resolve (<[id h := with_refCount (u32 (refCount e + 1)) e]> m) h
            = Some (with_refCount (u32 (refCount e + 1)) e)) as ->.
    { apply resolve_Some. rewrite lookup_insert_eq, generation_with_refCount. done. }
    rewrite refCount_with_refCount. unfold u32.
    rewrite Z.mod_small by lia.
    destruct (Z.ltb_spec 0 (refCount e + 1)); [|lia].
    rewrite with_refCount_twice, insert_insert_eq.
    replace (refCount e + 1 - 1) with (refCount e) by lia.
    rewrite with_refCount_same. now apply insert_id.
  - unfold registry_release. now rewrite Hr.
Qed.

End Registry.

(* ================================================================= *)
(** ** [addRef] followed by [release] *)

Lemma set_meshes_same (f : gmap Z MeshEntry -> gmap Z MeshEntry) (s : AssetManager) :
  f (m_meshes s) = m_meshes s -> set_meshes f s = s.
Proof. destruct s. unfold set_meshes. simpl. now intros ->. Qed.

Lemma set_textures_same (f : gmap Z TextureEntry -> gmap Z TextureEntry) (s : AssetManager) :
  f (m_textures s) = m_textures s -> set_textures f s = s.
Proof. destruct s. unfold set_textures. simpl. now intros ->. Qed.

Lemma set_materials_same (f : gmap Z MaterialEntry -> gmap Z MaterialEntry)
    (s : AssetManager) :
  f (m_materials s) = m_materials s -> set_materials f s = s.
Proof. destruct s. unfold set_materials. simpl. now intros ->. Qed.

Lemma set_models_same (f : gmap Z ModelEntry -> gmap Z ModelEntry) (s : AssetManager) :
  f (m_models s) = m_models s -> set_models f s = s.
Proof. destruct s. unfold set_models. simpl. now intros ->. Qed.

(** C6, amended.  For every manager state, every kind and every handle [h]
    (resolving, stale or invalid): if the entry [h] resolves to, when there
    is one, holds a count below the 32-bit maximum, then [addRef(h)]
    followed by [release(h)] leaves the manager, and with it the reference
    count of every entry of every registry, as it was. *)
Theorem C6_addRef_then_release_restores (k : Kind) (h : Handle) (s : AssetManager) :
  (forall rc, resolved_refCount k s h = Some rc -> 0 <= rc < UINT32_MAX) ->
  release k h (addRef k h s) = s
  /\ forall k' i, refCount_of k' (release k h (addRef k h s)) i = refCount_of k' s i.
Proof.
  intros Hrc.
  assert (release k h (addRef k h s) = s) as Heq.
  { destruct k; simpl in *.
    - unfold release_Mesh, addRef_Mesh. destruct s; unfold set_meshes; simpl in *.
      f_equal. apply registry_release_addRef. intros e He. apply Hrc. now rewrite He.
    - unfold release_Texture, addRef_Texture. destruct s; unfold set_textures; simpl in *.
      f_equal. apply registry_release_addRef. intros e He. apply Hrc. now rewrite He.
    - unfold release_Material, addRef_Material.
      destruct s; unfold set_materials; simpl in *.
      f_equal. apply registry_release_addRef. intros e He. apply Hrc. now rewrite He.
    - unfold release_Model, addRef_Model. destruct s; unfold set_models; simpl in *.
      f_equal. apply registry_release_addRef. intros e He. apply Hrc. now rewrite He. }
  split; [exact Heq|]. intros k' i. now rewrite Heq.
Qed.

(** C6 at a texture with count 1, through its handle. *)
Lemma C6_witness :
  release KTexture {| id := 1; h_generation := 1 |}
    (addRef KTexture {| id := 1; h_generation := 1 |} (manager_with_texture 1))
  = manager_with_texture 1.
Proof.
  apply (C6_addRef_then_release_restores KTexture {| id := 1; h_generation := 1 |}
           (manager_with_texture 1)).
  intros rc Hrc. vm_compute in Hrc. injection Hrc as <-. unfold UINT32_MAX. lia.
Defined.

(** C6 as stated fails at a count of [2^32 - 1]: [addRef] wraps the count
    to 0 and [release] leaves a zero count alone. *)
Lemma C6_counterexample :
  refCount_of KTexture (manager_with_texture UINT32_MAX) 1 = Some 4294967295
  /\ refCount_of KTexture
       (release KTexture {| id := 1; h_generation := 1 |}
          (addRef KTexture {| id := 1; h_generation := 1 |}
             (manager_with_texture UINT32_MAX))) 1
     = Some 0.
Proof. split; vm_compute; reflexivity. Qed.

(* ================================================================= *)
(** ** Parse failures *)

(** C5.  When [loadModel] gets as far as parsing (the path is not cached)
    and [LoadSModelFile] fails, it returns the invalid handle, and the
    manager (registries, path caches, counters) and the trace of calls are
    exactly what they were. *)
Theorem C5_parse_failure_changes_nothing (P : Platform) (path : string)
    (s : AssetManager) (t : Trace) (e : string) :
  m_modelPathCache s !! path = None ->
  smodel.LoadSModelFile (layout P) (files P) path = inl e ->
  loadModel P path s t = (Handle_default, s, t) /\ isValid Handle_default = false.
Proof.
  intros Hmiss Hfail. unfold loadModel. rewrite Hmiss, Hfail. split; reflexivity.
Qed.

(** C5 at a file that does not exist. *)
Lemma C5_witness :
  loadModel example_platform "missing.smodel" AssetManager_new []
  = (Handle_default, AssetManager_new, [])
  /\ isValid Handle_default = false.
Proof.
  apply (C5_parse_failure_changes_nothing example_platform "missing.smodel"
           AssetManager_new [] "Failed to open file: missing.smodel").
  - reflexivity.
  - vm_compute. reflexivity.
Defined.

(* ================================================================= *)
(** ** Sampler settings are mapped, never checked *)

Lemma toVkWrap_default (w : Z) : ~ (0 <= w <= 2) -> toVkWrap w = VK_SAMPLER_ADDRESS_MODE_REPEAT.
Proof.
  intros Hw. unfold toVkWrap.
  destruct (Z.eqb_spec w 1); [lia|]. destruct (Z.eqb_spec w 2); [lia|]. reflexivity.
Qed.

Lemma toVkFilter_default (f : Z) : ~ (0 <= f <= 1) -> toVkFilter f = VK_FILTER_NEAREST.
Proof. intros Hf. unfold toVkFilter. destruct (Z.eqb_spec f 1); [lia|]. reflexivity. Qed.

Lemma toVkMip_default (m : Z) : ~ (0 <= m <= 2) -> toVkMip m = VK_SAMPLER_MIPMAP_MODE_NEAREST.
Proof.
  intros Hm. unfold toVkMip.
  destruct (Z.eqb_spec m 1); [reflexivity|]. destruct (Z.eqb_spec m 2); [lia|]. reflexivity.
Qed.

Lemma unrecognized_same_vk (e1 e2 : SamplerFields) :
  unrecognized_sampler e1 -> unrecognized_sampler e2 -> same_vk_sampler e1 e2.
Proof.
  intros (H1 & H2 & H3 & H4 & H5) (K1 & K2 & K3 & K4 & K5).
  unfold same_vk_sampler.
  rewrite !toVkWrap_default, !toVkFilter_default, !toVkMip_default by assumption.
  repeat split.
Qed.

Section ReaderSamplers.

Import smodel.


Lemma read_and_check_header_with_samplers L fs path g :
  read_and_check_header L (fun p => file_with_samplers g <$> fs p) path
  = res_map (fun '(sz, img) => (sz, with_samplers g img)) (read_and_check_header L fs path).
Proof.
  unfold read_and_check_header. destruct (fs path) as [f|]; simpl; [|reflexivity].
  destruct (df_tellg f <=? 0); simpl; [reflexivity|].
  destruct (df_read_ok f); simpl; [|reflexivity].
  destruct (df_tellg f <? sizeof_SModelHeader L); simpl; [reflexivity|].
  destruct (isHeaderCompatible L (img_header (df_image f))); simpl; [|reflexivity].
  destruct (negb (fileSizeBytes (img_header (df_image f)) =? 0) &&
            negb (fileSizeBytes (img_header (df_image f)) =? df_tellg f)); reflexivity.
Qed.

Lemma build_view_with_samplers img sz g :
  build_view (with_samplers g img) sz = res_map (view_with_samplers g) (build_view img sz).
Proof.
  unfold build_view. simpl.
  destruct (ptrAt _ _ (animClipsOffset _) _); simpl; [reflexivity|].
  destruct (ptrAt _ _ (animChannelsOffset _) _); simpl; [reflexivity|].
  destruct (ptrAt _ _ (animSamplersOffset _) _); simpl; [reflexivity|].
  destruct (ptrAt _ _ (animTimesOffset _) _); simpl; [reflexivity|].
  destruct (ptrAt _ _ (animValuesOffset _) _); simpl; reflexivity.
Qed.

Lemma before_samplers_with_samplers L fs path g :
  LoadSModelFile_before_samplers L (fun p => file_with_samplers g <$> fs p) path
  = res_map (view_with_samplers g) (LoadSModelFile_before_samplers L fs path).
Proof.
  unfold LoadSModelFile_before_samplers.
  rewrite read_and_check_header_with_samplers.
  destruct (read_and_check_header L fs path) as [e|[sz img]]; simpl; [reflexivity|].
  destruct (validate_section_bounds L (img_header img) sz); simpl; [reflexivity|].
  rewrite build_view_with_samplers.
  destruct (build_view img sz) as [e|v]; simpl; [reflexivity|].
  change (for_u32 (meshCount (header v)) (validate_mesh (view_with_samplers g v)))
    with (for_u32 (meshCount (header v)) (validate_mesh v)).
  destruct (for_u32 (meshCount (header v)) (validate_mesh v)); simpl; [reflexivity|].
  change (for_u32 (textureCount (header v)) (validate_texture (view_with_samplers g v)))
    with (for_u32 (textureCount (header v)) (validate_texture v)).
  destruct (for_u32 (textureCount (header v)) (validate_texture v)); simpl; [reflexivity|].
  change (for_u32 (primitiveCount (header v)) (validate_primitive (view_with_samplers g v)))
    with (for_u32 (primitiveCount (header v)) (validate_primitive v)).
  destruct (for_u32 (primitiveCount (header v)) (validate_primitive v)); simpl; [reflexivity|].
  change (for_u32 (materialCount (header v)) (validate_material (view_with_samplers g v)))
    with (for_u32 (materialCount (header v)) (validate_material v)).
  destruct (for_u32 (materialCount (header v)) (validate_material v)); simpl; [reflexivity|].
  change (for_u32 (nodeCount (header v)) (validate_node (view_with_samplers g v)))
    with (for_u32 (nodeCount (header v)) (validate_node v)).
  destruct (if 0 <? nodeCount (header v) then _ else _); simpl; [reflexivity|].
  change (check_anim_pointers (view_with_samplers g v)) with (check_anim_pointers v).
  destruct (check_anim_pointers v); simpl; [reflexivity|].
  change (for_u32 (animClipsCount (header v)) (validate_clip (view_with_samplers g v)))
    with (for_u32 (animClipsCount (header v)) (validate_clip v)).
  destruct (for_u32 (animClipsCount (header v)) (validate_clip v)); simpl; [reflexivity|].
  change (for_u32 (animChannelsCount (header v)) (validate_channel (view_with_samplers g v)))
    with (for_u32 (animChannelsCount (header v)) (validate_channel v)).
  destruct (for_u32 (animChannelsCount (header v)) (validate_channel v)); reflexivity.
Qed.

Lemma LoadSModelFile_with_samplers L fs path g :
  LoadSModelFile L (fun p => file_with_samplers g <$> fs p) path
  = res_map (view_with_samplers g) (LoadSModelFile L fs path).
Proof.
  unfold LoadSModelFile. rewrite before_samplers_with_samplers.
  destruct (LoadSModelFile_before_samplers L fs path) as [e|v]; simpl; [reflexivity|].
  change (for_u32 (animSamplersCount (header v)) (validate_sampler (view_with_samplers g v)))
    with (for_u32 (animSamplersCount (header v)) (validate_sampler v)).
  destruct (for_u32 (animSamplersCount (header v)) (validate_sampler v)); reflexivity.
Qed.

End ReaderSamplers.

Lemma iter_until_ext {St F : Type} (f g : Z -> St -> F + St) (i : Z) (n : nat) (s : St) :
  (forall j st, i <= j < i + Z.of_nat n -> f j st = g j st) ->
  iter_until f i n s = iter_until g i n s.
Proof.
  revert i s. induction n as [|n IH]; intros i s Hfg; simpl; [reflexivity|].
  rewrite <- (Hfg i s) by lia. destruct (f i s); [reflexivity|].
  apply IH. intros j st Hj. apply Hfg. lia.
Qed.

Lemma upload_texture_with_samplers P v g g' i st :
  same_vk_sampler (g i) (g' i) ->
  upload_texture P (view_with_samplers g v) i st
  = upload_texture P (view_with_samplers g' v) i st.
Proof.
  intros (H1 & H2 & H3 & H4 & H5).
  destruct st as [[[th up] s] t]. unfold upload_texture. simpl.
  rewrite H1, H2, H3, H4, H5. reflexivity.
Qed.

Lemma loadModel_upload_with_samplers P path v g g' s t :
  (forall i, same_vk_sampler (g i) (g' i)) ->
  loadModel_upload P path (view_with_samplers g v) s t
  = loadModel_upload P path (view_with_samplers g' v) s t.
Proof.
  intros Hsame. unfold loadModel_upload.
  destruct (call P vkCreateCommandPool t) as [pr t1].
  destruct (negb pr); [reflexivity|].
  destruct (BeginUploadContext P t1) as [[begunOk upload] t2].
  destruct (negb begunOk); [reflexivity|].
  change (smodel.header (view_with_samplers g v)) with (smodel.header v).
  change (smodel.header (view_with_samplers g' v)) with (smodel.header v).
  rewrite (iter_until_ext (upload_texture P (view_with_samplers g v))
             (upload_texture P (view_with_samplers g' v)))
    by (intros; apply upload_texture_with_samplers, Hsame).
  destruct (iter_until _ _ _ _) as [[[upload1 s1] t3]|[[[ths upload1] s1] t3]];
    [reflexivity|].
  destruct (EndSubmitAndWait P upload1 t3) as [[submitted ?] t4].
  destruct (negb submitted); reflexivity.
Qed.

Lemma loadModel_with_samplers P path s t g g' :
  (forall i, same_vk_sampler (g i) (g' i)) ->
  loadModel (platform_with_samplers g P) path s t
  = loadModel (platform_with_samplers g' P) path s t.
Proof.
  intros Hsame. unfold loadModel.
  destruct (m_modelPathCache s !! path); [reflexivity|].
  change (layout (platform_with_samplers g P)) with (layout P).
  change (layout (platform_with_samplers g' P)) with (layout P).
  change (files (platform_with_samplers g P))
    with (fun p => file_with_samplers g <$> files P p).
  change (files (platform_with_samplers g' P))
    with (fun p => file_with_samplers g' <$> files P p).
  rewrite !LoadSModelFile_with_samplers.
  destruct (smodel.LoadSModelFile (layout P) (files P) path) as [e|v]; simpl;
    [reflexivity|].
  change (loadModel_upload (platform_with_samplers g P))
    with (loadModel_upload P).
  change (loadModel_upload (platform_with_samplers g' P))
    with (loadModel_upload P).
  apply loadModel_upload_with_samplers, Hsame.
Qed.

Lemma known_or_zero_range hi x : 0 <= hi -> 0 <= known_or_zero hi x <= hi.
Proof.
  intros Hhi. unfold known_or_zero.
  destruct (Z.leb_spec 0 x); destruct (Z.leb_spec x hi); cbn; lia.
Qed.

Lemma toVkWrap_known_or_zero w : toVkWrap (known_or_zero 2 w) = toVkWrap w.
Proof.
  unfold known_or_zero.
  destruct (Z.leb_spec 0 w); destruct (Z.leb_spec w 2); cbn [andb]; try reflexivity;
    unfold toVkWrap; destruct (Z.eqb_spec w 1); try lia;
    destruct (Z.eqb_spec w 2); try lia; reflexivity.
Qed.

Lemma toVkFilter_known_or_zero f : toVkFilter (known_or_zero 1 f) = toVkFilter f.
Proof.
  unfold known_or_zero.
  destruct (Z.leb_spec 0 f); destruct (Z.leb_spec f 1); cbn [andb]; try reflexivity;
    unfold toVkFilter; destruct (Z.eqb_spec f 1); try lia; reflexivity.
Qed.

Lemma toVkMip_known_or_zero m : toVkMip (known_or_zero 2 m) = toVkMip m.
Proof.
  unfold known_or_zero.
  destruct (Z.leb_spec 0 m); destruct (Z.leb_spec m 2); cbn [andb]; try reflexivity;
    unfold toVkMip; destruct (Z.eqb_spec m 1); try lia;
    destruct (Z.eqb_spec m 2); try lia; reflexivity.
Qed.

Lemma in_range_sampler_in_range e : sampler_in_range (in_range_sampler e).
Proof. unfold sampler_in_range, in_range_sampler; cbn. repeat split; apply known_or_zero_range; lia. Qed.

Lemma in_range_sampler_same_vk e : same_vk_sampler e (in_range_sampler e).
Proof.
  unfold same_vk_sampler, in_range_sampler; cbn.
  rewrite !toVkWrap_known_or_zero, !toVkFilter_known_or_zero, !toVkMip_known_or_zero.
  repeat split.
Qed.

(** C10.  Out-of-range wrap, filter and mip values map to repeat, nearest
    and nearest.  The reader never looks at the five sampler fields: on a
    file whose sampler fields are replaced in any way it does what it does
    on the original file.  [loadModel] sees them only through the three
    mappings: two containers that differ only in sampler fields that the
    mappings send to the same Vulkan settings are loaded with the same
    handle, the same manager state and the same calls, so that the one
    loads successfully whenever the other does.  In particular a container
    with out-of-range fields loads exactly as the container in which each
    such field is replaced by the in-range value 0. *)
Theorem C10_sampler_enums_are_never_validated (P : Platform) (path : string)
    (s : AssetManager) (t : Trace) (g g' : Z -> SamplerFields) :
  (forall i, same_vk_sampler (g i) (g' i)) ->
  let r := loadModel (platform_with_samplers g P) path s t in
  let r' := loadModel (platform_with_samplers g' P) path s t in
  let r0 := loadModel (platform_with_samplers (fun i => in_range_sampler (g i)) P)
              path s t in
  (forall w, ~ (0 <= w <= 2) -> toVkWrap w = VK_SAMPLER_ADDRESS_MODE_REPEAT)
  /\ (forall f, ~ (0 <= f <= 1) -> toVkFilter f = VK_FILTER_NEAREST)
  /\ (forall m, ~ (0 <= m <= 2) -> toVkMip m = VK_SAMPLER_MIPMAP_MODE_NEAREST)
  /\ smodel.LoadSModelFile (layout P) (files (platform_with_samplers g P)) path
     = res_map (view_with_samplers g) (smodel.LoadSModelFile (layout P) (files P) path)
  /\ r = r'
  /\ (isValid r'.1.1 = true -> isValid r.1.1 = true)
  /\ (forall i, sampler_in_range (in_range_sampler (g i)))
  /\ r = r0.
Proof.
  intros Hsame. cbv zeta.
  split; [exact toVkWrap_default|].
  split; [exact toVkFilter_default|].
  split; [exact toVkMip_default|].
  split; [apply LoadSModelFile_with_samplers|].
  assert (Hrr' : loadModel (platform_with_samplers g P) path s t
                 = loadModel (platform_with_samplers g' P) path s t)
    by (apply loadModel_with_samplers, Hsame).
  split; [exact Hrr'|].
  split; [rewrite Hrr'; auto|].
  split; [intros i; apply in_range_sampler_in_range|].
  apply loadModel_with_samplers. intros i. apply in_range_sampler_same_vk.
Qed.

(** C10 at the example container: with wrap 7 and 9, filters 5 and 4 and
    mip 3 in place of its sampler fields, [quad.smodel] loads exactly as it
    does with all five fields 0; the load succeeds, and the sampler is
    created with repeat, nearest, nearest. *)
Lemma C10_witness :
  let odd := fun _ : Z => Build_SamplerFields 7 9 5 4 3 in
  let plain := fun _ : Z => Build_SamplerFields 0 0 0 0 0 in
  let r := loadModel (platform_with_samplers odd example_platform) "quad.smodel"
             AssetManager_new [] in
  let r' := loadModel (platform_with_samplers plain example_platform) "quad.smodel"
              AssetManager_new [] in
  r = r'
  /\ isValid r.1.1 = true
  /\ In (Gpu (CreateTextureSampler VK_SAMPLER_ADDRESS_MODE_REPEAT
               VK_SAMPLER_ADDRESS_MODE_REPEAT VK_FILTER_NEAREST VK_FILTER_NEAREST
               VK_SAMPLER_MIPMAP_MODE_NEAREST 0x3F800000 6) true) r.2.
Proof.
  cbv zeta.
  destruct (C10_sampler_enums_are_never_validated example_platform "quad.smodel"
              AssetManager_new []
              (fun _ : Z => Build_SamplerFields 7 9 5 4 3)
              (fun _ : Z => Build_SamplerFields 0 0 0 0 0))
    as (_ & _ & _ & _ & Heq & Hvalid & _ & _).
  { intros i. unfold same_vk_sampler. cbn. repeat split. }
  split; [exact Heq|].
  split; [apply Hvalid; vm_compute; reflexivity|].
  vm_compute. auto 30.
Defined.

(** [odd.smodel] (wrap 7 and 9, filters 5 and 4, mip 3) loads, and its
    sampler is created with repeat, nearest, nearest. *)
Lemma odd_samplers_load :
  let r := loadModel example_platform "odd.smodel" AssetManager_new [] in
  isValid r.1.1 = true
  /\ In (Gpu (CreateTextureSampler VK_SAMPLER_ADDRESS_MODE_REPEAT
               VK_SAMPLER_ADDRESS_MODE_REPEAT VK_FILTER_NEAREST VK_FILTER_NEAREST
               VK_SAMPLER_MIPMAP_MODE_NEAREST 0x3F800000 6) true) r.2.
Proof. cbv zeta. split; vm_compute; auto 30. Qed.

(* ================================================================= *)
(** ** A failed mesh upload *)

(** C1 (evaluation at the failing input).  On a platform where
    [MeshAsset::upload] fails, loading [quad.smodel] into a fresh manager
    logs the failed upload and still returns a valid handle, caches it under
    the path and registers a model whose only primitive carries the invalid
    mesh handle. *)
Theorem C1_mesh_upload_failure_does_not_abort :
  let r := loadModel mesh_upload_fails "quad.smodel" AssetManager_new [] in
  In (Gpu (MeshAsset_upload (meshData_of_record example_mesh)) false) r.2
  /\ isValid r.1.1 = true
  /\ m_modelPathCache r.1.2 !! "quad.smodel" = Some r.1.1
  /\ model_primitives <$> getModel r.1.2 r.1.1
     = Some [ {| mesh := Handle_default;
                 material := {| id := 1; h_generation := 1 |};
                 firstIndex := 0; indexCount := 6; vertexOffset := 0 |} ].
Proof. cbv zeta. repeat split; vm_compute; auto 30. Qed.

(* ================================================================= *)
(** ** Loops over a state *)

Lemma iter_from_ind {St : Type} (I : Z -> St -> Prop) (body : Z -> St -> St)
    (i : Z) (n : nat) (s : St) :
  I i s ->
  (forall j st, i <= j < i + Z.of_nat n -> I j st -> I (j + 1) (body j st)) ->
  I (i + Z.of_nat n) (iter_from body i n s).
Proof.
  revert i s. induction n as [|n IH]; intros i s Hs Hstep; simpl.
  - now rewrite Z.add_0_r.
  - replace (i + Z.of_nat (S n)) with ((i + 1) + Z.of_nat n) by lia.
    apply IH.
    + apply Hstep; [lia | exact Hs].
    + intros j st Hj. apply Hstep. lia.
Qed.

Lemma iter_until_ind {St F : Type} (I : Z -> St -> Prop) (J : F -> Prop)
    (body : Z -> St -> F + St) (i : Z) (n : nat) (s : St) :
  I i s ->
  (forall j st, i <= j < i + Z.of_nat n -> I j st ->
     match body j st with inl f => J f | inr st' => I (j + 1) st' end) ->
  match iter_until body i n s with
  | inl f => J f
  | inr st' => I (i + Z.of_nat n) st'
  end.
Proof.
  revert i s. induction n as [|n IH]; intros i s Hs Hstep; simpl.
  - now rewrite Z.add_0_r.
  - pose proof (Hstep i s ltac:(lia) Hs) as Hi.
    destruct (body i s) as [f|s']; [exact Hi|].
    replace (i + Z.of_nat (S n)) with ((i + 1) + Z.of_nat n) by lia.
    apply IH; [exact Hi|]. intros j st Hj. apply Hstep. lia.
Qed.

(* ================================================================= *)
(** ** [loadModel] leaves the models alone until it registers its own *)

Lemma keeps_models_refl s : keeps_models s s.
Proof. repeat split; reflexivity. Qed.

Lemma keeps_models_trans s1 s2 s3 :
  keeps_models s1 s2 -> keeps_models s2 s3 -> keeps_models s1 s3.
Proof. intros (? & ? & ?) (? & ? & ?). repeat split; congruence. Qed.

Lemma upload_texture_keeps_models P view i th up s t :
  match upload_texture P view i (th, up, s, t) with
  | inl (_, s', _) => keeps_models s s'
  | inr (_, _, s', _) => keeps_models s s'
  end.
Proof.
  unfold upload_texture.
  destruct (uploadEncodedImage_Deferred _ _ _ _ _ _ _ _ _ _ _ _ _ _) as [[[ok tex] up1] t1].
  destruct (negb ok); repeat split; reflexivity.
Qed.

Lemma texture_loop_keeps_models P view i n th up s t :
  match iter_until (upload_texture P view) i n (th, up, s, t) with
  | inl (_, s', _) => keeps_models s s'
  | inr (_, _, s', _) => keeps_models s s'
  end.
Proof.
  pose proof (iter_until_ind
    (fun _ (st : TexLoop) => keeps_models s st.1.2)
    (fun (f : UploadContext * AssetManager * Trace) => keeps_models s f.1.2)
    (upload_texture P view) i n (th, up, s, t)) as H.
  simpl in H.
  destruct (iter_until _ _ _ _) as [[[up' s'] t']|[[[th' up'] s'] t']];
    apply H; try apply keeps_models_refl.
  all: intros j [[[th0 up0] s0] t0] _ Hk; simpl in Hk;
    pose proof (upload_texture_keeps_models P view j th0 up0 s0 t0) as Hu;
    destruct (upload_texture P view j (th0, up0, s0, t0))
      as [[[up1 s1] t1]|[[[th1 up1] s1] t1]]; simpl;
    eapply keeps_models_trans; eauto.
Qed.

Lemma addRef_valid_Texture_keeps_models h s : keeps_models s (addRef_valid_Texture h s).
Proof. unfold addRef_valid_Texture. destruct (isValid h); repeat split; reflexivity. Qed.

Lemma create_material_keeps_models view ths i mh s t :
  keeps_models s (create_material view ths i (mh, s, t)).1.2.
Proof.
  unfold create_material. cbn -[getMaterial addRef_valid_Texture].
  destruct (getMaterial _ _); [|repeat split; reflexivity].
  repeat (eapply keeps_models_trans; [|apply addRef_valid_Texture_keeps_models]).
  repeat split; reflexivity.
Qed.

Lemma createMesh_keeps_models P data path r s t :
  keeps_models s (createMeshFromData_Internal P data path r s t).1.2.
Proof.
  unfold createMeshFromData_Internal.
  destruct (call P vkCreateCommandPool t) as [pr t1].
  destruct (negb pr); [repeat split; reflexivity|].
  destruct (call P (MeshAsset_upload data) t1) as [ok t2].
  destruct (negb ok); repeat split; reflexivity.
Qed.

Lemma create_mesh_keeps_models P view path i mh s t :
  keeps_models s (create_mesh P view path i (mh, s, t)).1.2.
Proof.
  unfold create_mesh.
  pose proof (createMesh_keeps_models P
    (meshData_of_record (smodel.img_meshes (smodel.fileBytes view) i))
    (path +:+ "#mesh" +:+ pretty i) 0 s t) as H.
  destruct (createMeshFromData_Internal _ _ _ _ _ _) as [[h s1] t1]. exact H.
Qed.

Lemma create_primitive_keeps_models view mhs mats i prims md mt s :
  keeps_models s (create_primitive view mhs mats i (prims, md, mt, s)).2.
Proof.
  unfold create_primitive. cbn -[addRef_Mesh addRef_Material].
  destruct (isValid _); destruct (isValid _); repeat split; reflexivity.
Qed.

Lemma loop3_keeps_models {H : Type} (body : Z -> H * AssetManager * Trace -> H * AssetManager * Trace) i n x s t :
  (forall j x s t, keeps_models s (body j (x, s, t)).1.2) ->
  keeps_models s (iter_from body i n (x, s, t)).1.2.
Proof.
  intros Hb.
  apply (iter_from_ind (fun _ st => keeps_models s st.1.2) body i n (x, s, t)).
  - apply keeps_models_refl.
  - intros j [[x0 s0] t0] _ Hk. simpl in Hk.
    eapply keeps_models_trans; [exact Hk | apply Hb].
Qed.

Lemma prim_loop_keeps_models view mhs mats i n prims md mt s :
  keeps_models s (iter_from (create_primitive view mhs mats) i n (prims, md, mt, s)).2.
Proof.
  apply (iter_from_ind (fun _ (st : PrimLoop) => keeps_models s st.2)
           (create_primitive view mhs mats) i n (prims, md, mt, s)).
  - apply keeps_models_refl.
  - intros j [[[p0 md0] mt0] s0] _ Hk. simpl in Hk.
    eapply keeps_models_trans; [exact Hk | apply create_primitive_keeps_models].
Qed.

Lemma loadModel_build_result P path view ths s t h s' t' :
  loadModel_build P path view ths s t = (h, s', t') ->
  h = {| id := m_nextModelID s; h_generation := 1 |}
  /\ m_modelPathCache s' = emplace path h (m_modelPathCache s)
  /\ exists e, m_models s' !! id h = Some e
       /\ match m_models s !! id h with
          | None => model_generation e = 1 /\ model_refCount e = 1
          | Some e0 => model_generation e = model_generation e0
                       /\ model_refCount e = model_refCount e0
          end.
Proof.
  unfold loadModel_build.
  pose proof (loop3_keeps_models (create_material view ths) 0
    (Z.to_nat (smodel.materialCount (smodel.header view)))
    (replicate (Z.to_nat (smodel.materialCount (smodel.header view))) Handle_default)
    s t (create_material_keeps_models view ths)) as H1.
  destruct (iter_from (create_material view ths) _ _ _) as [[mats s1] t1].
  pose proof (loop3_keeps_models (create_mesh P view path) 0
    (Z.to_nat (smodel.meshCount (smodel.header view)))
    (replicate (Z.to_nat (smodel.meshCount (smodel.header view))) Handle_default)
    s1 t1 (create_mesh_keeps_models P view path)) as H2.
  destruct (iter_from (create_mesh P view path) _ _ _) as [[mhs s2] t2].
  pose proof (prim_loop_keeps_models view mhs mats 0
    (Z.to_nat (smodel.primitiveCount (smodel.header view)))
    (replicate (Z.to_nat (smodel.primitiveCount (smodel.header view))) ModelPrimitive_default)
    [] [] s2) as H3.
  destruct (iter_from (create_primitive view mhs mats) _ _ _) as [[[prims md] mt] s3].
  simpl in H1, H2, H3.
  pose proof (keeps_models_trans _ _ _ (keeps_models_trans _ _ _ H1 H2) H3)
    as (Hm & Hc & Hn).
  unfold createModel_Internal. intros [= <- <- <-]. simpl.
  rewrite Hn, Hc, Hm. split; [reflexivity|]. split; [reflexivity|].
  unfold emplace at 1 2.
  destruct (m_models s !! m_nextModelID s) as [e0|] eqn:He0.
  - rewrite He0. eexists. rewrite lookup_insert_eq. split; [reflexivity|]. split; reflexivity.
  - rewrite lookup_insert_eq. eexists. rewrite lookup_insert_eq.
    split; [reflexivity|]. split; reflexivity.
Qed.

Lemma loadModel_upload_valid P path view s t h s' t' :
  loadModel_upload P path view s t = (h, s', t') ->
  isValid h = true ->
  exists ths s1 t1,
    keeps_models s s1 /\ loadModel_build P path view ths s1 t1 = (h, s', t').
Proof.
  unfold loadModel_upload.
  destruct (call P vkCreateCommandPool t) as [pr t1].
  destruct (negb pr); [intros [= <- <- <-]; discriminate|].
  destruct (BeginUploadContext P t1) as [[begunOk upload] t2].
  destruct (negb begunOk); [intros [= <- <- <-]; discriminate|].
  pose proof (texture_loop_keeps_models P view 0
    (Z.to_nat (smodel.textureCount (smodel.header view)))
    (replicate (Z.to_nat (smodel.textureCount (smodel.header view))) Handle_default)
    upload s t2) as Hk.
  destruct (iter_until _ _ _ _) as [[[up1 s1] t3]|[[[ths up1] s1] t3]].
  - destruct (EndSubmitAndWait P up1 t3) as [[? ?] t4].
    intros [= <- <- <-]; discriminate.
  - destruct (EndSubmitAndWait P up1 t3) as [[submitted ?] t4].
    destruct (negb submitted); [intros [= <- <- <-]; discriminate|].
    intros Hb _. eauto.
Qed.

(** In a manager whose entries carry generation 1 and whose cached model
    handles resolve, if [loadModel(path)] returns a valid handle, then a
    second [loadModel(path)] right after it returns the same handle and
    makes no call; the model entry exists after the first call and, provided
    its count is then below the 32-bit maximum, its count after the second
    call is exactly one more. *)
Lemma second_load_after_first (P P' : Platform) (path : string)
    (s : AssetManager) (t : Trace) (h1 : ModelHandle) (s1 : AssetManager) (t1 : Trace) :
  gens_one s ->
  model_cache_resolves s ->
  loadModel P path s t = (h1, s1, t1) ->
  isValid h1 = true ->
  (loadModel P' path s1 t1).1.1 = h1
  /\ (loadModel P' path s1 t1).2 = t1
  /\ exists rc1,
       refCount_of KModel s1 (id h1) = Some rc1
       /\ (0 <= rc1 < UINT32_MAX ->
           refCount_of KModel (loadModel P' path s1 t1).1.2 (id h1) = Some (rc1 + 1)).
Proof.
  intros Hgens Hcache Hload Hvalid.
  assert (m_modelPathCache s1 !! path = Some h1
          /\ exists e, m_models s1 !! id h1 = Some e
                       /\ model_generation e = h_generation h1) as (Hc1 & e & He & Hg).
  { unfold loadModel in Hload.
    destruct (m_modelPathCache s !! path) as [h|] eqn:Hc.
    - injection Hload as <- <- <-. split; [exact Hc|].
      destruct (Hcache _ _ Hc) as [e He].
      pose proof He as He'. apply resolve_Some in He' as [Hm Hg].
      unfold addRef_Model. simpl. rewrite lookup_registry_addRef, He.
      destruct (decide (id h = id h)) as [_|]; [|congruence].
      eexists. split; [reflexivity|]. simpl. exact Hg.
    - destruct (smodel.LoadSModelFile _ _ _) as [err|view].
      + injection Hload as <- <- <-. discriminate.
      + destruct (loadModel_upload_valid _ _ _ _ _ _ _ _ Hload Hvalid)
          as (ths & s0 & t0 & (Hm & Hcc & Hn) & Hb).
        apply loadModel_build_result in Hb as (-> & Hc' & e & He & Hcase).
        simpl in *. rewrite Hc', Hcc. unfold emplace. rewrite Hc.
        rewrite lookup_insert_eq. split; [f_equal; congruence|].
        exists e. split; [exact He|].
        rewrite Hm in Hcase.
        destruct (m_models s !! m_nextModelID s0) as [e0|] eqn:He0.
        * destruct Hcase as [-> _].
          apply (Hgens KModel (m_nextModelID s0)). simpl. now rewrite He0.
        * now destruct Hcase. }
  unfold loadModel. rewrite Hc1. simpl. split; [reflexivity|]. split; [reflexivity|].
  exists (model_refCount e). split; [rewrite He; reflexivity|].
  intros Hrc. unfold UINT32_MAX in Hrc.
  rewrite lookup_registry_addRef.
  assert (resolve (m_models s1) h1 = Some e) as -> by (apply resolve_Some; auto).
  destruct (decide (id h1 = id h1)) as [_|]; [|congruence].
  simpl. unfold u32. rewrite Z.mod_small by lia. reflexivity.
Qed.

Lemma quad_referenced_reachable n : reachable (quad_referenced n) quad_loaded.2.
Proof.
  induction n as [|n IH].
  - apply (reach_loadModel example_platform "quad.smodel" AssetManager_new []), reach_new.
  - apply (reach_addRef KModel quad_handle), IH.
Qed.

Lemma quad_referenced_state n :
  Z.of_nat n < UINT32_MAX ->
  m_modelPathCache (quad_referenced n) !! "quad.smodel" = Some quad_handle
  /\ exists e, m_models (quad_referenced n) !! 1 = Some e
       /\ model_generation e = 1 /\ model_refCount e = 1 + Z.of_nat n.
Proof.
  unfold UINT32_MAX. induction n as [|n IH]; intros Hn.
  - split; [vm_compute; reflexivity|]. eexists. split; [vm_compute; reflexivity|].
    split; reflexivity.
  - destruct IH as (Hc & e & He & Hg & Hrc); [lia|].
    change (quad_referenced (S n)) with (addRef KModel quad_handle (quad_referenced n)).
    simpl. split; [exact Hc|].
    rewrite lookup_registry_addRef.
    assert (resolve (m_models (quad_referenced n)) quad_handle = Some e) as ->
      by (apply resolve_Some; auto).
    simpl. eexists. split; [reflexivity|]. simpl. split; [exact Hg|].
    rewrite Hrc. unfold u32. rewrite Z.mod_small by lia. lia.
Qed.

Lemma second_load_wraps (n : nat) (t : Trace) :
  Z.of_nat n = 4294967293 ->
  isValid (loadModel example_platform "quad.smodel" (quad_referenced n) t).1.1 = true
  /\ refCount_of KModel
       (loadModel example_platform "quad.smodel" (quad_referenced n) t).1.2 1
     = Some UINT32_MAX
  /\ refCount_of KModel
       (loadModel example_platform "quad.smodel"
          (loadModel example_platform "quad.smodel" (quad_referenced n) t).1.2
          (loadModel example_platform "quad.smodel" (quad_referenced n) t).2).1.2 1
     = Some 0.
Proof.
  intros Hn.
  destruct (quad_referenced_state n) as (Hc & e & He & Hg & Hrc).
  { rewrite Hn. reflexivity. }
  rewrite Hn in Hrc.
  assert (resolve (m_models (quad_referenced n)) quad_handle = Some e)
    as Hres by (apply resolve_Some; auto).
  assert (loadModel example_platform "quad.smodel" (quad_referenced n) t
          = (quad_handle, addRef_Model quad_handle (quad_referenced n), t)) as ->.
  { unfold loadModel. now rewrite Hc. }
  cbn [fst snd]. split; [reflexivity|].
  assert (m_models (addRef_Model quad_handle (quad_referenced n)) !! 1
          = Some (with_refCount UINT32_MAX e)) as He1.
  { cbn [addRef_Model set_models m_models]. rewrite lookup_registry_addRef, Hres.
    cbn [id quad_handle]. destruct (decide (1 = 1)) as [_|]; [|congruence].
    change (refCount e) with (model_refCount e). rewrite Hrc. reflexivity. }
  split.
  { cbn [refCount_of]. rewrite He1. reflexivity. }
  assert (loadModel example_platform "quad.smodel"
            (addRef_Model quad_handle (quad_referenced n)) t
          = (quad_handle,
             addRef_Model quad_handle (addRef_Model quad_handle (quad_referenced n)), t))
    as ->.
  { unfold loadModel. cbn [addRef_Model set_models m_modelPathCache]. now rewrite Hc. }
  cbn [fst snd refCount_of].
  cbn [addRef_Model set_models m_models] in *.
  rewrite lookup_registry_addRef.
  assert (resolve (registry_addRef (m_models (quad_referenced n)) quad_handle) quad_handle
          = Some (with_refCount UINT32_MAX e)) as ->.
  { apply resolve_Some. split; [exact He1|]. exact Hg. }
  cbn [id quad_handle]. destruct (decide (1 = 1)) as [_|]; [|congruence].
  reflexivity.
Qed.

(** C9 as stated fails in a reachable state with identifiers left: after
    loading [quad.smodel] and taking [2^32 - 3] more references, a load returns the valid handle
    and brings the count to [2^32 - 1]; the second load returns the same
    handle and wraps the count to 0. *)
Lemma C9_counterexample :
  exists s t,
    reachable s t
    /\ ids_left KModel t
    /\ isValid (loadModel example_platform "quad.smodel" s t).1.1 = true
    /\ refCount_of KModel (loadModel example_platform "quad.smodel" s t).1.2 1
       = Some UINT32_MAX
    /\ refCount_of KModel
         (loadModel example_platform "quad.smodel"
            (loadModel example_platform "quad.smodel" s t).1.2
            (loadModel example_platform "quad.smodel" s t).2).1.2 1
       = Some 0.
Proof.
  exists (quad_referenced (Z.to_nat 4294967293)), quad_loaded.2.
  split; [apply quad_referenced_reachable|].
  split; [vm_compute; reflexivity|].
  apply second_load_wraps. apply Z2Nat.id. discriminate.
Qed.

(* ================================================================= *)
(** ** What a load logs *)

Lemma extends_with_refl Q t : extends_with Q t t.
Proof. exists []. split; reflexivity. Qed.

Lemma extends_with_cons Q e t t' :
  Q e = true -> extends_with Q t t' -> extends_with Q t (e :: t').
Proof.
  intros He (evs & -> & Hq). exists (e :: evs). split; [reflexivity|].
  simpl. now rewrite He.
Qed.

Lemma extends_with_trans Q t1 t2 t3 :
  extends_with Q t1 t2 -> extends_with Q t2 t3 -> extends_with Q t1 t3.
Proof.
  intros (e1 & -> & H1) (e2 & -> & H2). exists (e2 ++ e1).
  split; [now rewrite app_assoc|]. rewrite forallb_app. now rewrite H1, H2.
Qed.

Lemma extends_with_weaken (Q Q' : Event -> bool) t t' :
  (forall e, Q e = true -> Q' e = true) ->
  extends_with Q t t' -> extends_with Q' t t'.
Proof.
  intros HQ (evs & -> & Hq). exists evs. split; [reflexivity|].
  rewrite forallb_forall in *. auto.
Qed.

Lemma extends_with_call Q P c t :
  (forall ok, Q (Gpu c ok) = true) -> extends_with Q t (call P c t).2.
Proof. intros Hq. apply extends_with_cons; [apply Hq | apply extends_with_refl]. Qed.

Lemma count_submits_app t1 t2 : count_submits (t1 ++ t2) = (count_submits t1 + count_submits t2)%nat.
Proof. unfold count_submits. now rewrite List.filter_app, length_app. Qed.

Lemma count_registered_app k t1 t2 :
  count_registered k (t1 ++ t2) = (count_registered k t1 + count_registered k t2)%nat.
Proof. unfold count_registered. now rewrite List.filter_app, length_app. Qed.

Lemma count_submits_none Q evs :
  (forall e, Q e = true -> is_submit e = false) ->
  forallb Q evs = true -> count_submits evs = 0%nat.
Proof.
  intros HQ. unfold count_submits. induction evs as [|e evs IH]; simpl; [reflexivity|].
  intros [He Hevs]%andb_true_iff. rewrite (HQ e He). auto.
Qed.

Lemma count_registered_none Q k evs :
  (forall e, Q e = true -> is_registered k e = false) ->
  forallb Q evs = true -> count_registered k evs = 0%nat.
Proof.
  intros HQ. unfold count_registered. induction evs as [|e evs IH]; simpl; [reflexivity|].
  intros [He Hevs]%andb_true_iff. rewrite (HQ e He). auto.
Qed.

Lemma TextureAsset_destroy_extends a t :
  extends_with is_texture_upload t (TextureAsset_destroy a t).2.
Proof.
  unfold TextureAsset_destroy. simpl.
  destruct (m_sampler a), (m_view a), (m_image a), (m_memory a);
    repeat (apply extends_with_cons; [reflexivity|]); apply extends_with_refl.
Qed.

(** A texture upload records commands and creates objects; it logs nothing
    else. *)
Lemma uploadRGBA8_Deferred_extends P ctx a px w h srgb wu wv mn mg mp an t :
  extends_with is_texture_upload t
    (uploadRGBA8_Deferred P ctx a px w h srgb wu wv mn mg mp an t).2.
Proof.
  unfold uploadRGBA8_Deferred.
  destruct (negb (begun ctx) || negb (cmd ctx)); [apply extends_with_refl|].
  destruct (negb px || (w =? 0) || (h =? 0)); [apply extends_with_refl|].
  assert (extends_with is_texture_upload t
            (if TextureAsset_isValid a then TextureAsset_destroy a t else (a, t)).2) as H0.
  { destruct (TextureAsset_isValid a);
      [apply TextureAsset_destroy_extends | apply extends_with_refl]. }
  destruct (if TextureAsset_isValid a then TextureAsset_destroy a t else (a, t))
    as [a0 t0]. simpl in H0.
  unfold call, call_void.
  repeat match goal with
         | |- context [if negb ?b then _ else _] => destruct b; simpl
         | |- context [if 1 <? ?b then _ else _] => destruct (1 <? b); simpl
         end;
    repeat (apply extends_with_cons; [reflexivity|]); exact H0.
Qed.

Lemma uploadEncodedImage_Deferred_extends P ctx a img off sz srgb wu wv mn mg mp an t :
  extends_with is_texture_upload t
    (uploadEncodedImage_Deferred P ctx a img off sz srgb wu wv mn mg mp an t).2.
Proof.
  unfold uploadEncodedImage_Deferred.
  destruct (sz =? 0); [apply extends_with_refl|].
  destruct (smodel.img_stbi img off (to_int sz)) as [[w h]|]; [|apply extends_with_refl].
  destruct ((w <=? 0) || (h <=? 0)); [apply extends_with_refl|].
  apply uploadRGBA8_Deferred_extends.
Qed.

(** One round of the texture loop: upload calls, and on success one
    texture registration. *)
Lemma upload_texture_trace P view i th up s t :
  match upload_texture P view i (th, up, s, t) with
  | inl (_, _, t') => extends_with is_texture_phase t t'
  | inr (_, _, _, t') =>
      exists evs, t' = evs ++ t /\ forallb is_texture_phase evs = true
                  /\ count_registered KTexture evs = 1%nat
  end.
Proof.
  unfold upload_texture.
  match goal with
  | |- context [uploadEncodedImage_Deferred ?P ?c ?a ?im ?o ?z ?sr ?wu ?wv ?mn ?mg ?mp ?an ?t] =>
      pose proof (uploadEncodedImage_Deferred_extends P c a im o z sr wu wv mn mg mp an t) as Hu;
      destruct (uploadEncodedImage_Deferred P c a im o z sr wu wv mn mg mp an t)
        as [[[ok tex] up1] t1]
  end.
  simpl in Hu.
  assert (forall e, is_texture_upload e = true -> is_texture_phase e = true) as Hw.
  { intros e He. unfold is_texture_phase. now rewrite He. }
  destruct (negb ok).
  - eapply extends_with_weaken; eauto.
  - simpl. destruct Hu as (evs & -> & Hq).
    exists (Registered KTexture (m_nextTextureID s) :: evs).
    split; [reflexivity|]. split.
    + simpl. rewrite forallb_forall in *. auto.
    + unfold count_registered. simpl.
      change (length (List.filter (is_registered KTexture) evs))
        with (count_registered KTexture evs).
      rewrite (count_registered_none is_texture_upload); [reflexivity| |exact Hq].
      intros [[] ?|] ; simpl; congruence.
Qed.

Lemma texture_loop_trace P view n (st0 : TexLoop) :
  match iter_until (upload_texture P view) 0 n st0 with
  | inl f => extends_with is_texture_phase st0.2 f.2
  | inr st' =>
      exists evs, st'.2 = evs ++ st0.2 /\ forallb is_texture_phase evs = true
                  /\ count_registered KTexture evs = n
  end.
Proof.
  pose proof (iter_until_ind
    (fun j (st : TexLoop) =>
       exists evs, st.2 = evs ++ st0.2 /\ forallb is_texture_phase evs = true
                   /\ count_registered KTexture evs = Z.to_nat j)
    (fun (f : UploadContext * AssetManager * Trace) =>
       extends_with is_texture_phase st0.2 f.2)
    (upload_texture P view) 0 n st0) as H.
  cbv beta in H.
  assert (forall j (st : TexLoop),
            0 <= j < 0 + Z.of_nat n ->
            (exists evs, st.2 = evs ++ st0.2 /\ forallb is_texture_phase evs = true
                         /\ count_registered KTexture evs = Z.to_nat j) ->
            match upload_texture P view j st with
            | inl f => extends_with is_texture_phase st0.2 f.2
            | inr st' =>
                exists evs, st'.2 = evs ++ st0.2 /\ forallb is_texture_phase evs = true
                            /\ count_registered KTexture evs = Z.to_nat (j + 1)
            end) as Hstep.
  { intros j [[[th0 up0] s0] t0] Hj (evs & Ht0 & Hq & Hc). cbn [snd] in Ht0. subst t0.
    pose proof (upload_texture_trace P view j th0 up0 s0 (evs ++ st0.2)) as Hu.
    revert Hu.
    match goal with
    | |- context [upload_texture ?a ?b ?c ?d] =>
        destruct (upload_texture a b c d) as [[[up1 s1] t1]|[[[th1 up1] s1] t1]]
    end; cbn [snd]; intros Hu.
    - eapply extends_with_trans; [|exact Hu]. now exists evs.
    - destruct Hu as (evs' & -> & Hq' & Hc'). exists (evs' ++ evs).
      split; [now rewrite app_assoc|]. split.
      + rewrite forallb_app. now rewrite Hq, Hq'.
      + rewrite count_registered_app, Hc, Hc'. lia. }
  specialize (H ltac:(exists []; repeat split) Hstep).
  destruct (iter_until _ _ _ _) as [f|st'].
  - exact H.
  - destruct H as (evs & -> & Hq & Hc). exists evs.
    repeat split; auto. rewrite Hc. lia.
Qed.

Lemma create_material_trace view ths i mh s t :
  extends_with is_build_phase t (create_material view ths i (mh, s, t)).2.
Proof.
  unfold create_material. cbn -[getMaterial addRef_valid_Texture].
  apply extends_with_cons; [reflexivity | apply extends_with_refl].
Qed.

Lemma createMesh_trace P data path r s t :
  extends_with is_build_phase t (createMeshFromData_Internal P data path r s t).2.
Proof.
  unfold createMeshFromData_Internal, call, call_void.
  destruct (negb (respond P t vkCreateCommandPool)); simpl;
    [apply extends_with_cons; [reflexivity | apply extends_with_refl]|].
  destruct (negb _); simpl;
    repeat (apply extends_with_cons; [reflexivity|]); apply extends_with_refl.
Qed.

Lemma create_mesh_trace P view path i mh s t :
  extends_with is_build_phase t (create_mesh P view path i (mh, s, t)).2.
Proof.
  unfold create_mesh.
  pose proof (createMesh_trace P
    (meshData_of_record (smodel.img_meshes (smodel.fileBytes view) i))
    (path +:+ "#mesh" +:+ pretty i) 0 s t) as H.
  destruct (createMeshFromData_Internal _ _ _ _ _ _) as [[h s1] t1]. exact H.
Qed.

Lemma loop3_trace {H : Type} Q
    (body : Z -> H * AssetManager * Trace -> H * AssetManager * Trace) i n x s t :
  (forall j x s t, extends_with Q t (body j (x, s, t)).2) ->
  extends_with Q t (iter_from body i n (x, s, t)).2.
Proof.
  intros Hb.
  apply (iter_from_ind (fun _ st => extends_with Q t st.2) body i n (x, s, t)).
  - apply extends_with_refl.
  - intros j [[x0 s0] t0] _ Hk. simpl in Hk.
    eapply extends_with_trans; [exact Hk | apply Hb].
Qed.

Lemma loadModel_build_trace P path view ths s t :
  extends_with is_build_phase t (loadModel_build P path view ths s t).2.
Proof.
  unfold loadModel_build.
  pose proof (loop3_trace is_build_phase (create_material view ths) 0
    (Z.to_nat (smodel.materialCount (smodel.header view)))
    (replicate (Z.to_nat (smodel.materialCount (smodel.header view))) Handle_default)
    s t (create_material_trace view ths)) as H1.
  destruct (iter_from (create_material view ths) _ _ _) as [[mats s1] t1].
  pose proof (loop3_trace is_build_phase (create_mesh P view path) 0
    (Z.to_nat (smodel.meshCount (smodel.header view)))
    (replicate (Z.to_nat (smodel.meshCount (smodel.header view))) Handle_default)
    s1 t1 (create_mesh_trace P view path)) as H2.
  destruct (iter_from (create_mesh P view path) _ _ _) as [[mhs s2] t2].
  destruct (iter_from (create_primitive view mhs mats) _ _ _) as [[[prims md] mt] s3].
  simpl in *. apply extends_with_cons; [reflexivity|].
  eapply extends_with_trans; eauto.
Qed.

(** The calls of a load that returns a valid handle from a parsed view. *)
Lemma loadModel_upload_trace P path view s t h s' t' :
  loadModel_upload P path view s t = (h, s', t') ->
  isValid h = true ->
  exists uploads after,
    t' = after ++ Gpu vkDestroyCommandPool true :: Gpu EndSubmitAndWait_call true
           :: uploads ++ Gpu BeginUploadContext_call true
           :: Gpu vkCreateCommandPool true :: t
    /\ forallb is_texture_phase uploads = true
    /\ count_registered KTexture uploads
       = Z.to_nat (smodel.textureCount (smodel.header view))
    /\ forallb is_build_phase after = true.
Proof.
  unfold loadModel_upload, BeginUploadContext, EndSubmitAndWait, call.
  destruct (respond P t vkCreateCommandPool) eqn:Hpool; simpl;
    [|intros [= <- <- <-]; discriminate].
  destruct (respond P _ BeginUploadContext_call) eqn:Hbegin; simpl;
    [|intros [= <- <- <-]; discriminate].
  match goal with
  | |- context [iter_until (upload_texture P view) 0 ?n ?st] =>
      pose proof (texture_loop_trace P view n st) as Hl; revert Hl;
      destruct (iter_until (upload_texture P view) 0 n st)
        as [[[up1 s1] t3]|[[[ths up1] s1] t3]]; cbn [snd]; intros Hl
  end.
  - simpl. intros [= <- <- <-]; discriminate.
  - destruct Hl as (uploads & -> & Hq & Hc).
    destruct (respond P _ EndSubmitAndWait_call) eqn:Hsub; simpl;
      [|intros [= <- <- <-]; discriminate].
    intros Hb _.
    pose proof (loadModel_build_trace P path view ths s1
      (call_void vkDestroyCommandPool
         (Gpu EndSubmitAndWait_call true
          :: uploads ++ Gpu BeginUploadContext_call true
             :: Gpu vkCreateCommandPool true :: t))) as (after & Ht & Ha).
    rewrite Hb in Ht. simpl in Ht. subst t'.
    exists uploads, after. repeat split; auto.
Qed.

Lemma is_texture_upload_not_submit e : is_texture_upload e = true -> is_submit e = false.
Proof. destruct e as [[] ?|]; simpl; congruence. Qed.

Lemma is_texture_phase_not_submit e : is_texture_phase e = true -> is_submit e = false.
Proof. destruct e as [[] ?|]; unfold is_texture_phase; simpl; congruence. Qed.

Lemma is_build_phase_not_submit e : is_build_phase e = true -> is_submit e = false.
Proof. destruct e as [[] ?|]; unfold is_build_phase; simpl; congruence. Qed.

(** C4.  A [loadModel] call that parses (the path is not cached) and
    returns a valid handle logs, in front of the trace it started from:
    the creation of the pool and the opening of the transaction; then the
    texture uploads, which consist of upload calls and exactly one
    registration per texture record ([N] of them); then one
    [EndSubmitAndWait], which succeeds; then the destruction of the pool and
    the rest of the load, in which there is no submit and no texture upload
    call.  Hence exactly one submit among the new events, whatever [N] is.
    And any single texture upload logs upload calls only (creation of the
    staging buffer, image, view and sampler, recorded transitions, copy and
    mip generation, teardown of a previous image), never a submit. *)
Theorem C4_one_submit_for_all_textures (P : Platform) (path : string)
    (s : AssetManager) (t : Trace) (h : ModelHandle) (s' : AssetManager) (t' : Trace) :
  m_modelPathCache s !! path = None ->
  loadModel P path s t = (h, s', t') ->
  isValid h = true ->
  (exists view uploads after,
     smodel.LoadSModelFile (layout P) (files P) path = inr view
     /\ t' = after ++ Gpu vkDestroyCommandPool true :: Gpu EndSubmitAndWait_call true
               :: uploads ++ Gpu BeginUploadContext_call true
               :: Gpu vkCreateCommandPool true :: t
     /\ forallb is_texture_phase uploads = true
     /\ count_registered KTexture uploads
        = Z.to_nat (smodel.textureCount (smodel.header view))
     /\ count_submits uploads = 0%nat
     /\ forallb is_build_phase after = true
     /\ count_submits after = 0%nat
     /\ count_submits
          (after ++ Gpu vkDestroyCommandPool true :: Gpu EndSubmitAndWait_call true
             :: uploads ++ [Gpu BeginUploadContext_call true;
                            Gpu vkCreateCommandPool true]) = 1%nat)
  /\ (forall Q ctx a img off sz srgb wu wv mn mg mp an t0,
        exists evs,
          (uploadEncodedImage_Deferred Q ctx a img off sz srgb wu wv mn mg mp an t0).2
          = evs ++ t0
          /\ forallb is_texture_upload evs = true
          /\ count_submits evs = 0%nat).
Proof.
  intros Hmiss Hload Hvalid. split.
  - unfold loadModel in Hload. rewrite Hmiss in Hload.
    destruct (smodel.LoadSModelFile (layout P) (files P) path) as [err|view].
    { injection Hload as <- <- <-. discriminate. }
    destruct (loadModel_upload_trace _ _ _ _ _ _ _ _ Hload Hvalid)
      as (uploads & after & -> & Hu & Hn & Ha).
    pose proof (count_submits_none _ _ is_texture_phase_not_submit Hu) as Hcu.
    pose proof (count_submits_none _ _ is_build_phase_not_submit Ha) as Hca.
    exists view, uploads, after. repeat split; auto.
    rewrite count_submits_app.
    change (Gpu vkDestroyCommandPool true :: Gpu EndSubmitAndWait_call true
              :: uploads ++ [Gpu BeginUploadContext_call true; Gpu vkCreateCommandPool true])
      with ([Gpu vkDestroyCommandPool true; Gpu EndSubmitAndWait_call true]
              ++ uploads ++ [Gpu BeginUploadContext_call true; Gpu vkCreateCommandPool true]).
    rewrite !count_submits_app, Hcu, Hca. reflexivity.
  - intros Q ctx a img off sz srgb wu wv mn mg mp an t0.
    destruct (uploadEncodedImage_Deferred_extends Q ctx a img off sz srgb wu wv mn mg mp an t0)
      as (evs & Ht & Hq).
    exists evs. repeat split; auto.
    apply (count_submits_none _ _ is_texture_upload_not_submit Hq).
Qed.

(** C4 at [quad.smodel], loaded into a fresh manager. *)
Lemma C4_witness :
  count_submits (loadModel example_platform "quad.smodel" AssetManager_new []).2 = 1%nat.
Proof.
  assert (isValid (loadModel example_platform "quad.smodel" AssetManager_new []).1.1 = true)
    as Hv by (vm_compute; reflexivity).
  assert (loadModel example_platform "quad.smodel" AssetManager_new []
          = ((loadModel example_platform "quad.smodel" AssetManager_new []).1.1,
             (loadModel example_platform "quad.smodel" AssetManager_new []).1.2,
             (loadModel example_platform "quad.smodel" AssetManager_new []).2)) as He
    by (destruct (loadModel example_platform "quad.smodel" AssetManager_new [])
          as [[h s] t]; reflexivity).
  destruct (C4_one_submit_for_all_textures example_platform "quad.smodel"
              AssetManager_new [] _ _ _ eq_refl He Hv)
    as [(view & uploads & after & _ & Ht & _ & _ & _ & _ & _ & Hone) _].
  rewrite Ht, <- Hone. reflexivity.
Defined.

(** On a cache hit [loadModel] makes no call at all. *)
Lemma loadModel_cache_hit_no_calls P path s t h :
  m_modelPathCache s !! path = Some h ->
  loadModel P path s t = (h, addRef_Model h s, t).
Proof. intros Hc. unfold loadModel. now rewrite Hc. Qed.

(* ================================================================= *)
(** ** Identifiers and generations *)

Lemma registry_invariant_new : registry_invariant (AssetManager_new, []).
Proof.
  split; [|split].
  - intros [] i [e He]; simpl in He; rewrite lookup_empty in He; discriminate.
  - split; intros p h Hc; simpl in Hc; rewrite lookup_empty in Hc; discriminate.
  - intros k _. simpl. split; [destruct k; reflexivity|]. split; [reflexivity|].
    destruct k; intros i [e He]; simpl in He; rewrite lookup_empty in He; discriminate.
Qed.

Lemma registry_invariant_advance st st' :
  registry_invariant st -> advance st st' -> registry_invariant st'.
Proof.
  intros (Hgood & [Hc1 Hc2] & Hids) [Hadv [Hs1 Hs2]]. split; [|split].
  - intros k i Hp. destruct (Hadv k) as [_ Hk].
    destruct (Hk i Hp) as [[Hp0 Hg]|Hg]; auto.
  - split; intros p h Hc.
    + destruct (Hs1 p h Hc) as [Hold|Hg]; [exact (Hc1 p h Hold) | exact Hg].
    + destruct (Hs2 p h Hc) as [Hold|Hg]; [exact (Hc2 p h Hold) | exact Hg].
  - intros k Hleft. destruct (Hadv k) as [[(Hn & Hi & Hp)|(Hn & Hi & Hp)] _].
    + unfold ids_left in *. rewrite Hi in *. rewrite Hn.
      destruct (Hids k Hleft) as (H1 & H2 & H3).
      split; [exact H1|]. split; [exact H2|].
      intros i Hi'. apply H3, Hp, Hi'.
    + unfold ids_left, UINT64_MAX in *. rewrite Hi in *. simpl length in *.
      destruct (Hids k) as (H1 & H2 & H3); [unfold UINT64_MAX; lia|].
      assert (u64 (next_id k st.1 + 1) = next_id k st.1 + 1) as Hu.
      { unfold u64. apply Z.mod_small. lia. }
      rewrite Hn, Hu. split; [lia|]. split.
      * simpl. rewrite <- H2. f_equal. lia.
      * intros i Hi'. destruct (Hp i Hi') as [Hold| ->]; [apply H3 in Hold|]; lia.
Qed.

Lemma registry_invariant_advances st st' :
  registry_invariant st -> advances st st' -> registry_invariant st'.
Proof.
  intros Hinv Hadv. induction Hadv as [|st1 st2 st3 H12 _ IH]; [exact Hinv|].
  apply IH. eapply registry_invariant_advance; eauto.
Qed.

Section RegistryMoves.

Context {E A : Type} {RE : RegistryEntry E A}.

Implicit Types (m : gmap Z E) (h : Handle) (e : E).

Lemma registry_addRef_is_Some m h i :
  is_Some (registry_addRef m h !! i) -> is_Some (m !! i).
Proof.
  rewrite lookup_registry_addRef. destruct (resolve m h) as [e|] eqn:Hr; [|auto].
  destruct (decide (id h = i)) as [<-|]; [|auto].
  apply resolve_Some in Hr as [-> _]. eauto.
Qed.

Lemma registry_addRef_good m h i :
  good_entry m i -> good_entry (registry_addRef m h) i.
Proof.
  intros (e & He & Hg & Ha). unfold good_entry. rewrite lookup_registry_addRef.
  destruct (resolve m h) as [e'|] eqn:Hr; [|eauto].
  destruct (decide (id h = i)) as [<-|]; [|eauto].
  apply resolve_Some in Hr as [Hm _]. rewrite Hm in He. injection He as ->.
  eexists. split; [reflexivity|].
  now rewrite generation_with_refCount, asset_with_refCount.
Qed.

Lemma registry_release_is_Some m h i :
  is_Some (registry_release m h !! i) -> is_Some (m !! i).
Proof.
  rewrite lookup_registry_release. destruct (resolve m h) as [e|] eqn:Hr; [|auto].
  destruct (decide (id h = i)) as [<-|]; [|auto].
  apply resolve_Some in Hr as [-> _]. eauto.
Qed.

Lemma registry_release_good m h i :
  good_entry m i -> good_entry (registry_release m h) i.
Proof.
  intros (e & He & Hg & Ha). unfold good_entry. rewrite lookup_registry_release.
  destruct (resolve m h) as [e'|] eqn:Hr; [|eauto].
  destruct (decide (id h = i)) as [<-|]; [|eauto].
  apply resolve_Some in Hr as [Hm _]. rewrite Hm in He. injection He as ->.
  eexists. split; [reflexivity|].
  destruct (0 <? refCount e); [|auto].
  now rewrite generation_with_refCount, asset_with_refCount.
Qed.

Lemma emplace_is_Some m i e j :
  is_Some (emplace i e m !! j) -> is_Some (m !! j) \/ j = i.
Proof.
  unfold emplace. destruct (m !! i) eqn:Hi; [auto|].
  rewrite lookup_insert. destruct (decide (i = j)); auto.
Qed.

Lemma emplace_good m i e j :
  generation e = 1 -> is_Some (asset e) ->
  is_Some (emplace i e m !! j) ->
  (is_Some (m !! j) /\ (good_entry m j -> good_entry (emplace i e m) j))
  \/ good_entry (emplace i e m) j.
Proof.
  intros Hg Ha. unfold emplace, good_entry. destruct (m !! i) eqn:Hi.
  - intros Hj. left. auto.
  - rewrite lookup_insert. destruct (decide (i = j)) as [<-|Hne].
    + intros _. right. exists e. auto.
    + intros Hj. left. split; [exact Hj|].
      intros (e' & He' & ?). exists e'. auto.
Qed.

Lemma delete_good m i j :
  is_Some (delete i m !! j) ->
  is_Some (m !! j) /\ (good_entry m j -> good_entry (delete i m) j).
Proof.
  rewrite lookup_delete. destruct (decide (i = j)) as [<-|Hne].
  - intros [? ?]. discriminate.
  - intros Hj. split; [exact Hj|]. unfold good_entry.
    intros (e & He & ?). exists e. rewrite lookup_delete_ne by exact Hne. auto.
Qed.

End RegistryMoves.

(** A kind whose registry, counter and registrations are untouched. *)
Ltac kind_unchanged :=
  let Hp := fresh "Hp" in
  let Hg := fresh "Hg" in
  split;
  [ left; split; [reflexivity|]; split; [reflexivity|]; intros ? Hp; exact Hp
  | intros ? Hp; left; split; [exact Hp | intros Hg; exact Hg] ].

(** Caches untouched. *)
Ltac caches_unchanged :=
  split; (let Hc := fresh "Hc" in intros ? ? Hc; left; exact Hc).

Lemma advance_gpu s t c ok : advance (s, t) (s, Gpu c ok :: t).
Proof. split; [intros k; destruct k; kind_unchanged | caches_unchanged]. Qed.

Lemma advances_refl st : advances st st.
Proof. apply rtc_refl. Qed.

Lemma advances_trans st1 st2 st3 : advances st1 st2 -> advances st2 st3 -> advances st1 st3.
Proof. apply rtc_trans. Qed.

Lemma advances_once st st' : advance st st' -> advances st st'.
Proof. apply rtc_once. Qed.

Lemma advances_gpu_events s t evs :
  forallb (fun e => match e with Gpu _ _ => true | _ => false end) evs = true ->
  advances (s, t) (s, evs ++ t).
Proof.
  induction evs as [|e evs IH]; simpl; [intros _; apply advances_refl|].
  intros [He Hevs]%andb_true_iff. destruct e as [c ok|]; [|discriminate].
  eapply advances_trans; [apply IH, Hevs|]. apply advances_once, advance_gpu.
Qed.

Lemma advance_addRef k h s t : advance (s, t) (addRef k h s, t).
Proof.
  destruct k; (split; [|caches_unchanged]); intros k'; destruct k'; try kind_unchanged.
  all: split;
    [ left; split; [reflexivity|]; split; [reflexivity|];
      intros i Hp; exact (registry_addRef_is_Some _ _ _ Hp)
    | intros i Hp; left; split;
      [ exact (registry_addRef_is_Some _ _ _ Hp)
      | intros Hg; exact (registry_addRef_good _ _ _ Hg) ] ].
Qed.

Lemma advance_release k h s t : advance (s, t) (release k h s, t).
Proof.
  destruct k; (split; [|caches_unchanged]); intros k'; destruct k'; try kind_unchanged.
  all: split;
    [ left; split; [reflexivity|]; split; [reflexivity|];
      intros i Hp; exact (registry_release_is_Some _ _ _ Hp)
    | intros i Hp; left; split;
      [ exact (registry_release_is_Some _ _ _ Hp)
      | intros Hg; exact (registry_release_good _ _ _ Hg) ] ].
Qed.

Lemma advance_meshPathCache f s t :
  (forall p h, f (m_meshPathCache s) !! p = Some h ->
     m_meshPathCache s !! p = Some h \/ h_generation h = 1) ->
  advance (s, t) (set_meshPathCache f s, t).
Proof.
  intros Hf. split; [intros k; destruct k; kind_unchanged|].
  split; [exact Hf | intros p h Hc; left; exact Hc].
Qed.

Lemma advance_modelPathCache f s t :
  (forall p h, f (m_modelPathCache s) !! p = Some h ->
     m_modelPathCache s !! p = Some h \/ h_generation h = 1) ->
  advance (s, t) (set_modelPathCache f s, t).
Proof.
  intros Hf. split; [intros k; destruct k; kind_unchanged|].
  split; [intros p h Hc; left; exact Hc | exact Hf].
Qed.

Lemma cache_emplace_step (c : gmap string Handle) (path : string) (h0 : Handle) p h :
  h_generation h0 = 1 ->
  emplace path h0 c !! p = Some h -> c !! p = Some h \/ h_generation h = 1.
Proof.
  intros Hg. unfold emplace. destruct (c !! path) eqn:Hc; [auto|].
  rewrite lookup_insert. destruct (decide (path = p)); [|auto].
  intros [= <-]. auto.
Qed.

Lemma cache_delete_step (c : gmap string Handle) (path : string) p h :
  delete path c !! p = Some h -> c !! p = Some h \/ h_generation h = 1.
Proof.
  rewrite lookup_delete. destruct (decide (path = p)); [discriminate | auto].
Qed.

(** Registering an entry of a kind. *)
Ltac kind_registers :=
  split;
  [ right; split; [reflexivity|]; split; [reflexivity|];
    intros i Hp; exact (emplace_is_Some _ _ _ _ Hp)
  | intros i Hp; apply emplace_good; [reflexivity | simpl; eauto | exact Hp] ].

Lemma advance_createTexture tex r s t :
  advance (s, t) ((createTexture_Internal (Some tex) r s t).1.2,
                  (createTexture_Internal (Some tex) r s t).2).
Proof.
  split; [|caches_unchanged].
  intros k. destruct k; try kind_unchanged. kind_registers.
Qed.

Lemma advance_createMaterial mat r s t :
  advance (s, t) ((createMaterial_Internal (Some mat) r s t).1.2,
                  (createMaterial_Internal (Some mat) r s t).2).
Proof.
  split; [|caches_unchanged].
  intros k. destruct k; try kind_unchanged. kind_registers.
Qed.

Lemma advance_createModel model path r s t :
  advance (s, t) ((createModel_Internal (Some model) path r s t).1.2,
                  (createModel_Internal (Some model) path r s t).2).
Proof.
  split; [|caches_unchanged].
  intros k. destruct k; try kind_unchanged. kind_registers.
Qed.

Lemma advances_extends (Q : Event -> bool) s t t' :
  (forall e, Q e = true -> is_gpu e = true) ->
  extends_with Q t t' -> advances (s, t) (s, t').
Proof.
  intros HQ (evs & -> & Hq). apply advances_gpu_events.
  rewrite forallb_forall in *. intros e He. apply HQ, Hq, He.
Qed.

Lemma is_texture_upload_gpu e : is_texture_upload e = true -> is_gpu e = true.
Proof. destruct e; [reflexivity | discriminate]. Qed.

Lemma advances_uploadEncodedImage P ctx a img off sz srgb wu wv mn mg mp an s t :
  advances (s, t)
    (s, (uploadEncodedImage_Deferred P ctx a img off sz srgb wu wv mn mg mp an t).2).
Proof.
  eapply advances_extends; [exact is_texture_upload_gpu|].
  apply uploadEncodedImage_Deferred_extends.
Qed.

(** Calls in front of a trace. *)
Ltac gpu_steps :=
  repeat match goal with
         | |- rtc advance _ (_, Gpu _ _ :: _) => eapply rtc_r; [|apply advance_gpu]
         end;
  apply rtc_refl.

Lemma advances_createMesh P data path r s t :
  advances (s, t) ((createMeshFromData_Internal P data path r s t).1.2,
                   (createMeshFromData_Internal P data path r s t).2).
Proof.
  unfold createMeshFromData_Internal, call, call_void, advances.
  destruct (negb (respond P t vkCreateCommandPool)); cbn [fst snd]; [gpu_steps|].
  destruct (negb _); cbn [fst snd]; [gpu_steps|].
  eapply rtc_r; [gpu_steps|].
  split; [|caches_unchanged].
  intros k. destruct k; try kind_unchanged. kind_registers.
Qed.

Lemma advances_upload_texture P view i (st : TexLoop) :
  match upload_texture P view i st with
  | inl f => advances (tex_state st) (tex_exit_state f)
  | inr st' => advances (tex_state st) (tex_state st')
  end.
Proof.
  destruct st as [[[th up] s] t]. unfold upload_texture.
  match goal with
  | |- context [uploadEncodedImage_Deferred ?P ?c ?a ?im ?o ?z ?sr ?wu ?wv ?mn ?mg ?mp ?an ?t] =>
      pose proof (advances_uploadEncodedImage P c a im o z sr wu wv mn mg mp an s t) as Hu;
      revert Hu;
      destruct (uploadEncodedImage_Deferred P c a im o z sr wu wv mn mg mp an t)
        as [[[ok tex] up1] t1]
  end.
  cbn [snd]. intros Hu. destruct (negb ok).
  - exact Hu.
  - eapply advances_trans; [exact Hu|].
    apply advances_once, (advance_createTexture tex 0 s t1).
Qed.

Lemma advances_texture_loop P view i n (st0 : TexLoop) :
  match iter_until (upload_texture P view) i n st0 with
  | inl f => advances (tex_state st0) (tex_exit_state f)
  | inr st' => advances (tex_state st0) (tex_state st')
  end.
Proof.
  apply (iter_until_ind
    (fun _ (st : TexLoop) => advances (tex_state st0) (tex_state st))
    (fun f => advances (tex_state st0) (tex_exit_state f))
    (upload_texture P view) i n st0).
  - apply advances_refl.
  - intros j st _ Hst. pose proof (advances_upload_texture P view j st) as Hu.
    destruct (upload_texture P view j st); eapply advances_trans; eauto.
Qed.

Lemma advances_addRef_valid_Texture h s t :
  advances (s, t) (addRef_valid_Texture h s, t).
Proof.
  unfold addRef_valid_Texture. destruct (isValid h); [|apply advances_refl].
  apply advances_once, (advance_addRef KTexture).
Qed.

Lemma advances_create_material view ths i (st : list MaterialHandle * AssetManager * Trace) :
  advances (loop_state st) (loop_state (create_material view ths i st)).
Proof.
  destruct st as [[mh s] t]. unfold create_material, loop_state.
  cbn -[getMaterial addRef_valid_Texture createMaterial_Internal].
  match goal with
  | |- context [createMaterial_Internal (Some ?m) 0 s t] =>
      pose proof (advance_createMaterial m 0 s t) as Hc;
      destruct (createMaterial_Internal (Some m) 0 s t) as [[h1 s1] t1]
  end.
  cbn [fst snd] in *.
  eapply advances_trans; [apply advances_once, Hc|].
  destruct (getMaterial s1 h1); [|apply advances_refl].
  repeat (eapply advances_trans; [|apply advances_addRef_valid_Texture]).
  apply advances_refl.
Qed.

Lemma advances_create_mesh P view path i (st : list MeshHandle * AssetManager * Trace) :
  advances (loop_state st) (loop_state (create_mesh P view path i st)).
Proof.
  destruct st as [[mh s] t]. unfold create_mesh, loop_state.
  match goal with
  | |- context [createMeshFromData_Internal ?P ?d ?p ?r s t] =>
      pose proof (advances_createMesh P d p r s t) as Hc;
      destruct (createMeshFromData_Internal P d p r s t) as [[h1 s1] t1]
  end.
  exact Hc.
Qed.

Lemma advances_loop3 {H : Type}
    (body : Z -> H * AssetManager * Trace -> H * AssetManager * Trace) i n st0 :
  (forall j st, advances (loop_state st) (loop_state (body j st))) ->
  advances (loop_state st0) (loop_state (iter_from body i n st0)).
Proof.
  intros Hb.
  apply (iter_from_ind (fun _ st => advances (loop_state st0) (loop_state st)) body i n st0).
  - apply advances_refl.
  - intros j st _ Hst. eapply advances_trans; [exact Hst | apply Hb].
Qed.

Lemma advances_create_primitive view mhs mats i (st : PrimLoop) t :
  advances (st.2, t) ((create_primitive view mhs mats i st).2, t).
Proof.
  destruct st as [[[prims md] mt] s]. unfold create_primitive.
  cbn -[addRef_Mesh addRef_Material].
  destruct (isValid _); destruct (isValid _); cbn [snd].
  - eapply advances_trans; apply advances_once;
      [apply (advance_addRef KMesh) | apply (advance_addRef KMaterial)].
  - apply advances_once, (advance_addRef KMesh).
  - apply advances_once, (advance_addRef KMaterial).
  - apply advances_refl.
Qed.

Lemma advances_prim_loop view mhs mats i n (st0 : PrimLoop) t :
  advances (st0.2, t) ((iter_from (create_primitive view mhs mats) i n st0).2, t).
Proof.
  apply (iter_from_ind (fun _ (st : PrimLoop) => advances (st0.2, t) (st.2, t))
           (create_primitive view mhs mats) i n st0).
  - apply advances_refl.
  - intros j st _ Hst. eapply advances_trans; [exact Hst|].
    apply advances_create_primitive.
Qed.

Lemma advance_fill_model_deps h md mt s t :
  advance (s, t) (fill_model_deps h md mt s, t).
Proof.
  split; [|caches_unchanged].
  intros k. destruct k; try kind_unchanged.
  unfold fill_model_deps. split.
  - left. split; [reflexivity|]. split; [reflexivity|]. intros i. cbn.
    destruct (m_models s !! id h) as [e|] eqn:He; [|auto].
    rewrite lookup_insert. destruct (decide (id h = i)) as [<-|]; [|auto].
    intros _. eauto.
  - intros i. cbn.
    destruct (m_models s !! id h) as [e|] eqn:He; [|intros Hp; left; auto].
    unfold good_entry. rewrite lookup_insert.
    destruct (decide (id h = i)) as [<-|]; [|intros Hp; left; auto].
    intros _. left. split; [eauto|].
    intros (e' & He' & Hg & Ha). rewrite He in He'. injection He' as <-.
    eexists. split; [reflexivity|]. split; assumption.
Qed.

Lemma advances_loadModel_build P path view ths s t :
  advances (s, t) ((loadModel_build P path view ths s t).1.2,
                   (loadModel_build P path view ths s t).2).
Proof.
  unfold loadModel_build.
  match goal with
  | |- context [iter_from (create_material view ths) 0 ?n ?st] =>
      pose proof (advances_loop3 (create_material view ths) 0 n st
                    (advances_create_material view ths)) as H1;
      revert H1; destruct (iter_from (create_material view ths) 0 n st) as [[mats s1] t1]
  end.
  unfold loop_state at 1 2. cbn [fst snd]. intros H1.
  match goal with
  | |- context [iter_from (create_mesh P view path) 0 ?n ?st] =>
      pose proof (advances_loop3 (create_mesh P view path) 0 n st
                    (advances_create_mesh P view path)) as H2;
      revert H2; destruct (iter_from (create_mesh P view path) 0 n st) as [[mhs s2] t2]
  end.
  unfold loop_state at 1 2. cbn [fst snd]. intros H2.
  match goal with
  | |- context [iter_from (create_primitive view mhs mats) 0 ?n ?st] =>
      pose proof (advances_prim_loop view mhs mats 0 n st t2) as H3;
      revert H3;
      destruct (iter_from (create_primitive view mhs mats) 0 n st) as [[[prims md] mt] s3]
  end.
  cbn [fst snd]. intros H3.
  match goal with
  | |- context [createModel_Internal (Some ?m) path 1 s3 t2] =>
      pose proof (advance_createModel m path 1 s3 t2) as H4
  end.
  unfold createModel_Internal in *. cbn [fst snd] in *.
  eapply advances_trans; [exact H1|]. eapply advances_trans; [exact H2|].
  eapply advances_trans; [exact H3|].
  eapply advances_trans; [apply advances_once; exact H4|].
  eapply advances_trans; [apply advances_once, advance_fill_model_deps|].
  apply advances_once, advance_modelPathCache.
  intros p h. apply cache_emplace_step. reflexivity.
Qed.

Lemma advances_loadModel_upload P path view s t :
  advances (s, t) ((loadModel_upload P path view s t).1.2,
                   (loadModel_upload P path view s t).2).
Proof.
  unfold loadModel_upload, BeginUploadContext, EndSubmitAndWait, call, call_void, advances.
  destruct (negb (respond P t vkCreateCommandPool)); cbn [fst snd negb]; [gpu_steps|].
  destruct (negb (respond P _ BeginUploadContext_call)); cbn [fst snd]; [gpu_steps|].
  match goal with
  | |- context [iter_until (upload_texture P view) 0 ?n ?st] =>
      pose proof (advances_texture_loop P view 0 n st) as Hl; revert Hl;
      destruct (iter_until (upload_texture P view) 0 n st)
        as [[[up1 s1] t3]|[[[ths up1] s1] t3]]
  end.
  - unfold tex_state, tex_exit_state. cbn [fst snd]. intros Hl.
    eapply rtc_trans; [eapply rtc_trans; [|exact Hl]; gpu_steps|]. gpu_steps.
  - unfold tex_state. cbn [fst snd]. intros Hl.
    destruct (negb (respond P t3 EndSubmitAndWait_call)); cbn [fst snd].
    + eapply rtc_trans; [eapply rtc_trans; [|exact Hl]; gpu_steps|]. gpu_steps.
    + eapply rtc_trans; [eapply rtc_trans; [|exact Hl]; gpu_steps|].
      eapply rtc_trans; [|apply advances_loadModel_build]. gpu_steps.
Qed.

Lemma advances_loadModel P path s t :
  advances (s, t) ((loadModel P path s t).1.2, (loadModel P path s t).2).
Proof.
  unfold loadModel. destruct (m_modelPathCache s !! path) as [h|].
  - apply advances_once, (advance_addRef KModel).
  - destruct (smodel.LoadSModelFile _ _ _) as [err|view]; [apply advances_refl|].
    apply advances_loadModel_upload.
Qed.

Lemma createMesh_handle P data path r s t :
  (createMeshFromData_Internal P data path r s t).1.1 = Handle_default
  \/ h_generation (createMeshFromData_Internal P data path r s t).1.1 = 1.
Proof.
  unfold createMeshFromData_Internal, call.
  destruct (negb _); [left; reflexivity|].
  destruct (negb _); [left; reflexivity | right; reflexivity].
Qed.

Lemma advances_loadMesh P path s t :
  advances (s, t) ((loadMesh P path s t).1.2, (loadMesh P path s t).2).
Proof.
  unfold loadMesh. destruct (m_meshPathCache s !! path) as [h|].
  - apply advances_once, (advance_addRef KMesh).
  - destruct (smesh_files P path) as [data|]; [|apply advances_refl].
    pose proof (advances_createMesh P data path 1 s t) as Hc.
    pose proof (createMesh_handle P data path 1 s t) as Hh. revert Hc Hh.
    destruct (createMeshFromData_Internal P data path 1 s t) as [[h s1] t1].
    cbn [fst snd]. intros Hc Hh. destruct (isValid h) eqn:Hv; cbn [fst snd]; [|exact Hc].
    eapply advances_trans; [exact Hc|]. apply advances_once, advance_meshPathCache.
    intros p h'. apply cache_emplace_step.
    destruct Hh as [-> | Hg]; [discriminate | exact Hg].
Qed.

Lemma advances_foldl {X : Type} (f : AssetManager -> X -> AssetManager) (l : list X) s t :
  (forall acc x, advances (acc, t) (f acc x, t)) ->
  advances (s, t) (foldl f s l, t).
Proof.
  intros Hf. revert s. induction l as [|x l IH]; intros s; simpl; [apply advances_refl|].
  eapply advances_trans; [apply Hf | apply IH].
Qed.

(** Erasing an entry. *)
Ltac kind_erases :=
  split;
  [ left; split; [reflexivity|]; split; [reflexivity|];
    intros j Hp; exact (proj1 (delete_good _ _ _ Hp))
  | intros j Hp; left; exact (delete_good _ _ _ Hp) ].

Lemma advance_delete_model i s t : advance (s, t) (set_models (delete i) s, t).
Proof.
  split; [|caches_unchanged].
  intros k. destruct k; try kind_unchanged. kind_erases.
Qed.

Lemma advance_delete_material i s t : advance (s, t) (set_materials (delete i) s, t).
Proof.
  split; [|caches_unchanged].
  intros k. destruct k; try kind_unchanged. kind_erases.
Qed.

Lemma advance_delete_mesh i s t : advance (s, t) (set_meshes (delete i) s, t).
Proof.
  split; [|caches_unchanged].
  intros k. destruct k; try kind_unchanged. kind_erases.
Qed.

Lemma advance_delete_texture i s t : advance (s, t) (set_textures (delete i) s, t).
Proof.
  split; [|caches_unchanged].
  intros k. destruct k; try kind_unchanged. kind_erases.
Qed.

Lemma advances_sweep_model s t ie : advances (s, t) (sweep_model s ie, t).
Proof.
  destruct ie as [i e]. unfold sweep_model.
  destruct (model_refCount e =? 0); [|apply advances_refl].
  eapply rtc_r; [|apply advance_delete_model].
  eapply rtc_r;
    [|apply advance_modelPathCache; intros p h; apply cache_delete_step].
  eapply advances_trans;
    [|apply advances_foldl; intros acc mh; apply advances_once, (advance_release KMaterial)].
  apply advances_foldl; intros acc mh; apply advances_once, (advance_release KMesh).
Qed.

Lemma advances_sweep_material s t ie : advances (s, t) (sweep_material s ie, t).
Proof.
  destruct ie as [i e]. unfold sweep_material.
  destruct (material_refCount e =? 0); [|apply advances_refl].
  eapply rtc_r; [|apply advance_delete_material].
  apply advances_foldl; intros acc th; apply advances_once, (advance_release KTexture).
Qed.

Lemma advances_sweep_mesh st ie : advances st (sweep_mesh st ie).
Proof.
  destruct st as [s t], ie as [i e]. unfold sweep_mesh.
  destruct (mesh_refCount e =? 0); [|apply advances_refl].
  eapply advances_trans;
    [apply advances_once, advance_meshPathCache; intros p h; apply cache_delete_step|].
  eapply advances_trans; [apply advances_once, advance_delete_mesh|].
  destruct (mesh_asset e); [|apply advances_refl].
  apply advances_once, advance_gpu.
Qed.

Lemma advances_sweep_texture st ie : advances st (sweep_texture st ie).
Proof.
  destruct st as [s t], ie as [i e]. unfold sweep_texture.
  destruct (texture_refCount e =? 0); [|apply advances_refl].
  eapply advances_trans; [apply advances_once, advance_delete_texture|].
  destruct (texture_asset e) as [a|]; [|apply advances_refl].
  eapply advances_extends; [exact is_texture_upload_gpu|].
  apply TextureAsset_destroy_extends.
Qed.

Lemma advances_foldl_pair {X : Type}
    (f : AssetManager * Trace -> X -> AssetManager * Trace) (l : list X) st :
  (forall acc x, advances acc (f acc x)) ->
  advances st (foldl f st l).
Proof.
  intros Hf. revert st. induction l as [|x l IH]; intros st; simpl; [apply advances_refl|].
  eapply advances_trans; [apply Hf | apply IH].
Qed.

Lemma advances_garbageCollect s t : advances (s, t) (garbageCollect s t).
Proof.
  unfold garbageCollect.
  eapply advances_trans;
    [|apply advances_foldl_pair; intros acc x; apply advances_sweep_texture].
  eapply advances_trans;
    [|apply advances_foldl_pair; intros acc x; apply advances_sweep_mesh].
  eapply advances_trans;
    [|apply advances_foldl; intros acc x; apply advances_sweep_material].
  apply advances_foldl; intros acc x; apply advances_sweep_model.
Qed.

(** Every reachable state satisfies the registry invariant. *)
Lemma reachable_registry_invariant s t : reachable s t -> registry_invariant (s, t).
Proof.
  induction 1 as [|P path s t _ IH|P path s t _ IH|k h s t _ IH|k h s t _ IH|s t _ IH].
  - apply registry_invariant_new.
  - eapply registry_invariant_advances; [exact IH | apply advances_loadMesh].
  - eapply registry_invariant_advances; [exact IH | apply advances_loadModel].
  - eapply registry_invariant_advance; [exact IH | apply advance_addRef].
  - eapply registry_invariant_advance; [exact IH | apply advance_release].
  - pose proof (advances_garbageCollect s t) as Hg.
    destruct (garbageCollect s t) as [s' t']. cbn [fst snd].
    eapply registry_invariant_advances; [exact IH | exact Hg].
Qed.

(* ----------------------------------------------------------------- *)
(** *** Handles the manager returns *)

Section RegistryGet.

Context {E A : Type} {RE : RegistryEntry E A}.

Implicit Types (m : gmap Z E) (h : Handle).

(** Through a handle of generation 1, [get] on a registry of good entries
    fails exactly when the identifier has no entry. *)
Lemma registry_get_absent_iff m h :
  (forall i, is_Some (m !! i) -> good_entry m i) ->
  h_generation h = 1 ->
  registry_get m h = None <-> ~ is_Some (m !! id h).
Proof.
  intros Hgood Hh. unfold registry_get, resolve. split.
  - intros Hget Hp. destruct (Hgood _ Hp) as (e & He & Hg & [a Ha]).
    rewrite He, Hg, Hh in Hget. simpl in Hget. congruence.
  - intros Hn. destruct (m !! id h) eqn:Hm; [|reflexivity].
    exfalso. apply Hn. eauto.
Qed.

(** The default handle finds nothing in a registry of good entries. *)
Lemma registry_get_default m :
  (forall i, is_Some (m !! i) -> good_entry m i) ->
  registry_get m Handle_default = None.
Proof.
  intros Hgood. unfold registry_get, resolve. simpl.
  destruct (m !! 0) as [e|] eqn:Hm; [|reflexivity].
  destruct (Hgood 0) as (e' & He' & Hg & _); [eauto|].
  rewrite Hm in He'. injection He' as <-. rewrite Hg. reflexivity.
Qed.

End RegistryGet.

Lemma loadMesh_handle P path s t :
  cached_gens_one s -> handed_out (loadMesh P path s t).1.1.
Proof.
  intros [Hc _]. unfold loadMesh.
  destruct (m_meshPathCache s !! path) as [h|] eqn:Hp.
  - right. exact (Hc _ _ Hp).
  - destruct (smesh_files P path) as [data|]; [|left; reflexivity].
    pose proof (createMesh_handle P data path 1 s t) as Hh. revert Hh.
    destruct (createMeshFromData_Internal P data path 1 s t) as [[h s1] t1].
    cbn [fst snd]. intros Hh. destruct (isValid h); exact Hh.
Qed.

Lemma loadModel_upload_handle P path view s t :
  handed_out (loadModel_upload P path view s t).1.1.
Proof.
  unfold loadModel_upload.
  destruct (call P vkCreateCommandPool t) as [pr t1].
  destruct (negb pr); [left; reflexivity|].
  destruct (BeginUploadContext P t1) as [[begunOk upload] t2].
  destruct (negb begunOk); [left; reflexivity|].
  destruct (iter_until _ _ _ _) as [[[upload1 s1] t3]|[[[ths upload1] s1] t3]].
  - destruct (EndSubmitAndWait P upload1 t3) as [[? ?] t4]. left. reflexivity.
  - destruct (EndSubmitAndWait P upload1 t3) as [[submitted ?] t4].
    destruct (negb submitted); [left; reflexivity|].
    destruct (loadModel_build P path view ths s1 (call_void vkDestroyCommandPool t4))
      as [[h s'] t'] eqn:Hb.
    apply loadModel_build_result in Hb as [-> _]. right. reflexivity.
Qed.

Lemma loadModel_handle P path s t :
  cached_gens_one s -> handed_out (loadModel P path s t).1.1.
Proof.
  intros [_ Hc]. unfold loadModel.
  destruct (m_modelPathCache s !! path) as [h|] eqn:Hp.
  - right. exact (Hc _ _ Hp).
  - destruct (smodel.LoadSModelFile _ _ _); [left; reflexivity|].
    apply loadModel_upload_handle.
Qed.

Lemma In_countdown i n : In i (countdown n) <-> 1 <= i <= Z.of_nat n.
Proof.
  induction n as [|n IH]; [simpl; lia|].
  change (countdown (S n)) with (Z.of_nat (S n) :: countdown n).
  simpl In. rewrite IH. lia.
Qed.

Lemma NoDup_countdown n : NoDup (countdown n).
Proof.
  induction n as [|n IH]; [constructor|].
  change (countdown (S n)) with (Z.of_nat (S n) :: countdown n).
  constructor; [|exact IH]. rewrite list_elem_of_In, In_countdown. lia.
Qed.

Lemma reachable_good k s t i : reachable s t -> present k s i -> good k s i.
Proof.
  intros Hr. destruct (reachable_registry_invariant s t Hr) as (Hg & _). apply Hg.
Qed.

(** In a reachable state with identifiers of kind [k] left, the counter of
    kind [k] stands on an unused identifier. *)
Lemma reachable_fresh_id k s t :
  reachable s t -> ids_left k t -> ~ present k s (next_id k s).
Proof.
  intros Hr Hleft Hp.
  destruct (reachable_registry_invariant s t Hr) as (_ & _ & Hids).
  destruct (Hids k Hleft) as (_ & _ & Hrange).
  specialize (Hrange _ Hp). cbn [fst] in Hrange. lia.
Qed.

Lemma get_absent_iff k s h :
  (forall i, present k s i -> good k s i) ->
  h_generation h = 1 ->
  get_absent k s h <-> ~ present k s (id h).
Proof.
  intros Hg Hh. destruct k; apply registry_get_absent_iff; assumption.
Qed.

Lemma get_absent_default k s :
  (forall i, present k s i -> good k s i) -> get_absent k s Handle_default.
Proof. intros Hg. destruct k; apply registry_get_default; assumption. Qed.

Lemma good_generation k s i g :
  good k s i -> generation_of k s i = Some g -> g = 1.
Proof.
  destruct k; intros (e & He & Hg & _); unfold generation_of; rewrite He;
    intros [= <-]; exact Hg.
Qed.

Lemma generation_of_present k s i g : generation_of k s i = Some g -> present k s i.
Proof.
  destruct k; unfold generation_of, present;
    match goal with |- context [?m !! i] => destruct (m !! i) end;
    (discriminate || eauto).
Qed.

(** C7: in every reachable state every entry carries generation 1; while
    fewer than 2^64 - 1 identifiers of a kind were handed out, these were
    1, 2, 3, ... in this order without repetition, the counter is ahead of
    all of them, the registry holds none but them and never identifier 0;
    the handles [loadMesh] and [loadModel] return are the default handle or
    carry generation 1; and [get] through such a handle is absent exactly
    when the registry no longer holds its identifier. *)
Theorem C7_generation_one_and_fresh_identifiers s t :
  reachable s t ->
  gens_one s
  /\ (forall k, ids_left k t ->
        issued k t = countdown (length (issued k t))
        /\ NoDup (issued k t)
        /\ next_id k s = 1 + Z.of_nat (length (issued k t))
        /\ (forall i, In i (issued k t) -> 1 <= i < next_id k s)
        /\ (forall i, present k s i -> In i (issued k t))
        /\ ~ present k s (id Handle_default))
  /\ (forall P path, handed_out (loadMesh P path s t).1.1)
  /\ (forall P path, handed_out (loadModel P path s t).1.1)
  /\ (forall k h, h_generation h = 1 ->
        (get_absent k s h <-> ~ present k s (id h)))
  /\ (forall k, get_absent k s Handle_default).
Proof.
  intros Hr. destruct (reachable_registry_invariant s t Hr) as (Hgood & Hc & Hids).
  cbn [fst snd] in *.
  split; [|split; [|split; [|split; [|split]]]].
  - intros k i g Hg. eapply good_generation; [|exact Hg].
    apply Hgood. eapply generation_of_present, Hg.
  - intros k Hk. destruct (Hids k Hk) as (Hn & Hi & Hp).
    split; [exact Hi|]. split; [rewrite Hi; apply NoDup_countdown|].
    split; [exact Hn|]. split; [|split].
    + intros i. rewrite Hi at 1. rewrite In_countdown, Hn. lia.
    + intros i Hpi. rewrite Hi, In_countdown. specialize (Hp i Hpi). lia.
    + intros Hp0. specialize (Hp _ Hp0). simpl in Hp. lia.
  - intros P path. apply loadMesh_handle, Hc.
  - intros P path. apply loadModel_handle, Hc.
  - intros k h Hh. apply get_absent_iff; [apply Hgood | exact Hh].
  - intros k. apply get_absent_default, Hgood.
Qed.

(** C7 at the manager that has loaded [quad.smodel]. *)
Lemma C7_witness :
  reachable quad_loaded.1 quad_loaded.2
  /\ gens_one quad_loaded.1
  /\ (issued KModel quad_loaded.2 = countdown (length (issued KModel quad_loaded.2))
      /\ next_id KModel quad_loaded.1 = 1 + Z.of_nat (length (issued KModel quad_loaded.2)))
  /\ (forall k h, h_generation h = 1 ->
        (get_absent k quad_loaded.1 h <-> ~ present k quad_loaded.1 (id h))).
Proof.
  assert (Hr : reachable quad_loaded.1 quad_loaded.2)
    by exact (quad_referenced_reachable 0).
  destruct (C7_generation_one_and_fresh_identifiers _ _ Hr)
    as (Hg & Hids & _ & _ & Hget & _).
  split; [exact Hr|]. split; [exact Hg|]. split; [|exact Hget].
  destruct (Hids KModel) as (Hi & _ & Hn & _); [vm_compute; reflexivity|].
  split; [exact Hi | exact Hn].
Defined.

(* ================================================================= *)
(** ** Reclaiming a model and what it holds *)

(* ================================================================= *)
(** ** One collection pass *)

Lemma foldl_preserves {St X : Type} (f : St -> X -> St) (Q : St -> Prop) l s :
  (forall s x, Q s -> Q (f s x)) -> Q s -> Q (foldl f s l).
Proof.
  intros Hf. revert s. induction l as [|x l IH]; intros s Hs; simpl; [exact Hs|].
  apply IH, Hf, Hs.
Qed.

(** A fold that meets [x0] takes [Q1] to [Q2], if the step at [x0] does and
    every step keeps both. *)
Lemma foldl_reaches {St X : Type} (f : St -> X -> St) (Q1 Q2 : St -> Prop) x0 l s :
  x0 ∈ l ->
  (forall s x, Q1 s -> Q1 (f s x)) ->
  (forall s x, Q2 s -> Q2 (f s x)) ->
  (forall s, Q1 s -> Q2 (f s x0)) ->
  Q1 s -> Q2 (foldl f s l).
Proof.
  intros Hin H1 H2 H0. revert s. induction l as [|x l IH]; intros s Hs.
  - inversion Hin.
  - simpl. apply elem_of_cons in Hin as [<-|Hin].
    + apply foldl_preserves; [exact H2 | apply H0, Hs].
    + apply IH; [exact Hin | apply H1, Hs].
Qed.

Lemma occurrences_cons h0 h l :
  occurrences h0 (h :: l) = ((if decide (h = h0) then 1 else 0) + occurrences h0 l)%nat.
Proof.
  unfold occurrences. rewrite filter_cons. destruct (decide (h = h0)); reflexivity.
Qed.

Section Bounded.

Context {E A : Type} {RE : RegistryEntry E A}.

Implicit Types (m : gmap Z E) (h : Handle) (e : E).

Lemma bounded_weaken m i n n' : (n <= n')%nat -> bounded m i n -> bounded m i n'.
Proof. intros Hn (e & He & Hg & Hr). exists e. split; [|split]; auto. lia. Qed.

(** [release] through any handle keeps a bound. *)
Lemma bounded_release m h i n : bounded m i n -> bounded (registry_release m h) i n.
Proof.
  intros (e & He & Hg & Hr). unfold bounded. rewrite lookup_registry_release.
  destruct (resolve m h) as [e'|] eqn:Hres; [|eauto].
  destruct (decide (id h = i)) as [<-|]; [|eauto].
  apply resolve_Some in Hres as [He' _]. rewrite He in He'. injection He' as <-.
  destruct (0 <? refCount e) eqn:Hpos; [|eauto].
  eexists. split; [reflexivity|].
  rewrite generation_with_refCount, refCount_with_refCount.
  apply Z.ltb_lt in Hpos. split; [exact Hg | lia].
Qed.

(** [release] through the entry's own handle lowers the bound. *)
Lemma bounded_release_same m i n :
  bounded m i n -> bounded (registry_release m (handle_of i)) i (pred n).
Proof.
  intros (e & He & Hg & Hr). unfold bounded. rewrite lookup_registry_release.
  assert (Hres : resolve m (handle_of i) = Some e)
    by (apply resolve_Some; simpl; auto).
  rewrite Hres. simpl. rewrite decide_True by reflexivity.
  destruct (0 <? refCount e) eqn:Hpos.
  - eexists. split; [reflexivity|].
    rewrite generation_with_refCount, refCount_with_refCount.
    apply Z.ltb_lt in Hpos. split; [exact Hg | lia].
  - apply Z.ltb_ge in Hpos. exists e. split; [reflexivity|]. split; [exact Hg | lia].
Qed.

(** Releasing a dependency list lowers the bound by the number of times
    the entry's handle stands in it. *)
Lemma bounded_releases deps m i n :
  bounded m i n ->
  bounded (foldl registry_release m deps) i (n - occurrences (handle_of i) deps).
Proof.
  revert m n. induction deps as [|h deps IH]; intros m n Hb; simpl.
  - eapply bounded_weaken; [|exact Hb]. unfold occurrences. simpl. lia.
  - rewrite occurrences_cons. destruct (decide (h = handle_of i)) as [->|].
    + replace (n - (1 + occurrences (handle_of i) deps))%nat
        with (pred n - occurrences (handle_of i) deps)%nat by lia.
      apply IH, bounded_release_same, Hb.
    + apply IH, bounded_release, Hb.
Qed.

Lemma bounded_releases_keep deps m i n :
  bounded m i n -> bounded (foldl registry_release m deps) i n.
Proof.
  intros Hb. eapply bounded_weaken; [|apply bounded_releases, Hb]. lia.
Qed.

(** [addRef] raises a bound by one at most, and only through the entry's
    own handle. *)
Lemma bounded_addRef m h i n :
  bounded m i n ->
  bounded (registry_addRef m h) i (n + (if decide (h = handle_of i) then 1 else 0)).
Proof.
  intros (e & He & Hg & Hr). unfold bounded. rewrite lookup_registry_addRef.
  destruct (resolve m h) as [e'|] eqn:Hres.
  - destruct (decide (id h = i)) as [<-|].
    + apply resolve_Some in Hres as [He' Hg']. rewrite He in He'. injection He' as <-.
      rewrite decide_True by (destruct h; unfold handle_of; simpl in *; congruence).
      eexists. split; [reflexivity|].
      rewrite generation_with_refCount, refCount_with_refCount.
      split; [exact Hg|]. unfold u32.
      pose proof (Z.mod_pos_bound (refCount e + 1) (2 ^ 32) eq_refl).
      pose proof (Z.mod_le (refCount e + 1) (2 ^ 32)). lia.
    + exists e. split; [exact He|]. split; [exact Hg | lia].
  - exists e. split; [exact He|]. split; [exact Hg | lia].
Qed.

End Bounded.

(** The release loops of the sweeps, as one registry update. *)
Lemma foldl_release_Mesh l s :
  foldl (fun acc mh => release_Mesh mh acc) s l
  = set_meshes (fun m => foldl registry_release m l) s.
Proof.
  revert s. induction l as [|h l IH]; intros s; simpl; [destruct s; reflexivity|].
  rewrite IH. reflexivity.
Qed.

Lemma foldl_release_Material l s :
  foldl (fun acc mat => release_Material mat acc) s l
  = set_materials (fun m => foldl registry_release m l) s.
Proof.
  revert s. induction l as [|h l IH]; intros s; simpl; [destruct s; reflexivity|].
  rewrite IH. reflexivity.
Qed.

Lemma foldl_release_Texture l s :
  foldl (fun acc th => release_Texture th acc) s l
  = set_textures (fun m => foldl registry_release m l) s.
Proof.
  revert s. induction l as [|h l IH]; intros s; simpl; [destruct s; reflexivity|].
  rewrite IH. reflexivity.
Qed.

(** [release] leaves a material's dependency list alone. *)
Lemma textureDeps_release (m : gmap Z MaterialEntry) h i :
  textureDeps <$> registry_release m h !! i = textureDeps <$> m !! i.
Proof.
  rewrite lookup_registry_release.
  destruct (resolve m h) as [e|] eqn:Hres; [|reflexivity].
  destruct (decide (id h = i)) as [<-|]; [|reflexivity].
  apply resolve_Some in Hres as [-> _]. destruct (0 <? refCount e); reflexivity.
Qed.

Lemma textureDeps_releases l (m : gmap Z MaterialEntry) i :
  textureDeps <$> foldl registry_release m l !! i = textureDeps <$> m !! i.
Proof.
  revert m. induction l as [|h l IH]; intros m; simpl; [reflexivity|].
  rewrite IH. apply textureDeps_release.
Qed.

(* ----------------------------------------------------------------- *)
(** *** Sweep 1: models *)

Lemma sweep_model_textures s ie : m_textures (sweep_model s ie) = m_textures s.
Proof.
  destruct ie as [i e]. unfold sweep_model. destruct (model_refCount e =? 0); [|reflexivity].
  rewrite foldl_release_Mesh, foldl_release_Material. reflexivity.
Qed.

Lemma sweep_model_models s i e :
  m_models (sweep_model s (i, e))
  = if model_refCount e =? 0 then delete i (m_models s) else m_models s.
Proof.
  unfold sweep_model. destruct (model_refCount e =? 0); [|reflexivity].
  rewrite foldl_release_Mesh, foldl_release_Material. reflexivity.
Qed.

Lemma sweep_model_meshes s i e :
  m_meshes (sweep_model s (i, e))
  = if model_refCount e =? 0 then foldl registry_release (m_meshes s) (meshDeps e)
    else m_meshes s.
Proof.
  unfold sweep_model. destruct (model_refCount e =? 0); [|reflexivity].
  rewrite foldl_release_Mesh, foldl_release_Material. reflexivity.
Qed.

Lemma sweep_model_materials s i e :
  m_materials (sweep_model s (i, e))
  = if model_refCount e =? 0 then foldl registry_release (m_materials s) (materialDeps e)
    else m_materials s.
Proof.
  unfold sweep_model. destruct (model_refCount e =? 0); [|reflexivity].
  rewrite foldl_release_Mesh, foldl_release_Material. reflexivity.
Qed.

Lemma sweep_model_keeps_None i s ie :
  m_models s !! i = None -> m_models (sweep_model s ie) !! i = None.
Proof.
  destruct ie as [j e]. rewrite sweep_model_models.
  destruct (model_refCount e =? 0); [|auto].
  intros Hn. rewrite lookup_delete. destruct (decide (j = i)); auto.
Qed.

Lemma sweep_model_keeps_meshes_None i s ie :
  m_meshes s !! i = None -> m_meshes (sweep_model s ie) !! i = None.
Proof.
  destruct ie as [j e]. rewrite sweep_model_meshes.
  destruct (model_refCount e =? 0); [|auto].
  generalize (meshDeps e) as l. intros l. revert s.
  induction l as [|h l IH]; intros s Hn; simpl; [exact Hn|].
  specialize (IH (set_meshes (fun m => registry_release m h) s)). apply IH.
  simpl. rewrite lookup_registry_release.
  destruct (resolve (m_meshes s) h) as [e'|] eqn:Hres; [|exact Hn].
  destruct (decide (id h = i)) as [<-|]; [|exact Hn].
  apply resolve_Some in Hres as [He' _]. congruence.
Qed.

Lemma sweep_model_keeps_mesh_bound i n s ie :
  bounded (m_meshes s) i n -> bounded (m_meshes (sweep_model s ie)) i n.
Proof.
  destruct ie as [j e]. rewrite sweep_model_meshes.
  destruct (model_refCount e =? 0); [|auto]. apply bounded_releases_keep.
Qed.

Lemma sweep_model_keeps_material_bound i n s ie :
  bounded (m_materials s) i n -> bounded (m_materials (sweep_model s ie)) i n.
Proof.
  destruct ie as [j e]. rewrite sweep_model_materials.
  destruct (model_refCount e =? 0); [|auto]. apply bounded_releases_keep.
Qed.

Lemma sweep_model_textureDeps i s ie :
  textureDeps <$> m_materials (sweep_model s ie) !! i = textureDeps <$> m_materials s !! i.
Proof.
  destruct ie as [j e]. rewrite sweep_model_materials.
  destruct (model_refCount e =? 0); [|auto]. apply textureDeps_releases.
Qed.

(** After sweep 1 an unreferenced model is gone and what it listed has
    been released. *)
Lemma sweep_models_result imod emod l s :
  (imod, emod) ∈ l -> model_refCount emod = 0 ->
  let s' := foldl sweep_model s l in
  m_models s' !! imod = None
  /\ m_textures s' = m_textures s
  /\ (forall i, textureDeps <$> m_materials s' !! i = textureDeps <$> m_materials s !! i)
  /\ (forall i, bounded (m_materials s) i (occurrences (handle_of i) (materialDeps emod)) ->
        bounded (m_materials s') i 0)
  /\ (forall i, m_meshes s !! i = None -> m_meshes s' !! i = None)
  /\ (forall i, bounded (m_meshes s) i (occurrences (handle_of i) (meshDeps emod)) ->
        bounded (m_meshes s') i 0).
Proof.
  intros Hin Hrc. cbv zeta. split; [|split; [|split; [|split; [|split]]]].
  - apply (foldl_reaches sweep_model (fun _ => True)
             (fun s => m_models s !! imod = None) (imod, emod)); auto.
    + intros s0 x. apply sweep_model_keeps_None.
    + intros s0 _. rewrite sweep_model_models, Hrc. simpl. apply lookup_delete_eq.
  - apply (foldl_preserves sweep_model (fun s' => m_textures s' = m_textures s));
      [|reflexivity].
    intros s0 x <-. apply sweep_model_textures.
  - intros i.
    apply (foldl_preserves sweep_model
             (fun s' => textureDeps <$> m_materials s' !! i
                        = textureDeps <$> m_materials s !! i)); [|reflexivity].
    intros s0 x <-. apply sweep_model_textureDeps.
  - intros i.
    apply (foldl_reaches sweep_model
             (fun s => bounded (m_materials s) i
                         (occurrences (handle_of i) (materialDeps emod)))
             (fun s => bounded (m_materials s) i 0) (imod, emod)); auto.
    + intros s0 x. apply sweep_model_keeps_material_bound.
    + intros s0 x. apply sweep_model_keeps_material_bound.
    + intros s0 Hb. rewrite sweep_model_materials, Hrc. simpl.
      eapply bounded_weaken; [|apply bounded_releases, Hb]. lia.
  - intros i.
    apply (foldl_preserves sweep_model (fun s => m_meshes s !! i = None)).
    intros s0 x. apply sweep_model_keeps_meshes_None.
  - intros i.
    apply (foldl_reaches sweep_model
             (fun s => bounded (m_meshes s) i
                         (occurrences (handle_of i) (meshDeps emod)))
             (fun s => bounded (m_meshes s) i 0) (imod, emod)); auto.
    + intros s0 x. apply sweep_model_keeps_mesh_bound.
    + intros s0 x. apply sweep_model_keeps_mesh_bound.
    + intros s0 Hb. rewrite sweep_model_meshes, Hrc. simpl.
      eapply bounded_weaken; [|apply bounded_releases, Hb]. lia.
Qed.

(* ----------------------------------------------------------------- *)
(** *** Sweep 2: materials *)

Lemma sweep_material_models s ie : m_models (sweep_material s ie) = m_models s.
Proof.
  destruct ie as [i e]. unfold sweep_material.
  destruct (material_refCount e =? 0); [|reflexivity].
  rewrite foldl_release_Texture. reflexivity.
Qed.

Lemma sweep_material_meshes s ie : m_meshes (sweep_material s ie) = m_meshes s.
Proof.
  destruct ie as [i e]. unfold sweep_material.
  destruct (material_refCount e =? 0); [|reflexivity].
  rewrite foldl_release_Texture. reflexivity.
Qed.

Lemma sweep_material_materials s i e :
  m_materials (sweep_material s (i, e))
  = if material_refCount e =? 0 then delete i (m_materials s) else m_materials s.
Proof.
  unfold sweep_material. destruct (material_refCount e =? 0); [|reflexivity].
  rewrite foldl_release_Texture. reflexivity.
Qed.

Lemma sweep_material_textures s i e :
  m_textures (sweep_material s (i, e))
  = if material_refCount e =? 0
    then foldl registry_release (m_textures s) (textureDeps e) else m_textures s.
Proof.
  unfold sweep_material. destruct (material_refCount e =? 0); [|reflexivity].
  rewrite foldl_release_Texture. reflexivity.
Qed.

Lemma sweep_material_keeps_None i s ie :
  m_materials s !! i = None -> m_materials (sweep_material s ie) !! i = None.
Proof.
  destruct ie as [j e]. rewrite sweep_material_materials.
  destruct (material_refCount e =? 0); [|auto].
  intros Hn. rewrite lookup_delete. destruct (decide (j = i)); auto.
Qed.

Lemma sweep_material_keeps_texture_bound i n s ie :
  bounded (m_textures s) i n -> bounded (m_textures (sweep_material s ie)) i n.
Proof.
  destruct ie as [j e]. rewrite sweep_material_textures.
  destruct (material_refCount e =? 0); [|auto]. apply bounded_releases_keep.
Qed.

(** After sweep 2 an unreferenced material is gone and its textures have
    been released. *)
Lemma sweep_materials_result imat emat l s :
  (imat, emat) ∈ l -> material_refCount emat = 0 ->
  let s' := foldl sweep_material s l in
  m_materials s' !! imat = None
  /\ m_models s' = m_models s
  /\ m_meshes s' = m_meshes s
  /\ (forall i, bounded (m_textures s) i (occurrences (handle_of i) (textureDeps emat)) ->
        bounded (m_textures s') i 0).
Proof.
  intros Hin Hrc. cbv zeta. split; [|split; [|split]].
  - apply (foldl_reaches sweep_material (fun _ => True)
             (fun s => m_materials s !! imat = None) (imat, emat)); auto.
    + intros s0 x. apply sweep_material_keeps_None.
    + intros s0 _. rewrite sweep_material_materials, Hrc. simpl. apply lookup_delete_eq.
  - apply (foldl_preserves sweep_material (fun s' => m_models s' = m_models s));
      [|reflexivity].
    intros s0 x <-. apply sweep_material_models.
  - apply (foldl_preserves sweep_material (fun s' => m_meshes s' = m_meshes s));
      [|reflexivity].
    intros s0 x <-. apply sweep_material_meshes.
  - intros i.
    apply (foldl_reaches sweep_material
             (fun s => bounded (m_textures s) i
                         (occurrences (handle_of i) (textureDeps emat)))
             (fun s => bounded (m_textures s) i 0) (imat, emat)); auto.
    + intros s0 x. apply sweep_material_keeps_texture_bound.
    + intros s0 x. apply sweep_material_keeps_texture_bound.
    + intros s0 Hb. rewrite sweep_material_textures, Hrc. simpl.
      eapply bounded_weaken; [|apply bounded_releases, Hb]. lia.
Qed.

(* ----------------------------------------------------------------- *)
(** *** Sweeps 3 and 4: meshes and textures *)

Lemma sweep_mesh_state st i e :
  (sweep_mesh st (i, e)).1
  = if mesh_refCount e =? 0
    then set_meshes (delete i) (set_meshPathCache (delete (mesh_path e)) st.1)
    else st.1.
Proof.
  destruct st as [s t]. unfold sweep_mesh. destruct (mesh_refCount e =? 0); reflexivity.
Qed.

Lemma sweep_meshes_result imesh l st :
  let st' := foldl sweep_mesh st l in
  m_models st'.1 = m_models st.1
  /\ m_materials st'.1 = m_materials st.1
  /\ m_textures st'.1 = m_textures st.1
  /\ (m_meshes st.1 !! imesh = None -> m_meshes st'.1 !! imesh = None)
  /\ (forall e, (imesh, e) ∈ l -> mesh_refCount e = 0 -> m_meshes st'.1 !! imesh = None).
Proof.
  cbv zeta.
  assert (Hkeep : forall (st0 : AssetManager * Trace) x,
            m_meshes st0.1 !! imesh = None -> m_meshes (sweep_mesh st0 x).1 !! imesh = None).
  { intros st0 [j e] Hn. rewrite sweep_mesh_state.
    destruct (mesh_refCount e =? 0); [|exact Hn].
    simpl. rewrite lookup_delete. destruct (decide (j = imesh)); auto. }
  split; [|split; [|split; [|split]]].
  - apply (foldl_preserves sweep_mesh (fun st' => m_models st'.1 = m_models st.1));
      [|reflexivity].
    intros st0 [j e] <-. rewrite sweep_mesh_state.
    destruct (mesh_refCount e =? 0); reflexivity.
  - apply (foldl_preserves sweep_mesh (fun st' => m_materials st'.1 = m_materials st.1));
      [|reflexivity].
    intros st0 [j e] <-. rewrite sweep_mesh_state.
    destruct (mesh_refCount e =? 0); reflexivity.
  - apply (foldl_preserves sweep_mesh (fun st' => m_textures st'.1 = m_textures st.1));
      [|reflexivity].
    intros st0 [j e] <-. rewrite sweep_mesh_state.
    destruct (mesh_refCount e =? 0); reflexivity.
  - apply (foldl_preserves sweep_mesh (fun st' => m_meshes st'.1 !! imesh = None)).
    exact Hkeep.
  - intros e Hin Hrc.
    apply (foldl_reaches sweep_mesh (fun _ => True)
             (fun st' => m_meshes st'.1 !! imesh = None) (imesh, e)); auto.
    intros st0 _. rewrite sweep_mesh_state, Hrc. simpl. apply lookup_delete_eq.
Qed.

Lemma sweep_texture_state st i e :
  (sweep_texture st (i, e)).1
  = if texture_refCount e =? 0 then set_textures (delete i) st.1 else st.1.
Proof.
  destruct st as [s t]. unfold sweep_texture. destruct (texture_refCount e =? 0); reflexivity.
Qed.

Lemma sweep_textures_result itex l st :
  let st' := foldl sweep_texture st l in
  m_models st'.1 = m_models st.1
  /\ m_materials st'.1 = m_materials st.1
  /\ m_meshes st'.1 = m_meshes st.1
  /\ (forall e, (itex, e) ∈ l -> texture_refCount e = 0 -> m_textures st'.1 !! itex = None).
Proof.
  cbv zeta. split; [|split; [|split]].
  - apply (foldl_preserves sweep_texture (fun st' => m_models st'.1 = m_models st.1));
      [|reflexivity].
    intros st0 [j e] <-. rewrite sweep_texture_state.
    destruct (texture_refCount e =? 0); reflexivity.
  - apply (foldl_preserves sweep_texture (fun st' => m_materials st'.1 = m_materials st.1));
      [|reflexivity].
    intros st0 [j e] <-. rewrite sweep_texture_state.
    destruct (texture_refCount e =? 0); reflexivity.
  - apply (foldl_preserves sweep_texture (fun st' => m_meshes st'.1 = m_meshes st.1));
      [|reflexivity].
    intros st0 [j e] <-. rewrite sweep_texture_state.
    destruct (texture_refCount e =? 0); reflexivity.
  - intros e Hin Hrc.
    apply (foldl_reaches sweep_texture (fun _ => True)
             (fun st' => m_textures st'.1 !! itex = None) (itex, e)); auto.
    + intros st0 [j e'] Hn. rewrite sweep_texture_state.
      destruct (texture_refCount e' =? 0); [|exact Hn].
      simpl. rewrite lookup_delete. destruct (decide (j = itex)); auto.
    + intros st0 _. rewrite sweep_texture_state, Hrc. simpl. apply lookup_delete_eq.
Qed.

(* ----------------------------------------------------------------- *)
(** *** The whole pass *)

(** One pass of [garbageCollect] takes an unreferenced model together with
    the material, the mesh and the texture held through it. *)
Lemma garbageCollect_cascade imod imat imesh itex s t :
  cascade_ready imod imat imesh itex s ->
  let s' := (garbageCollect s t).1 in
  m_models s' !! imod = None
  /\ m_materials s' !! imat = None
  /\ m_meshes s' !! imesh = None
  /\ m_textures s' !! itex = None.
Proof.
  intros (emod & emat & Hmod & Hrc & Hmat & Hbmat & Hbtex & Hmesh).
  cbv zeta. unfold garbageCollect.
  (* sweep 1 *)
  destruct (sweep_models_result imod emod (map_to_list (m_models s)) s)
    as (M1 & T1 & D1 & Mat1 & MeN1 & Me1);
    [apply elem_of_map_to_list, Hmod | exact Hrc |].
  set (s1 := foldl sweep_model s (map_to_list (m_models s))) in *.
  specialize (Mat1 imat Hbmat).
  destruct Mat1 as (emat1 & Hmat1 & Hg1 & Hr1).
  assert (Hdeps : textureDeps emat1 = textureDeps emat).
  { specialize (D1 imat). rewrite Hmat1, Hmat in D1. simpl in D1. congruence. }
  assert (Hrc1 : material_refCount emat1 = 0) by (simpl in Hr1; lia).
  (* sweep 2 *)
  destruct (sweep_materials_result imat emat1 (map_to_list (m_materials s1)) s1)
    as (Mat2 & M2 & Me2 & T2);
    [apply elem_of_map_to_list, Hmat1 | exact Hrc1 |].
  set (s2 := foldl sweep_material s1 (map_to_list (m_materials s1))) in *.
  specialize (T2 itex). rewrite Hdeps, T1 in T2. specialize (T2 Hbtex).
  destruct T2 as (etex2 & Htex2 & _ & Hr2).
  (* sweep 3 *)
  destruct (sweep_meshes_result imesh (map_to_list (m_meshes s2)) (s2, t))
    as (M3 & Mat3 & T3 & MeN3 & Me3).
  set (st3 := foldl sweep_mesh (s2, t) (map_to_list (m_meshes s2))) in *.
  cbn [fst] in M3, Mat3, T3, MeN3.
  (* sweep 4 *)
  destruct (sweep_textures_result itex (map_to_list (m_textures st3.1)) st3)
    as (M4 & Mat4 & Me4 & T4).
  rewrite M4, Mat4, Me4, M3, Mat3, M2.
  split; [exact M1|]. split; [exact Mat2|]. split.
  - destruct Hmesh as [Hn|Hb].
    + apply MeN3. rewrite Me2. apply MeN1, Hn.
    + destruct (Me1 imesh Hb) as (emesh & Hemesh & _ & Hr).
      apply (Me3 emesh); [apply elem_of_map_to_list; rewrite Me2; exact Hemesh|].
      simpl in Hr. lia.
  - apply (T4 etex2); [apply elem_of_map_to_list; rewrite T3; exact Htex2|].
    simpl in Hr2. lia.
Qed.

(* ================================================================= *)
(** ** Loading a model of one texture, one material, one mesh and one
       primitive *)

(** The texture loop, run once. *)
Lemma texture_loop_single P view upload s t ths up1 s1 t1 :
  iter_until (upload_texture P view) 0 1 ([Handle_default], upload, s, t)
    = inr (ths, up1, s1, t1) ->
  exists tex,
    ths = [handle_of (m_nextTextureID s)]
    /\ s1 = set_textures
              (emplace (m_nextTextureID s)
                 {| texture_asset := Some tex; texture_generation := 1;
                    texture_refCount := 0 |})
              (set_nextTextureID (u64 (m_nextTextureID s + 1)) s).
Proof.
  cbn [iter_until]. unfold upload_texture.
  destruct (uploadEncodedImage_Deferred _ _ _ _ _ _ _ _ _ _ _ _ _ _) as [[[ok tex] upl] t'].
  destruct (negb ok); [discriminate|].
  unfold createTexture_Internal. intros [= <- <- <- <-].
  exists tex. split; reflexivity.
Qed.

Lemma grabTex_single ht idx : grabTex [ht] idx = ht \/ grabTex [ht] idx = Handle_default.
Proof.
  unfold grabTex, vec_at. destruct (idx <? 0); [right; reflexivity|].
  destruct (Z.to_nat (u32 idx)) as [|k]; simpl; [left; reflexivity|].
  right. destruct k; reflexivity.
Qed.

Lemma vec_at_single h idx : vec_at [h] idx = h \/ vec_at [h] idx = Handle_default.
Proof.
  unfold vec_at. destruct (Z.to_nat idx) as [|k]; simpl; [left; reflexivity|].
  right. destruct k; reflexivity.
Qed.

(** The [addRef] calls of a new material are one per gathered
    dependency. *)
Lemma addRef_valid_chain mat s :
  addRef_valid_Texture (emissiveTexture mat)
    (addRef_valid_Texture (occlusionTexture mat)
       (addRef_valid_Texture (metallicRoughnessTexture mat)
          (addRef_valid_Texture (normalTexture mat)
             (addRef_valid_Texture (baseColorTexture mat) s))))
  = foldl (fun acc h => addRef_Texture h acc) s (gather_textureDeps (Some mat)).
Proof.
  unfold addRef_valid_Texture, gather_textureDeps.
  destruct (isValid (baseColorTexture mat)), (isValid (normalTexture mat)),
    (isValid (metallicRoughnessTexture mat)), (isValid (occlusionTexture mat)),
    (isValid (emissiveTexture mat)); reflexivity.
Qed.

Lemma foldl_addRef_Texture l s :
  foldl (fun acc h => addRef_Texture h acc) s l
  = set_textures (fun m => foldl registry_addRef m l) s.
Proof.
  revert s. induction l as [|h l IH]; intros s; simpl; [destruct s; reflexivity|].
  rewrite IH. reflexivity.
Qed.

Lemma emplace_fresh {K V : Type} `{Countable K} (k : K) (v : V) (m : gmap K V) :
  m !! k = None -> emplace k v m = <[k := v]> m.
Proof. intros Hn. unfold emplace. rewrite Hn. reflexivity. Qed.

(** The material loop, run once. *)
Lemma material_loop_single view ht s t mats s1 t1 :
  m_materials s !! m_nextMaterialID s = None ->
  iter_from (create_material view [ht]) 0 1 ([Handle_default], s, t) = (mats, s1, t1) ->
  exists mat,
    mats = [handle_of (m_nextMaterialID s)]
    /\ (forall th, th ∈ material_textures mat -> th = ht \/ th = Handle_default)
    /\ s1 = set_textures
              (fun m => foldl registry_addRef m (gather_textureDeps (Some mat)))
              (set_materials
                 (emplace (m_nextMaterialID s)
                    {| material_asset := Some mat; material_generation := 1;
                       material_refCount := 0;
                       textureDeps := gather_textureDeps (Some mat) |})
                 (set_nextMaterialID (u64 (m_nextMaterialID s + 1)) s)).
Proof.
  intros Hfresh. cbn [iter_from]. unfold create_material, createMaterial_Internal.
  cbv zeta.
  match goal with
  | |- context [Some ?m] =>
      match type of m with MaterialAsset => set (mat := m) end
  end.
  unfold getMaterial, registry_get, resolve. cbn [m_materials set_materials
    set_nextMaterialID id h_generation].
  rewrite (emplace_fresh _ _ _ Hfresh) at 1. rewrite lookup_insert_eq.
  cbn [generation MaterialEntry_entry material_generation asset material_asset].
  change (1 =? 1) with true. cbv iota beta. cbn [material_asset].
  rewrite addRef_valid_chain, foldl_addRef_Texture.
  intros [= <- <- <-]. exists mat. split; [reflexivity|]. split; [|reflexivity].
  intros th Hth. unfold material_textures, mat in Hth. cbn in Hth.
  repeat (apply elem_of_cons in Hth as [->|Hth]; [apply grabTex_single|]).
  inversion Hth.
Qed.

(** The mesh loop, run once: a mesh entry, or none when the upload
    failed. *)
Lemma mesh_loop_single P view path s t mhs s1 t1 :
  iter_from (create_mesh P view path) 0 1 ([Handle_default], s, t) = (mhs, s1, t1) ->
  (mhs = [Handle_default] /\ s1 = s)
  \/ (exists e,
        mhs = [handle_of (m_nextMeshID s)]
        /\ mesh_generation e = 1 /\ mesh_refCount e = 0
        /\ s1 = set_meshes (emplace (m_nextMeshID s) e)
                  (set_nextMeshID (u64 (m_nextMeshID s + 1)) s)).
Proof.
  cbn [iter_from]. unfold create_mesh, createMeshFromData_Internal.
  destruct (call P vkCreateCommandPool t) as [pr t'].
  destruct (negb pr); [intros [= <- <- <-]; left; split; reflexivity|].
  destruct (call P _ t') as [ok t''].
  destruct (negb ok); [intros [= <- <- <-]; left; split; reflexivity|].
  cbv zeta.
  match goal with
  | |- context [emplace _ ?e] => intros [= <- <- <-]; right; exists e
  end.
  split; [reflexivity|]. split; [reflexivity|]. split; reflexivity.
Qed.

(** The primitive loop, run once. *)
Lemma primitive_loop_single view mhs mats s prims md mt s1 :
  iter_from (create_primitive view mhs mats) 0 1
    ([ModelPrimitive_default], [], [], s) = (prims, md, mt, s1) ->
  exists prim,
    prims = [prim]
    /\ mesh prim = vec_at mhs (smodel.meshIndex (smodel.img_primitives (smodel.fileBytes view) 0))
    /\ material prim
       = vec_at mats (smodel.materialIndex (smodel.img_primitives (smodel.fileBytes view) 0))
    /\ md = valid_dep (mesh prim) /\ mt = valid_dep (material prim)
    /\ s1 = addRef_valid KMaterial (material prim) (addRef_valid KMesh (mesh prim) s).
Proof.
  cbn [iter_from]. unfold create_primitive. cbv zeta.
  match goal with
  | |- context [vec_set _ 0 ?p] => intros Hrun; exists p; revert Hrun
  end.
  unfold addRef_valid, valid_dep. cbn [mesh material].
  destruct (isValid (vec_at mhs _)), (isValid (vec_at mats _));
    intros [= <- <- <- <-]; repeat split.
Qed.

Section AddRefs.

Context {E A : Type} {RE : RegistryEntry E A}.

Implicit Types (m : gmap Z E) (h : Handle) (e : E).

(** An entry found after [addRef] is the entry found before, up to its
    count. *)
Lemma lookup_registry_addRef_inv m h i e :
  registry_addRef m h !! i = Some e ->
  exists e0 n, m !! i = Some e0 /\ e = with_refCount n e0.
Proof.
  rewrite lookup_registry_addRef.
  assert (Hsame : m !! i = Some e -> exists e0 n, m !! i = Some e0 /\ e = with_refCount n e0).
  { intros He. exists e, (refCount e). split; [exact He|].
    symmetry. apply with_refCount_same. }
  destruct (resolve m h) as [e'|] eqn:Hres; [|exact Hsame].
  destruct (decide (id h = i)) as [<-|]; [|exact Hsame].
  apply resolve_Some in Hres as [He' _]. intros [= <-]. eauto.
Qed.

Lemma registry_addRef_None m h i : m !! i = None -> registry_addRef m h !! i = None.
Proof.
  intros Hn. rewrite lookup_registry_addRef.
  destruct (resolve m h) as [e'|] eqn:Hres; [|exact Hn].
  destruct (decide (id h = i)) as [<-|]; [|exact Hn].
  apply resolve_Some in Hres as [He' _]. congruence.
Qed.

(** [if (h.isValid()) { addRef(h); deps.push_back(h); }] keeps the count
    within the number of times the entry's handle was pushed. *)
Lemma bounded_addRef_valid m h i :
  bounded m i 0 ->
  bounded (if isValid h then registry_addRef m h else m) i
    (occurrences (handle_of i) (valid_dep h)).
Proof.
  intros Hb. unfold valid_dep. destruct (isValid h).
  - rewrite occurrences_cons. unfold occurrences at 1. simpl.
    replace (_ + 0)%nat with (0 + if decide (h = handle_of i) then 1 else 0)%nat by lia.
    apply bounded_addRef, Hb.
  - exact Hb.
Qed.

(** [addRef] over a list raises the bound by the number of times the
    entry's handle stands in it, at most. *)
Lemma bounded_addRefs l m i n :
  bounded m i n ->
  bounded (foldl registry_addRef m l) i (n + occurrences (handle_of i) l).
Proof.
  revert m n. induction l as [|h l IH]; intros m n Hb; simpl.
  - eapply bounded_weaken; [|exact Hb]. lia.
  - rewrite occurrences_cons.
    replace (n + ((if decide (h = handle_of i) then 1 else 0)
                  + occurrences (handle_of i) l))%nat
      with ((n + if decide (h = handle_of i) then 1 else 0)
            + occurrences (handle_of i) l)%nat by lia.
    apply IH, bounded_addRef, Hb.
Qed.

Lemma bounded_insert m i e :
  generation e = 1 -> refCount e = 0 -> bounded (<[i := e]> m) i 0.
Proof.
  intros Hg Hr. exists e. rewrite lookup_insert_eq. split; [reflexivity|].
  split; [exact Hg|]. rewrite Hr. simpl. lia.
Qed.

End AddRefs.

(** What the primitive's [addRef] calls leave of each registry. *)
Lemma addRef_valid_meshes k h s :
  m_meshes (addRef_valid k h s)
  = match k with
    | KMesh => if isValid h then registry_addRef (m_meshes s) h else m_meshes s
    | _ => m_meshes s
    end.
Proof. unfold addRef_valid. destruct k, (isValid h); reflexivity. Qed.

Lemma addRef_valid_materials k h s :
  m_materials (addRef_valid k h s)
  = match k with
    | KMaterial => if isValid h then registry_addRef (m_materials s) h else m_materials s
    | _ => m_materials s
    end.
Proof. unfold addRef_valid. destruct k, (isValid h); reflexivity. Qed.

Lemma addRef_valid_textures k h s :
  m_textures (addRef_valid k h s)
  = match k with
    | KTexture => if isValid h then registry_addRef (m_textures s) h else m_textures s
    | _ => m_textures s
    end.
Proof. unfold addRef_valid. destruct k, (isValid h); reflexivity. Qed.

Lemma addRef_valid_models k h s :
  m_models (addRef_valid k h s)
  = match k with
    | KModel => if isValid h then registry_addRef (m_models s) h else m_models s
    | _ => m_models s
    end.
Proof. unfold addRef_valid. destruct k, (isValid h); reflexivity. Qed.

Lemma addRef_valid_nextModelID k h s :
  m_nextModelID (addRef_valid k h s) = m_nextModelID s.
Proof. unfold addRef_valid. destruct k, (isValid h); reflexivity. Qed.

(** The model entry [loadModel] leaves, before and after one [release]. *)
Lemma model_entry_built (m : gmap Z ModelEntry) i model path md mt :
  m !! i = None ->
  let e := {| model_asset := Some model; model_generation := 1; model_refCount := 1;
              model_path := path; meshDeps := []; materialDeps := [] |} in
  let m1 := emplace i e m in
  let m2 := match m1 !! i with
            | Some e1 =>
                <[i := {| model_asset := model_asset e1;
                          model_generation := model_generation e1;
                          model_refCount := model_refCount e1;
                          model_path := model_path e1;
                          meshDeps := md; materialDeps := mt |}]> m1
            | None => m1
            end in
  registry_get m2 (handle_of i) = Some model
  /\ registry_release m2 (handle_of i) !! i
     = Some {| model_asset := Some model; model_generation := 1; model_refCount := 0;
               model_path := path; meshDeps := md; materialDeps := mt |}.
Proof.
  intros Hn. cbv zeta. rewrite (emplace_fresh _ _ _ Hn), lookup_insert_eq.
  cbn [model_asset model_generation model_refCount model_path].
  split.
  - unfold registry_get, resolve. simpl. rewrite lookup_insert_eq. reflexivity.
  - rewrite lookup_registry_release. unfold resolve. simpl.
    rewrite lookup_insert_eq. simpl. rewrite decide_True by reflexivity. reflexivity.
Qed.

(** [loadModel] after the submit, for one material, one mesh and one
    primitive over one uploaded texture. *)
Lemma loadModel_build_single P path view itex s t h s1 t1 :
  smodel.materialCount (smodel.header view) = 1 ->
  smodel.meshCount (smodel.header view) = 1 ->
  smodel.primitiveCount (smodel.header view) = 1 ->
  m_materials s !! m_nextMaterialID s = None ->
  m_meshes s !! m_nextMeshID s = None ->
  m_models s !! m_nextModelID s = None ->
  bounded (m_textures s) itex 0 ->
  loadModel_build P path view [handle_of itex] s t = (h, s1, t1) ->
  h = handle_of (m_nextModelID s)
  /\ cascade_ready (m_nextModelID s) (m_nextMaterialID s) (m_nextMeshID s) itex
       (release_Model h s1)
  /\ single_model (m_nextModelID s) (m_nextMaterialID s) (m_nextMeshID s) itex s1.
Proof.
  intros Hc1 Hc2 Hc3 Hfmat Hfmesh Hfmod Htex. unfold loadModel_build.
  rewrite Hc1, Hc2, Hc3. change (Z.to_nat 1) with 1%nat. cbn [replicate].
  destruct (iter_from (create_material view [handle_of itex]) 0 1 _)
    as [[mats sM] tM] eqn:HM.
  apply material_loop_single in HM as (mat & -> & Hslots & ->); [|exact Hfmat].
  match goal with
  | |- context [iter_from (create_mesh P view path) 0 1 (_, ?x, _)] => set (sM := x)
  end.
  destruct (iter_from (create_mesh P view path) 0 1 _) as [[mhs sMe] tMe] eqn:HMe.
  apply mesh_loop_single in HMe.
  destruct (iter_from (create_primitive view mhs _) 0 1 _) as [[[prims md] mt] sP] eqn:HP.
  apply primitive_loop_single in HP as (prim & -> & Hpm & Hpmat & -> & -> & ->).
  unfold createModel_Internal. cbv zeta. intros [= <- <- <-].
  assert (HmodP : forall x, m_models (addRef_valid KMaterial (material prim)
                                       (addRef_valid KMesh (mesh prim) x)) = m_models x).
  { intros x. rewrite !addRef_valid_models. reflexivity. }
  assert (HidP : forall x, m_nextModelID (addRef_valid KMaterial (material prim)
                                       (addRef_valid KMesh (mesh prim) x)) = m_nextModelID x).
  { intros x. rewrite !addRef_valid_nextModelID. reflexivity. }
  assert (HnM : m_nextModelID sMe = m_nextModelID s /\ m_models sMe = m_models s
                /\ m_nextMeshID sM = m_nextMeshID s
                /\ m_materials sMe = emplace (m_nextMaterialID s)
                     {| material_asset := Some mat; material_generation := 1;
                        material_refCount := 0;
                        textureDeps := gather_textureDeps (Some mat) |} (m_materials s)
                /\ m_textures sMe
                   = foldl registry_addRef (m_textures s) (gather_textureDeps (Some mat))).
  { destruct HMe as [[_ ->]|(e & _ & _ & _ & ->)]; repeat split. }
  destruct HnM as (Hid & Hmods & HidMesh & Hmats & Htexs).
  rewrite HidP, Hid.
  set (imod := m_nextModelID s) in *. set (imat := m_nextMaterialID s) in *.
  set (imesh := m_nextMeshID s) in *.
  split; [reflexivity|].
  match goal with
  | |- context [fill_model_deps ?h ?md ?mt (set_models (emplace imod ?e) ?x)] =>
      pose proof (model_entry_built (m_models x) imod
                    {| model_primitives := [prim]; model_debugName := [] |}
                    path md mt) as Hbuilt
  end.
  cbn [m_models set_nextModelID] in Hbuilt. rewrite HmodP, Hmods in Hbuilt.
  specialize (Hbuilt Hfmod). cbv zeta in Hbuilt. destruct Hbuilt as [Hget Hrel].
  (* the material entry *)
  assert (Hmat0 : bounded (emplace imat
                     {| material_asset := Some mat; material_generation := 1;
                        material_refCount := 0;
                        textureDeps := gather_textureDeps (Some mat) |} (m_materials s))
                    imat 0).
  { rewrite (emplace_fresh _ _ _ Hfmat). apply bounded_insert; reflexivity. }
  assert (HmatP : forall e,
            (if isValid (material prim)
             then registry_addRef (m_materials sMe) (material prim)
             else m_materials sMe) !! imat = Some e ->
            material_asset e = Some mat
            /\ textureDeps e = gather_textureDeps (Some mat)).
  { intros e He. rewrite Hmats in He.
    assert (exists e0 n, emplace imat
              {| material_asset := Some mat; material_generation := 1;
                 material_refCount := 0;
                 textureDeps := gather_textureDeps (Some mat) |} (m_materials s) !! imat
              = Some e0 /\ e = with_refCount n e0) as (e0 & n & He0 & ->).
    { destruct (isValid (material prim)).
      - eapply lookup_registry_addRef_inv, He.
      - exists e, (refCount e). split; [exact He|]. symmetry. apply with_refCount_same. }
    rewrite (emplace_fresh _ _ _ Hfmat), lookup_insert_eq in He0.
    injection He0 as <-. split; reflexivity. }
  split.
  - (* ready for the cascade *)
    unfold cascade_ready, release_Model, fill_model_deps.
    cbn [m_models m_materials m_textures m_meshes set_models set_modelPathCache
         set_nextModelID id handle_of].
    rewrite HmodP, Hmods. fold (handle_of imod). rewrite Hrel.
    rewrite !addRef_valid_materials, !addRef_valid_textures, !addRef_valid_meshes.
    pose proof (bounded_addRef_valid (m_materials sMe) (material prim) imat) as Hbm.
    rewrite Hmats in Hbm. specialize (Hbm Hmat0). rewrite <- Hmats in Hbm.
    destruct Hbm as (emat & Hemat & Hg & Hr).
    eexists. exists emat. split; [reflexivity|]. split; [reflexivity|].
    split; [exact Hemat|]. cbn [meshDeps materialDeps].
    split; [exists emat; auto|].
    destruct (HmatP _ Hemat) as [_ ->].
    split.
    + rewrite Htexs.
      apply (bounded_addRefs (gather_textureDeps (Some mat)) (m_textures s) itex 0), Htex.
    + destruct HMe as [[-> ->]|(e & -> & Hg' & Hr' & ->)].
      * left. unfold sM. cbn [m_meshes set_textures set_materials set_nextMaterialID].
        destruct (isValid (mesh prim)); [apply registry_addRef_None|]; exact Hfmesh.
      * right. apply bounded_addRef_valid.
        cbn [m_meshes set_meshes set_nextMeshID]. rewrite HidMesh. fold imesh.
        unfold sM. cbn [m_meshes set_textures set_materials set_nextMaterialID].
        rewrite (emplace_fresh _ _ _ Hfmesh). apply bounded_insert; assumption.
  - (* the handles *)
    exists {| model_primitives := [prim]; model_debugName := [] |}, prim.
    split.
    { unfold getModel, fill_model_deps.
      cbn [m_models set_models set_modelPathCache set_nextModelID id handle_of].
      rewrite HmodP, Hmods. exact Hget. }
    split; [reflexivity|]. split; [|split].
    + rewrite Hpm. destruct HMe as [[-> _]|(e & -> & _)].
      * right. destruct (vec_at_single Handle_default
                           (smodel.meshIndex (smodel.img_primitives (smodel.fileBytes view) 0)));
          assumption.
      * rewrite HidMesh. apply vec_at_single.
    + rewrite Hpmat. apply vec_at_single.
    + intros mat' Hget' th Hth.
      unfold getMaterial, fill_model_deps in Hget'.
      cbn [m_materials set_models set_modelPathCache set_nextModelID] in Hget'.
      rewrite !addRef_valid_materials in Hget'.
      unfold registry_get in Hget'.
      destruct (resolve _ (handle_of imat)) as [e|] eqn:Hres; [|discriminate].
      apply resolve_Some in Hres as [He _]. cbn [id handle_of] in He.
      destruct (HmatP _ He) as [Ha _].
      cbn [asset MaterialEntry_entry] in Hget'. rewrite Ha in Hget'.
      injection Hget' as <-. apply Hslots, Hth.
Qed.

(** [loadModel] on a cache miss, for a container of one texture, one
    material, one mesh and one primitive. *)
Lemma loadModel_upload_single P path view s t h s1 t1 :
  smodel.textureCount (smodel.header view) = 1 ->
  smodel.materialCount (smodel.header view) = 1 ->
  smodel.meshCount (smodel.header view) = 1 ->
  smodel.primitiveCount (smodel.header view) = 1 ->
  (forall k, ~ present k s (next_id k s)) ->
  loadModel_upload P path view s t = (h, s1, t1) ->
  isValid h = true ->
  h = handle_of (m_nextModelID s)
  /\ cascade_ready (m_nextModelID s) (m_nextMaterialID s) (m_nextMeshID s)
       (m_nextTextureID s) (release_Model h s1)
  /\ single_model (m_nextModelID s) (m_nextMaterialID s) (m_nextMeshID s)
       (m_nextTextureID s) s1.
Proof.
  intros Hc0 Hc1 Hc2 Hc3 Hfresh.
  assert (Hftex : m_textures s !! m_nextTextureID s = None)
    by (apply eq_None_not_Some, (Hfresh KTexture)).
  assert (Hfmat : m_materials s !! m_nextMaterialID s = None)
    by (apply eq_None_not_Some, (Hfresh KMaterial)).
  assert (Hfmesh : m_meshes s !! m_nextMeshID s = None)
    by (apply eq_None_not_Some, (Hfresh KMesh)).
  assert (Hfmod : m_models s !! m_nextModelID s = None)
    by (apply eq_None_not_Some, (Hfresh KModel)).
  unfold loadModel_upload.
  destruct (call P vkCreateCommandPool t) as [pr t'].
  destruct (negb pr); [intros [= <- <- <-]; discriminate|].
  destruct (BeginUploadContext P t') as [[begunOk upload] t''].
  destruct (negb begunOk); [intros [= <- <- <-]; discriminate|].
  rewrite Hc0. change (Z.to_nat 1) with 1%nat. cbn [replicate].
  destruct (iter_until (upload_texture P view) 0 1 _)
    as [[[upload1 sT] tT]|[[[ths upload1] sT] tT]] eqn:HT.
  - destruct (EndSubmitAndWait P upload1 tT) as [[? ?] t4].
    intros [= <- <- <-]; discriminate.
  - apply texture_loop_single in HT as (tex & -> & ->).
    destruct (EndSubmitAndWait P upload1 tT) as [[submitted ?] t4].
    destruct (negb submitted); [intros [= <- <- <-]; discriminate|].
    intros Hb _.
    apply loadModel_build_single in Hb; try assumption.
    cbn [m_textures set_textures set_nextTextureID].
    rewrite (emplace_fresh _ _ _ Hftex). apply bounded_insert; reflexivity.
Qed.

Lemma get_absent_handed_out k s t i h :
  reachable s t -> ~ present k s i ->
  h = handle_of i \/ h = Handle_default -> get_absent k s h.
Proof.
  intros Hr Hn [->| ->].
  - apply get_absent_iff; [intros j; apply (reachable_good k s t j Hr) | reflexivity | exact Hn].
  - apply get_absent_default. intros j. apply (reachable_good k s t j Hr).
Qed.

(** C3: a model of one primitive over one mesh, one material and one
    texture is loaded into a reachable manager that has identifiers left
    and has not cached the path.  After one [release] of the returned
    handle and one [garbageCollect], the model, the material, the mesh and
    the texture the load registered are gone from their registries, and
    [getModel], [getMesh], [getMaterial] and [getTexture] return nothing for
    the model handle, for the mesh and material handles of the model's
    primitive and for every texture handle of its material. *)
Theorem C3_release_then_collect_reclaims_all P path view s t h s1 t1 :
  reachable s t ->
  (forall k, ids_left k t) ->
  m_modelPathCache s !! path = None ->
  smodel.LoadSModelFile (layout P) (files P) path = inr view ->
  smodel.textureCount (smodel.header view) = 1 ->
  smodel.materialCount (smodel.header view) = 1 ->
  smodel.meshCount (smodel.header view) = 1 ->
  smodel.primitiveCount (smodel.header view) = 1 ->
  loadModel P path s t = (h, s1, t1) ->
  isValid h = true ->
  let s2 := (garbageCollect (release_Model h s1) t1).1 in
  (forall k, ~ present k s2 (next_id k s))
  /\ exists model prim,
       getModel s1 h = Some model
       /\ model_primitives model = [prim]
       /\ getModel s2 h = None
       /\ getMesh s2 (mesh prim) = None
       /\ getMaterial s2 (material prim) = None
       /\ forall mat, getMaterial s1 (material prim) = Some mat ->
            forall th, th ∈ material_textures mat -> getTexture s2 th = None.
Proof.
  intros Hr Hleft Hmiss Hview Hc0 Hc1 Hc2 Hc3 Hload Hvalid. cbv zeta.
  assert (Hr1 : reachable s1 t1).
  { pose proof (reach_loadModel P path s t Hr) as H. rewrite Hload in H. exact H. }
  assert (Hr2 : reachable (garbageCollect (release_Model h s1) t1).1
                          (garbageCollect (release_Model h s1) t1).2).
  { apply reach_garbageCollect, (reach_release KModel h), Hr1. }
  unfold loadModel in Hload. rewrite Hmiss, Hview in Hload.
  apply loadModel_upload_single in Hload as (-> & Hready & Hsingle);
    try assumption; [|intros k; apply (reachable_fresh_id k s t Hr (Hleft k))].
  apply (garbageCollect_cascade _ _ _ _ _ t1) in Hready.
  cbv zeta in Hready. destruct Hready as (Gmod & Gmat & Gmesh & Gtex).
  set (s2 := (garbageCollect (release_Model (handle_of (m_nextModelID s)) s1) t1).1) in *.
  assert (Hgone : forall k, ~ present k s2 (next_id k s)).
  { intros k Hp; destruct k; destruct Hp as [e He]; simpl in He; congruence. }
  split; [exact Hgone|].
  destruct Hsingle as (model & prim & Hget & Hprims & Hmesh & Hmat & Htexs).
  exists model, prim. split; [exact Hget|]. split; [exact Hprims|].
  split; [|split; [|split]].
  - apply (get_absent_handed_out KModel s2 _ _ _ Hr2 (Hgone KModel)). left. reflexivity.
  - apply (get_absent_handed_out KMesh s2 _ _ _ Hr2 (Hgone KMesh)), Hmesh.
  - apply (get_absent_handed_out KMaterial s2 _ _ _ Hr2 (Hgone KMaterial)), Hmat.
  - intros mat Hgmat th Hth.
    apply (get_absent_handed_out KTexture s2 _ _ _ Hr2 (Hgone KTexture)).
    destruct Hmat as [Hm|Hm]; rewrite Hm in Hgmat.
    + apply (Htexs mat Hgmat th Hth).
    + pose proof (get_absent_default KMaterial s1
                    (fun j => reachable_good KMaterial s1 t1 j Hr1)) as Hd.
      simpl in Hd. congruence.
Qed.

(** C3 at [quad.smodel], loaded into a fresh manager. *)
Lemma C3_witness :
  let r := loadModel example_platform "quad.smodel" AssetManager_new [] in
  let s2 := (garbageCollect (release_Model r.1.1 r.1.2) r.2).1 in
  (forall k, ~ present k s2 (next_id k AssetManager_new))
  /\ exists model prim,
       getModel r.1.2 r.1.1 = Some model
       /\ model_primitives model = [prim]
       /\ getModel s2 r.1.1 = None
       /\ getMesh s2 (mesh prim) = None
       /\ getMaterial s2 (material prim) = None
       /\ forall mat, getMaterial r.1.2 (material prim) = Some mat ->
            forall th, th ∈ material_textures mat -> getTexture s2 th = None.
Proof.
  cbv zeta.
  assert (exists view,
            smodel.LoadSModelFile (layout example_platform) (files example_platform)
              "quad.smodel" = inr view
            /\ smodel.textureCount (smodel.header view) = 1
            /\ smodel.materialCount (smodel.header view) = 1
            /\ smodel.meshCount (smodel.header view) = 1
            /\ smodel.primitiveCount (smodel.header view) = 1)
    as (view & Hview & Hc0 & Hc1 & Hc2 & Hc3).
  { eexists. split; [vm_compute; reflexivity|]. repeat split. }
  apply (C3_release_then_collect_reclaims_all example_platform "quad.smodel" view
           AssetManager_new []); try assumption.
  - apply reach_new.
  - intros k. destruct k; vm_compute; reflexivity.
  - reflexivity.
  - destruct (loadModel example_platform "quad.smodel" AssetManager_new [])
      as [[h s] t]. reflexivity.
  - vm_compute. reflexivity.
Defined.

(** The same run, evaluated: the four entries are there after the load and
    gone after the pass. *)
Lemma quad_cascade_runs :
  let r := loadModel example_platform "quad.smodel" AssetManager_new [] in
  let s2 := (garbageCollect (release_Model r.1.1 r.1.2) r.2).1 in
  let h1 := handle_of 1 in
  r.1.1 = h1
  /\ (refCount_of KModel r.1.2 1 = Some 1 /\ refCount_of KMaterial r.1.2 1 = Some 1
      /\ refCount_of KMesh r.1.2 1 = Some 1 /\ refCount_of KTexture r.1.2 1 = Some 1)
  /\ (getModel s2 h1 = None /\ getMaterial s2 h1 = None
      /\ getMesh s2 h1 = None /\ getTexture s2 h1 = None).
Proof. cbv zeta. repeat split; vm_compute; reflexivity. Qed.

(* ================================================================= *)
(** ** The model path cache *)

Lemma foldl_preserves_in {St X : Type} (f : St -> X -> St) (Q : St -> Prop) l s :
  (forall s x, x ∈ l -> Q s -> Q (f s x)) -> Q s -> Q (foldl f s l).
Proof.
  revert s. induction l as [|x l IH]; intros s Hf Hs; simpl; [exact Hs|].
  apply IH.
  - intros s' x' Hin. apply Hf. right. exact Hin.
  - apply Hf; [left | exact Hs].
Qed.

Lemma model_cache_linked_resolves s : model_cache_linked s -> model_cache_resolves s.
Proof.
  intros Hl p h Hc. destruct (Hl p h Hc) as (e & He & Hg & _).
  exists e. apply resolve_Some. auto.
Qed.

Lemma model_cache_linked_new : model_cache_linked AssetManager_new.
Proof. intros p h Hc. simpl in Hc. rewrite lookup_empty in Hc. discriminate. Qed.

Lemma model_cache_linked_keeps s s' :
  keeps_models s s' -> model_cache_linked s -> model_cache_linked s'.
Proof. intros (Hm & Hc & _) Hl p h. rewrite Hm, Hc. apply Hl. Qed.

(** A registry update that keeps every entry up to its count keeps the
    cache linked. *)
Lemma model_cache_linked_counts f s :
  (forall m i e, m !! i = Some e ->
     exists n, f m !! i = Some (with_refCount n e)) ->
  model_cache_linked s -> model_cache_linked (set_models f s).
Proof.
  intros Hf Hl p h Hc. cbn [m_modelPathCache set_models] in Hc.
  destruct (Hl p h Hc) as (e & He & Hg & Hp).
  destruct (Hf _ _ _ He) as [n Hn]. cbn [m_models set_models].
  exists (with_refCount n e). split; [exact Hn|]. split; [exact Hg | exact Hp].
Qed.

Lemma registry_addRef_counts {E A : Type} {RE : RegistryEntry E A}
    (m : gmap Z E) h i e :
  m !! i = Some e -> exists n, registry_addRef m h !! i = Some (with_refCount n e).
Proof.
  intros He. rewrite lookup_registry_addRef.
  assert (Hsame : exists n, m !! i = Some (with_refCount n e))
    by (exists (refCount e); rewrite with_refCount_same; exact He).
  destruct (resolve m h) as [e'|] eqn:Hres; [|exact Hsame].
  destruct (decide (id h = i)) as [<-|]; [|exact Hsame].
  apply resolve_Some in Hres as [He' _]. rewrite He in He'. injection He' as <-. eauto.
Qed.

Lemma registry_release_counts {E A : Type} {RE : RegistryEntry E A}
    (m : gmap Z E) h i e :
  m !! i = Some e -> exists n, registry_release m h !! i = Some (with_refCount n e).
Proof.
  intros He. rewrite lookup_registry_release.
  assert (Hsame : exists n, m !! i = Some (with_refCount n e))
    by (exists (refCount e); rewrite with_refCount_same; exact He).
  destruct (resolve m h) as [e'|] eqn:Hres; [|exact Hsame].
  destruct (decide (id h = i)) as [<-|]; [|exact Hsame].
  apply resolve_Some in Hres as [He' _]. rewrite He in He'. injection He' as <-.
  destruct (0 <? refCount e); [eauto|].
  exists (refCount e). rewrite with_refCount_same. reflexivity.
Qed.

Lemma model_cache_linked_addRef k h s :
  model_cache_linked s -> model_cache_linked (addRef k h s).
Proof.
  destruct k; try (apply model_cache_linked_keeps; repeat split; reflexivity).
  apply model_cache_linked_counts. intros m i e. apply registry_addRef_counts.
Qed.

Lemma model_cache_linked_release k h s :
  model_cache_linked s -> model_cache_linked (release k h s).
Proof.
  destruct k; try (apply model_cache_linked_keeps; repeat split; reflexivity).
  apply model_cache_linked_counts. intros m i e. apply registry_release_counts.
Qed.

(** The model registry after [loadModel]'s build phase, when the counter
    stands on an unused identifier. *)
Lemma loadModel_build_models P path view ths s t h s' t' :
  m_models s !! m_nextModelID s = None ->
  loadModel_build P path view ths s t = (h, s', t') ->
  exists e, m_models s' = <[m_nextModelID s := e]> (m_models s)
            /\ model_generation e = 1 /\ model_path e = path.
Proof.
  intros Hfresh. unfold loadModel_build.
  pose proof (loop3_keeps_models (create_material view ths) 0
    (Z.to_nat (smodel.materialCount (smodel.header view)))
    (replicate (Z.to_nat (smodel.materialCount (smodel.header view))) Handle_default)
    s t (create_material_keeps_models view ths)) as H1.
  destruct (iter_from (create_material view ths) _ _ _) as [[mats s1] t1].
  pose proof (loop3_keeps_models (create_mesh P view path) 0
    (Z.to_nat (smodel.meshCount (smodel.header view)))
    (replicate (Z.to_nat (smodel.meshCount (smodel.header view))) Handle_default)
    s1 t1 (create_mesh_keeps_models P view path)) as H2.
  destruct (iter_from (create_mesh P view path) _ _ _) as [[mhs s2] t2].
  pose proof (prim_loop_keeps_models view mhs mats 0
    (Z.to_nat (smodel.primitiveCount (smodel.header view)))
    (replicate (Z.to_nat (smodel.primitiveCount (smodel.header view))) ModelPrimitive_default)
    [] [] s2) as H3.
  destruct (iter_from (create_primitive view mhs mats) _ _ _) as [[[prims md] mt] s3].
  simpl in H1, H2, H3.
  pose proof (keeps_models_trans _ _ _ (keeps_models_trans _ _ _ H1 H2) H3)
    as (Hm & Hc & Hn).
  unfold createModel_Internal. intros [= <- <- <-]. simpl.
  rewrite Hn, Hm, (emplace_fresh _ _ _ Hfresh), lookup_insert_eq, insert_insert_eq.
  eexists. split; [reflexivity|]. split; reflexivity.
Qed.

(** [loadModel] on a cache miss either leaves the model registry and cache
    alone or reaches the build phase. *)
Lemma loadModel_upload_cases P path view s t :
  keeps_models s (loadModel_upload P path view s t).1.2
  \/ exists ths s0 t0,
       keeps_models s s0
       /\ loadModel_upload P path view s t = loadModel_build P path view ths s0 t0.
Proof.
  unfold loadModel_upload.
  destruct (call P vkCreateCommandPool t) as [pr t1].
  destruct (negb pr); [left; apply keeps_models_refl|].
  destruct (BeginUploadContext P t1) as [[begunOk upload] t2].
  destruct (negb begunOk); [left; apply keeps_models_refl|].
  pose proof (texture_loop_keeps_models P view 0
    (Z.to_nat (smodel.textureCount (smodel.header view)))
    (replicate (Z.to_nat (smodel.textureCount (smodel.header view))) Handle_default)
    upload s t2) as Hk.
  destruct (iter_until _ _ _ _) as [[[up1 s1] t3]|[[[ths up1] s1] t3]].
  - destruct (EndSubmitAndWait P up1 t3) as [[? ?] t4]. left. exact Hk.
  - destruct (EndSubmitAndWait P up1 t3) as [[submitted ?] t4].
    destruct (negb submitted); [left; exact Hk|]. right. eauto.
Qed.

(** [loadModel] keeps the cache linked, when the model counter stands on
    an unused identifier. *)
Lemma model_cache_linked_loadModel P path s t :
  m_models s !! m_nextModelID s = None ->
  model_cache_linked s -> model_cache_linked (loadModel P path s t).1.2.
Proof.
  intros Hfresh Hl. unfold loadModel.
  destruct (m_modelPathCache s !! path) as [h|] eqn:Hmiss.
  { apply (model_cache_linked_addRef KModel), Hl. }
  destruct (smodel.LoadSModelFile _ _ _) as [err|view]; [exact Hl|].
  destruct (loadModel_upload_cases P path view s t)
    as [Hk|(ths & s0 & t0 & (Hm & Hc & Hn) & ->)].
  { eapply model_cache_linked_keeps; [exact Hk | exact Hl]. }
  destruct (loadModel_build P path view ths s0 t0) as [[h s'] t'] eqn:Hb.
  pose proof Hb as Hb'.
  apply loadModel_build_result in Hb as (-> & Hcache & _).
  apply loadModel_build_models in Hb' as (e & Hmods & Hg & Hp);
    [|rewrite Hm, Hn; exact Hfresh].
  cbn [fst snd]. intros p h. rewrite Hcache, Hmods, Hc, Hm, Hn.
  rewrite (emplace_fresh _ _ _ Hmiss), lookup_insert.
  destruct (decide (path = p)) as [<-|Hne].
  - intros [= <-]. cbn [id]. exists e. rewrite lookup_insert_eq. auto.
  - intros Hc'. destruct (Hl p h Hc') as (e' & He' & Hg' & Hp').
    exists e'. split; [|auto]. rewrite lookup_insert_ne; [exact He'|].
    intros Heq. rewrite <- Heq, Hfresh in He'. discriminate.
Qed.

Lemma loadMesh_keeps_models P path s t : keeps_models s (loadMesh P path s t).1.2.
Proof.
  unfold loadMesh. destruct (m_meshPathCache s !! path) as [h|].
  { repeat split; reflexivity. }
  destruct (smesh_files P path) as [data|]; [|apply keeps_models_refl].
  pose proof (createMesh_keeps_models P data path 1 s t) as Hk.
  destruct (createMeshFromData_Internal P data path 1 s t) as [[h s1] t1].
  cbn [fst snd] in *. destruct (isValid h); [|exact Hk].
  eapply keeps_models_trans; [exact Hk|]. repeat split; reflexivity.
Qed.

Lemma sweep_model_modelPathCache s i e :
  m_modelPathCache (sweep_model s (i, e))
  = if model_refCount e =? 0 then delete (model_path e) (m_modelPathCache s)
    else m_modelPathCache s.
Proof.
  unfold sweep_model. destruct (model_refCount e =? 0); [|reflexivity].
  rewrite foldl_release_Mesh, foldl_release_Material. reflexivity.
Qed.

(** Sweep 1 erases a model together with the cache entry of its path. *)
Lemma model_cache_linked_sweep_models s :
  model_cache_linked s ->
  model_cache_linked (foldl sweep_model s (map_to_list (m_models s))).
Proof.
  intros Hl.
  apply (foldl_preserves_in sweep_model
           (fun s' => model_cache_linked s'
                      /\ forall i e, m_models s' !! i = Some e -> m_models s !! i = Some e)
           (map_to_list (m_models s)) s); [|split; [exact Hl | auto]].
  intros s' [i e] Hin [Hl' Hsub]. apply elem_of_map_to_list in Hin.
  split.
  - intros p h. rewrite sweep_model_modelPathCache, sweep_model_models.
    destruct (model_refCount e =? 0); [|apply Hl'].
    rewrite lookup_delete. destruct (decide (model_path e = p)) as [|Hne]; [discriminate|].
    intros Hc. destruct (Hl' p h Hc) as (e' & He' & Hg & Hp).
    exists e'. split; [|auto]. rewrite lookup_delete_ne; [exact He'|].
    intros Heq. rewrite <- Heq in He'. apply Hsub in He'. rewrite Hin in He'.
    injection He' as <-. contradiction.
  - intros j e'. rewrite sweep_model_models.
    destruct (model_refCount e =? 0); [|apply Hsub].
    rewrite lookup_delete. destruct (decide (i = j)); [discriminate | apply Hsub].
Qed.

Lemma sweep_material_keeps_models s ie : keeps_models s (sweep_material s ie).
Proof.
  destruct ie as [i e]. unfold sweep_material.
  destruct (material_refCount e =? 0); [|apply keeps_models_refl].
  rewrite foldl_release_Texture. repeat split; reflexivity.
Qed.

Lemma sweep_mesh_keeps_models st ie : keeps_models st.1 (sweep_mesh st ie).1.
Proof.
  destruct ie as [i e]. rewrite sweep_mesh_state.
  destruct (mesh_refCount e =? 0); repeat split; reflexivity.
Qed.

Lemma sweep_texture_keeps_models st ie : keeps_models st.1 (sweep_texture st ie).1.
Proof.
  destruct ie as [i e]. rewrite sweep_texture_state.
  destruct (texture_refCount e =? 0); repeat split; reflexivity.
Qed.

Lemma model_cache_linked_garbageCollect s t :
  model_cache_linked s -> model_cache_linked (garbageCollect s t).1.
Proof.
  intros Hl. unfold garbageCollect.
  apply (foldl_preserves sweep_texture (fun st => model_cache_linked st.1)).
  { intros st x. apply model_cache_linked_keeps, sweep_texture_keeps_models. }
  apply (foldl_preserves sweep_mesh (fun st => model_cache_linked st.1)).
  { intros st x. apply model_cache_linked_keeps, sweep_mesh_keeps_models. }
  cbn [fst].
  apply (foldl_preserves sweep_material model_cache_linked).
  { intros s' x. apply model_cache_linked_keeps, sweep_material_keeps_models. }
  apply model_cache_linked_sweep_models, Hl.
Qed.

(** While identifiers are left after a run, they were left before it. *)
Lemma ids_left_advance k st st' : advance st st' -> ids_left k st'.2 -> ids_left k st.2.
Proof.
  intros [Hk _]. destruct (Hk k) as [[(_ & Hi & _)|(_ & Hi & _)] _];
    unfold ids_left; rewrite Hi; simpl; lia.
Qed.

Lemma ids_left_advances k st st' : advances st st' -> ids_left k st'.2 -> ids_left k st.2.
Proof.
  induction 1 as [|st1 st2 st3 H12 _ IH]; [auto|].
  intros H3. eapply ids_left_advance; [exact H12 | apply IH, H3].
Qed.

(** In every reachable state with model identifiers left, the model path
    cache is linked to the registry. *)
Lemma reachable_model_cache_linked s t :
  reachable s t -> ids_left KModel t -> model_cache_linked s.
Proof.
  induction 1 as [|P path s t Hr IH|P path s t Hr IH|k h s t Hr IH|k h s t Hr IH|s t Hr IH];
    intros Hleft.
  - apply model_cache_linked_new.
  - eapply model_cache_linked_keeps; [apply loadMesh_keeps_models|].
    apply IH. exact (ids_left_advances KModel _ _ (advances_loadMesh P path s t) Hleft).
  - assert (Hleft0 : ids_left KModel t)
      by exact (ids_left_advances KModel _ _ (advances_loadModel P path s t) Hleft).
    apply model_cache_linked_loadModel; [|apply IH, Hleft0].
    apply eq_None_not_Some. exact (reachable_fresh_id KModel s t Hr Hleft0).
  - apply model_cache_linked_addRef, IH, Hleft.
  - apply model_cache_linked_release, IH, Hleft.
  - apply model_cache_linked_garbageCollect, IH.
    exact (ids_left_advances KModel (s, t) _ (advances_garbageCollect s t) Hleft).
Qed.

Lemma reachable_gens_one s t : reachable s t -> gens_one s.
Proof.
  intros Hr k i g Hg. eapply good_generation; [|exact Hg].
  eapply reachable_good; [exact Hr|]. eapply generation_of_present, Hg.
Qed.

(** C9, amended.  In a reachable manager with model identifiers left, if
    [loadModel(path)] returns a valid handle, then a second
    [loadModel(path)] right after it returns the same handle (identifier
    and generation) and makes no call; the model entry exists after the
    first call and, provided its count is then below the 32-bit maximum,
    its count after the second call is exactly one more. *)
Theorem C9_second_load_hits_the_cache (P P' : Platform) (path : string)
    (s : AssetManager) (t : Trace) (h1 : ModelHandle) (s1 : AssetManager) (t1 : Trace) :
  reachable s t ->
  ids_left KModel t ->
  loadModel P path s t = (h1, s1, t1) ->
  isValid h1 = true ->
  (loadModel P' path s1 t1).1.1 = h1
  /\ (loadModel P' path s1 t1).2 = t1
  /\ exists rc1,
       refCount_of KModel s1 (id h1) = Some rc1
       /\ (0 <= rc1 < UINT32_MAX ->
           refCount_of KModel (loadModel P' path s1 t1).1.2 (id h1) = Some (rc1 + 1)).
Proof.
  intros Hr Hleft. apply second_load_after_first.
  - apply (reachable_gens_one s t Hr).
  - apply model_cache_linked_resolves, (reachable_model_cache_linked s t Hr Hleft).
Qed.

(** C9 at [quad.smodel], loaded twice into a fresh manager. *)
Lemma C9_witness :
  let r1 := loadModel example_platform "quad.smodel" AssetManager_new [] in
  let r2 := loadModel example_platform "quad.smodel" r1.1.2 r1.2 in
  r2.1.1 = r1.1.1
  /\ r2.2 = r1.2
  /\ exists rc1,
       refCount_of KModel r1.1.2 (id r1.1.1) = Some rc1
       /\ (0 <= rc1 < UINT32_MAX ->
           refCount_of KModel r2.1.2 (id r1.1.1) = Some (rc1 + 1)).
Proof.
  cbv zeta.
  apply (C9_second_load_hits_the_cache example_platform example_platform
           "quad.smodel" AssetManager_new []).
  - apply reach_new.
  - vm_compute. reflexivity.
  - destruct (loadModel example_platform "quad.smodel" AssetManager_new [])
      as [[h s] t]. reflexivity.
  - vm_compute. reflexivity.
Defined.

(* ================================================================= *)
(** ** What an accepted container guarantees *)

Section Accepted.

Import smodel.

Lemma res_bind_inr {A B : Type} (r : Res A) (k : A -> Res B) (b : B) :
  (r ≫= k) = inr b -> exists a, r = inr a /\ k a = inr b.
Proof. destruct r as [e|a]; [discriminate|]. intros H. exists a. auto. Qed.

Lemma reject_inr (bad : bool) (msg : string) : reject bad msg = inr tt -> bad = false.
Proof. destruct bad; [discriminate | reflexivity]. Qed.

(** [isRangeInsideFile] accepts every range that lies inside the file. *)
Lemma isRangeInsideFile_complete (begin size fileSize : Z) :
  is_u64 begin -> is_u64 size -> 0 <= fileSize < 2 ^ 63 ->
  begin + size <= fileSize -> isRangeInsideFile begin size fileSize = true.
Proof.
  unfold is_u64. intros Hb Hs Hf Hle. unfold isRangeInsideFile, u64.
  rewrite Z.mod_small by lia.
  destruct (Z.ltb_spec fileSize begin); [lia|].
  destruct (Z.ltb_spec fileSize size); [lia|].
  destruct (Z.ltb_spec fileSize (begin + size)); [lia | reflexivity].
Qed.

(** [isRangeInsideFile] against the mathematical sum, for a file size
    below [2^63]. *)
Lemma isRangeInsideFile_iff (begin size fileSize : Z) :
  is_u64 begin -> is_u64 size -> 0 <= fileSize < 2 ^ 63 ->
  isRangeInsideFile begin size fileSize = true <-> begin + size <= fileSize.
Proof.
  intros Hb Hs Hf. split.
  - unfold is_u64 in *. apply isRangeInsideFile_sound; lia.
  - apply isRangeInsideFile_complete; assumption.
Qed.

(** X1.  [isRangeInsideFile] is exact for a file size below [2^63]: it
    accepts a 64-bit range if and only if [begin + size], computed without
    wrap-around, does not pass the end of the file. *)
Theorem isRangeInsideFile_exact (begin size fileSize : Z) :
  is_u64 begin -> is_u64 size -> 0 <= fileSize < 2 ^ 63 ->
  isRangeInsideFile begin size fileSize = true <-> begin + size <= fileSize.
Proof.
  intros Hb Hs Hf. split.
  - intros Hin. unfold is_u64 in *.
    apply (isRangeInsideFile_sound begin size fileSize); [lia | lia | lia | exact Hin].
  - intros Hle. apply isRangeInsideFile_complete; assumption.
Qed.

(** [tableRangeValid<T>] accepts every table that lies inside the file. *)
Lemma tableRangeValid_complete (sizeofT tableOffset count fileSize : Z) :
  0 <= sizeofT < 2 ^ 32 -> is_u32 count -> is_u64 tableOffset ->
  0 <= fileSize < 2 ^ 63 ->
  tableOffset + count * sizeofT <= fileSize ->
  tableRangeValid sizeofT tableOffset count fileSize = inr tt.
Proof.
  unfold is_u32. intros Hsz Hc Ho Hf Hle. unfold tableRangeValid.
  assert (0 <= count * sizeofT < 2 ^ 64) as Hp by nia.
  unfold u64. rewrite (Z.mod_small (count * sizeofT)) by exact Hp.
  rewrite (isRangeInsideFile_complete tableOffset (count * sizeofT) fileSize Ho Hp Hf Hle).
  reflexivity.
Qed.

(** [tableRangeValid<T>] against the mathematical extent of the table. *)
Lemma tableRangeValid_iff (sizeofT tableOffset count fileSize : Z) :
  0 <= sizeofT < 2 ^ 32 -> is_u32 count -> is_u64 tableOffset ->
  0 <= fileSize < 2 ^ 63 ->
  tableRangeValid sizeofT tableOffset count fileSize = inr tt
  <-> tableOffset + count * sizeofT <= fileSize.
Proof.
  intros Hsz Hc Ho Hf. split.
  - unfold is_u64 in *. apply tableRangeValid_sound; [exact Hsz | exact Hc | lia | lia].
  - apply tableRangeValid_complete; assumption.
Qed.

(** X2.  [tableRangeValid<T>] is exact for a 32-bit count of records of
    less than [2^32] bytes each and a file size below [2^63]: it accepts if
    and only if the whole table lies inside the file. *)
Theorem tableRangeValid_exact (sizeofT tableOffset count fileSize : Z) :
  0 <= sizeofT < 2 ^ 32 -> is_u32 count -> is_u64 tableOffset ->
  0 <= fileSize < 2 ^ 63 ->
  tableRangeValid sizeofT tableOffset count fileSize = inr tt
  <-> tableOffset + count * sizeofT <= fileSize.
Proof.
  intros Hsz Hc Ho Hf. split.
  - intros Hok. unfold is_u64 in *.
    apply (tableRangeValid_sound sizeofT tableOffset count fileSize);
      [exact Hsz | exact Hc | lia | lia | exact Hok].
  - intros Hle. apply tableRangeValid_complete; assumption.
Qed.

(** The stages an accepted file went through. *)
Lemma LoadSModelFile_stages L fs path v :
  LoadSModelFile L fs path = inr v ->
  exists f,
    fs path = Some f
    /\ read_and_check_header L fs path = inr (df_tellg f, df_image f)
    /\ validate_section_bounds L (img_header (df_image f)) (df_tellg f) = inr tt
    /\ build_view (df_image f) (df_tellg f) = inr v
    /\ for_u32 (meshCount (header v)) (validate_mesh v) = inr tt
    /\ for_u32 (textureCount (header v)) (validate_texture v) = inr tt
    /\ for_u32 (primitiveCount (header v)) (validate_primitive v) = inr tt
    /\ for_u32 (materialCount (header v)) (validate_material v) = inr tt
    /\ (0 < nodeCount (header v) ->
        for_u32 (nodeCount (header v)) (validate_node v) = inr tt)
    /\ check_anim_pointers v = inr tt
    /\ for_u32 (animClipsCount (header v)) (validate_clip v) = inr tt
    /\ for_u32 (animChannelsCount (header v)) (validate_channel v) = inr tt
    /\ for_u32 (animSamplersCount (header v)) (validate_sampler v) = inr tt.
Proof.
  unfold LoadSModelFile. intros H.
  apply res_bind_inr in H as (v0 & Hpre & H).
  apply res_bind_inr in H as ([] & Hsamp & H). injection H as <-.
  unfold LoadSModelFile_before_samplers in Hpre.
  apply res_bind_inr in Hpre as ([sz img] & Hread & Hpre).
  apply res_bind_inr in Hpre as ([] & Hsec & Hpre).
  apply res_bind_inr in Hpre as (v & Hview & Hpre).
  apply res_bind_inr in Hpre as ([] & Hmesh & Hpre).
  apply res_bind_inr in Hpre as ([] & Htex & Hpre).
  apply res_bind_inr in Hpre as ([] & Hprim & Hpre).
  apply res_bind_inr in Hpre as ([] & Hmat & Hpre).
  apply res_bind_inr in Hpre as ([] & Hnode & Hpre).
  apply res_bind_inr in Hpre as ([] & Hptr & Hpre).
  apply res_bind_inr in Hpre as ([] & Hclip & Hpre).
  apply res_bind_inr in Hpre as ([] & Hchan & Hpre).
  injection Hpre as <-.
  assert (exists f, fs path = Some f /\ sz = df_tellg f /\ img = df_image f)
    as (f & Hf & -> & ->).
  { unfold read_and_check_header in Hread. destruct (fs path) as [f|]; [|discriminate].
    exists f. split; [reflexivity|].
    repeat (apply res_bind_inr in Hread as ([] & _ & Hread)).
    injection Hread as <- <-. split; reflexivity. }
  exists f. repeat (split; [assumption|]).
  split; [|repeat (split; [assumption|]); assumption].
  intros Hn. apply Z.ltb_lt in Hn. rewrite Hn in Hnode. exact Hnode.
Qed.

Lemma for_u32_inr count body :
  for_u32 count body = inr tt -> forall i, 0 <= i < count -> body i = inr tt.
Proof.
  unfold for_u32. intros H i Hi. apply (for_from_ok_inv _ _ _ H). lia.
Qed.

Lemma build_view_header img sz v :
  build_view img sz = inr v ->
  header v = img_header img /\ fileBytes v = img /\ fileBytes_size v = sz.
Proof.
  unfold build_view. intros H.
  repeat (apply res_bind_inr in H as (? & _ & H)).
  injection H as <-. repeat split.
Qed.

Lemma optional_table_inside sizeofT offset count fileSize :
  0 <= sizeofT < 2 ^ 32 -> is_u32 count -> is_u64 offset -> 0 <= fileSize < 2 ^ 63 ->
  (if 0 <? count then tableRangeValid sizeofT offset count fileSize else inr tt) = inr tt ->
  0 < count -> offset + count * sizeofT <= fileSize.
Proof.
  intros Hs Hc Ho Hf H Hpos. apply Z.ltb_lt in Hpos. rewrite Hpos in H.
  apply tableRangeValid_iff in H; assumption.
Qed.

Lemma optional_indices_inside offset count fileSize msg :
  is_u32 count -> is_u64 offset -> 0 <= fileSize < 2 ^ 63 ->
  (if 0 <? count
   then reject (negb (isRangeInsideFile offset (u64 (count * sizeof_uint32)) fileSize)) msg
   else inr tt) = inr tt ->
  0 < count -> offset + count * 4 <= fileSize.
Proof.
  intros Hc Ho Hf H Hpos. apply Z.ltb_lt in Hpos. rewrite Hpos in H.
  apply reject_inr, negb_false_iff in H. unfold is_u32 in Hc.
  unfold sizeof_uint32, u64 in H. rewrite Z.mod_small in H by lia.
  apply isRangeInsideFile_iff in H; [exact H | exact Ho | unfold is_u64; lia | exact Hf].
Qed.

(** X4.  In an accepted container whose header fields fit their widths,
    the file is at least as long as a header and as long as the header says
    (when it says), and the string table, the blob and every table with
    entries lie inside the file, end included, with no sum wrapped. *)
Theorem accepted_sections_inside_file L fs path v :
  LoadSModelFile L fs path = inr v ->
  header_in_range (header v) ->
  layout_in_range L ->
  fileBytes_size v < 2 ^ 63 ->
  let h := header v in
  let n := fileBytes_size v in
  sizeof_SModelHeader L <= n
  /\ (fileSizeBytes h = 0 \/ fileSizeBytes h = n)
  /\ stringTableOffset h + stringTableSize h <= n
  /\ blobOffset h + blobSize h <= n
  /\ meshesOffset h + meshCount h * sizeof_SModelMeshRecord <= n
  /\ primitivesOffset h + primitiveCount h * sizeof_SModelPrimitiveRecord L <= n
  /\ materialsOffset h + materialCount h * sizeof_SModelMaterialRecord <= n
  /\ texturesOffset h + textureCount h * sizeof_SModelTextureRecord <= n
  /\ (0 < nodeCount h -> nodesOffset h + nodeCount h * sizeof_SModelNodeRecord L <= n)
  /\ (0 < nodePrimitiveIndexCount h ->
      nodePrimitiveIndicesOffset h + nodePrimitiveIndexCount h * 4 <= n)
  /\ (0 < nodeChildIndicesCount h ->
      nodeChildIndicesOffset h + nodeChildIndicesCount h * 4 <= n)
  /\ (0 < animClipsCount h ->
      animClipsOffset h + animClipsCount h * sizeof_SModelAnimationClipRecord <= n)
  /\ (0 < animChannelsCount h ->
      animChannelsOffset h + animChannelsCount h * sizeof_SModelAnimationChannelRecord <= n)
  /\ (0 < animSamplersCount h ->
      animSamplersOffset h + animSamplersCount h * sizeof_SModelAnimationSamplerRecord <= n)
  /\ (0 < animTimesCount h -> animTimesOffset h + animTimesCount h * 4 <= n)
  /\ (0 < animValuesCount h -> animValuesOffset h + animValuesCount h * 4 <= n).
Proof.
  intros Hload [Hc Ho] [HLp HLn] Hn.
  apply LoadSModelFile_stages in Hload as (f & Hf & Hread & Hsec & Hview & _).
  apply build_view_header in Hview as (Hh & _ & Hsz). cbv zeta.
  rewrite Hh, Hsz. rewrite Hh in Hc, Ho. rewrite Hsz in Hn.
  set (h := img_header (df_image f)) in *. set (n := df_tellg f) in *.
  unfold read_and_check_header in Hread. rewrite Hf in Hread. fold n h in Hread.
  apply res_bind_inr in Hread as ([] & Hpos & Hread).
  apply res_bind_inr in Hread as ([] & _ & Hread).
  apply res_bind_inr in Hread as ([] & Hsmall & Hread).
  apply res_bind_inr in Hread as ([] & _ & Hread).
  apply res_bind_inr in Hread as ([] & Hdecl & _).
  apply reject_inr, Z.leb_gt in Hpos. apply reject_inr, Z.ltb_ge in Hsmall.
  apply reject_inr, andb_false_iff in Hdecl.
  assert (Hn' : 0 <= n < 2 ^ 63) by lia.
  repeat match goal with
         | H : Forall _ (_ :: _) |- _ => apply Forall_cons in H as [? H]
         end.
  unfold validate_section_bounds in Hsec.
  apply res_bind_inr in Hsec as ([] & Hstr & Hsec).
  apply res_bind_inr in Hsec as ([] & Hblob & Hsec).
  apply res_bind_inr in Hsec as ([] & Hmesh & Hsec).
  apply res_bind_inr in Hsec as ([] & Hprim & Hsec).
  apply res_bind_inr in Hsec as ([] & Hmat & Hsec).
  apply res_bind_inr in Hsec as ([] & Htex & Hsec).
  apply res_bind_inr in Hsec as ([] & Hnode & Hsec).
  apply res_bind_inr in Hsec as ([] & Hnpi & Hsec).
  apply res_bind_inr in Hsec as ([] & Hnci & Hsec).
  apply res_bind_inr in Hsec as ([] & Hclip & Hsec).
  apply res_bind_inr in Hsec as ([] & Hchan & Hsec).
  apply res_bind_inr in Hsec as ([] & Hsamp & Hsec).
  apply res_bind_inr in Hsec as ([] & Htimes & Hvals).
  apply reject_inr, negb_false_iff, isRangeInsideFile_iff in Hstr; try assumption.
  apply reject_inr, negb_false_iff, isRangeInsideFile_iff in Hblob; try assumption.
  apply tableRangeValid_iff in Hmesh; try assumption; [|unfold sizeof_SModelMeshRecord; lia].
  apply tableRangeValid_iff in Hprim; try assumption.
  apply tableRangeValid_iff in Hmat; try assumption; [|unfold sizeof_SModelMaterialRecord; lia].
  apply tableRangeValid_iff in Htex; try assumption; [|unfold sizeof_SModelTextureRecord; lia].
  split; [exact Hsmall|]. split.
  { destruct Hdecl as [Hd|Hd]; apply negb_false_iff, Z.eqb_eq in Hd; auto. }
  repeat (split; [assumption|]).
  split; [apply (optional_table_inside _ _ _ _ HLn); assumption|].
  split; [eapply optional_indices_inside; eassumption|].
  split; [eapply optional_indices_inside; eassumption|].
  split; [apply optional_table_inside; try assumption;
          unfold sizeof_SModelAnimationClipRecord; lia|].
  split; [apply optional_table_inside; try assumption;
          unfold sizeof_SModelAnimationChannelRecord; lia|].
  split; [apply optional_table_inside; try assumption;
          unfold sizeof_SModelAnimationSamplerRecord; lia|].
  split; apply (optional_table_inside sizeof_float); try assumption;
    unfold sizeof_float; lia.
Qed.

(** [scene.smodel] is accepted, and its fields fit their widths. *)
Lemma scene_accepted :
  exists v,
    LoadSModelFile example_layout scene_files "scene.smodel" = inr v
    /\ header v = scene_header
    /\ fileBytes v = scene_image
    /\ fileBytes_size v = 4096.
Proof. eexists. split; [vm_compute; reflexivity|]. repeat split. Qed.

Lemma scene_header_in_range : header_in_range scene_header.
Proof.
  split; repeat constructor; unfold is_u32, is_u64; cbn; lia.
Qed.

Lemma example_layout_in_range : layout_in_range example_layout.
Proof. unfold layout_in_range. cbn. lia. Qed.

(** X4 at [scene.smodel]. *)
Lemma accepted_sections_inside_file_witness :
  stringTableOffset scene_header + stringTableSize scene_header <= 4096
  /\ blobOffset scene_header + blobSize scene_header <= 4096
  /\ nodesOffset scene_header + nodeCount scene_header * 20 <= 4096.
Proof.
  destruct scene_accepted as (v & Hv & Hh & _ & Hn).
  pose proof (accepted_sections_inside_file example_layout scene_files
                "scene.smodel" v Hv) as H.
  rewrite Hh, Hn in H. cbv zeta in H.
  destruct H as (_ & _ & Hs & Hb & _ & _ & _ & _ & Hnodes & _).
  - exact scene_header_in_range.
  - exact example_layout_in_range.
  - lia.
  - split; [exact Hs|]. split; [exact Hb|]. apply Hnodes. cbn. lia.
Defined.

(** X5.  In an accepted container every primitive names a mesh and a
    material of the container, and every texture index of every material is
    negative (no texture) or names a texture of the container. *)
Theorem accepted_references_in_range L fs path v :
  LoadSModelFile L fs path = inr v ->
  (forall i, 0 <= i < primitiveCount (header v) ->
     meshIndex (img_primitives (fileBytes v) i) < meshCount (header v)
     /\ materialIndex (img_primitives (fileBytes v) i) < materialCount (header v))
  /\ (forall i, 0 <= i < materialCount (header v) ->
        forall idx, In idx (material_texture_indices (img_materials (fileBytes v) i)) ->
          idx < 0 \/ u32 idx < textureCount (header v)).
Proof.
  intros Hload.
  apply LoadSModelFile_stages in Hload
    as (f & _ & _ & _ & _ & _ & _ & Hprim & Hmat & _).
  split.
  - intros i Hi. pose proof (for_u32_inr _ _ Hprim i Hi) as H.
    unfold validate_primitive in H.
    apply res_bind_inr in H as ([] & H1 & H2).
    apply reject_inr, Z.leb_gt in H1. apply reject_inr, Z.leb_gt in H2. lia.
  - intros i Hi idx Hidx. pose proof (for_u32_inr _ _ Hmat i Hi) as H.
    unfold validate_material in H.
    assert (Hone : forall name, checkTex v i idx name = inr tt ->
                     idx < 0 \/ u32 idx < textureCount (header v)).
    { intros name Hc. unfold checkTex in Hc.
      destruct (Z.ltb_spec idx 0); [left; assumption|].
      apply reject_inr, Z.leb_gt in Hc. right. lia. }
    apply res_bind_inr in H as ([] & H1 & H).
    apply res_bind_inr in H as ([] & H2 & H).
    apply res_bind_inr in H as ([] & H3 & H).
    apply res_bind_inr in H as ([] & H4 & H5).
    unfold material_texture_indices in Hidx. simpl in Hidx.
    destruct Hidx as [<-|[<-|[<-|[<-|[<-|[]]]]]]; eapply Hone; eassumption.
Qed.

(** X5 at [scene.smodel]. *)
Lemma accepted_references_in_range_witness :
  meshIndex (img_primitives scene_image 0) < meshCount scene_header
  /\ (baseColorTexture (img_materials scene_image 0) < 0
      \/ u32 (baseColorTexture (img_materials scene_image 0)) < textureCount scene_header).
Proof.
  destruct scene_accepted as (v & Hv & Hh & Hb & _).
  destruct (accepted_references_in_range example_layout scene_files
              "scene.smodel" v Hv) as [Hp Hm].
  rewrite Hh, Hb in Hp, Hm. split.
  - apply Hp. cbn. lia.
  - apply (Hm 0); [cbn; lia | left; reflexivity].
Defined.

(** X6.  In an accepted container every mesh has vertices of a positive
    stride whose byte count is the vertex count times the stride, and every
    blob slice (vertex bytes, index bytes, encoded image) whose end does
    not pass [2^64] ends inside the blob. *)
Theorem accepted_blob_slices L fs path v :
  LoadSModelFile L fs path = inr v ->
  (forall i, 0 <= i < meshCount (header v) ->
     let m := img_meshes (fileBytes v) i in
     vertexCount m <> 0 /\ vertexStride m <> 0
     /\ (is_u32 (vertexCount m) -> is_u32 (vertexStride m) ->
         vertexDataSize m = vertexCount m * vertexStride m)
     /\ (0 <= vertexDataOffset m + vertexDataSize m < 2 ^ 64 ->
         vertexDataOffset m + vertexDataSize m <= blobSize (header v))
     /\ (0 <= indexDataOffset m + indexDataSize m < 2 ^ 64 ->
         indexDataOffset m + indexDataSize m <= blobSize (header v)))
  /\ (forall i, 0 <= i < textureCount (header v) ->
        let t := img_textures (fileBytes v) i in
        0 <= imageDataOffset t + imageDataSize t < 2 ^ 64 ->
        imageDataOffset t + imageDataSize t <= blobSize (header v)).
Proof.
  intros Hload.
  apply LoadSModelFile_stages in Hload as (f & _ & _ & _ & _ & Hmesh & Htex & _).
  split.
  - intros i Hi m. pose proof (for_u32_inr _ _ Hmesh i Hi) as H.
    unfold validate_mesh in H. fold m in H.
    apply res_bind_inr in H as ([] & H1 & H).
    apply res_bind_inr in H as ([] & H2 & H).
    apply res_bind_inr in H as ([] & H3 & H4).
    apply reject_inr, Z.ltb_ge in H1. apply reject_inr, Z.ltb_ge in H2.
    apply reject_inr, orb_false_iff in H3 as [H3 H3'].
    apply Z.eqb_neq in H3, H3'.
    apply reject_inr, negb_false_iff, Z.eqb_eq in H4.
    split; [exact H3|]. split; [exact H3'|]. split; [|split].
    + unfold is_u32. intros Hc Hs. rewrite H4. unfold u64. apply Z.mod_small. nia.
    + intros Hr. unfold u64 in H1. rewrite Z.mod_small in H1; lia.
    + intros Hr. unfold u64 in H2. rewrite Z.mod_small in H2; lia.
  - intros i Hi t Hr. pose proof (for_u32_inr _ _ Htex i Hi) as H.
    unfold validate_texture in H. fold t in H.
    apply reject_inr, Z.ltb_ge in H. unfold u64 in H. rewrite Z.mod_small in H; lia.
Qed.

(** X6 at [scene.smodel]. *)
Lemma accepted_blob_slices_witness :
  vertexDataSize example_mesh = vertexCount example_mesh * vertexStride example_mesh
  /\ vertexDataOffset example_mesh + vertexDataSize example_mesh <= blobSize scene_header.
Proof.
  destruct scene_accepted as (v & Hv & Hh & Hb & _).
  destruct (accepted_blob_slices example_layout scene_files "scene.smodel" v Hv)
    as [Hm _].
  rewrite Hh, Hb in Hm. specialize (Hm 0). cbv zeta in Hm.
  destruct Hm as (_ & _ & Hsize & Hslice & _); [cbn; lia|].
  split; [apply Hsize; unfold is_u32; cbn; lia | apply Hslice; cbn; lia].
Defined.

(** X7.  In an accepted container every node's parent is a node of the
    container or absent ([UINT32_MAX]); every child a node lists is a node
    of the container that names this node as its parent; every primitive a
    node lists is a primitive of the container; and the listed ranges, when
    their ends do not pass [2^32], end inside the index tables. *)
Theorem accepted_node_graph L fs path v :
  LoadSModelFile L fs path = inr v ->
  forall ni, 0 <= ni < nodeCount (header v) ->
    let nr := img_nodes (fileBytes v) ni in
    (parentIndex nr = UINT32_MAX \/ parentIndex nr < nodeCount (header v))
    /\ (0 < childCount nr ->
        0 < nodeChildIndicesCount (header v)
        /\ firstChildIndex nr <> UINT32_MAX
        /\ (0 <= firstChildIndex nr + childCount nr < 2 ^ 32 ->
            firstChildIndex nr + childCount nr <= nodeChildIndicesCount (header v))
        /\ forall k, 0 <= k < childCount nr ->
             let c := img_nodeChildIndices (fileBytes v) (u32 (firstChildIndex nr + k)) in
             c < nodeCount (header v)
             /\ parentIndex (img_nodes (fileBytes v) c) = ni)
    /\ (0 < node_primitiveCount nr ->
        (0 <= firstPrimitiveIndex nr + node_primitiveCount nr < 2 ^ 32 ->
         firstPrimitiveIndex nr + node_primitiveCount nr
         <= nodePrimitiveIndexCount (header v))
        /\ forall k, 0 <= k < node_primitiveCount nr ->
             img_nodePrimitiveIndices (fileBytes v) (u32 (firstPrimitiveIndex nr + k))
             < primitiveCount (header v)).
Proof.
  intros Hload ni Hni nr.
  pose proof Hload as Hst.
  apply LoadSModelFile_stages in Hst
    as (f & _ & _ & _ & Hview & _ & _ & _ & _ & Hnode & _).
  pose proof (for_u32_inr _ _ (Hnode ltac:(lia)) ni Hni) as H.
  unfold validate_node in H. fold nr in H.
  apply res_bind_inr in H as ([] & Hpar & H).
  apply res_bind_inr in H as ([] & Hchild & Hprim).
  split; [|split].
  - apply reject_inr, andb_false_iff in Hpar as [Hp|Hp].
    + left. apply negb_false_iff, Z.eqb_eq in Hp. exact Hp.
    + right. apply Z.leb_gt in Hp. exact Hp.
  - intros Hpos. apply Z.ltb_lt in Hpos. rewrite Hpos in Hchild.
    apply res_bind_inr in Hchild as ([] & Hmiss & Hchild).
    apply res_bind_inr in Hchild as ([] & Hfirst & Hchild).
    apply res_bind_inr in Hchild as ([] & Hrange & Hloop).
    apply reject_inr in Hmiss. apply bool_decide_eq_false in Hmiss.
    apply reject_inr, Z.eqb_neq in Hfirst. apply reject_inr, Z.ltb_ge in Hrange.
    split.
    { destruct (Z.ltb_spec 0 (nodeChildIndicesCount (header v))) as [|Hle]; [assumption|].
      exfalso. apply Hmiss.
      unfold build_view in Hview.
      repeat (apply res_bind_inr in Hview as (? & _ & Hview)).
      injection Hview as <-. cbn in *.
      destruct (Z.ltb_spec 0 (nodeChildIndicesCount (img_header (df_image f))));
        [lia | reflexivity]. }
    split; [exact Hfirst|]. split.
    + intros Hr. unfold u32 in Hrange. rewrite Z.mod_small in Hrange; lia.
    + intros k Hk c. pose proof (for_u32_inr _ _ Hloop k Hk) as Hb.
      cbv beta zeta in Hb. fold c in Hb.
      apply res_bind_inr in Hb as ([] & Hc & Hp).
      apply reject_inr, Z.leb_gt in Hc.
      apply reject_inr, negb_false_iff, Z.eqb_eq in Hp. split; assumption.
  - intros Hpos. apply Z.ltb_lt in Hpos. rewrite Hpos in Hprim.
    apply res_bind_inr in Hprim as ([] & Hrange & Hloop).
    apply reject_inr, Z.ltb_ge in Hrange. split.
    + intros Hr. unfold u32 in Hrange. rewrite Z.mod_small in Hrange; lia.
    + intros k Hk. pose proof (for_u32_inr _ _ Hloop k Hk) as Hb.
      cbv beta zeta in Hb. apply reject_inr, Z.leb_gt in Hb. exact Hb.
Qed.

(** X7 at [scene.smodel]: node 0 lists node 1 as its child. *)
Lemma accepted_node_graph_witness :
  parentIndex (scene_nodes (img_nodeChildIndices scene_image 0)) = 0
  /\ img_nodeChildIndices scene_image 0 < nodeCount scene_header.
Proof.
  destruct scene_accepted as (v & Hv & Hh & Hb & _).
  pose proof (accepted_node_graph example_layout scene_files "scene.smodel" v Hv 0) as H.
  rewrite Hh, Hb in H. cbv zeta in H.
  destruct H as (_ & Hchild & _); [cbn; lia|].
  destruct Hchild as (_ & _ & _ & Hk); [cbn; lia|].
  destruct (Hk 0) as [Hc Hp]; [cbn; lia|].
  split; [exact Hp | exact Hc].
Defined.

(** X8.  In an accepted container every animation channel targets a node
    of the container through a sampler of the container along one of the
    three known paths; no clip has a duration below zero, and a clip's
    channel range, when its end does not pass [2^32], ends inside the
    channel table. *)
Theorem accepted_channels_and_clips L fs path v :
  LoadSModelFile L fs path = inr v ->
  (forall ch, 0 <= ch < animChannelsCount (header v) ->
     let chan := img_animChannels (fileBytes v) ch in
     targetNode chan < nodeCount (header v)
     /\ samplerIndex chan < animSamplersCount (header v)
     /\ (smodel.path chan = 0 \/ smodel.path chan = 1 \/ smodel.path chan = 2))
  /\ (forall ci, 0 <= ci < animClipsCount (header v) ->
        let clip := img_animClips (fileBytes v) ci in
        f32_lt (durationSec clip) 0 = false
        /\ (0 <= firstChannel clip + channelCount clip < 2 ^ 32 ->
            firstChannel clip + channelCount clip <= animChannelsCount (header v))).
Proof.
  intros Hload.
  apply LoadSModelFile_stages in Hload
    as (f & _ & _ & _ & _ & _ & _ & _ & _ & _ & _ & Hclip & Hchan & _).
  split.
  - intros ch Hch chan. pose proof (for_u32_inr _ _ Hchan ch Hch) as H.
    unfold validate_channel in H. fold chan in H.
    apply res_bind_inr in H as ([] & H1 & H).
    apply res_bind_inr in H as ([] & H2 & H3).
    apply reject_inr, Z.leb_gt in H1. apply reject_inr, Z.leb_gt in H2.
    apply reject_inr, negb_false_iff in H3. unfold isValidPath in H3.
    apply orb_true_iff in H3 as [H3|H3]; [apply orb_true_iff in H3 as [H3|H3]|];
      apply Z.eqb_eq in H3; auto.
  - intros ci Hci clip. pose proof (for_u32_inr _ _ Hclip ci Hci) as H.
    unfold validate_clip in H. fold clip in H.
    apply res_bind_inr in H as ([] & H1 & H2).
    apply reject_inr in H1. apply reject_inr, Z.ltb_ge in H2.
    split; [exact H1|]. intros Hr. unfold u32 in H2. rewrite Z.mod_small in H2; lia.
Qed.

(** X8 at [scene.smodel]. *)
Lemma accepted_channels_and_clips_witness :
  targetNode (img_animChannels scene_image 0) < nodeCount scene_header
  /\ f32_lt (durationSec (img_animClips scene_image 0)) 0 = false.
Proof.
  destruct scene_accepted as (v & Hv & Hh & Hb & _).
  destruct (accepted_channels_and_clips example_layout scene_files "scene.smodel" v Hv)
    as [Hch Hcl].
  rewrite Hh, Hb in Hch, Hcl. split.
  - apply (Hch 0). cbn. lia.
  - apply (Hcl 0). cbn. lia.
Defined.

(** X9.  In an accepted container every animation sampler has at least
    one time, a known interpolation and value type, three values per time
    for [Vec3] and four for [Quat], time and value ranges that, when their
    ends do not pass [2^32], end inside the time and value tables, and no
    time smaller than the time before it. *)
Theorem accepted_samplers L fs path v :
  LoadSModelFile L fs path = inr v ->
  forall si, 0 <= si < animSamplersCount (header v) ->
    let s := img_animSamplers (fileBytes v) si in
    1 <= timeCount s
    /\ (interpolation s = 0 \/ interpolation s = 1 \/ interpolation s = 2)
    /\ (valueType s = 0 \/ valueType s = 1)
    /\ (is_u32 (timeCount s) ->
        valueCount s = timeCount s * (if valueType s =? 0 then 3 else 4))
    /\ (0 <= firstTime s + timeCount s < 2 ^ 32 ->
        firstTime s + timeCount s <= animTimesCount (header v))
    /\ (0 <= firstValue s + valueCount s < 2 ^ 32 ->
        firstValue s + valueCount s <= animValuesCount (header v))
    /\ forall ti, 1 <= ti < timeCount s ->
         f32_lt (img_animTimes (fileBytes v) (firstTime s + ti))
                (img_animTimes (fileBytes v) (firstTime s + (ti - 1))) = false.
Proof.
  intros Hload si Hsi s.
  apply LoadSModelFile_stages in Hload
    as (f & _ & _ & _ & _ & _ & _ & _ & _ & _ & _ & _ & _ & Hsamp).
  pose proof (for_u32_inr _ _ Hsamp si Hsi) as H.
  unfold validate_sampler in H.
  apply res_bind_inr in H as ([] & Hr & Ht).
  unfold validate_sampler_ranges in Hr. fold s in Hr.
  apply res_bind_inr in Hr as ([] & H1 & Hr).
  apply res_bind_inr in Hr as ([] & H2 & Hr).
  apply res_bind_inr in Hr as ([] & H3 & Hr).
  apply res_bind_inr in Hr as ([] & H4 & Hr).
  apply res_bind_inr in Hr as ([] & H5 & H6).
  apply reject_inr, Z.ltb_ge in H1. apply reject_inr, Z.ltb_ge in H2.
  apply reject_inr, Z.ltb_ge in H3.
  apply reject_inr, negb_false_iff in H4. apply reject_inr, negb_false_iff in H5.
  apply reject_inr, negb_false_iff, Z.eqb_eq in H6.
  split; [exact H1|]. split.
  { unfold isValidInterpolation in H4.
    apply orb_true_iff in H4 as [H4|H4]; [apply orb_true_iff in H4 as [H4|H4]|];
      apply Z.eqb_eq in H4; auto. }
  split.
  { unfold isValidValueType in H5.
    apply orb_true_iff in H5 as [H5|H5]; apply Z.eqb_eq in H5; auto. }
  split.
  { unfold is_u32. intros Hu. rewrite H6. unfold SModelAnimValueType_Vec3, u64.
    destruct (valueType s =? 0); apply Z.mod_small; lia. }
  split; [intros Hw; unfold u32 in H2; rewrite Z.mod_small in H2; lia|].
  split; [intros Hw; unfold u32 in H3; rewrite Z.mod_small in H3; lia|].
  intros ti Hti. unfold validate_sampler_times in Ht. fold s in Ht.
  apply (for_from_reject_none (time_decreases v s) _ _ _ Ht). lia.
Qed.

(** X9 at [scene.smodel]: the times 0.0, 0.5, 1.0. *)
Lemma accepted_samplers_witness :
  valueCount example_sampler = timeCount example_sampler * 3
  /\ f32_lt (scene_times 2) (scene_times 1) = false.
Proof.
  destruct scene_accepted as (v & Hv & Hh & Hb & _).
  pose proof (accepted_samplers example_layout scene_files "scene.smodel" v Hv 0) as H.
  rewrite Hh, Hb in H. cbv zeta in H.
  destruct H as (_ & _ & _ & Hvals & _ & _ & Htimes); [cbn; lia|].
  split.
  - apply Hvals. unfold is_u32. cbn. lia.
  - apply (Htimes 2). cbn. lia.
Defined.

(** X1 at the string table of the example files. *)
Lemma isRangeInsideFile_exact_witness :
  isRangeInsideFile 472 8 4096 = true <-> 472 + 8 <= 4096.
Proof. apply isRangeInsideFile_exact; unfold is_u64; lia. Defined.

(** X2 at the mesh table of the example files. *)
Lemma tableRangeValid_exact_witness :
  tableRangeValid sizeof_SModelMeshRecord 204 1 4096 = inr tt
  <-> 204 + 1 * sizeof_SModelMeshRecord <= 4096.
Proof.
  apply tableRangeValid_exact; unfold is_u32, is_u64, sizeof_SModelMeshRecord; lia.
Defined.

(** The bytes of a C string found in a buffer that holds a zero byte are
    followed by that zero byte in the buffer, and hold none themselves. *)
Lemma c_str_terminated (l : list Z) :
  existsb (Z.eqb 0) l = true ->
  exists rest, l = c_str l ++ 0 :: rest.
Proof.
  induction l as [|b l IH]; [discriminate|]. cbn [existsb c_str].
  rewrite (Z.eqb_sym 0 b). destruct (Z.eqb_spec b 0) as [->|Hb].
  - intros _. exists l. reflexivity.
  - cbn [orb]. intros H. destruct (IH H) as [rest Hr]. exists rest.
    cbn [app]. congruence.
Qed.

Lemma c_str_no_zero (l : list Z) : Forall (fun b => b <> 0) (c_str l).
Proof.
  induction l as [|b l IH]; cbn [c_str]; [constructor|].
  destruct (Z.eqb_spec b 0); [constructor|]. constructor; assumption.
Qed.

(** X3.  [getStringOrEmpty] returns bytes without a zero among them; it
    returns nothing for offset 0 and for an offset at or past the end of
    the string table; and what it returns, when it returns something, is
    found in the string table at the offset, followed by a zero byte, and
    ends before the end of the table. *)
Theorem getStringOrEmpty_inside_table v strOffset :
  let s := getStringOrEmpty v strOffset in
  Forall (fun b => b <> 0) s
  /\ (strOffset = 0 \/ stringTableSize (header v) <= strOffset -> s = [])
  /\ (s <> [] ->
      Z.of_nat (length s) + strOffset < stringTableSize (header v)
      /\ (s ++ [0]) `prefix_of`
           drop (Z.to_nat strOffset) (img_stringTable (fileBytes v))).
Proof.
  cbv zeta. unfold getStringOrEmpty.
  destruct (stringTable v) as [p|];
    [|split; [constructor | split; [reflexivity | congruence]]].
  destruct (Z.eqb_spec strOffset 0) as [H0|H0];
    [split; [constructor | split; [reflexivity | congruence]]|].
  destruct (Z.leb_spec (stringTableSize (header v)) strOffset) as [Hge|Hlt];
    [split; [constructor | split; [reflexivity | congruence]]|].
  set (table := img_stringTable (fileBytes v)).
  set (n := Z.to_nat (stringTableSize (header v) - strOffset)).
  destruct (existsb (Z.eqb 0) (take n (drop (Z.to_nat strOffset) table))) eqn:Hz;
    [|split; [constructor | split; [reflexivity | congruence]]].
  split; [apply c_str_no_zero|]. split; [intros [?|?]; lia|].
  intros _. destruct (c_str_terminated _ Hz) as [rest Hrest].
  set (s := c_str (take n (drop (Z.to_nat strOffset) table))) in *.
  split.
  - assert (Hlen : (length s + 1 + length rest <= n)%nat).
    { assert (Hle : (length (take n (drop (Z.to_nat strOffset) table)) <= n)%nat)
        by (rewrite length_take; lia).
      rewrite Hrest, length_app in Hle. simpl in Hle. lia. }
    unfold n in Hlen. lia.
  - exists (rest ++ drop n (drop (Z.to_nat strOffset) table)).
    rewrite <- (take_drop n (drop (Z.to_nat strOffset) table)) at 1.
    rewrite Hrest at 1. rewrite <- !app_assoc. reflexivity.
Qed.

(** The names in the string table of [scene.smodel]: ["ab"] at offset 1,
    nothing at offset 5, where the bytes run to the end of the table
    without a zero. *)
Lemma scene_strings :
  exists v,
    LoadSModelFile example_layout scene_files "scene.smodel" = inr v
    /\ getStringOrEmpty v 1 = [97; 98]
    /\ getStringOrEmpty v 5 = []
    /\ getStringOrEmpty v 8 = [].
Proof. eexists. split; [vm_compute; reflexivity|]. repeat split. Qed.

(** X10.  The null checks on the animation table pointers never reject:
    the view built from a header holds a pointer for every animation table
    with a positive count. *)
Theorem anim_pointer_checks_never_fail img uFileSize v :
  build_view img uFileSize = inr v -> check_anim_pointers v = inr tt.
Proof.
  unfold build_view. intros H.
  apply res_bind_inr in H as (clips & Hclips & H).
  apply res_bind_inr in H as (channels & Hchannels & H).
  apply res_bind_inr in H as (samplers & Hsamplers & H).
  apply res_bind_inr in H as (times & Htimes & H).
  apply res_bind_inr in H as (values & Hvalues & H).
  injection H as <-.
  assert (Hptr : forall sz off count p,
            ptrAt sz uFileSize off count = inr p ->
            (0 <? count) && bool_decide (p = None) = false).
  { intros sz off count p. unfold ptrAt.
    destruct (Z.eqb_spec count 0) as [->|Hc]; [intros _; reflexivity|].
    destruct (tableRangeValid sz off count uFileSize); [discriminate|].
    intros [= <-]. apply andb_false_iff. right. apply bool_decide_eq_false. discriminate. }
  unfold check_anim_pointers. cbn.
  rewrite (Hptr _ _ _ _ Hclips), (Hptr _ _ _ _ Hchannels), (Hptr _ _ _ _ Hsamplers),
    (Hptr _ _ _ _ Htimes), (Hptr _ _ _ _ Hvalues).
  reflexivity.
Qed.

(** X10 at the example file. *)
Lemma anim_pointer_checks_never_fail_witness :
  is_ok (v ← build_view scene_image 4096; check_anim_pointers v) = true.
Proof.
  destruct (build_view scene_image 4096) as [e|v] eqn:Hv; [vm_compute in Hv; discriminate|].
  simpl. rewrite (anim_pointer_checks_never_fail _ _ _ Hv). reflexivity.
Defined.

End Accepted.

(* ================================================================= *)
(** ** Texture upload *)

(** [calcMipLevels] returns between 1 and 32 levels. *)
Lemma calcMipLevels_range (width height : Z) :
  is_u32 width -> is_u32 height -> 1 <= calcMipLevels width height <= 32.
Proof.
  unfold is_u32. intros Hw Hh. unfold calcMipLevels.
  destruct (Z.eqb_spec (Z.max width height) 0) as [Hz|Hnz]; [lia|].
  pose proof (Z.log2_nonneg (Z.max width height)) as Hnn.
  assert (Hlt : Z.log2 (Z.max width height) < 32) by (apply Z.log2_lt_pow2; lia).
  unfold u32. rewrite Z.mod_small by lia. lia.
Qed.

(** X11.  For 32-bit dimensions, [calcMipLevels] returns between 1 and 32
    levels; when a dimension is positive the count [n] is the one with
    [2^(n-1) <= max(width, height) < 2^n], and for two zero dimensions it
    is 1. *)
Theorem calcMipLevels_bracket (width height : Z) :
  is_u32 width -> is_u32 height ->
  let n := calcMipLevels width height in
  1 <= n <= 32
  /\ (0 < Z.max width height -> 2 ^ (n - 1) <= Z.max width height < 2 ^ n)
  /\ (Z.max width height = 0 -> n = 1).
Proof.
  unfold is_u32. intros Hw Hh. cbv zeta. unfold calcMipLevels.
  set (d := Z.max width height).
  assert (Hd : 0 <= d < 2 ^ 32) by (unfold d; lia).
  destruct (Z.eqb_spec d 0) as [Hz|Hnz].
  - split; [lia|]. split; [lia | reflexivity].
  - assert (Hpos : 0 < d) by lia.
    pose proof (Z.log2_spec d Hpos) as [Hlo Hhi].
    pose proof (Z.log2_nonneg d) as Hnn.
    assert (Hlt : Z.log2 d < 32) by (apply Z.log2_lt_pow2; lia).
    unfold u32. rewrite Z.mod_small by lia.
    replace (Z.log2 d + 1 - 1) with (Z.log2 d) by lia.
    replace (Z.succ (Z.log2 d)) with (Z.log2 d + 1) in Hhi by lia.
    split; [lia|]. split; [intros _; split; assumption | lia].
Qed.

(** X11 at a 64 x 32 image: seven levels. *)
Lemma calcMipLevels_bracket_witness :
  calcMipLevels 64 32 = 7 /\ 2 ^ 6 <= Z.max 64 32 < 2 ^ 7.
Proof.
  split; [reflexivity|].
  destruct (calcMipLevels_bracket 64 32) as (_ & H & _);
    [unfold is_u32; lia | unfold is_u32; lia |].
  apply H. lia.
Defined.

(** The calls [destroy] makes for asset [a], newest first. *)
Lemma TextureAsset_destroy_calls a t :
  (TextureAsset_destroy a t).2
  = (if m_memory a then [Gpu vkFreeMemory true] else [])
    ++ (if m_image a then [Gpu vkDestroyImage true] else [])
    ++ (if m_view a then [Gpu vkDestroyImageView true] else [])
    ++ (if m_sampler a then [Gpu vkDestroySampler true] else [])
    ++ t.
Proof.
  unfold TextureAsset_destroy, call_void.
  destruct (m_memory a), (m_image a), (m_view a), (m_sampler a); reflexivity.
Qed.

(** X12.  [TextureAsset::destroy] makes one call for each object the asset
    holds (sampler, view, image, memory, in this order) and none for an
    object it does not hold, leaves the asset in its initial state, which
    is not valid, and makes no call when run again. *)
Theorem TextureAsset_destroy_once a t :
  let r := TextureAsset_destroy a t in
  r.1 = TextureAsset_new
  /\ TextureAsset_isValid r.1 = false
  /\ r.2 = (if m_memory a then [Gpu vkFreeMemory true] else [])
           ++ (if m_image a then [Gpu vkDestroyImage true] else [])
           ++ (if m_view a then [Gpu vkDestroyImageView true] else [])
           ++ (if m_sampler a then [Gpu vkDestroySampler true] else [])
           ++ t
  /\ TextureAsset_destroy r.1 r.2 = r.
Proof.
  cbv zeta. split; [reflexivity|]. split; [reflexivity|].
  split; [apply TextureAsset_destroy_calls|].
  unfold TextureAsset_destroy at 1. cbn [fst snd]. reflexivity.
Qed.

(** The staging buffer of an image: [VkDeviceSize(width) * VkDeviceSize(height)
    * 4u] is [width * height * 4] reduced modulo [2^64]. *)
Lemma pixelBytes_mod (width height : Z) :
  is_u32 width -> is_u32 height ->
  u64 (u64 (width * height) * 4) = (width * height * 4) mod 2 ^ 64.
Proof.
  unfold is_u32, u64. intros Hw Hh.
  rewrite (Z.mod_small (width * height)) by nia. reflexivity.
Qed.

(** X13.  When [uploadRGBA8_Deferred] returns true for 32-bit dimensions,
    the asset holds image, memory, view and sampler, has the dimensions and
    the format asked for and between 1 and 32 levels: [calcMipLevels], or 1
    after a failed mip generation.  The context has one more pending
    staging buffer, created with [width * height * 4] bytes reduced modulo
    [2^64] (the 64-bit product can wrap; it is [width * height * 4] itself
    when [width * height < 2^62]).  The image was created with
    [calcMipLevels] levels; with more than one level, mip generation was
    called with the dimensions cast to [int32_t], and its answer decides
    the levels the asset reports; the view was created with those levels
    and the sampler with a maximal level of detail one below them. *)
Theorem uploadRGBA8_Deferred_success (P : Platform) (ctx : UploadContext)
    (a : TextureAsset) (rgbaPixels : bool) (width height : Z) (srgbFormat : bool)
    (wrapU wrapV : VkSamplerAddressMode) (minFilter magFilter : VkFilter)
    (mipMode : VkSamplerMipmapMode) (maxAnisotropy : Z) (t : Trace)
    (a' : TextureAsset) (ctx' : UploadContext) (t' : Trace) :
  is_u32 width -> is_u32 height ->
  uploadRGBA8_Deferred P ctx a rgbaPixels width height srgbFormat wrapU wrapV
    minFilter magFilter mipMode maxAnisotropy t = (true, a', ctx', t') ->
  let fmt := if srgbFormat then VK_FORMAT_R8G8B8A8_SRGB else VK_FORMAT_R8G8B8A8_UNORM in
  let pixelBytes := (width * height * 4) mod 2 ^ 64 in
  a' = {| m_image := true; m_memory := true; m_view := true; m_sampler := true;
          m_width := width; m_height := height;
          m_mipLevels := m_mipLevels a'; m_format := fmt |}
  /\ (m_mipLevels a' = calcMipLevels width height \/ m_mipLevels a' = 1)
  /\ 1 <= m_mipLevels a' <= 32
  /\ ctx' = {| begun := true; cmd := true;
               pendingStaging := pendingStaging ctx ++ [pixelBytes] |}
  /\ (width * height < 2 ^ 62 -> pixelBytes = width * height * 4)
  /\ exists evs,
       t' = evs ++ t
       /\ In (Gpu (CreateStagingBuffer pixelBytes) true) evs
       /\ In (Gpu (CreateImage2D width height fmt (calcMipLevels width height)) true) evs
       /\ (1 < calcMipLevels width height ->
           exists okMips,
             In (Gpu (CmdGenerateMipmaps fmt (to_int width) (to_int height)
                        (calcMipLevels width height)) okMips) evs
             /\ m_mipLevels a' = if okMips then calcMipLevels width height else 1)
       /\ In (Gpu (CreateImageView2D fmt (m_mipLevels a')) true) evs
       /\ In (Gpu (CreateTextureSampler wrapU wrapV minFilter magFilter mipMode
                     maxAnisotropy (m_mipLevels a' - 1)) true) evs.
Proof.
  intros Hw Hh. cbv zeta. unfold uploadRGBA8_Deferred.
  rewrite (pixelBytes_mod width height Hw Hh).
  assert (Hsmall : width * height < 2 ^ 62 ->
                   (width * height * 4) mod 2 ^ 64 = width * height * 4).
  { intros Hlt. unfold is_u32 in *. apply Z.mod_small. nia. }
  set (pixelBytes := (width * height * 4) mod 2 ^ 64) in *.
  destruct (begun ctx) eqn:Hbegun; [|discriminate].
  destruct (cmd ctx) eqn:Hcmd; [|discriminate]. cbn [negb orb].
  destruct (negb rgbaPixels || (width =? 0) || (height =? 0)) eqn:Hguard; [discriminate|].
  apply orb_false_iff in Hguard as [Hguard Hh0].
  apply orb_false_iff in Hguard as [_ Hw0]. apply Z.eqb_neq in Hw0, Hh0.
  pose proof (calcMipLevels_range width height Hw Hh) as Hm.
  set (mips := calcMipLevels width height) in *.
  pose proof (TextureAsset_destroy_calls a t) as Hd.
  assert (Hpre : exists evs0,
            (if TextureAsset_isValid a then TextureAsset_destroy a t else (a, t)).2
            = evs0 ++ t).
  { destruct (TextureAsset_isValid a); [|exists []; reflexivity].
    rewrite Hd. eexists. rewrite !app_assoc. reflexivity. }
  destruct (if TextureAsset_isValid a then TextureAsset_destroy a t else (a, t))
    as [a0 t0]. destruct Hpre as [evs0 Ht0]. cbn [snd] in Ht0. subst t0.
  unfold call, call_void.
  destruct (respond P _ (CreateStagingBuffer _)); [|discriminate]. cbn [negb].
  destruct (respond P _ (CreateImage2D _ _ _ _)); [|discriminate]. cbn [negb].
  destruct (Z.ltb_spec 1 mips) as [Hmany|Hone].
  - destruct (respond P _ (CmdGenerateMipmaps _ _ _ _)) eqn:Hgen; cbn [negb].
    + destruct (respond P _ (CreateImageView2D _ _)); [|discriminate]. cbn [negb].
      assert (Hlod : (0 <? mips) = true) by (apply Z.ltb_lt; lia). rewrite Hlod.
      destruct (respond P _ (CreateTextureSampler _ _ _ _ _ _ _)); [|discriminate].
      intros [= <- <- <-]. cbn [m_mipLevels].
      split; [reflexivity|]. split; [left; reflexivity|]. split; [lia|].
      split; [reflexivity|]. split; [exact Hsmall|].
      eexists (_ :: _ :: _ :: _ :: _ :: _ :: _ :: evs0). split; [reflexivity|].
      split; [cbn [In]; auto 10|]. split; [cbn [In]; auto 10|].
      split; [intros _; exists true; split; [cbn [In]; auto 10 | reflexivity]|].
      split; cbn [In]; auto 10.
    + destruct (respond P _ (CreateImageView2D _ _)); [|discriminate]. cbn [negb].
      change (0 <? 1) with true. cbv iota.
      destruct (respond P _ (CreateTextureSampler _ _ _ _ _ _ _)); [|discriminate].
      intros [= <- <- <-]. cbn [m_mipLevels].
      split; [reflexivity|]. split; [right; reflexivity|]. split; [lia|].
      split; [reflexivity|]. split; [exact Hsmall|].
      eexists (_ :: _ :: _ :: _ :: _ :: _ :: _ :: _ :: evs0). split; [reflexivity|].
      split; [cbn [In]; auto 10|]. split; [cbn [In]; auto 10|].
      split; [intros _; exists false; split; [cbn [In]; auto 10 | reflexivity]|].
      split; cbn [In]; auto 10.
  - destruct (respond P _ (CreateImageView2D _ _)); [|discriminate]. cbn [negb].
    assert (Hlod : (0 <? mips) = true) by (apply Z.ltb_lt; lia). rewrite Hlod.
    destruct (respond P _ (CreateTextureSampler _ _ _ _ _ _ _)); [|discriminate].
    intros [= <- <- <-]. cbn [m_mipLevels].
    split; [reflexivity|]. split; [left; reflexivity|]. split; [lia|].
    split; [reflexivity|]. split; [exact Hsmall|].
    eexists (_ :: _ :: _ :: _ :: _ :: _ :: _ :: evs0). split; [reflexivity|].
    split; [cbn [In]; auto 10|]. split; [cbn [In]; auto 10|].
    split; [intros Hmany; lia|].
    split; cbn [In]; auto 10.
Qed.

(** X13 at a 64 x 32 sRGB image on a platform where every call succeeds:
    seven levels, a staging buffer of 8192 bytes, and mip generation called
    with 64 and 32. *)
Lemma uploadRGBA8_Deferred_success_witness :
  let r := uploadRGBA8_Deferred example_platform
             {| begun := true; cmd := true; pendingStaging := [] |}
             TextureAsset_new true 64 32 true
             VK_SAMPLER_ADDRESS_MODE_REPEAT VK_SAMPLER_ADDRESS_MODE_REPEAT
             VK_FILTER_LINEAR VK_FILTER_LINEAR VK_SAMPLER_MIPMAP_MODE_LINEAR
             0x3F800000 [] in
  TextureAsset_isValid r.1.1.2 = true
  /\ 1 <= m_mipLevels r.1.1.2 <= 32
  /\ pendingStaging r.1.2 = [8192]
  /\ exists okMips,
       In (Gpu (CmdGenerateMipmaps VK_FORMAT_R8G8B8A8_SRGB 64 32 7) okMips) r.2.
Proof.
  cbv zeta.
  destruct (uploadRGBA8_Deferred _ _ _ _ _ _ _ _ _ _ _ _ _ _) as [[[ok a'] ctx'] t'] eqn:Hr.
  assert (ok = true) as -> by (vm_compute in Hr; congruence).
  assert (Hw : is_u32 64) by (unfold is_u32; lia).
  assert (Hh : is_u32 32) by (unfold is_u32; lia).
  destruct (uploadRGBA8_Deferred_success _ _ _ _ _ _ _ _ _ _ _ _ _ _ _ _ _ Hw Hh Hr)
    as (Ha & _ & Hm & Hc & _ & evs & Ht & _ & _ & Hgen & _).
  cbn [fst snd]. split; [rewrite Ha; reflexivity|]. split; [exact Hm|].
  split; [rewrite Hc; reflexivity|].
  destruct (Hgen ltac:(vm_compute; reflexivity)) as (okMips & Hin & _).
  exists okMips. rewrite Ht, app_nil_r. exact Hin.
Defined.

Lemma staged_app (evs t : Trace) : staged (evs ++ t) = staged t ++ staged evs.
Proof.
  induction evs as [|e evs IH]; [symmetry; apply app_nil_r|].
  destruct e as [c ok|k i]; cbn [app staged]; [|exact IH].
  destruct c; try exact IH. destruct ok; [|exact IH].
  rewrite IH, app_assoc. reflexivity.
Qed.

Lemma TextureAsset_destroy_staged a t : staged (TextureAsset_destroy a t).2 = staged t.
Proof.
  unfold TextureAsset_destroy, call_void.
  destruct (m_sampler a), (m_view a), (m_image a), (m_memory a); reflexivity.
Qed.

(** Whatever comes of an upload, the context holds the staging buffers it
    held before and those the upload created. *)
Lemma uploadRGBA8_Deferred_staging P ctx a px w h srgb wu wv mn mg mp an t :
  let r := uploadRGBA8_Deferred P ctx a px w h srgb wu wv mn mg mp an t in
  exists new,
    pendingStaging r.1.2 = pendingStaging ctx ++ new
    /\ staged r.2 = staged t ++ new.
Proof.
  cbv zeta. unfold uploadRGBA8_Deferred.
  destruct (negb (begun ctx) || negb (cmd ctx));
    [exists []; rewrite !app_nil_r; split; reflexivity|].
  destruct (negb px || (w =? 0) || (h =? 0));
    [exists []; rewrite !app_nil_r; split; reflexivity|].
  assert (H0 : staged (if TextureAsset_isValid a
                       then TextureAsset_destroy a t else (a, t)).2 = staged t).
  { destruct (TextureAsset_isValid a); [apply TextureAsset_destroy_staged | reflexivity]. }
  destruct (if TextureAsset_isValid a then TextureAsset_destroy a t else (a, t))
    as [a0 t0]. cbn [snd] in H0.
  unfold call, call_void.
  destruct (respond P t0 (CreateStagingBuffer _)); cbn [negb].
  2:{ exists []. rewrite !app_nil_r. cbn [fst snd staged]. auto. }
  eexists [_].
  repeat match goal with
         | |- context [if negb ?b then _ else _] => destruct b; cbn [negb]
         | |- context [if 1 <? ?b then _ else _] => destruct (1 <? b)
         end; cbn [fst snd pendingStaging staged]; rewrite H0; split; reflexivity.
Qed.

Lemma uploadEncodedImage_Deferred_staging P ctx a img off sz srgb wu wv mn mg mp an t :
  let r := uploadEncodedImage_Deferred P ctx a img off sz srgb wu wv mn mg mp an t in
  exists new,
    pendingStaging r.1.2 = pendingStaging ctx ++ new
    /\ staged r.2 = staged t ++ new.
Proof.
  cbv zeta. unfold uploadEncodedImage_Deferred.
  destruct (sz =? 0); [exists []; rewrite !app_nil_r; split; reflexivity|].
  destruct (smodel.img_stbi img off (to_int sz)) as [[w h]|];
    [|exists []; rewrite !app_nil_r; split; reflexivity].
  destruct ((w <=? 0) || (h <=? 0));
    [exists []; rewrite !app_nil_r; split; reflexivity|].
  apply uploadRGBA8_Deferred_staging.
Qed.

Lemma upload_texture_staging P view i ths upload s t :
  match upload_texture P view i (ths, upload, s, t) with
  | inl (upload', _, t') =>
      exists new, pendingStaging upload' = pendingStaging upload ++ new
                  /\ staged t' = staged t ++ new
  | inr (_, upload', _, t') =>
      exists new, pendingStaging upload' = pendingStaging upload ++ new
                  /\ staged t' = staged t ++ new
  end.
Proof.
  unfold upload_texture.
  match goal with
  | |- context [uploadEncodedImage_Deferred ?P ?c ?a ?img ?off ?sz ?srgb ?wu ?wv ?mn ?mg ?mp ?an ?t] =>
      pose proof (uploadEncodedImage_Deferred_staging P c a img off sz srgb wu wv mn mg mp an t)
        as H; cbv zeta in H; revert H;
      destruct (uploadEncodedImage_Deferred P c a img off sz srgb wu wv mn mg mp an t)
        as [[[ok tex] up1] t1]
  end.
  cbn [fst snd]. intros H. destruct (negb ok); [exact H|].
  unfold createTexture_Internal. exact H.
Qed.

(** X14.  The texture loop of [loadModel] hands on every staging buffer it
    creates: when it ends, with all textures uploaded or at the first
    failure, the upload context holds the buffers it held before the loop
    followed by the buffers created during the loop, in the order of their
    creation. *)
Theorem texture_loop_keeps_staging P view n ths upload s t :
  match iter_until (upload_texture P view) 0 n (ths, upload, s, t) with
  | inl (upload', _, t') =>
      exists new, pendingStaging upload' = pendingStaging upload ++ new
                  /\ staged t' = staged t ++ new
  | inr (_, upload', _, t') =>
      exists new, pendingStaging upload' = pendingStaging upload ++ new
                  /\ staged t' = staged t ++ new
  end.
Proof.
  pose proof (iter_until_ind
    (fun _ (st : TexLoop) =>
       exists new, pendingStaging st.1.1.2 = pendingStaging upload ++ new
                   /\ staged st.2 = staged t ++ new)
    (fun (f : UploadContext * AssetManager * Trace) =>
       exists new, pendingStaging f.1.1 = pendingStaging upload ++ new
                   /\ staged f.2 = staged t ++ new)
    (upload_texture P view) 0 n (ths, upload, s, t)) as H.
  cbn [fst snd] in H.
  assert (Hres : match iter_until (upload_texture P view) 0 n (ths, upload, s, t) with
                 | inl f =>
                     exists new, pendingStaging f.1.1 = pendingStaging upload ++ new
                                 /\ staged f.2 = staged t ++ new
                 | inr st' =>
                     exists new, pendingStaging st'.1.1.2 = pendingStaging upload ++ new
                                 /\ staged st'.2 = staged t ++ new
                 end).
  { apply H.
    - exists []. rewrite !app_nil_r. split; reflexivity.
    - intros j [[[ths0 up0] s0] t0] _ (new0 & Hp0 & Hs0). cbn [fst snd] in Hp0, Hs0.
      pose proof (upload_texture_staging P view j ths0 up0 s0 t0) as Hu.
      destruct (upload_texture P view j (ths0, up0, s0, t0))
        as [[[up1 s1] t1]|[[[ths1 up1] s1] t1]];
        destruct Hu as (new1 & Hp1 & Hs1); cbn [fst snd];
        exists (new0 ++ new1); rewrite Hp1, Hs1, Hp0, Hs0, !app_assoc;
        split; reflexivity. }
  destruct (iter_until (upload_texture P view) 0 n (ths, upload, s, t))
    as [[[up1 s1] t1]|[[[ths1 up1] s1] t1]]; exact Hres.
Qed.

(* ================================================================= *)
(** ** Counting references *)

Section Counting.

Context {E A : Type} {RE : RegistryEntry E A}.

Implicit Types (m : gmap Z E) (h : Handle) (e : E).

Lemma resolve_counts m m' h' :
  (forall i e, m !! i = Some e -> exists n, m' !! i = Some (with_refCount n e)) ->
  (forall i, m !! i = None -> m' !! i = None) ->
  registry_get m' h' = registry_get m h'
  /\ (is_Some (m' !! id h') <-> is_Some (m !! id h')).
Proof.
  intros Hsome Hnone. unfold registry_get, resolve.
  destruct (m !! id h') as [e|] eqn:He.
  - destruct (Hsome _ _ He) as [n ->]. rewrite generation_with_refCount.
    split; [|split; eauto].
    destruct (generation e =? h_generation h'); [apply asset_with_refCount | reflexivity].
  - rewrite (Hnone _ He). split; [reflexivity|]. split; intros [? ?]; discriminate.
Qed.

Lemma registry_addRef_keeps_None m h i :
  m !! i = None -> registry_addRef m h !! i = None.
Proof.
  intros Hn. rewrite lookup_registry_addRef.
  destruct (resolve m h) as [e'|] eqn:Hres; [|exact Hn].
  destruct (decide (id h = i)) as [<-|]; [|exact Hn].
  apply resolve_Some in Hres as [He' _]. congruence.
Qed.

Lemma registry_release_keeps_None m h i :
  m !! i = None -> registry_release m h !! i = None.
Proof.
  intros Hn. rewrite lookup_registry_release.
  destruct (resolve m h) as [e'|] eqn:Hres; [|exact Hn].
  destruct (decide (id h = i)) as [<-|]; [|exact Hn].
  apply resolve_Some in Hres as [He' _]. congruence.
Qed.

Lemma registry_addRef_get m h h' :
  registry_get (registry_addRef m h) h' = registry_get m h'
  /\ (is_Some (registry_addRef m h !! id h') <-> is_Some (m !! id h')).
Proof.
  apply resolve_counts.
  - intros i e. apply registry_addRef_counts.
  - intros i. apply registry_addRef_keeps_None.
Qed.

Lemma registry_release_get m h h' :
  registry_get (registry_release m h) h' = registry_get m h'
  /\ (is_Some (registry_release m h !! id h') <-> is_Some (m !! id h')).
Proof.
  apply resolve_counts.
  - intros i e. apply registry_release_counts.
  - intros i. apply registry_release_keeps_None.
Qed.

(** What [release] does to the counts of a registry. *)
Lemma registry_release_refCount m h i :
  refCount <$> registry_release m h !! i
  = match resolve m h with
    | Some e =>
        if decide (id h = i)
        then Some (if 0 <? refCount e then refCount e - 1 else refCount e)
        else refCount <$> m !! i
    | None => refCount <$> m !! i
    end.
Proof.
  rewrite lookup_registry_release.
  destruct (resolve m h) as [e|]; [|reflexivity].
  destruct (decide (id h = i)); [|reflexivity].
  destruct (0 <? refCount e); cbn; [rewrite refCount_with_refCount|]; reflexivity.
Qed.

Lemma registry_release_unresolved m h : resolve m h = None -> registry_release m h = m.
Proof. unfold registry_release. intros ->. reflexivity. Qed.

Lemma registry_release_effect m h :
  match refCount <$> resolve m h with
  | Some rc =>
      refCount <$> registry_release m h !! id h
      = Some (if 0 <? rc then rc - 1 else rc)
      /\ forall i, i <> id h ->
           refCount <$> registry_release m h !! i = refCount <$> m !! i
  | None => registry_release m h = m
  end.
Proof.
  destruct (resolve m h) as [e|] eqn:Hres; cbn.
  - split.
    + rewrite registry_release_refCount, Hres, decide_True by reflexivity. reflexivity.
    + intros i Hne. rewrite registry_release_refCount, Hres, decide_False by congruence.
      reflexivity.
  - apply registry_release_unresolved, Hres.
Qed.

End Counting.

(** X15.  [addRef] and [release], through any handle of any kind, change
    neither what [getMesh], [getTexture], [getMaterial] and [getModel]
    return for any handle nor which identifiers have an entry: no entry is
    created and none is erased. *)
Theorem counting_keeps_entries (k : Kind) (h : Handle) (s : AssetManager) :
  let same := fun s' : AssetManager =>
    (forall h', getMesh s' h' = getMesh s h' /\ getTexture s' h' = getTexture s h'
                /\ getMaterial s' h' = getMaterial s h' /\ getModel s' h' = getModel s h')
    /\ (forall k' i, present k' s' i <-> present k' s i) in
  same (addRef k h s) /\ same (release k h s).
Proof.
  cbv zeta. split; split.
  - intros h'. destruct k; cbn; repeat split; try reflexivity;
      apply registry_addRef_get.
  - intros k' i. destruct k, k'; cbn; try reflexivity;
      apply (registry_addRef_get _ h {| id := i; h_generation := 0 |}).
  - intros h'. destruct k; cbn; repeat split; try reflexivity;
      apply registry_release_get.
  - intros k' i. destruct k, k'; cbn; try reflexivity;
      apply (registry_release_get _ h {| id := i; h_generation := 0 |}).
Qed.

(** X16.  [release] through a handle that resolves to an entry with count
    [rc] leaves that entry with [rc - 1] when [rc] is positive and with
    [rc] when it is zero, and every other count as it was; through a handle
    that does not resolve (unknown identifier or other generation) it
    leaves the manager as it is. *)
Theorem release_saturates (k : Kind) (h : Handle) (s : AssetManager) :
  match resolved_refCount k s h with
  | Some rc =>
      refCount_of k (release k h s) (id h) = Some (if 0 <? rc then rc - 1 else rc)
      /\ forall k' i, (k', i) <> (k, id h) ->
           refCount_of k' (release k h s) i = refCount_of k' s i
  | None => release k h s = s
  end.
Proof.
  destruct k.
  - pose proof (registry_release_effect (m_meshes s) h) as H.
    unfold resolved_refCount. destruct (refCount <$> resolve (m_meshes s) h) as [rc|].
    + destruct H as [H1 H2]. split; [exact H1|].
      intros k' i Hne. destruct k'; try reflexivity.
      apply H2. congruence.
    + apply set_meshes_same, H.
  - pose proof (registry_release_effect (m_textures s) h) as H.
    unfold resolved_refCount. destruct (refCount <$> resolve (m_textures s) h) as [rc|].
    + destruct H as [H1 H2]. split; [exact H1|].
      intros k' i Hne. destruct k'; try reflexivity.
      apply H2. congruence.
    + apply set_textures_same, H.
  - pose proof (registry_release_effect (m_materials s) h) as H.
    unfold resolved_refCount. destruct (refCount <$> resolve (m_materials s) h) as [rc|].
    + destruct H as [H1 H2]. split; [exact H1|].
      intros k' i Hne. destruct k'; try reflexivity.
      apply H2. congruence.
    + apply set_materials_same, H.
  - pose proof (registry_release_effect (m_models s) h) as H.
    unfold resolved_refCount. destruct (refCount <$> resolve (m_models s) h) as [rc|].
    + destruct H as [H1 H2]. split; [exact H1|].
      intros k' i Hne. destruct k'; try reflexivity.
      apply H2. congruence.
    + apply set_models_same, H.
Qed.

(* ================================================================= *)
(** ** What a collection pass leaves *)

Section Sweep.

(** A sweep over the entries of one registry: [step] erases the entry it
    stands on when [zero] holds of it and leaves the registry alone
    otherwise. *)
Context {E St : Type} (proj : St -> gmap Z E) (step : St -> Z * E -> St)
        (zero : E -> bool).

Hypothesis step_proj : forall s i e,
  proj (step s (i, e)) = if zero e then delete i (proj s) else proj s.

Lemma sweep_list_lookup l s i :
  proj (foldl step s l) !! i
  = if existsb (fun ie : Z * E => bool_decide (ie.1 = i) && zero ie.2) l
    then None else proj s !! i.
Proof.
  revert s. induction l as [|[j e] l IH]; intros s; [reflexivity|].
  cbn [foldl existsb fst snd]. rewrite IH, step_proj.
  destruct (existsb _ l); [rewrite orb_true_r; reflexivity|]. rewrite orb_false_r.
  destruct (zero e); [|rewrite andb_false_r; reflexivity]. rewrite andb_true_r.
  rewrite lookup_delete. destruct (decide (j = i)) as [->|Hne].
  - rewrite bool_decide_eq_true_2 by reflexivity. reflexivity.
  - rewrite bool_decide_eq_false_2 by exact Hne. reflexivity.
Qed.

(** A sweep over all entries of the registry keeps exactly those of which
    [zero] does not hold. *)
Lemma sweep_lookup s i :
  proj (foldl step s (map_to_list (proj s))) !! i
  = match proj s !! i with
    | Some e => if zero e then None else Some e
    | None => None
    end.
Proof.
  rewrite sweep_list_lookup.
  destruct (existsb _ _) eqn:Hex.
  - apply existsb_exists in Hex as ([j e] & Hin & Hje). cbn in Hje.
    apply andb_true_iff in Hje as [Hj Hz]. apply bool_decide_eq_true in Hj. subst j.
    apply list_elem_of_In, elem_of_map_to_list in Hin. rewrite Hin, Hz. reflexivity.
  - destruct (proj s !! i) as [e|] eqn:He; [|reflexivity].
    destruct (zero e) eqn:Hz; [|reflexivity].
    assert (existsb (fun ie : Z * E => bool_decide (ie.1 = i) && zero ie.2)
              (map_to_list (proj s)) = true) as Habs; [|congruence].
    apply existsb_exists. exists (i, e). split.
    + apply list_elem_of_In, elem_of_map_to_list, He.
    + cbn. rewrite Hz, bool_decide_eq_true_2 by reflexivity. reflexivity.
Qed.

End Sweep.

Lemma foldl_release_keeps_None {E A : Type} {RE : RegistryEntry E A}
    (l : list Handle) (m : gmap Z E) i :
  m !! i = None -> foldl registry_release m l !! i = None.
Proof.
  revert m. induction l as [|h l IH]; intros m Hn; [exact Hn|].
  apply IH, registry_release_keeps_None, Hn.
Qed.

Lemma sweep_mesh_meshes st i e :
  m_meshes (sweep_mesh st (i, e)).1
  = if mesh_refCount e =? 0 then delete i (m_meshes st.1) else m_meshes st.1.
Proof. rewrite sweep_mesh_state. destruct (mesh_refCount e =? 0); reflexivity. Qed.

Lemma sweep_texture_textures st i e :
  m_textures (sweep_texture st (i, e)).1
  = if texture_refCount e =? 0 then delete i (m_textures st.1) else m_textures st.1.
Proof. rewrite sweep_texture_state. destruct (texture_refCount e =? 0); reflexivity. Qed.

Lemma sweep_materials_keep s l :
  m_models (foldl sweep_material s l) = m_models s
  /\ m_meshes (foldl sweep_material s l) = m_meshes s.
Proof.
  split.
  - apply (foldl_preserves sweep_material (fun s' => m_models s' = m_models s));
      [|reflexivity].
    intros s0 x <-. apply sweep_material_models.
  - apply (foldl_preserves sweep_material (fun s' => m_meshes s' = m_meshes s));
      [|reflexivity].
    intros s0 x <-. apply sweep_material_meshes.
Qed.

Lemma sweep_models_textures s l : m_textures (foldl sweep_model s l) = m_textures s.
Proof.
  apply (foldl_preserves sweep_model (fun s' => m_textures s' = m_textures s));
    [|reflexivity].
  intros s0 x <-. apply sweep_model_textures.
Qed.

(** The registries after [garbageCollect], each in terms of the registry as
    its own sweep found it. *)
Lemma garbageCollect_registries s t :
  let s1 := foldl sweep_model s (map_to_list (m_models s)) in
  let s2 := foldl sweep_material s1 (map_to_list (m_materials s1)) in
  let g := (garbageCollect s t).1 in
  (forall i, m_models g !! i
             = match m_models s !! i with
               | Some e => if model_refCount e =? 0 then None else Some e
               | None => None
               end)
  /\ (forall i, m_materials g !! i
                = match m_materials s1 !! i with
                  | Some e => if material_refCount e =? 0 then None else Some e
                  | None => None
                  end)
  /\ (forall i, m_meshes g !! i
                = match m_meshes s1 !! i with
                  | Some e => if mesh_refCount e =? 0 then None else Some e
                  | None => None
                  end)
  /\ (forall i, m_textures g !! i
                = match m_textures s2 !! i with
                  | Some e => if texture_refCount e =? 0 then None else Some e
                  | None => None
                  end).
Proof.
  cbv zeta. unfold garbageCollect.
  set (s1 := foldl sweep_model s (map_to_list (m_models s))).
  set (s2 := foldl sweep_material s1 (map_to_list (m_materials s1))).
  set (st3 := foldl sweep_mesh (s2, t) (map_to_list (m_meshes s2))).
  destruct (sweep_materials_keep s1 (map_to_list (m_materials s1))) as [M2 Me2].
  fold s2 in M2, Me2.
  destruct (sweep_meshes_result 0 (map_to_list (m_meshes s2)) (s2, t))
    as (M3 & Mat3 & T3 & _). fold st3 in M3, Mat3, T3. cbn [fst] in M3, Mat3, T3.
  destruct (sweep_textures_result 0 (map_to_list (m_textures st3.1)) st3)
    as (M4 & Mat4 & Me4 & _).
  split; [|split; [|split]]; intros i.
  - rewrite M4, M3, M2.
    apply (sweep_lookup m_models sweep_model (fun e => model_refCount e =? 0)).
    intros s0 j e. apply sweep_model_models.
  - rewrite Mat4, Mat3.
    apply (sweep_lookup m_materials sweep_material (fun e => material_refCount e =? 0)).
    intros s0 j e. apply sweep_material_materials.
  - rewrite Me4, <- Me2.
    apply (sweep_lookup (fun st : AssetManager * Trace => m_meshes st.1) sweep_mesh
             (fun e => mesh_refCount e =? 0) ltac:(intros; apply sweep_mesh_meshes)
             (s2, t) i).
  - rewrite <- T3.
    apply (sweep_lookup (fun st : AssetManager * Trace => m_textures st.1) sweep_texture
             (fun e => texture_refCount e =? 0) ltac:(intros; apply sweep_texture_textures)
             st3 i).
Qed.

(** What a sweep keeps of a registry has no count of zero. *)
Lemma kept_counts_nonzero {E A : Type} {RE : RegistryEntry E A} (m : gmap Z E) (i : Z) :
  refCount <$> match m !! i with
               | Some e => if refCount e =? 0 then None else Some e
               | None => None
               end <> Some 0.
Proof.
  destruct (m !! i) as [e|]; [|discriminate].
  destruct (Z.eqb_spec (refCount e) 0); [discriminate|]. cbn. congruence.
Qed.

(** No count of zero survives a pass. *)
Lemma garbageCollect_no_zero (s : AssetManager) (t : Trace) :
  forall k i, refCount_of k (garbageCollect s t).1 i <> Some 0.
Proof.
  destruct (garbageCollect_registries s t) as (Hmod & Hmat & Hmesh & Htex).
  cbv zeta in Hmod, Hmat, Hmesh, Htex.
  intros k i. destruct k; cbn [refCount_of];
    rewrite ?Hmesh, ?Htex, ?Hmat, ?Hmod; exact (kept_counts_nonzero _ i).
Qed.

(** X17.  After [garbageCollect], from any state, no registry holds an
    entry whose reference count is zero: what an erased model or material
    released is collected by the later sweeps of the same pass. *)
Theorem garbageCollect_leaves_no_zero (s : AssetManager) (t : Trace) :
  forall k i, refCount_of k (garbageCollect s t).1 i <> Some 0.
Proof.
  destruct (garbageCollect_registries s t) as (Hmod & Hmat & Hmesh & Htex).
  cbv zeta in Hmod, Hmat, Hmesh, Htex. intros k i. destruct k; cbn [refCount_of].
  - rewrite Hmesh. exact (kept_counts_nonzero _ i).
  - rewrite Htex. exact (kept_counts_nonzero _ i).
  - rewrite Hmat. exact (kept_counts_nonzero _ i).
  - rewrite Hmod. exact (kept_counts_nonzero _ i).
Qed.

(** With no count at zero a pass erases nothing, releases nothing and
    makes no call. *)
Lemma garbageCollect_nothing_to_do (s : AssetManager) (t : Trace) :
  (forall k i, refCount_of k s i <> Some 0) -> garbageCollect s t = (s, t).
Proof.
  intros Hnz. unfold garbageCollect.
  assert (H1 : foldl sweep_model s (map_to_list (m_models s)) = s).
  { apply (foldl_preserves_in sweep_model (fun s' => s' = s)); [|reflexivity].
    intros s' [i e] Hin ->. apply elem_of_map_to_list in Hin.
    unfold sweep_model. destruct (Z.eqb_spec (model_refCount e) 0) as [Hz|]; [|reflexivity].
    exfalso. apply (Hnz KModel i). cbn. rewrite Hin. cbn. congruence. }
  rewrite H1.
  assert (H2 : foldl sweep_material s (map_to_list (m_materials s)) = s).
  { apply (foldl_preserves_in sweep_material (fun s' => s' = s)); [|reflexivity].
    intros s' [i e] Hin ->. apply elem_of_map_to_list in Hin.
    unfold sweep_material.
    destruct (Z.eqb_spec (material_refCount e) 0) as [Hz|]; [|reflexivity].
    exfalso. apply (Hnz KMaterial i). cbn. rewrite Hin. cbn. congruence. }
  rewrite H2.
  assert (H3 : foldl sweep_mesh (s, t) (map_to_list (m_meshes s)) = (s, t)).
  { apply (foldl_preserves_in sweep_mesh (fun st' => st' = (s, t))); [|reflexivity].
    intros st' [i e] Hin ->. apply elem_of_map_to_list in Hin.
    unfold sweep_mesh. destruct (Z.eqb_spec (mesh_refCount e) 0) as [Hz|]; [|reflexivity].
    exfalso. apply (Hnz KMesh i). cbn. rewrite Hin. cbn. congruence. }
  rewrite H3. cbn [fst].
  apply (foldl_preserves_in sweep_texture (fun st' => st' = (s, t))); [|reflexivity].
  intros st' [i e] Hin ->. apply elem_of_map_to_list in Hin.
  unfold sweep_texture. destruct (Z.eqb_spec (texture_refCount e) 0) as [Hz|]; [|reflexivity].
  exfalso. apply (Hnz KTexture i). cbn. rewrite Hin. cbn. congruence.
Qed.

(** X18.  [garbageCollect] is idempotent: a second pass right after a
    pass changes neither the manager nor the trace (it erases nothing,
    releases nothing and destroys nothing). *)
Theorem garbageCollect_idempotent (s : AssetManager) (t : Trace) :
  garbageCollect (garbageCollect s t).1 (garbageCollect s t).2 = garbageCollect s t.
Proof.
  rewrite garbageCollect_nothing_to_do by apply garbageCollect_no_zero.
  destruct (garbageCollect s t). reflexivity.
Qed.

Lemma sweeps_keep_counters s t k :
  next_id k (garbageCollect s t).1 = next_id k s.
Proof.
  unfold garbageCollect.
  apply (foldl_preserves sweep_texture (fun st => next_id k st.1 = next_id k s)).
  { intros st [i e] <-. rewrite sweep_texture_state.
    destruct (texture_refCount e =? 0); destruct k; reflexivity. }
  apply (foldl_preserves sweep_mesh (fun st => next_id k st.1 = next_id k s)).
  { intros st [i e] <-. rewrite sweep_mesh_state.
    destruct (mesh_refCount e =? 0); destruct k; reflexivity. }
  cbn [fst].
  apply (foldl_preserves sweep_material (fun s' => next_id k s' = next_id k s)).
  { intros s' [i e] <-. unfold sweep_material.
    destruct (material_refCount e =? 0); [|reflexivity].
    rewrite foldl_release_Texture. destruct k; reflexivity. }
  apply (foldl_preserves sweep_model (fun s' => next_id k s' = next_id k s));
    [|reflexivity].
  intros s' [i e] <-. unfold sweep_model.
  destruct (model_refCount e =? 0); [|reflexivity].
  rewrite foldl_release_Mesh, foldl_release_Material. destruct k; reflexivity.
Qed.

Lemma sweeps_shrink_caches s t :
  (forall p h, m_modelPathCache (garbageCollect s t).1 !! p = Some h ->
               m_modelPathCache s !! p = Some h)
  /\ (forall p h, m_meshPathCache (garbageCollect s t).1 !! p = Some h ->
                  m_meshPathCache s !! p = Some h).
Proof.
  unfold garbageCollect.
  apply (foldl_preserves sweep_texture
           (fun st => (forall p h, m_modelPathCache st.1 !! p = Some h ->
                                   m_modelPathCache s !! p = Some h)
                      /\ (forall p h, m_meshPathCache st.1 !! p = Some h ->
                                      m_meshPathCache s !! p = Some h))).
  { intros st [i e] H. rewrite sweep_texture_state.
    destruct (texture_refCount e =? 0); exact H. }
  apply (foldl_preserves sweep_mesh
           (fun st => (forall p h, m_modelPathCache st.1 !! p = Some h ->
                                   m_modelPathCache s !! p = Some h)
                      /\ (forall p h, m_meshPathCache st.1 !! p = Some h ->
                                      m_meshPathCache s !! p = Some h))).
  { intros st [i e] [H1 H2]. rewrite sweep_mesh_state.
    destruct (mesh_refCount e =? 0); [|split; assumption].
    split; [exact H1|]. intros p h. cbn. rewrite lookup_delete.
    destruct (decide (mesh_path e = p)); [discriminate | apply H2]. }
  cbn [fst].
  apply (foldl_preserves sweep_material
           (fun s' => (forall p h, m_modelPathCache s' !! p = Some h ->
                                   m_modelPathCache s !! p = Some h)
                      /\ (forall p h, m_meshPathCache s' !! p = Some h ->
                                      m_meshPathCache s !! p = Some h))).
  { intros s' [i e] H. unfold sweep_material.
    destruct (material_refCount e =? 0); [|exact H].
    rewrite foldl_release_Texture. exact H. }
  apply (foldl_preserves sweep_model
           (fun s' => (forall p h, m_modelPathCache s' !! p = Some h ->
                                   m_modelPathCache s !! p = Some h)
                      /\ (forall p h, m_meshPathCache s' !! p = Some h ->
                                      m_meshPathCache s !! p = Some h)));
    [|split; auto].
  intros s' [i e] [H1 H2]. unfold sweep_model.
  destruct (model_refCount e =? 0); [|split; assumption].
  rewrite foldl_release_Mesh, foldl_release_Material.
  split; [|exact H2]. intros p h. cbn. rewrite lookup_delete.
  destruct (decide (model_path e = p)); [discriminate | apply H1].
Qed.

Lemma sweeps_keep_absent s t k i :
  ~ present k s i -> ~ present k (garbageCollect s t).1 i.
Proof.
  destruct (garbageCollect_registries s t) as (Hmod & Hmat & Hmesh & Htex).
  cbv zeta in Hmod, Hmat, Hmesh, Htex.
  set (s1 := foldl sweep_model s (map_to_list (m_models s))) in *.
  set (s2 := foldl sweep_material s1 (map_to_list (m_materials s1))) in *.
  intros Hn Hp. apply Hn. clear Hn. destruct k; cbn in *.
  - rewrite Hmesh in Hp. destruct (m_meshes s1 !! i) as [e|] eqn:He;
      [|destruct Hp; discriminate].
    destruct (m_meshes s !! i) eqn:Hs; [eauto|]. exfalso.
    assert (m_meshes s1 !! i = None); [|congruence].
    apply (foldl_preserves sweep_model (fun s' => m_meshes s' !! i = None)); [|exact Hs].
    intros s' x. apply sweep_model_keeps_meshes_None.
  - rewrite Htex in Hp. destruct (m_textures s2 !! i) as [e|] eqn:He;
      [|destruct Hp; discriminate].
    destruct (m_textures s !! i) eqn:Hs; [eauto|]. exfalso.
    assert (m_textures s2 !! i = None); [|congruence].
    apply (foldl_preserves sweep_material (fun s' => m_textures s' !! i = None)).
    + intros s' [j e'] Hj. rewrite sweep_material_textures.
      destruct (material_refCount e' =? 0); [|exact Hj].
      apply foldl_release_keeps_None, Hj.
    + unfold s1. rewrite sweep_models_textures. exact Hs.
  - rewrite Hmat in Hp. destruct (m_materials s1 !! i) as [e|] eqn:He;
      [|destruct Hp; discriminate].
    destruct (m_materials s !! i) eqn:Hs; [eauto|]. exfalso.
    assert (m_materials s1 !! i = None); [|congruence].
    apply (foldl_preserves sweep_model (fun s' => m_materials s' !! i = None)); [|exact Hs].
    intros s' [j e'] Hj. rewrite sweep_model_materials.
    destruct (model_refCount e' =? 0); [|exact Hj].
    apply foldl_release_keeps_None, Hj.
  - rewrite Hmod in Hp. destruct (m_models s !! i) as [e|]; [eauto|].
    destruct Hp; discriminate.
Qed.

Lemma TextureAsset_destroy_is_destroy a t :
  extends_with is_destroy_call t (TextureAsset_destroy a t).2.
Proof.
  rewrite TextureAsset_destroy_calls. eexists. split; [rewrite !app_assoc; reflexivity|].
  destruct (m_memory a), (m_image a), (m_view a), (m_sampler a); reflexivity.
Qed.

Lemma garbageCollect_calls s t :
  extends_with is_destroy_call t (garbageCollect s t).2.
Proof.
  unfold garbageCollect.
  apply (foldl_preserves sweep_texture (fun st => extends_with is_destroy_call t st.2)).
  { intros [s' t'] [i e] H. unfold sweep_texture.
    destruct (texture_refCount e =? 0); [|exact H]. cbn [snd] in *.
    destruct (texture_asset e) as [a|]; [|exact H].
    eapply extends_with_trans; [exact H | apply TextureAsset_destroy_is_destroy]. }
  apply (foldl_preserves sweep_mesh (fun st => extends_with is_destroy_call t st.2));
    [|apply extends_with_refl].
  intros [s' t'] [i e] H. unfold sweep_mesh.
  destruct (mesh_refCount e =? 0); [|exact H]. cbn [snd] in *.
  destruct (mesh_asset e); [|exact H].
  apply extends_with_cons; [reflexivity | exact H].
Qed.

(** X19.  [garbageCollect] only takes away: the models it leaves are
    exactly those whose count was not zero, each with its entry unchanged;
    no identifier has an entry after the pass that had none before; the
    identifier counters stay where they were; the path caches lose entries
    and gain none; and every call the pass makes gives a GPU object
    back. *)
Theorem garbageCollect_only_removes (s : AssetManager) (t : Trace) :
  let g := (garbageCollect s t).1 in
  (forall i, m_models g !! i
             = match m_models s !! i with
               | Some e => if model_refCount e =? 0 then None else Some e
               | None => None
               end)
  /\ (forall k i, present k g i -> present k s i)
  /\ (forall k, next_id k g = next_id k s)
  /\ (forall p h, m_modelPathCache g !! p = Some h -> m_modelPathCache s !! p = Some h)
  /\ (forall p h, m_meshPathCache g !! p = Some h -> m_meshPathCache s !! p = Some h)
  /\ extends_with is_destroy_call t (garbageCollect s t).2.
Proof.
  cbv zeta. split; [apply (garbageCollect_registries s t)|].
  split.
  { intros k i Hp. destruct k; cbn in *.
    - destruct (m_meshes s !! i) eqn:Hs; [eauto|].
      exfalso. apply (sweeps_keep_absent s t KMesh i); [|exact Hp].
      cbn. rewrite Hs. intros [? ?]; discriminate.
    - destruct (m_textures s !! i) eqn:Hs; [eauto|].
      exfalso. apply (sweeps_keep_absent s t KTexture i); [|exact Hp].
      cbn. rewrite Hs. intros [? ?]; discriminate.
    - destruct (m_materials s !! i) eqn:Hs; [eauto|].
      exfalso. apply (sweeps_keep_absent s t KMaterial i); [|exact Hp].
      cbn. rewrite Hs. intros [? ?]; discriminate.
    - destruct (m_models s !! i) eqn:Hs; [eauto|].
      exfalso. apply (sweeps_keep_absent s t KModel i); [|exact Hp].
      cbn. rewrite Hs. intros [? ?]; discriminate. }
  split; [intros k; apply sweeps_keep_counters|].
  split; [apply sweeps_shrink_caches|]. split; [apply sweeps_shrink_caches|].
  apply garbageCollect_calls.
Qed.

(* ================================================================= *)
(** ** Cached handles stay live *)

Lemma keeps_mesh_entries_refl s : keeps_mesh_entries s s.
Proof.
  split; [reflexivity|]. intros i e He. exists (refCount e).
  rewrite with_refCount_same. exact He.
Qed.

Lemma with_refCount_twice_mesh (n n' : Z) (e : MeshEntry) :
  with_refCount n' (with_refCount n e) = with_refCount n' e.
Proof. reflexivity. Qed.

Lemma keeps_mesh_entries_trans s1 s2 s3 :
  keeps_mesh_entries s1 s2 -> keeps_mesh_entries s2 s3 -> keeps_mesh_entries s1 s3.
Proof.
  intros [Hc1 He1] [Hc2 He2]. split; [congruence|].
  intros i e He. destruct (He1 i e He) as [n Hn]. destruct (He2 _ _ Hn) as [n' Hn'].
  exists n'. rewrite Hn'. reflexivity.
Qed.

Lemma keeps_mesh_entries_same s s' :
  m_meshPathCache s' = m_meshPathCache s -> m_meshes s' = m_meshes s ->
  keeps_mesh_entries s s'.
Proof.
  intros Hc Hm. split; [exact Hc|]. rewrite Hm. apply keeps_mesh_entries_refl.
Qed.

Lemma mesh_cache_linked_new : mesh_cache_linked AssetManager_new.
Proof. intros p h Hc. simpl in Hc. rewrite lookup_empty in Hc. discriminate. Qed.

Lemma mesh_cache_linked_keeps s s' :
  keeps_mesh_entries s s' -> mesh_cache_linked s -> mesh_cache_linked s'.
Proof.
  intros [Hc He] Hl p h Hp. rewrite Hc in Hp.
  destruct (Hl p h Hp) as (e & Hi & Hg & Hpath).
  destruct (He _ _ Hi) as [n Hn]. exists (with_refCount n e). auto.
Qed.

Lemma addRef_keeps_mesh_entries k h s : keeps_mesh_entries s (addRef k h s).
Proof.
  destruct k; try (apply keeps_mesh_entries_same; reflexivity).
  split; [reflexivity|]. intros i e. apply registry_addRef_counts.
Qed.

Lemma release_keeps_mesh_entries k h s : keeps_mesh_entries s (release k h s).
Proof.
  destruct k; try (apply keeps_mesh_entries_same; reflexivity).
  split; [reflexivity|]. intros i e. apply registry_release_counts.
Qed.

Lemma emplace_keeps {K V : Type} `{Countable K} (k : K) (v : V) (m : gmap K V) j x :
  m !! j = Some x -> emplace k v m !! j = Some x.
Proof.
  intros Hj. unfold emplace. destruct (m !! k) eqn:Hk; [exact Hj|].
  rewrite lookup_insert_ne; [exact Hj|]. intros ->. congruence.
Qed.

Lemma createMesh_keeps_mesh_entries P data path r s t :
  keeps_mesh_entries s (createMeshFromData_Internal P data path r s t).1.2.
Proof.
  unfold createMeshFromData_Internal.
  destruct (call P vkCreateCommandPool t) as [pr t1].
  destruct (negb pr); [apply keeps_mesh_entries_refl|].
  destruct (call P (MeshAsset_upload data) t1) as [ok t2].
  destruct (negb ok); [apply keeps_mesh_entries_refl|].
  split; [reflexivity|]. intros i e He. exists (refCount e).
  rewrite with_refCount_same. cbn. apply emplace_keeps, He.
Qed.

Lemma upload_texture_keeps_mesh_entries P view i th up s t :
  match upload_texture P view i (th, up, s, t) with
  | inl (_, s', _) => keeps_mesh_entries s s'
  | inr (_, _, s', _) => keeps_mesh_entries s s'
  end.
Proof.
  unfold upload_texture.
  destruct (uploadEncodedImage_Deferred _ _ _ _ _ _ _ _ _ _ _ _ _ _) as [[[ok tex] up1] t1].
  destruct (negb ok); [apply keeps_mesh_entries_refl|].
  apply keeps_mesh_entries_same; reflexivity.
Qed.

Lemma texture_loop_keeps_mesh_entries P view i n th up s t :
  match iter_until (upload_texture P view) i n (th, up, s, t) with
  | inl (_, s', _) => keeps_mesh_entries s s'
  | inr (_, _, s', _) => keeps_mesh_entries s s'
  end.
Proof.
  pose proof (iter_until_ind
    (fun _ (st : TexLoop) => keeps_mesh_entries s st.1.2)
    (fun (f : UploadContext * AssetManager * Trace) => keeps_mesh_entries s f.1.2)
    (upload_texture P view) i n (th, up, s, t)) as H.
  simpl in H.
  destruct (iter_until _ _ _ _) as [[[up' s'] t']|[[[th' up'] s'] t']];
    apply H; try apply keeps_mesh_entries_refl.
  all: intros j [[[th0 up0] s0] t0] _ Hk; simpl in Hk;
    pose proof (upload_texture_keeps_mesh_entries P view j th0 up0 s0 t0) as Hu;
    destruct (upload_texture P view j (th0, up0, s0, t0))
      as [[[up1 s1] t1]|[[[th1 up1] s1] t1]]; simpl;
    eapply keeps_mesh_entries_trans; eauto.
Qed.

Lemma addRef_valid_Texture_keeps_mesh_entries h s :
  keeps_mesh_entries s (addRef_valid_Texture h s).
Proof.
  unfold addRef_valid_Texture. destruct (isValid h);
    apply keeps_mesh_entries_same; reflexivity.
Qed.

Lemma create_material_keeps_mesh_entries view ths i mh s t :
  keeps_mesh_entries s (create_material view ths i (mh, s, t)).1.2.
Proof.
  unfold create_material. cbn -[getMaterial addRef_valid_Texture].
  destruct (getMaterial _ _); [|apply keeps_mesh_entries_same; reflexivity].
  repeat (eapply keeps_mesh_entries_trans;
          [|apply addRef_valid_Texture_keeps_mesh_entries]).
  apply keeps_mesh_entries_same; reflexivity.
Qed.

Lemma create_mesh_keeps_mesh_entries P view path i mh s t :
  keeps_mesh_entries s (create_mesh P view path i (mh, s, t)).1.2.
Proof.
  unfold create_mesh.
  pose proof (createMesh_keeps_mesh_entries P
    (meshData_of_record (smodel.img_meshes (smodel.fileBytes view) i))
    (path +:+ "#mesh" +:+ pretty i) 0 s t) as H.
  destruct (createMeshFromData_Internal _ _ _ _ _ _) as [[h s1] t1]. exact H.
Qed.

Lemma create_primitive_keeps_mesh_entries view mhs mats i prims md mt s :
  keeps_mesh_entries s (create_primitive view mhs mats i (prims, md, mt, s)).2.
Proof.
  unfold create_primitive. cbn -[addRef_Mesh addRef_Material].
  destruct (isValid _); destruct (isValid _); cbn -[addRef_Mesh addRef_Material].
  - eapply keeps_mesh_entries_trans;
      [apply (addRef_keeps_mesh_entries KMesh) | apply (addRef_keeps_mesh_entries KMaterial)].
  - apply (addRef_keeps_mesh_entries KMesh).
  - apply (addRef_keeps_mesh_entries KMaterial).
  - apply keeps_mesh_entries_refl.
Qed.

Lemma loop3_keeps_mesh_entries {H : Type}
    (body : Z -> H * AssetManager * Trace -> H * AssetManager * Trace) i n x s t :
  (forall j x s t, keeps_mesh_entries s (body j (x, s, t)).1.2) ->
  keeps_mesh_entries s (iter_from body i n (x, s, t)).1.2.
Proof.
  intros Hb.
  apply (iter_from_ind (fun _ st => keeps_mesh_entries s st.1.2) body i n (x, s, t)).
  - apply keeps_mesh_entries_refl.
  - intros j [[x0 s0] t0] _ Hk. simpl in Hk.
    eapply keeps_mesh_entries_trans; [exact Hk | apply Hb].
Qed.

Lemma prim_loop_keeps_mesh_entries view mhs mats i n prims md mt s :
  keeps_mesh_entries s
    (iter_from (create_primitive view mhs mats) i n (prims, md, mt, s)).2.
Proof.
  apply (iter_from_ind (fun _ (st : PrimLoop) => keeps_mesh_entries s st.2)
           (create_primitive view mhs mats) i n (prims, md, mt, s)).
  - apply keeps_mesh_entries_refl.
  - intros j [[[p0 md0] mt0] s0] _ Hk. simpl in Hk.
    eapply keeps_mesh_entries_trans; [exact Hk | apply create_primitive_keeps_mesh_entries].
Qed.

Lemma loadModel_build_keeps_mesh_entries P path view ths s t :
  keeps_mesh_entries s (loadModel_build P path view ths s t).1.2.
Proof.
  unfold loadModel_build.
  pose proof (loop3_keeps_mesh_entries (create_material view ths) 0
    (Z.to_nat (smodel.materialCount (smodel.header view)))
    (replicate (Z.to_nat (smodel.materialCount (smodel.header view))) Handle_default)
    s t (create_material_keeps_mesh_entries view ths)) as H1.
  destruct (iter_from (create_material view ths) _ _ _) as [[mats s1] t1].
  pose proof (loop3_keeps_mesh_entries (create_mesh P view path) 0
    (Z.to_nat (smodel.meshCount (smodel.header view)))
    (replicate (Z.to_nat (smodel.meshCount (smodel.header view))) Handle_default)
    s1 t1 (create_mesh_keeps_mesh_entries P view path)) as H2.
  destruct (iter_from (create_mesh P view path) _ _ _) as [[mhs s2] t2].
  pose proof (prim_loop_keeps_mesh_entries view mhs mats 0
    (Z.to_nat (smodel.primitiveCount (smodel.header view)))
    (replicate (Z.to_nat (smodel.primitiveCount (smodel.header view))) ModelPrimitive_default)
    [] [] s2) as H3.
  destruct (iter_from (create_primitive view mhs mats) _ _ _) as [[[prims md] mt] s3].
  simpl in H1, H2, H3. cbn.
  eapply keeps_mesh_entries_trans; [exact H1|].
  eapply keeps_mesh_entries_trans; [exact H2|].
  eapply keeps_mesh_entries_trans; [exact H3|].
  apply keeps_mesh_entries_same; reflexivity.
Qed.

Lemma loadModel_keeps_mesh_entries P path s t :
  keeps_mesh_entries s (loadModel P path s t).1.2.
Proof.
  unfold loadModel.
  destruct (m_modelPathCache s !! path) as [h|].
  { apply (addRef_keeps_mesh_entries KModel). }
  destruct (smodel.LoadSModelFile _ _ _) as [err|view]; [apply keeps_mesh_entries_refl|].
  unfold loadModel_upload.
  destruct (call P vkCreateCommandPool t) as [pr t1].
  destruct (negb pr); [apply keeps_mesh_entries_refl|].
  destruct (BeginUploadContext P t1) as [[begunOk upload] t2].
  destruct (negb begunOk); [apply keeps_mesh_entries_refl|].
  pose proof (texture_loop_keeps_mesh_entries P view 0
    (Z.to_nat (smodel.textureCount (smodel.header view)))
    (replicate (Z.to_nat (smodel.textureCount (smodel.header view))) Handle_default)
    upload s t2) as Hk.
  destruct (iter_until _ _ _ _) as [[[up1 s1] t3]|[[[ths up1] s1] t3]].
  - destruct (EndSubmitAndWait P up1 t3) as [[? ?] t4]. exact Hk.
  - destruct (EndSubmitAndWait P up1 t3) as [[submitted ?] t4].
    destruct (negb submitted); [exact Hk|].
    eapply keeps_mesh_entries_trans; [exact Hk|].
    apply loadModel_build_keeps_mesh_entries.
Qed.

(** [loadMesh] keeps the cache linked, when the mesh counter stands on an
    unused identifier. *)
Lemma mesh_cache_linked_loadMesh P path s t :
  m_meshes s !! m_nextMeshID s = None ->
  mesh_cache_linked s -> mesh_cache_linked (loadMesh P path s t).1.2.
Proof.
  intros Hfresh Hl. unfold loadMesh.
  destruct (m_meshPathCache s !! path) as [h|] eqn:Hmiss.
  { eapply mesh_cache_linked_keeps; [apply (addRef_keeps_mesh_entries KMesh) | exact Hl]. }
  destruct (smesh_files P path) as [data|]; [|exact Hl].
  unfold createMeshFromData_Internal.
  destruct (call P vkCreateCommandPool t) as [pr t1].
  destruct (negb pr); [exact Hl|].
  destruct (call P (MeshAsset_upload data) t1) as [ok t2].
  destruct (negb ok); [exact Hl|].
  match goal with |- context [if ?b then _ else _] => destruct b end.
  - cbn. intros p h. cbn. rewrite (emplace_fresh _ _ _ Hmiss), (emplace_fresh _ _ _ Hfresh).
    rewrite lookup_insert. destruct (decide (path = p)) as [<-|Hne].
    + intros [= <-]. cbn [id]. rewrite lookup_insert_eq. eexists. split; [reflexivity|].
      split; reflexivity.
    + intros Hc. destruct (Hl p h Hc) as (e' & He' & Hg' & Hp').
      exists e'. split; [|auto]. rewrite lookup_insert_ne; [exact He'|].
      intros Heq. rewrite <- Heq, Hfresh in He'. discriminate.
  - cbn. intros p h Hc. cbn in Hc. destruct (Hl p h Hc) as (e' & He' & Hg' & Hp').
    exists e'. split; [|auto]. cbn. apply emplace_keeps, He'.
Qed.

(** Sweep 3 erases a mesh together with the cache entry of its path. *)
Lemma mesh_cache_linked_sweep_meshes s t :
  mesh_cache_linked s ->
  mesh_cache_linked (foldl sweep_mesh (s, t) (map_to_list (m_meshes s))).1.
Proof.
  intros Hl.
  apply (foldl_preserves_in sweep_mesh
           (fun st => mesh_cache_linked st.1
                      /\ forall i e, m_meshes st.1 !! i = Some e -> m_meshes s !! i = Some e)
           (map_to_list (m_meshes s)) (s, t)); [|split; [exact Hl | auto]].
  intros st [i e] Hin [Hl' Hsub]. apply elem_of_map_to_list in Hin.
  split.
  - intros p h. rewrite sweep_mesh_meshes. rewrite sweep_mesh_state.
    destruct (mesh_refCount e =? 0); [|apply Hl'].
    cbn. rewrite lookup_delete. destruct (decide (mesh_path e = p)) as [|Hne]; [discriminate|].
    intros Hc. destruct (Hl' p h Hc) as (e' & He' & Hg & Hp).
    exists e'. split; [|auto]. rewrite lookup_delete_ne; [exact He'|].
    intros Heq. rewrite <- Heq in He'. apply Hsub in He'. rewrite Hin in He'.
    injection He' as <-. contradiction.
  - intros j e'. rewrite sweep_mesh_meshes.
    destruct (mesh_refCount e =? 0); [|apply Hsub].
    rewrite lookup_delete. destruct (decide (i = j)); [discriminate | apply Hsub].
Qed.

Lemma foldl_release_counts_mesh (l : list Handle) (m : gmap Z MeshEntry) j x :
  m !! j = Some x -> exists n, foldl registry_release m l !! j = Some (with_refCount n x).
Proof.
  revert m x. induction l as [|h l IH]; intros m x Hx.
  - exists (refCount x). rewrite with_refCount_same. exact Hx.
  - destruct (registry_release_counts m h j x Hx) as [n Hn].
    destruct (IH _ _ Hn) as [n' Hn']. exists n'. exact Hn'.
Qed.

Lemma sweep_model_keeps_mesh_entries s ie : keeps_mesh_entries s (sweep_model s ie).
Proof.
  destruct ie as [i e]. unfold sweep_model.
  destruct (model_refCount e =? 0); [|apply keeps_mesh_entries_refl].
  rewrite foldl_release_Mesh, foldl_release_Material.
  split; [reflexivity|]. intros j x Hx.
  exact (foldl_release_counts_mesh (meshDeps e) (m_meshes s) j x Hx).
Qed.

Lemma sweep_material_keeps_mesh_entries s ie : keeps_mesh_entries s (sweep_material s ie).
Proof.
  destruct ie as [i e]. unfold sweep_material.
  destruct (material_refCount e =? 0); [|apply keeps_mesh_entries_refl].
  rewrite foldl_release_Texture. apply keeps_mesh_entries_same; reflexivity.
Qed.

Lemma sweep_texture_keeps_mesh_entries st ie :
  keeps_mesh_entries st.1 (sweep_texture st ie).1.
Proof.
  destruct ie as [i e]. rewrite sweep_texture_state.
  destruct (texture_refCount e =? 0);
    [apply keeps_mesh_entries_same; reflexivity | apply keeps_mesh_entries_refl].
Qed.

Lemma mesh_cache_linked_garbageCollect s t :
  mesh_cache_linked s -> mesh_cache_linked (garbageCollect s t).1.
Proof.
  intros Hl. unfold garbageCollect.
  apply (foldl_preserves sweep_texture (fun st => mesh_cache_linked st.1)).
  { intros st x. apply mesh_cache_linked_keeps, sweep_texture_keeps_mesh_entries. }
  apply mesh_cache_linked_sweep_meshes.
  apply (foldl_preserves sweep_material mesh_cache_linked).
  { intros s' x. apply mesh_cache_linked_keeps, sweep_material_keeps_mesh_entries. }
  apply (foldl_preserves sweep_model mesh_cache_linked); [|exact Hl].
  intros s' x. apply mesh_cache_linked_keeps, sweep_model_keeps_mesh_entries.
Qed.

(** In every reachable state with mesh identifiers left, the mesh path
    cache is linked to the registry. *)
Lemma reachable_mesh_cache_linked s t :
  reachable s t -> ids_left KMesh t -> mesh_cache_linked s.
Proof.
  induction 1 as [|P path s t Hr IH|P path s t Hr IH|k h s t Hr IH|k h s t Hr IH|s t Hr IH];
    intros Hleft.
  - apply mesh_cache_linked_new.
  - assert (Hleft0 : ids_left KMesh t)
      by exact (ids_left_advances KMesh _ _ (advances_loadMesh P path s t) Hleft).
    apply mesh_cache_linked_loadMesh; [|apply IH, Hleft0].
    apply eq_None_not_Some. exact (reachable_fresh_id KMesh s t Hr Hleft0).
  - eapply mesh_cache_linked_keeps; [apply loadModel_keeps_mesh_entries|].
    apply IH. exact (ids_left_advances KMesh _ _ (advances_loadModel P path s t) Hleft).
  - eapply mesh_cache_linked_keeps; [apply addRef_keeps_mesh_entries | apply IH, Hleft].
  - eapply mesh_cache_linked_keeps; [apply release_keeps_mesh_entries | apply IH, Hleft].
  - apply mesh_cache_linked_garbageCollect, IH.
    exact (ids_left_advances KMesh (s, t) _ (advances_garbageCollect s t) Hleft).
Qed.

(** A cached handle names a registered identifier, and identifier 0 is
    never registered. *)
Lemma reachable_present_valid k s t i :
  reachable s t -> ids_left k t -> present k s i -> negb (i =? 0) = true.
Proof.
  intros Hr Hleft Hpres.
  destruct (reachable_registry_invariant s t Hr) as (_ & _ & Hids).
  destruct (Hids k Hleft) as (_ & _ & Hrange).
  specialize (Hrange _ Hpres). destruct (Z.eqb_spec i 0); [lia | reflexivity].
Qed.

Lemma reachable_cached_model_valid s t p h :
  reachable s t -> ids_left KModel t ->
  m_modelPathCache s !! p = Some h -> isValid h = true.
Proof.
  intros Hr Hleft Hc.
  destruct (reachable_model_cache_linked s t Hr Hleft p h Hc) as (e & He & _).
  apply (reachable_present_valid KModel s t); [exact Hr | exact Hleft|]. cbn. eauto.
Qed.

(** X20.  A cached model handle is never dangling: in every reachable
    manager with model identifiers left, each handle of the model path
    cache is valid and [getModel] finds the model of an entry that was
    registered under the cached path. *)
Theorem cached_model_handle_is_live (s : AssetManager) (t : Trace)
    (p : string) (h : ModelHandle) :
  reachable s t -> ids_left KModel t ->
  m_modelPathCache s !! p = Some h ->
  isValid h = true
  /\ exists e model, m_models s !! id h = Some e /\ model_path e = p
                     /\ getModel s h = Some model.
Proof.
  intros Hr Hleft Hc.
  destruct (reachable_model_cache_linked s t Hr Hleft p h Hc) as (e & He & Hg & Hp).
  assert (Hpres : present KModel s (id h)) by (cbn; eauto).
  split.
  - exact (reachable_present_valid KModel s t _ Hr Hleft Hpres).
  - destruct (reachable_good KModel s t _ Hr Hpres) as (e' & He' & Hg' & [a Ha]).
    cbn in He'. rewrite He in He'. injection He' as <-.
    exists e, a. split; [exact He|]. split; [exact Hp|].
    unfold getModel, registry_get.
    replace (resolve (m_models s) h) with (Some e); [exact Ha|].
    symmetry. apply resolve_Some. split; [exact He | exact Hg].
Qed.

Lemma cached_model_handle_is_live_witness :
  let r := loadModel example_platform "quad.smodel" AssetManager_new [] in
  let h := {| id := 1; h_generation := 1 |} in
  isValid h = true
  /\ exists e model, m_models r.1.2 !! id h = Some e /\ model_path e = "quad.smodel"
                     /\ getModel r.1.2 h = Some model.
Proof.
  cbv zeta.
  apply (cached_model_handle_is_live _
           (loadModel example_platform "quad.smodel" AssetManager_new []).2).
  - apply reach_loadModel, reach_new.
  - vm_compute. reflexivity.
  - vm_compute. reflexivity.
Defined.

(** X21.  A cached mesh handle is never dangling: in every reachable
    manager with mesh identifiers left, each handle of the mesh path cache
    is valid and [getMesh] finds the mesh of an entry that was registered
    under the cached path. *)
Theorem cached_mesh_handle_is_live (s : AssetManager) (t : Trace)
    (p : string) (h : MeshHandle) :
  reachable s t -> ids_left KMesh t ->
  m_meshPathCache s !! p = Some h ->
  isValid h = true
  /\ exists e mesh, m_meshes s !! id h = Some e /\ mesh_path e = p
                    /\ getMesh s h = Some mesh.
Proof.
  intros Hr Hleft Hc.
  destruct (reachable_mesh_cache_linked s t Hr Hleft p h Hc) as (e & He & Hg & Hp).
  assert (Hpres : present KMesh s (id h)) by (cbn; eauto).
  split.
  - exact (reachable_present_valid KMesh s t _ Hr Hleft Hpres).
  - destruct (reachable_good KMesh s t _ Hr Hpres) as (e' & He' & Hg' & [a Ha]).
    cbn in He'. rewrite He in He'. injection He' as <-.
    exists e, a. split; [exact He|]. split; [exact Hp|].
    unfold getMesh, registry_get.
    replace (resolve (m_meshes s) h) with (Some e); [exact Ha|].
    symmetry. apply resolve_Some. split; [exact He | exact Hg].
Qed.

Lemma cached_mesh_handle_is_live_witness :
  let r := loadMesh mesh_platform "tri.smesh" AssetManager_new [] in
  let h := {| id := 1; h_generation := 1 |} in
  isValid h = true
  /\ exists e mesh, m_meshes r.1.2 !! id h = Some e /\ mesh_path e = "tri.smesh"
                    /\ getMesh r.1.2 h = Some mesh.
Proof.
  cbv zeta.
  apply (cached_mesh_handle_is_live _
           (loadMesh mesh_platform "tri.smesh" AssetManager_new []).2).
  - apply reach_loadMesh, reach_new.
  - vm_compute. reflexivity.
  - vm_compute. reflexivity.
Defined.

(** X22.  [loadMesh] on a path that is not cached, in a reachable manager
    with mesh identifiers left.  If the handle it returns is valid, the
    file was read, the handle was not live before, [getMesh] now finds the
    mesh built from the file's data with reference count 1, the path is
    cached under the handle, and every other identifier resolves as
    before.  If the handle is invalid, the manager is as it was. *)
Theorem loadMesh_miss (P : Platform) (path : string) (s : AssetManager) (t : Trace) :
  reachable s t -> ids_left KMesh t ->
  m_meshPathCache s !! path = None ->
  let r := loadMesh P path s t in
  if isValid r.1.1
  then exists data,
         smesh_files P path = Some data
         /\ getMesh s r.1.1 = None
         /\ getMesh r.1.2 r.1.1 = Some {| uploaded := data |}
         /\ resolved_refCount KMesh r.1.2 r.1.1 = Some 1
         /\ m_meshPathCache r.1.2 !! path = Some r.1.1
         /\ forall h', id h' <> id r.1.1 -> getMesh r.1.2 h' = getMesh s h'
  else r.1.2 = s.
Proof.
  intros Hr Hleft Hmiss. cbv zeta.
  assert (Hfresh : m_meshes s !! m_nextMeshID s = None).
  { apply eq_None_not_Some. exact (reachable_fresh_id KMesh s t Hr Hleft). }
  unfold loadMesh. rewrite Hmiss.
  destruct (smesh_files P path) as [data|]; [|reflexivity].
  unfold createMeshFromData_Internal.
  destruct (call P vkCreateCommandPool t) as [pr t1].
  destruct (negb pr); [reflexivity|].
  destruct (call P (MeshAsset_upload data) t1) as [ok t2].
  destruct (negb ok); [reflexivity|].
  assert (Hv : isValid {| id := m_nextMeshID s; h_generation := 1 |} = true).
  { unfold isValid. cbn [id].
    destruct (reachable_registry_invariant s t Hr) as (_ & _ & Hids).
    destruct (Hids KMesh Hleft) as (Hnext & _). cbn in Hnext.
    destruct (Z.eqb_spec (m_nextMeshID s) 0); [lia | reflexivity]. }
  cbv beta iota zeta. rewrite Hv. cbn [fst snd]. rewrite Hv.
  exists data. split; [reflexivity|].
  unfold getMesh, registry_get, resolve, resolved_refCount, resolve.
  cbn [id h_generation m_meshes set_meshes set_meshPathCache set_nextMeshID
       m_meshPathCache].
  rewrite (emplace_fresh _ _ _ Hfresh), (emplace_fresh _ _ _ Hmiss), Hfresh.
  rewrite !lookup_insert_eq. cbn.
  repeat split; try reflexivity.
  intros h' Hne. rewrite lookup_insert_ne by congruence. reflexivity.
Qed.

Lemma loadMesh_miss_witness :
  let r := loadMesh mesh_platform "tri.smesh" AssetManager_new [] in
  if isValid r.1.1
  then exists data,
         smesh_files mesh_platform "tri.smesh" = Some data
         /\ getMesh AssetManager_new r.1.1 = None
         /\ getMesh r.1.2 r.1.1 = Some {| uploaded := data |}
         /\ resolved_refCount KMesh r.1.2 r.1.1 = Some 1
         /\ m_meshPathCache r.1.2 !! "tri.smesh" = Some r.1.1
         /\ forall h', id h' <> id r.1.1 -> getMesh r.1.2 h' = getMesh AssetManager_new h'
  else r.1.2 = AssetManager_new.
Proof.
  apply (loadMesh_miss mesh_platform "tri.smesh" AssetManager_new []).
  - apply reach_new.
  - vm_compute. reflexivity.
  - reflexivity.
Defined.

(* ================================================================= *)
(** ** What a failed load leaves behind *)

Lemma adds_idle_textures_refl s : adds_idle_textures s s.
Proof. repeat split; auto. Qed.

Lemma adds_idle_textures_trans s1 s2 s3 :
  adds_idle_textures s1 s2 -> adds_idle_textures s2 s3 -> adds_idle_textures s1 s3.
Proof.
  intros (A1 & A2 & A3 & A4 & A5 & A6 & A7 & A8 & A9)
         (B1 & B2 & B3 & B4 & B5 & B6 & B7 & B8 & B9).
  repeat split; try congruence.
  intros i. destruct (B9 i) as [Hb|(Hn & e & He & Hz)].
  - rewrite Hb. apply A9.
  - destruct (A9 i) as [Ha|(Hn' & e' & He' & _)]; [|congruence].
    right. split; [congruence | eauto].
Qed.

Lemma upload_texture_adds_idle P view i th up s t :
  match upload_texture P view i (th, up, s, t) with
  | inl (_, s', _) => adds_idle_textures s s'
  | inr (_, _, s', _) => adds_idle_textures s s'
  end.
Proof.
  unfold upload_texture.
  destruct (uploadEncodedImage_Deferred _ _ _ _ _ _ _ _ _ _ _ _ _ _) as [[[ok tex] up1] t1].
  destruct (negb ok); [apply adds_idle_textures_refl|].
  cbn. repeat split; try reflexivity.
  intros j. cbn. unfold emplace.
  destruct (m_textures s !! m_nextTextureID s) eqn:Hn; [left; reflexivity|].
  destruct (decide (m_nextTextureID s = j)) as [<-|Hne].
  - right. split; [exact Hn|]. rewrite lookup_insert_eq. eauto.
  - left. apply lookup_insert_ne, Hne.
Qed.

Lemma texture_loop_adds_idle P view i n th up s t :
  match iter_until (upload_texture P view) i n (th, up, s, t) with
  | inl (_, s', _) => adds_idle_textures s s'
  | inr (_, _, s', _) => adds_idle_textures s s'
  end.
Proof.
  pose proof (iter_until_ind
    (fun _ (st : TexLoop) => adds_idle_textures s st.1.2)
    (fun (f : UploadContext * AssetManager * Trace) => adds_idle_textures s f.1.2)
    (upload_texture P view) i n (th, up, s, t)) as H.
  simpl in H.
  destruct (iter_until _ _ _ _) as [[[up' s'] t']|[[[th' up'] s'] t']];
    apply H; try apply adds_idle_textures_refl.
  all: intros j [[[th0 up0] s0] t0] _ Hk; simpl in Hk;
    pose proof (upload_texture_adds_idle P view j th0 up0 s0 t0) as Hu;
    destruct (upload_texture P view j (th0, up0, s0, t0))
      as [[[up1 s1] t1]|[[[th1 up1] s1] t1]]; simpl;
    eapply adds_idle_textures_trans; eauto.
Qed.

(** A load from a parsed view either stops before the build phase, with
    idle textures as its only trace in the manager, or returns the handle
    of the model counter. *)
Lemma loadModel_upload_stops P path view s t :
  adds_idle_textures s (loadModel_upload P path view s t).1.2
  \/ id (loadModel_upload P path view s t).1.1 = m_nextModelID s.
Proof.
  unfold loadModel_upload.
  destruct (call P vkCreateCommandPool t) as [pr t1].
  destruct (negb pr); [left; apply adds_idle_textures_refl|].
  destruct (BeginUploadContext P t1) as [[begunOk upload] t2].
  destruct (negb begunOk); [left; apply adds_idle_textures_refl|].
  pose proof (texture_loop_adds_idle P view 0
    (Z.to_nat (smodel.textureCount (smodel.header view)))
    (replicate (Z.to_nat (smodel.textureCount (smodel.header view))) Handle_default)
    upload s t2) as Hk.
  destruct (iter_until _ _ _ _) as [[[up1 s1] t3]|[[[ths up1] s1] t3]].
  - destruct (EndSubmitAndWait P up1 t3) as [[? ?] t4]. left. exact Hk.
  - destruct (EndSubmitAndWait P up1 t3) as [[submitted ?] t4].
    destruct (negb submitted); [left; exact Hk|]. right.
    destruct (loadModel_build P path view ths s1 (call_void vkDestroyCommandPool t4))
      as [[h s'] t'] eqn:Hb.
    apply loadModel_build_result in Hb as (-> & _). cbn.
    destruct Hk as (_ & _ & _ & _ & _ & _ & _ & Hn & _). exact Hn.
Qed.

(** A texture entry that is absent or idle is gone after a collection
    pass. *)
Lemma idle_release (m : gmap Z TextureEntry) h i :
  (forall e, m !! i = Some e -> texture_refCount e = 0) ->
  forall e, registry_release m h !! i = Some e -> texture_refCount e = 0.
Proof.
  intros Hz e. rewrite lookup_registry_release.
  destruct (resolve m h) as [e'|] eqn:Hres; [|apply Hz].
  destruct (decide (id h = i)) as [<-|]; [|apply Hz].
  apply resolve_Some in Hres as [He' _]. specialize (Hz _ He').
  change (refCount e') with (texture_refCount e'). rewrite Hz. cbn.
  intros [= <-]. exact Hz.
Qed.

Lemma idle_releases l (m : gmap Z TextureEntry) i :
  (forall e, m !! i = Some e -> texture_refCount e = 0) ->
  forall e, foldl registry_release m l !! i = Some e -> texture_refCount e = 0.
Proof.
  revert m. induction l as [|h l IH]; intros m Hz; [exact Hz|].
  cbn. apply IH. apply idle_release, Hz.
Qed.

Lemma garbageCollect_clears_idle s t i :
  (forall e, m_textures s !! i = Some e -> texture_refCount e = 0) ->
  m_textures (garbageCollect s t).1 !! i = None.
Proof.
  intros Hz.
  destruct (garbageCollect_registries s t) as (_ & _ & _ & Htex).
  cbv zeta in Htex. rewrite Htex.
  set (s1 := foldl sweep_model s (map_to_list (m_models s))).
  assert (Hs2 : forall e,
            m_textures (foldl sweep_material s1 (map_to_list (m_materials s1))) !! i = Some e ->
            texture_refCount e = 0).
  { apply (foldl_preserves sweep_material
             (fun s' => forall e, m_textures s' !! i = Some e -> texture_refCount e = 0)).
    - intros s' [j e'] Hs'. rewrite sweep_material_textures.
      destruct (material_refCount e' =? 0); [|exact Hs'].
      apply idle_releases, Hs'.
    - unfold s1. rewrite sweep_models_textures. exact Hz. }
  fold s1. destruct (m_textures (foldl sweep_material s1 _) !! i) as [e|] eqn:He;
    [|reflexivity].
  rewrite (Hs2 e eq_refl). reflexivity.
Qed.

(** X23.  A [loadModel] that returns the invalid handle, in a reachable
    manager with model identifiers left, was not served from the cache and
    leaves the meshes, materials, models, both path caches and their
    counters as they were.  The textures it had registered by then are
    new entries with reference count zero beside the untouched old ones,
    and the next [garbageCollect] erases them: no identifier that had no
    texture before the load has one after that pass. *)
Theorem failed_loadModel_leaves_idle_textures (P : Platform) (path : string)
    (s : AssetManager) (t : Trace) :
  reachable s t -> ids_left KModel t ->
  let r := loadModel P path s t in
  isValid r.1.1 = false ->
  m_modelPathCache s !! path = None
  /\ adds_idle_textures s r.1.2
  /\ forall i, m_textures s !! i = None ->
               m_textures (garbageCollect r.1.2 r.2).1 !! i = None.
Proof.
  intros Hr Hleft. cbv zeta. intros Hinv.
  assert (Hnext : m_nextModelID s <> 0).
  { destruct (reachable_registry_invariant s t Hr) as (_ & _ & Hids).
    destruct (Hids KModel Hleft) as (Hn & _). cbn in Hn. lia. }
  assert (Hmiss : m_modelPathCache s !! path = None).
  { destruct (m_modelPathCache s !! path) as [h|] eqn:Hc; [|reflexivity]. exfalso.
    pose proof (reachable_cached_model_valid s t path h Hr Hleft Hc) as Hv.
    unfold loadModel in Hinv. rewrite Hc in Hinv. cbn in Hinv. congruence. }
  assert (Hidle : adds_idle_textures s (loadModel P path s t).1.2).
  { unfold loadModel in *. rewrite Hmiss in *.
    destruct (smodel.LoadSModelFile _ _ _) as [err|view]; [apply adds_idle_textures_refl|].
    destruct (loadModel_upload_stops P path view s t) as [H|H]; [exact H|].
    exfalso. unfold isValid in Hinv. rewrite H in Hinv.
    destruct (Z.eqb_spec (m_nextModelID s) 0); [contradiction | discriminate]. }
  split; [exact Hmiss|]. split; [exact Hidle|].
  intros i Hi. apply garbageCollect_clears_idle. intros e He.
  destruct Hidle as (_ & _ & _ & _ & _ & _ & _ & _ & Htex).
  destruct (Htex i) as [Hsame|(_ & e' & He' & Hz)]; congruence.
Qed.

Lemma failed_loadModel_leaves_idle_textures_witness :
  let r := loadModel submit_fails "quad.smodel" AssetManager_new [] in
  m_modelPathCache AssetManager_new !! "quad.smodel" = None
  /\ adds_idle_textures AssetManager_new r.1.2
  /\ forall i, m_textures AssetManager_new !! i = None ->
               m_textures (garbageCollect r.1.2 r.2).1 !! i = None.
Proof.
  apply (failed_loadModel_leaves_idle_textures submit_fails "quad.smodel"
           AssetManager_new []).
  - apply reach_new.
  - vm_compute. reflexivity.
  - vm_compute. reflexivity.
Defined.

(* ================================================================= *)
(** ** Command pools *)

Lemma pool_state_range n t : pool_state n t -> 0 <= n <= 1.
Proof.
  intros [Hn Hok]. destruct t as [|e t]; [cbn in Hn; lia|].
  cbn [one_pool_at_a_time] in Hok. rewrite Hn in Hok.
  apply andb_true_iff in Hok as [Hok _]. apply andb_true_iff in Hok as [H0 H1].
  apply Z.leb_le in H0, H1. lia.
Qed.

Lemma pools_open_other e t : is_pool_event e = false -> pools_open (e :: t) = pools_open t.
Proof. destruct e as [[] []|]; cbn; intros; congruence. Qed.

Lemma pool_state_other n e t :
  is_pool_event e = false -> pool_state n t -> pool_state n (e :: t).
Proof.
  intros He Hs. pose proof (pool_state_range n t Hs) as Hr. destruct Hs as [Hn Hok].
  split; [rewrite pools_open_other; assumption|].
  cbn [one_pool_at_a_time]. rewrite pools_open_other, Hn, Hok by exact He.
  rewrite !andb_true_r. apply andb_true_iff. split; apply Z.leb_le; lia.
Qed.

Lemma pool_state_create t :
  pool_state 0 t -> pool_state 1 (Gpu vkCreateCommandPool true :: t).
Proof.
  intros [Hn Hok]. split; [cbn; lia|].
  cbn [one_pool_at_a_time pools_open]. rewrite Hn, Hok. reflexivity.
Qed.

Lemma pool_state_destroy ok t :
  pool_state 1 t -> pool_state 0 (Gpu vkDestroyCommandPool ok :: t).
Proof.
  intros [Hn Hok]. split; [cbn; lia|].
  cbn [one_pool_at_a_time pools_open]. rewrite Hn, Hok. reflexivity.
Qed.

Lemma pool_state_extends (Q : Event -> bool) n t t' :
  (forall e, Q e = true -> is_pool_event e = false) ->
  extends_with Q t t' -> pool_state n t -> pool_state n t'.
Proof.
  intros HQ (evs & -> & Hall) Hs. induction evs as [|e evs IH]; [exact Hs|].
  cbn in Hall. apply andb_true_iff in Hall as [He Hall].
  cbn [app]. apply pool_state_other; [apply HQ, He | apply IH, Hall].
Qed.

Lemma is_texture_phase_not_pool e : is_texture_phase e = true -> is_pool_event e = false.
Proof. destruct e as [[] []|]; cbn; congruence. Qed.

Lemma is_destroy_call_not_pool e : is_destroy_call e = true -> is_pool_event e = false.
Proof. destruct e as [[] []|]; cbn; congruence. Qed.

Lemma createMesh_pools P data path r s t :
  pool_state 0 t -> pool_state 0 (createMeshFromData_Internal P data path r s t).2.
Proof.
  intros Hs. unfold createMeshFromData_Internal, call, call_void.
  destruct (respond P t vkCreateCommandPool) eqn:Hpool; cbn [negb].
  - destruct (negb _); cbn [snd].
    + apply pool_state_destroy, pool_state_other; [reflexivity|].
      apply pool_state_create, Hs.
    + apply pool_state_other; [reflexivity|].
      apply pool_state_destroy, pool_state_other; [reflexivity|].
      apply pool_state_create, Hs.
  - cbn. apply pool_state_other; [reflexivity | exact Hs].
Qed.

Lemma loop3_trace_keeps {H : Type} (Q : Trace -> Prop)
    (body : Z -> H * AssetManager * Trace -> H * AssetManager * Trace) i n x s t :
  (forall j x s t, Q t -> Q (body j (x, s, t)).2) ->
  Q t -> Q (iter_from body i n (x, s, t)).2.
Proof.
  intros Hb Ht.
  apply (iter_from_ind (fun _ st => Q st.2) body i n (x, s, t)); [exact Ht|].
  intros j [[x0 s0] t0] _ Hk. apply Hb, Hk.
Qed.

Lemma create_material_pools view ths i mh s t :
  pool_state 0 t -> pool_state 0 (create_material view ths i (mh, s, t)).2.
Proof.
  intros Hs. unfold create_material. cbn -[getMaterial addRef_valid_Texture].
  apply pool_state_other; [reflexivity | exact Hs].
Qed.

Lemma create_mesh_pools P view path i mh s t :
  pool_state 0 t -> pool_state 0 (create_mesh P view path i (mh, s, t)).2.
Proof.
  intros Hs. unfold create_mesh.
  pose proof (createMesh_pools P
    (meshData_of_record (smodel.img_meshes (smodel.fileBytes view) i))
    (path +:+ "#mesh" +:+ pretty i) 0 s t Hs) as H.
  destruct (createMeshFromData_Internal _ _ _ _ _ _) as [[h s1] t1]. exact H.
Qed.

Lemma loadModel_build_pools P path view ths s t :
  pool_state 0 t -> pool_state 0 (loadModel_build P path view ths s t).2.
Proof.
  intros Hs. unfold loadModel_build.
  pose proof (loop3_trace_keeps (pool_state 0) (create_material view ths) 0
    (Z.to_nat (smodel.materialCount (smodel.header view)))
    (replicate (Z.to_nat (smodel.materialCount (smodel.header view))) Handle_default)
    s t (create_material_pools view ths) Hs) as H1.
  destruct (iter_from (create_material view ths) _ _ _) as [[mats s1] t1].
  pose proof (loop3_trace_keeps (pool_state 0) (create_mesh P view path) 0
    (Z.to_nat (smodel.meshCount (smodel.header view)))
    (replicate (Z.to_nat (smodel.meshCount (smodel.header view))) Handle_default)
    s1 t1 (create_mesh_pools P view path) H1) as H2.
  destruct (iter_from (create_mesh P view path) _ _ _) as [[mhs s2] t2].
  destruct (iter_from (create_primitive view mhs mats) _ _ _) as [[[prims md] mt] s3].
  cbn in *. apply pool_state_other; [reflexivity | exact H2].
Qed.

Lemma loadModel_pools P path s t :
  pool_state 0 t -> pool_state 0 (loadModel P path s t).2.
Proof.
  intros Hs. unfold loadModel.
  destruct (m_modelPathCache s !! path) as [h|]; [exact Hs|].
  destruct (smodel.LoadSModelFile _ _ _) as [err|view]; [exact Hs|].
  unfold loadModel_upload, BeginUploadContext, EndSubmitAndWait, call, call_void.
  destruct (respond P t vkCreateCommandPool) eqn:Hpool; cbn [negb];
    [|cbn; apply pool_state_other; [reflexivity | exact Hs]].
  assert (H1 : pool_state 1 (Gpu BeginUploadContext_call
                               (respond P (Gpu vkCreateCommandPool true :: t)
                                  BeginUploadContext_call)
                             :: Gpu vkCreateCommandPool true :: t)).
  { apply pool_state_other; [reflexivity|]. apply pool_state_create, Hs. }
  destruct (respond P _ BeginUploadContext_call) eqn:Hbegin; cbn [negb];
    [|cbn; apply pool_state_destroy, H1].
  match goal with
  | |- context [iter_until (upload_texture P view) 0 ?n ?st] =>
      pose proof (texture_loop_trace P view n st) as Hl; revert Hl;
      destruct (iter_until (upload_texture P view) 0 n st)
        as [[[up1 s1] t3]|[[[ths up1] s1] t3]]; cbn [snd]; intros Hl
  end.
  - cbn. apply pool_state_destroy, pool_state_other; [reflexivity|].
    eapply pool_state_extends; [apply is_texture_phase_not_pool | exact Hl | exact H1].
  - destruct Hl as (evs & -> & Hq & _).
    assert (H3 : pool_state 1 (evs ++ Gpu BeginUploadContext_call true
                                 :: Gpu vkCreateCommandPool true :: t)).
    { eapply pool_state_extends; [apply is_texture_phase_not_pool| |exact H1].
      exists evs. auto. }
    destruct (negb _); cbn [snd].
    + apply pool_state_destroy, pool_state_other; [reflexivity | exact H3].
    + apply loadModel_build_pools.
      apply pool_state_destroy, pool_state_other; [reflexivity | exact H3].
Qed.

Lemma loadMesh_pools P path s t :
  pool_state 0 t -> pool_state 0 (loadMesh P path s t).2.
Proof.
  intros Hs. unfold loadMesh.
  destruct (m_meshPathCache s !! path) as [h|]; [exact Hs|].
  destruct (smesh_files P path) as [data|]; [|exact Hs].
  pose proof (createMesh_pools P data path 1 s t Hs) as H.
  destruct (createMeshFromData_Internal P data path 1 s t) as [[h s1] t1].
  destruct (isValid h); exact H.
Qed.

(** X24.  Command pools never pile up and never leak: along the trace of
    every reachable manager at most one command pool is open at any point,
    no [vkDestroyCommandPool] comes without a pool to destroy, and when a
    call of the manager has returned every pool it created has been
    destroyed. *)
Theorem command_pools_are_closed (s : AssetManager) (t : Trace) :
  reachable s t -> pools_open t = 0 /\ one_pool_at_a_time t = true.
Proof.
  change (reachable s t -> pool_state 0 t).
  induction 1 as [|P path s t Hr IH|P path s t Hr IH|k h s t Hr IH|k h s t Hr IH|s t Hr IH].
  - split; reflexivity.
  - apply loadMesh_pools, IH.
  - apply loadModel_pools, IH.
  - exact IH.
  - exact IH.
  - eapply pool_state_extends;
      [apply is_destroy_call_not_pool | apply garbageCollect_calls | exact IH].
Qed.

Lemma command_pools_are_closed_witness :
  let r := loadModel mesh_upload_fails "quad.smodel" AssetManager_new [] in
  pools_open r.2 = 0 /\ one_pool_at_a_time r.2 = true.
Proof.
  cbv zeta.
  apply (command_pools_are_closed
           (loadModel mesh_upload_fails "quad.smodel" AssetManager_new []).1.2).
  apply reach_loadModel, reach_new.
Defined.

(* ================================================================= *)
(** ** Mesh buffers *)

Lemma mesh_buffers_other e t :
  is_mesh_event e = false -> mesh_buffers (e :: t) = mesh_buffers t.
Proof. destruct e as [[] []|]; cbn; intros; congruence. Qed.

Lemma mesh_buffers_extends (Q : Event -> bool) t t' :
  (forall e, Q e = true -> is_mesh_event e = false) ->
  extends_with Q t t' -> mesh_buffers t' = mesh_buffers t.
Proof.
  intros HQ (evs & -> & Hall). induction evs as [|e evs IH]; [reflexivity|].
  cbn in Hall. apply andb_true_iff in Hall as [He Hall].
  cbn [app]. rewrite mesh_buffers_other by apply HQ, He. apply IH, Hall.
Qed.

Lemma is_texture_phase_not_mesh e : is_texture_phase e = true -> is_mesh_event e = false.
Proof. destruct e as [[] []|]; cbn; congruence. Qed.

Lemma is_texture_upload_not_mesh e : is_texture_upload e = true -> is_mesh_event e = false.
Proof. destruct e as [[] []|]; cbn; congruence. Qed.

Lemma size_registry_addRef {E A : Type} {RE : RegistryEntry E A} (m : gmap Z E) h :
  size (registry_addRef m h) = size m.
Proof.
  unfold registry_addRef. destruct (resolve m h) as [e|] eqn:Hres; [|reflexivity].
  apply resolve_Some in Hres as [He _]. apply map_size_insert_Some. eauto.
Qed.

Lemma size_registry_release {E A : Type} {RE : RegistryEntry E A} (m : gmap Z E) h :
  size (registry_release m h) = size m.
Proof.
  unfold registry_release. destruct (resolve m h) as [e|] eqn:Hres; [|reflexivity].
  apply resolve_Some in Hres as [He _].
  destruct (0 <? refCount e); [|reflexivity]. apply map_size_insert_Some. eauto.
Qed.

Lemma size_foldl_release {E A : Type} {RE : RegistryEntry E A} l (m : gmap Z E) :
  size (foldl registry_release m l) = size m.
Proof.
  revert m. induction l as [|h l IH]; intros m; [reflexivity|].
  cbn. rewrite IH. apply size_registry_release.
Qed.

Lemma keeps_mesh_balance_refl st : keeps_mesh_balance st st.
Proof. split; [apply advances_refl | reflexivity]. Qed.

Lemma keeps_mesh_balance_trans st1 st2 st3 :
  keeps_mesh_balance st1 st2 -> keeps_mesh_balance st2 st3 -> keeps_mesh_balance st1 st3.
Proof.
  intros [A12 B12] [A23 B23]. split; [eapply advances_trans; eassumption|].
  intros Hinv Hleft.
  pose proof (ids_left_advances KMesh _ _ A23 Hleft) as Hleft2.
  pose proof (registry_invariant_advances _ _ Hinv A12) as Hinv2.
  rewrite (B23 Hinv2 Hleft). apply B12; assumption.
Qed.

Lemma keeps_mesh_balance_neutral st st' :
  advances st st' ->
  size (m_meshes st'.1) = size (m_meshes st.1) ->
  mesh_buffers st'.2 = mesh_buffers st.2 ->
  keeps_mesh_balance st st'.
Proof.
  intros Hadv Hsize Hbuf. split; [exact Hadv|]. intros _ _.
  unfold mesh_balance. rewrite Hsize, Hbuf. reflexivity.
Qed.

Lemma keeps_mesh_balance_gpu s t c ok :
  is_mesh_event (Gpu c ok) = false ->
  keeps_mesh_balance (s, t) (s, Gpu c ok :: t).
Proof.
  intros He. apply keeps_mesh_balance_neutral.
  - apply advances_once, advance_gpu.
  - reflexivity.
  - apply mesh_buffers_other, He.
Qed.

Lemma createMesh_keeps_mesh_balance P data path r s t :
  keeps_mesh_balance (s, t)
    ((createMeshFromData_Internal P data path r s t).1.2,
     (createMeshFromData_Internal P data path r s t).2).
Proof.
  split; [apply advances_createMesh|].
  intros (_ & _ & Hids). unfold mesh_balance, createMeshFromData_Internal, call, call_void.
  destruct (respond P t vkCreateCommandPool); cbn [negb]; [|reflexivity].
  destruct (respond P _ (MeshAsset_upload data)); cbn [negb fst snd]; [|reflexivity].
  intros Hleft.
  assert (Hleft0 : ids_left KMesh t).
  { unfold ids_left in *. cbn in Hleft. rewrite decide_True in Hleft by reflexivity.
    cbn in Hleft. lia. }
  destruct (Hids KMesh Hleft0) as (_ & _ & Hrange). cbn [fst snd next_id present] in Hrange.
  assert (Hfresh : m_meshes s !! m_nextMeshID s = None).
  { apply eq_None_not_Some. intros Hp. specialize (Hrange _ Hp). lia. }
  cbn [m_meshes set_meshes set_nextMeshID].
  rewrite (emplace_fresh _ _ _ Hfresh), map_size_insert_None by exact Hfresh.
  cbn [mesh_buffers]. lia.
Qed.

Lemma keeps_mesh_balance_loop3 {H : Type}
    (body : Z -> H * AssetManager * Trace -> H * AssetManager * Trace) i n st0 :
  (forall j st, keeps_mesh_balance (loop_state st) (loop_state (body j st))) ->
  keeps_mesh_balance (loop_state st0) (loop_state (iter_from body i n st0)).
Proof.
  intros Hb.
  apply (iter_from_ind (fun _ st => keeps_mesh_balance (loop_state st0) (loop_state st))
           body i n st0); [apply keeps_mesh_balance_refl|].
  intros j st _ Hk. eapply keeps_mesh_balance_trans; [exact Hk | apply Hb].
Qed.

Lemma addRef_valid_Texture_meshes h s : m_meshes (addRef_valid_Texture h s) = m_meshes s.
Proof. unfold addRef_valid_Texture. destruct (isValid h); reflexivity. Qed.

Lemma create_material_meshes view ths i mh s t :
  m_meshes (create_material view ths i (mh, s, t)).1.2 = m_meshes s.
Proof.
  unfold create_material. cbn -[getMaterial addRef_valid_Texture].
  destruct (getMaterial _ _); [|reflexivity].
  rewrite !addRef_valid_Texture_meshes. reflexivity.
Qed.

Lemma create_material_keeps_mesh_balance view ths i
    (st : list MaterialHandle * AssetManager * Trace) :
  keeps_mesh_balance (loop_state st) (loop_state (create_material view ths i st)).
Proof.
  apply keeps_mesh_balance_neutral; [apply advances_create_material| |].
  - destruct st as [[mh s] t]. unfold loop_state. cbn [fst snd].
    rewrite create_material_meshes. reflexivity.
  - destruct st as [[mh s] t]. unfold loop_state, create_material.
    cbn -[getMaterial addRef_valid_Texture]. reflexivity.
Qed.

Lemma create_mesh_keeps_mesh_balance P view path i
    (st : list MeshHandle * AssetManager * Trace) :
  keeps_mesh_balance (loop_state st) (loop_state (create_mesh P view path i st)).
Proof.
  destruct st as [[mh s] t]. unfold loop_state, create_mesh. cbn [fst snd].
  pose proof (createMesh_keeps_mesh_balance P
    (meshData_of_record (smodel.img_meshes (smodel.fileBytes view) i))
    (path +:+ "#mesh" +:+ pretty i) 0 s t) as H.
  destruct (createMeshFromData_Internal _ _ _ _ _ _) as [[h s1] t1]. exact H.
Qed.

Lemma create_primitive_size view mhs mats i (st : PrimLoop) :
  size (m_meshes (create_primitive view mhs mats i st).2) = size (m_meshes st.2).
Proof.
  destruct st as [[[prims md] mt] s]. unfold create_primitive.
  cbn -[addRef_Mesh addRef_Material].
  destruct (isValid _); destruct (isValid _); cbn; try reflexivity;
    apply size_registry_addRef.
Qed.

Lemma prim_loop_keeps_mesh_balance view mhs mats i n (st0 : PrimLoop) t :
  keeps_mesh_balance (st0.2, t)
    ((iter_from (create_primitive view mhs mats) i n st0).2, t).
Proof.
  apply keeps_mesh_balance_neutral; [apply advances_prim_loop| |reflexivity].
  cbn [fst].
  apply (iter_from_ind (fun _ (st : PrimLoop) => size (m_meshes st.2) = size (m_meshes st0.2))
           (create_primitive view mhs mats) i n st0); [reflexivity|].
  intros j st _ Hk. rewrite create_primitive_size. exact Hk.
Qed.

Lemma loadModel_build_keeps_mesh_balance P path view ths s t :
  keeps_mesh_balance (s, t)
    ((loadModel_build P path view ths s t).1.2, (loadModel_build P path view ths s t).2).
Proof.
  unfold loadModel_build.
  match goal with
  | |- context [iter_from (create_material view ths) 0 ?n ?st] =>
      pose proof (keeps_mesh_balance_loop3 (create_material view ths) 0 n st
                    (create_material_keeps_mesh_balance view ths)) as H1;
      revert H1; destruct (iter_from (create_material view ths) 0 n st) as [[mats s1] t1]
  end.
  unfold loop_state at 1 2. cbn [fst snd]. intros H1.
  match goal with
  | |- context [iter_from (create_mesh P view path) 0 ?n ?st] =>
      pose proof (keeps_mesh_balance_loop3 (create_mesh P view path) 0 n st
                    (create_mesh_keeps_mesh_balance P view path)) as H2;
      revert H2; destruct (iter_from (create_mesh P view path) 0 n st) as [[mhs s2] t2]
  end.
  unfold loop_state at 1 2. cbn [fst snd]. intros H2.
  match goal with
  | |- context [iter_from (create_primitive view mhs mats) 0 ?n ?st] =>
      pose proof (prim_loop_keeps_mesh_balance view mhs mats 0 n st t2) as H3;
      revert H3;
      destruct (iter_from (create_primitive view mhs mats) 0 n st) as [[[prims md] mt] s3]
  end.
  cbn [fst snd]. intros H3.
  match goal with
  | |- context [createModel_Internal (Some ?m) path 1 s3 t2] =>
      pose proof (advance_createModel m path 1 s3 t2) as H4
  end.
  unfold createModel_Internal in *. cbn [fst snd] in *.
  eapply keeps_mesh_balance_trans; [exact H1|].
  eapply keeps_mesh_balance_trans; [exact H2|].
  eapply keeps_mesh_balance_trans; [exact H3|].
  apply keeps_mesh_balance_neutral; [|reflexivity|reflexivity].
  eapply advances_trans; [apply advances_once; exact H4|].
  eapply advances_trans; [apply advances_once, advance_fill_model_deps|].
  apply advances_once, advance_modelPathCache.
  intros p h. apply cache_emplace_step. reflexivity.
Qed.

Lemma texture_loop_keeps_mesh_balance P view n (st0 : TexLoop) :
  match iter_until (upload_texture P view) 0 n st0 with
  | inl f => keeps_mesh_balance (tex_state st0) (tex_exit_state f)
  | inr st' => keeps_mesh_balance (tex_state st0) (tex_state st')
  end.
Proof.
  pose proof (advances_texture_loop P view 0 n st0) as Ha.
  pose proof (texture_loop_trace P view n st0) as Ht.
  destruct st0 as [[[th up] s] t].
  pose proof (texture_loop_adds_idle P view 0 n th up s t) as Hi.
  destruct (iter_until _ _ _ _) as [[[up1 s1] t3]|[[[ths up1] s1] t3]];
    unfold tex_state, tex_exit_state in *; cbn [fst snd] in *.
  - apply keeps_mesh_balance_neutral; [exact Ha| |]; cbn [fst snd].
    + destruct Hi as (-> & _). reflexivity.
    + eapply mesh_buffers_extends; [apply is_texture_phase_not_mesh | exact Ht].
  - apply keeps_mesh_balance_neutral; [exact Ha| |]; cbn [fst snd].
    + destruct Hi as (-> & _). reflexivity.
    + destruct Ht as (evs & -> & Hq & _).
      eapply mesh_buffers_extends; [apply is_texture_phase_not_mesh|]. exists evs. auto.
Qed.

Lemma loadModel_keeps_mesh_balance P path s t :
  keeps_mesh_balance (s, t) ((loadModel P path s t).1.2, (loadModel P path s t).2).
Proof.
  unfold loadModel. destruct (m_modelPathCache s !! path) as [h|].
  { apply keeps_mesh_balance_neutral;
      [apply advances_once, (advance_addRef KModel) | reflexivity | reflexivity]. }
  destruct (smodel.LoadSModelFile _ _ _) as [err|view]; [apply keeps_mesh_balance_refl|].
  unfold loadModel_upload, BeginUploadContext, EndSubmitAndWait, call, call_void.
  destruct (negb (respond P t vkCreateCommandPool)) eqn:Hpool; cbn [fst snd negb].
  { apply keeps_mesh_balance_gpu. reflexivity. }
  destruct (negb (respond P _ BeginUploadContext_call)); cbn [fst snd].
  { eapply keeps_mesh_balance_trans; [|apply keeps_mesh_balance_gpu; reflexivity].
    eapply keeps_mesh_balance_trans; apply keeps_mesh_balance_gpu; reflexivity. }
  match goal with
  | |- context [iter_until (upload_texture P view) 0 ?n ?st] =>
      pose proof (texture_loop_keeps_mesh_balance P view n st) as Hl; revert Hl;
      destruct (iter_until (upload_texture P view) 0 n st)
        as [[[up1 s1] t3]|[[[ths up1] s1] t3]]
  end.
  - unfold tex_state, tex_exit_state. cbn [fst snd]. intros Hl.
    eapply keeps_mesh_balance_trans; [|apply keeps_mesh_balance_gpu; reflexivity].
    eapply keeps_mesh_balance_trans; [|apply keeps_mesh_balance_gpu; reflexivity].
    eapply keeps_mesh_balance_trans; [|exact Hl].
    eapply keeps_mesh_balance_trans; apply keeps_mesh_balance_gpu; reflexivity.
  - unfold tex_state. cbn [fst snd]. intros Hl.
    assert (Hpre : keeps_mesh_balance (s, t)
              (s1, Gpu vkDestroyCommandPool true
                   :: Gpu EndSubmitAndWait_call (respond P t3 EndSubmitAndWait_call) :: t3)).
    { eapply keeps_mesh_balance_trans; [|apply keeps_mesh_balance_gpu; reflexivity].
      eapply keeps_mesh_balance_trans; [|apply keeps_mesh_balance_gpu; reflexivity].
      eapply keeps_mesh_balance_trans; [|exact Hl].
      eapply keeps_mesh_balance_trans; apply keeps_mesh_balance_gpu; reflexivity. }
    destruct (negb (respond P t3 EndSubmitAndWait_call)); cbn [fst snd]; [exact Hpre|].
    eapply keeps_mesh_balance_trans; [exact Hpre|].
    apply loadModel_build_keeps_mesh_balance.
Qed.

Lemma loadMesh_keeps_mesh_balance P path s t :
  keeps_mesh_balance (s, t) ((loadMesh P path s t).1.2, (loadMesh P path s t).2).
Proof.
  split; [apply advances_loadMesh|]. revert s t.
  intros s t. unfold loadMesh. destruct (m_meshPathCache s !! path) as [h|].
  { intros _ _. unfold mesh_balance. cbn. rewrite size_registry_addRef. reflexivity. }
  destruct (smesh_files P path) as [data|]; [|reflexivity].
  pose proof (createMesh_keeps_mesh_balance P data path 1 s t) as [_ Hc]. revert Hc.
  destruct (createMeshFromData_Internal P data path 1 s t) as [[h s1] t1].
  cbn [fst snd]. destruct (isValid h); cbn [fst snd]; [|auto].
  intros Hc Hinv Hleft. rewrite <- (Hc Hinv Hleft). reflexivity.
Qed.

Lemma addRef_keeps_mesh_balance k h s t : keeps_mesh_balance (s, t) (addRef k h s, t).
Proof.
  apply keeps_mesh_balance_neutral; [apply advances_once, advance_addRef| |reflexivity].
  destruct k; cbn; try reflexivity. apply size_registry_addRef.
Qed.

Lemma release_keeps_mesh_balance k h s t : keeps_mesh_balance (s, t) (release k h s, t).
Proof.
  apply keeps_mesh_balance_neutral; [apply advances_once, advance_release| |reflexivity].
  destruct k; cbn; try reflexivity. apply size_registry_release.
Qed.

(** Sweep 3 destroys one buffer for each mesh entry it erases. *)
Lemma sweep_meshes_balance l st :
  NoDup l.*1 ->
  (forall i e, (i, e) ∈ l -> m_meshes st.1 !! i = Some e /\ is_Some (mesh_asset e)) ->
  mesh_balance (foldl sweep_mesh st l) = mesh_balance st.
Proof.
  revert st. induction l as [|[i e] l IH]; intros st Hnd Hl; [reflexivity|].
  cbn [foldl]. cbn in Hnd. apply NoDup_cons in Hnd as [Hni Hnd].
  destruct (Hl i e ltac:(left)) as [Hi [a Ha]].
  rewrite IH; [|exact Hnd|].
  - destruct st as [s t]. unfold sweep_mesh, mesh_balance, call_void.
    destruct (mesh_refCount e =? 0); [|reflexivity]. rewrite Ha. cbn in *.
    pose proof (map_size_delete_Some i (m_meshes s) ltac:(eauto)) as Hd.
    pose proof (map_size_ne_0_lookup_2 (m_meshes s) i ltac:(eauto)) as Hne.
    rewrite Hd. lia.
  - intros j e' Hin. destruct (Hl j e' ltac:(right; exact Hin)) as [Hj Ha'].
    split; [|exact Ha']. rewrite sweep_mesh_meshes.
    destruct (mesh_refCount e =? 0); [|exact Hj].
    rewrite lookup_delete_ne; [exact Hj|]. intros ->. apply Hni.
    apply list_elem_of_fmap. exists (j, e'). split; [reflexivity | exact Hin].
Qed.

Lemma sweep_texture_mesh_buffers st ie :
  mesh_buffers (sweep_texture st ie).2 = mesh_buffers st.2.
Proof.
  destruct st as [s t], ie as [i e]. unfold sweep_texture.
  destruct (texture_refCount e =? 0); [|reflexivity]. cbn [snd].
  destruct (texture_asset e) as [a|]; [|reflexivity].
  eapply mesh_buffers_extends;
    [apply is_texture_upload_not_mesh | apply TextureAsset_destroy_extends].
Qed.

Lemma garbageCollect_keeps_mesh_balance s t :
  keeps_mesh_balance (s, t) (garbageCollect s t).
Proof.
  split; [apply advances_garbageCollect|]. intros Hinv _.
  unfold garbageCollect.
  set (s1 := foldl sweep_model s (map_to_list (m_models s))).
  set (s2 := foldl sweep_material s1 (map_to_list (m_materials s1))).
  set (st3 := foldl sweep_mesh (s2, t) (map_to_list (m_meshes s2))).
  assert (H1 : size (m_meshes s1) = size (m_meshes s)).
  { apply (foldl_preserves sweep_model (fun s' => size (m_meshes s') = size (m_meshes s)));
      [|reflexivity].
    intros s' [i e] <-. rewrite sweep_model_meshes.
    destruct (model_refCount e =? 0); [apply size_foldl_release | reflexivity]. }
  destruct (sweep_materials_keep s1 (map_to_list (m_materials s1))) as [_ H2].
  fold s2 in H2.
  assert (Hinv2 : registry_invariant (s2, t)).
  { apply (registry_invariant_advances (s, t)); [exact Hinv|].
    eapply advances_trans;
      [|apply advances_foldl; intros acc x; apply advances_sweep_material].
    apply advances_foldl; intros acc x; apply advances_sweep_model. }
  assert (H3 : mesh_balance st3 = mesh_balance (s2, t)).
  { apply sweep_meshes_balance; [apply NoDup_fst_map_to_list|].
    intros i e Hin. apply elem_of_map_to_list in Hin. cbn [fst]. split; [exact Hin|].
    destruct Hinv2 as (Hgood & _).
    destruct (Hgood KMesh i) as (e' & He' & _ & Ha); [cbn; eauto|].
    cbn in He'. rewrite Hin in He'. injection He' as <-. exact Ha. }
  destruct (sweep_textures_result 0 (map_to_list (m_textures st3.1)) st3)
    as (_ & _ & H4 & _).
  assert (H5 : mesh_buffers (foldl sweep_texture st3 (map_to_list (m_textures st3.1))).2
               = mesh_buffers st3.2).
  { apply (foldl_preserves sweep_texture (fun st' => mesh_buffers st'.2 = mesh_buffers st3.2));
      [|reflexivity].
    intros st' x <-. apply sweep_texture_mesh_buffers. }
  unfold mesh_balance in *. rewrite H5, H4. cbn [fst snd] in *. rewrite H3, H2, H1.
  reflexivity.
Qed.

(** In every reachable state with mesh identifiers left, the buffers
    alive are those of the mesh entries. *)
Lemma reachable_mesh_balance s t :
  reachable s t -> ids_left KMesh t -> mesh_balance (s, t) = 0.
Proof.
  assert (Hstep : forall s t st',
            keeps_mesh_balance (s, t) st' -> reachable s t ->
            (ids_left KMesh t -> mesh_balance (s, t) = 0) ->
            ids_left KMesh st'.2 -> mesh_balance st' = 0).
  { intros s0 t0 st' [Hadv Hbal] Hr IH Hleft.
    rewrite (Hbal (reachable_registry_invariant s0 t0 Hr) Hleft).
    apply IH. exact (ids_left_advances KMesh _ _ Hadv Hleft). }
  induction 1 as [|P path s t Hr IH|P path s t Hr IH|k h s t Hr IH|k h s t Hr IH|s t Hr IH].
  - reflexivity.
  - apply (Hstep s t _ (loadMesh_keeps_mesh_balance P path s t) Hr IH).
  - apply (Hstep s t _ (loadModel_keeps_mesh_balance P path s t) Hr IH).
  - apply (Hstep s t _ (addRef_keeps_mesh_balance k h s t) Hr IH).
  - apply (Hstep s t _ (release_keeps_mesh_balance k h s t) Hr IH).
  - intros Hleft.
    pose proof (Hstep s t _ (garbageCollect_keeps_mesh_balance s t) Hr IH) as H.
    destruct (garbageCollect s t) as [s' t']. exact (H Hleft).
Qed.

(** X25.  Mesh buffers are neither leaked nor destroyed twice: in every
    reachable manager with mesh identifiers left, the number of
    [MeshAsset::upload] calls that succeeded less the number of
    [MeshAsset::destroy] calls is the number of entries of the mesh
    registry. *)
Theorem mesh_buffers_match_registry (s : AssetManager) (t : Trace) :
  reachable s t -> ids_left KMesh t ->
  mesh_buffers t = Z.of_nat (size (m_meshes s)).
Proof.
  intros Hr Hleft. pose proof (reachable_mesh_balance s t Hr Hleft) as H.
  unfold mesh_balance in H. cbn in H. lia.
Qed.

Lemma mesh_buffers_match_registry_witness :
  let r := loadModel example_platform "quad.smodel" AssetManager_new [] in
  mesh_buffers (garbageCollect (release KModel r.1.1 r.1.2) r.2).2
  = Z.of_nat (size (m_meshes (garbageCollect (release KModel r.1.1 r.1.2) r.2).1)).
Proof.
  cbv zeta. apply mesh_buffers_match_registry.
  - apply reach_garbageCollect, reach_release, reach_loadModel, reach_new.
  - vm_compute. reflexivity.
Defined.

Lemma destroy_meshes_buffers l t :
  (forall kv : Z * MeshEntry, kv ∈ l -> is_Some (mesh_asset kv.2)) ->
  mesh_buffers
    (foldl (fun acc (kv : Z * MeshEntry) =>
              match mesh_asset kv.2 with
              | Some _ => call_void MeshAsset_destroy acc
              | None => acc
              end) t l)
  = mesh_buffers t - Z.of_nat (length l).
Proof.
  revert t. induction l as [|kv l IH]; intros t Hl; [cbn; lia|].
  cbn [foldl length]. rewrite IH by (intros kv' Hin; apply Hl; right; exact Hin).
  destruct (Hl kv ltac:(left)) as [a ->]. cbn. lia.
Qed.

Lemma destroy_textures_calls (l : list (Z * TextureEntry)) t :
  extends_with is_texture_upload t
    (foldl (fun acc (kv : Z * TextureEntry) =>
              match texture_asset kv.2 with
              | Some a => (TextureAsset_destroy a acc).2
              | None => acc
              end) t l).
Proof.
  apply (foldl_preserves _ (fun t' => extends_with is_texture_upload t t'));
    [|apply extends_with_refl].
  intros t' kv Ht'. destruct (texture_asset kv.2) as [a|]; [|exact Ht'].
  eapply extends_with_trans; [exact Ht' | apply TextureAsset_destroy_extends].
Qed.

(** X26.  The destructor gives back every mesh buffer: run on a reachable
    manager with mesh identifiers left, it leaves no mesh buffer alive
    (each buffer uploaded has been destroyed exactly once), no handle
    resolves any more, and it neither opens nor closes a command pool. *)
Theorem destructor_frees_every_mesh (s : AssetManager) (t : Trace) :
  reachable s t -> ids_left KMesh t ->
  let d := AssetManager_destroy s t in
  mesh_buffers d.2 = 0
  /\ (forall k h, get_absent k d.1 h)
  /\ pools_open d.2 = pools_open t.
Proof.
  intros Hr Hleft. cbv zeta. unfold AssetManager_destroy. cbn [fst snd].
  split; [|split].
  - rewrite (mesh_buffers_extends is_texture_upload _ _ is_texture_upload_not_mesh
               (destroy_textures_calls _ _)).
    rewrite destroy_meshes_buffers.
    + rewrite length_map_to_list.
      pose proof (reachable_mesh_balance s t Hr Hleft) as H.
      unfold mesh_balance in H. cbn in H. lia.
    + intros [i e] Hin. apply elem_of_map_to_list in Hin.
      destruct (reachable_good KMesh s t i Hr) as (e' & He' & _ & Ha); [cbn; eauto|].
      cbn in He'. rewrite Hin in He'. injection He' as <-. exact Ha.
  - intros k h. destruct k; cbn; unfold getMesh, getTexture, getMaterial, getModel,
      registry_get, resolve; cbn; rewrite lookup_empty; reflexivity.
  - match goal with
    | |- pools_open (foldl ?f (foldl ?g t ?l1) ?l2) = _ =>
        assert (H1 : pools_open (foldl g t l1) = pools_open t);
        [|assert (H2 : pools_open (foldl f (foldl g t l1) l2) = pools_open (foldl g t l1));
          [|congruence]]
    end.
    + apply (foldl_preserves _ (fun t' => pools_open t' = pools_open t)); [|reflexivity].
      intros t' kv <-. destruct (mesh_asset kv.2); reflexivity.
    + match goal with
      | |- pools_open ?t2 = pools_open ?t1 =>
          pose proof (destroy_textures_calls (map_to_list (m_textures s)) t1)
            as (evs & Hevs & Hq)
      end.
      rewrite Hevs. clear Hevs. induction evs as [|e evs IH]; [reflexivity|].
      cbn in Hq. apply andb_true_iff in Hq as [He Hq]. cbn [app].
      rewrite pools_open_other; [apply IH, Hq|].
      destruct e as [[] []|]; cbn in *; congruence.
Qed.

Lemma destructor_frees_every_mesh_witness :
  let r := loadModel example_platform "quad.smodel" AssetManager_new [] in
  let d := AssetManager_destroy r.1.2 r.2 in
  mesh_buffers d.2 = 0
  /\ (forall k h, get_absent k d.1 h)
  /\ pools_open d.2 = pools_open r.2.
Proof.
  cbv zeta.
  apply (destructor_frees_every_mesh
           (loadModel example_platform "quad.smodel" AssetManager_new []).1.2
           (loadModel example_platform "quad.smodel" AssetManager_new []).2).
  - apply reach_loadModel, reach_new.
  - vm_compute. reflexivity.
Defined.

(* ================================================================= *)
(** ** Registered textures are complete *)

Lemma uploadRGBA8_Deferred_complete P ctx a px w h srgb wu wv mn mg mp an t :
  is_u32 w -> is_u32 h ->
  (uploadRGBA8_Deferred P ctx a px w h srgb wu wv mn mg mp an t).1.1.1 = true ->
  complete (uploadRGBA8_Deferred P ctx a px w h srgb wu wv mn mg mp an t).1.1.2.
Proof.
  intros Hw Hh. unfold uploadRGBA8_Deferred.
  destruct (negb (begun ctx) || negb (cmd ctx)); [discriminate|].
  destruct (negb px || (w =? 0) || (h =? 0)) eqn:Hguard; [discriminate|].
  apply orb_false_iff in Hguard as [Hguard Hh0].
  apply orb_false_iff in Hguard as [_ Hw0]. apply Z.eqb_neq in Hw0, Hh0.
  pose proof (calcMipLevels_range w h Hw Hh) as Hm.
  set (mips := calcMipLevels w h) in *.
  destruct (if TextureAsset_isValid a then TextureAsset_destroy a t else (a, t))
    as [a0 t0].
  unfold call, call_void, complete, is_u32 in *.
  destruct (respond P _ (CreateStagingBuffer _)); [|discriminate]. cbn [negb].
  destruct (respond P _ (CreateImage2D _ _ _ _)); [|discriminate]. cbn [negb].
  destruct (1 <? mips).
  - destruct (respond P _ (CmdGenerateMipmaps _ _ _ _)); cbn [negb];
      (destruct (respond P _ (CreateImageView2D _ _)); [|discriminate]); cbn [negb];
      match goal with |- context [if negb ?b then _ else _] => destruct b end;
      cbn; intros; try discriminate; repeat split; lia.
  - destruct (respond P _ (CreateImageView2D _ _)); [|discriminate]. cbn [negb].
    match goal with |- context [if negb ?b then _ else _] => destruct b end;
      cbn; intros; try discriminate; repeat split; lia.
Qed.

Lemma u32_is_u32 x : is_u32 (u32 x).
Proof. unfold is_u32, u32. apply Z.mod_pos_bound. lia. Qed.

Lemma uploadEncodedImage_Deferred_complete P ctx a img off sz srgb wu wv mn mg mp an t :
  (uploadEncodedImage_Deferred P ctx a img off sz srgb wu wv mn mg mp an t).1.1.1 = true ->
  complete (uploadEncodedImage_Deferred P ctx a img off sz srgb wu wv mn mg mp an t).1.1.2.
Proof.
  unfold uploadEncodedImage_Deferred.
  destruct (sz =? 0); [discriminate|].
  destruct (smodel.img_stbi img off (to_int sz)) as [[w h]|]; [|discriminate].
  destruct ((w <=? 0) || (h <=? 0)); [discriminate|].
  apply uploadRGBA8_Deferred_complete; apply u32_is_u32.
Qed.

Lemma textures_complete_same s s' :
  m_textures s' = m_textures s -> textures_complete s -> textures_complete s'.
Proof. intros Heq Hc i e. rewrite Heq. apply Hc. Qed.

Lemma lookup_registry_release_inv {E A : Type} {RE : RegistryEntry E A}
    (m : gmap Z E) h i e :
  registry_release m h !! i = Some e ->
  exists e0 n, m !! i = Some e0 /\ e = with_refCount n e0.
Proof.
  rewrite lookup_registry_release.
  assert (Hsame : m !! i = Some e -> exists e0 n, m !! i = Some e0 /\ e = with_refCount n e0).
  { intros He. exists e, (refCount e). split; [exact He|].
    symmetry. apply with_refCount_same. }
  destruct (resolve m h) as [e'|] eqn:Hres; [|exact Hsame].
  destruct (decide (id h = i)) as [<-|]; [|exact Hsame].
  apply resolve_Some in Hres as [He' _]. destruct (0 <? refCount e').
  - intros [= <-]. eauto.
  - intros [= <-]. exists e', (refCount e'). split; [exact He'|].
    symmetry. apply with_refCount_same.
Qed.

Lemma textures_complete_addRef k h s :
  textures_complete s -> textures_complete (addRef k h s).
Proof.
  destruct k; try (apply textures_complete_same; reflexivity).
  intros Hc i e He. cbn in He.
  apply lookup_registry_addRef_inv in He as (e0 & n & He0 & ->).
  exact (Hc i e0 He0).
Qed.

Lemma textures_complete_release k h s :
  textures_complete s -> textures_complete (release k h s).
Proof.
  destruct k; try (apply textures_complete_same; reflexivity).
  intros Hc i e He. cbn in He.
  apply lookup_registry_release_inv in He as (e0 & n & He0 & ->).
  exact (Hc i e0 He0).
Qed.

Lemma textures_complete_releases l s :
  textures_complete s ->
  textures_complete (set_textures (fun m => foldl registry_release m l) s).
Proof.
  revert s. induction l as [|h l IH]; intros s Hc; [destruct s; exact Hc|].
  specialize (IH _ (textures_complete_release KTexture h s Hc)).
  intros i e He. apply (IH i e). exact He.
Qed.

Lemma textures_complete_delete i s :
  textures_complete s -> textures_complete (set_textures (delete i) s).
Proof.
  intros Hc j e. cbn. rewrite lookup_delete.
  destruct (decide (i = j)); [discriminate | apply Hc].
Qed.

Lemma upload_texture_complete P view i th up s t :
  textures_complete s ->
  match upload_texture P view i (th, up, s, t) with
  | inl (_, s', _) => textures_complete s'
  | inr (_, _, s', _) => textures_complete s'
  end.
Proof.
  intros Hc. unfold upload_texture.
  match goal with
  | |- context [uploadEncodedImage_Deferred ?P ?c ?a ?im ?o ?z ?sr ?wu ?wv ?mn ?mg ?mp ?an ?t] =>
      pose proof (uploadEncodedImage_Deferred_complete P c a im o z sr wu wv mn mg mp an t)
        as Hu;
      destruct (uploadEncodedImage_Deferred P c a im o z sr wu wv mn mg mp an t)
        as [[[ok tex] up1] t1]
  end.
  cbn [fst snd] in Hu. destruct ok; cbn [negb]; [|exact Hc].
  cbn. intros j e. cbn. unfold emplace.
  destruct (m_textures s !! m_nextTextureID s) eqn:Hn; [apply Hc|].
  rewrite lookup_insert. destruct (decide (m_nextTextureID s = j)); [|apply Hc].
  intros [= <-]. exists tex. split; [reflexivity | apply Hu; reflexivity].
Qed.

Lemma texture_loop_complete P view i n th up s t :
  textures_complete s ->
  match iter_until (upload_texture P view) i n (th, up, s, t) with
  | inl (_, s', _) => textures_complete s'
  | inr (_, _, s', _) => textures_complete s'
  end.
Proof.
  intros Hc.
  pose proof (iter_until_ind
    (fun _ (st : TexLoop) => textures_complete st.1.2)
    (fun (f : UploadContext * AssetManager * Trace) => textures_complete f.1.2)
    (upload_texture P view) i n (th, up, s, t)) as H.
  simpl in H.
  destruct (iter_until _ _ _ _) as [[[up' s'] t']|[[[th' up'] s'] t']];
    apply H; try exact Hc.
  all: intros j [[[th0 up0] s0] t0] _ Hk; simpl in Hk;
    pose proof (upload_texture_complete P view j th0 up0 s0 t0 Hk) as Hu;
    destruct (upload_texture P view j (th0, up0, s0, t0))
      as [[[up1 s1] t1]|[[[th1 up1] s1] t1]]; simpl; exact Hu.
Qed.

Lemma addRef_valid_Texture_complete h s :
  textures_complete s -> textures_complete (addRef_valid_Texture h s).
Proof.
  unfold addRef_valid_Texture. destruct (isValid h); [|auto].
  apply (textures_complete_addRef KTexture).
Qed.

Lemma create_material_complete view ths i mh s t :
  textures_complete s -> textures_complete (create_material view ths i (mh, s, t)).1.2.
Proof.
  intros Hc. unfold create_material. cbn -[getMaterial addRef_valid_Texture].
  destruct (getMaterial _ _); [|exact Hc].
  repeat apply addRef_valid_Texture_complete. exact Hc.
Qed.

Lemma createMesh_textures P data path r s t :
  m_textures (createMeshFromData_Internal P data path r s t).1.2 = m_textures s.
Proof.
  unfold createMeshFromData_Internal.
  destruct (call P vkCreateCommandPool t) as [pr t1].
  destruct (negb pr); [reflexivity|].
  destruct (call P (MeshAsset_upload data) t1) as [ok t2].
  destruct (negb ok); reflexivity.
Qed.

Lemma create_mesh_complete P view path i mh s t :
  textures_complete s -> textures_complete (create_mesh P view path i (mh, s, t)).1.2.
Proof.
  unfold create_mesh.
  pose proof (createMesh_textures P
    (meshData_of_record (smodel.img_meshes (smodel.fileBytes view) i))
    (path +:+ "#mesh" +:+ pretty i) 0 s t) as H.
  destruct (createMeshFromData_Internal _ _ _ _ _ _) as [[h s1] t1].
  apply textures_complete_same, H.
Qed.

Lemma create_primitive_textures view mhs mats i (st : PrimLoop) :
  m_textures (create_primitive view mhs mats i st).2 = m_textures st.2.
Proof.
  destruct st as [[[prims md] mt] s]. unfold create_primitive.
  cbn -[addRef_Mesh addRef_Material].
  destruct (isValid _); destruct (isValid _); reflexivity.
Qed.

Lemma loop3_state_keeps {H : Type} (Q : AssetManager -> Prop)
    (body : Z -> H * AssetManager * Trace -> H * AssetManager * Trace) i n x s t :
  (forall j x s t, Q s -> Q (body j (x, s, t)).1.2) ->
  Q s -> Q (iter_from body i n (x, s, t)).1.2.
Proof.
  intros Hb Hs.
  apply (iter_from_ind (fun _ st => Q st.1.2) body i n (x, s, t)); [exact Hs|].
  intros j [[x0 s0] t0] _ Hk. apply Hb, Hk.
Qed.

Lemma loadModel_build_complete P path view ths s t :
  textures_complete s -> textures_complete (loadModel_build P path view ths s t).1.2.
Proof.
  intros Hc. unfold loadModel_build.
  pose proof (loop3_state_keeps textures_complete (create_material view ths) 0
    (Z.to_nat (smodel.materialCount (smodel.header view)))
    (replicate (Z.to_nat (smodel.materialCount (smodel.header view))) Handle_default)
    s t (create_material_complete view ths) Hc) as H1.
  destruct (iter_from (create_material view ths) _ _ _) as [[mats s1] t1].
  pose proof (loop3_state_keeps textures_complete (create_mesh P view path) 0
    (Z.to_nat (smodel.meshCount (smodel.header view)))
    (replicate (Z.to_nat (smodel.meshCount (smodel.header view))) Handle_default)
    s1 t1 (create_mesh_complete P view path) H1) as H2.
  destruct (iter_from (create_mesh P view path) _ _ _) as [[mhs s2] t2].
  assert (H3 : m_textures
                 (iter_from (create_primitive view mhs mats) 0
                    (Z.to_nat (smodel.primitiveCount (smodel.header view)))
                    (replicate (Z.to_nat (smodel.primitiveCount (smodel.header view)))
                       ModelPrimitive_default, [], [], s2)).2 = m_textures s2).
  { match goal with
    | |- m_textures (iter_from ?b ?i ?n ?st0).2 = _ =>
        apply (iter_from_ind (fun _ (st : PrimLoop) => m_textures st.2 = m_textures s2)
                 b i n st0); [reflexivity|]
    end.
    intros j st _ Hk. rewrite create_primitive_textures. exact Hk. }
  destruct (iter_from (create_primitive view mhs mats) _ _ _) as [[[prims md] mt] s3].
  cbn in *. eapply textures_complete_same; [|exact H2]. cbn. exact H3.
Qed.

Lemma loadModel_complete P path s t :
  textures_complete s -> textures_complete (loadModel P path s t).1.2.
Proof.
  intros Hc. unfold loadModel.
  destruct (m_modelPathCache s !! path) as [h|].
  { apply (textures_complete_addRef KModel), Hc. }
  destruct (smodel.LoadSModelFile _ _ _) as [err|view]; [exact Hc|].
  unfold loadModel_upload.
  destruct (call P vkCreateCommandPool t) as [pr t1].
  destruct (negb pr); [exact Hc|].
  destruct (BeginUploadContext P t1) as [[begunOk upload] t2].
  destruct (negb begunOk); [exact Hc|].
  pose proof (texture_loop_complete P view 0
    (Z.to_nat (smodel.textureCount (smodel.header view)))
    (replicate (Z.to_nat (smodel.textureCount (smodel.header view))) Handle_default)
    upload s t2 Hc) as Hk.
  destruct (iter_until _ _ _ _) as [[[up1 s1] t3]|[[[ths up1] s1] t3]].
  - destruct (EndSubmitAndWait P up1 t3) as [[? ?] t4]. exact Hk.
  - destruct (EndSubmitAndWait P up1 t3) as [[submitted ?] t4].
    destruct (negb submitted); [exact Hk|].
    apply loadModel_build_complete, Hk.
Qed.

Lemma loadMesh_complete P path s t :
  textures_complete s -> textures_complete (loadMesh P path s t).1.2.
Proof.
  intros Hc. unfold loadMesh.
  destruct (m_meshPathCache s !! path) as [h|].
  { apply (textures_complete_addRef KMesh), Hc. }
  destruct (smesh_files P path) as [data|]; [|exact Hc].
  pose proof (createMesh_textures P data path 1 s t) as H.
  destruct (createMeshFromData_Internal P data path 1 s t) as [[h s1] t1].
  cbn [fst snd] in *. destruct (isValid h); apply (textures_complete_same s); auto.
Qed.

Lemma garbageCollect_complete s t :
  textures_complete s -> textures_complete (garbageCollect s t).1.
Proof.
  intros Hc. unfold garbageCollect.
  apply (foldl_preserves sweep_texture (fun st => textures_complete st.1)).
  { intros st [i e] Hst. rewrite sweep_texture_state.
    destruct (texture_refCount e =? 0); [|exact Hst].
    apply textures_complete_delete, Hst. }
  apply (foldl_preserves sweep_mesh (fun st => textures_complete st.1)).
  { intros st [i e] Hst. rewrite sweep_mesh_state.
    destruct (mesh_refCount e =? 0); [|exact Hst].
    eapply textures_complete_same; [|exact Hst]. reflexivity. }
  cbn [fst].
  apply (foldl_preserves sweep_material textures_complete).
  { intros s' [i e] Hs'. unfold sweep_material.
    destruct (material_refCount e =? 0); [|exact Hs'].
    rewrite foldl_release_Texture.
    eapply textures_complete_same; [|apply (textures_complete_releases (textureDeps e)), Hs'].
    reflexivity. }
  apply (foldl_preserves sweep_model textures_complete); [|exact Hc].
  intros s' x Hs'. eapply textures_complete_same; [apply sweep_model_textures | exact Hs'].
Qed.

Lemma reachable_textures_complete s t : reachable s t -> textures_complete s.
Proof.
  induction 1 as [|P path s t Hr IH|P path s t Hr IH|k h s t Hr IH|k h s t Hr IH|s t Hr IH].
  - intros i e He. cbn in He. rewrite lookup_empty in He. discriminate.
  - apply loadMesh_complete, IH.
  - apply loadModel_complete, IH.
  - apply textures_complete_addRef, IH.
  - apply textures_complete_release, IH.
  - apply garbageCollect_complete, IH.
Qed.

(** X27.  A texture the manager hands out is complete: in every reachable
    manager, whenever [getTexture] finds a texture, the texture holds its
    image, memory, view and sampler, its dimensions are nonzero 32-bit
    numbers, and it has between 1 and 32 mip levels. *)
Theorem getTexture_is_complete (s : AssetManager) (t : Trace) (h : TextureHandle)
    (a : TextureAsset) :
  reachable s t -> getTexture s h = Some a -> complete a.
Proof.
  intros Hr. unfold getTexture, registry_get.
  destruct (resolve (m_textures s) h) as [e|] eqn:Hres; [|discriminate].
  apply resolve_Some in Hres as [He _].
  destruct (reachable_textures_complete s t Hr _ _ He) as (a' & Ha' & Hc).
  cbn. rewrite Ha'. intros [= <-]. exact Hc.
Qed.

Lemma getTexture_is_complete_witness :
  let r := loadModel example_platform "quad.smodel" AssetManager_new [] in
  exists a, getTexture r.1.2 {| id := 1; h_generation := 1 |} = Some a /\ complete a.
Proof.
  cbv zeta. eexists. split; [vm_compute; reflexivity|].
  apply (getTexture_is_complete
           (loadModel example_platform "quad.smodel" AssetManager_new []).1.2
           (loadModel example_platform "quad.smodel" AssetManager_new []).2
           {| id := 1; h_generation := 1 |}).
  - apply reach_loadModel, reach_new.
  - vm_compute. reflexivity.
Defined.

(* ================================================================= *)
(** ** Loading destroys nothing *)

Lemma uploadRGBA8_Deferred_keeps_objects P ctx a px w h srgb wu wv mn mg mp an t :
  TextureAsset_isValid a = false ->
  extends_with (fun e => negb (is_destroy_call e)) t
    (uploadRGBA8_Deferred P ctx a px w h srgb wu wv mn mg mp an t).2.
Proof.
  intros Ha. unfold uploadRGBA8_Deferred. rewrite Ha.
  destruct (negb (begun ctx) || negb (cmd ctx)); [apply extends_with_refl|].
  destruct (negb px || (w =? 0) || (h =? 0)); [apply extends_with_refl|].
  unfold call, call_void.
  repeat match goal with
         | |- context [if negb ?b then _ else _] => destruct b; simpl
         | |- context [if 1 <? ?b then _ else _] => destruct (1 <? b); simpl
         end;
    repeat (apply extends_with_cons; [reflexivity|]); apply extends_with_refl.
Qed.

Lemma upload_texture_keeps_objects P view i th up s t :
  match upload_texture P view i (th, up, s, t) with
  | inl (_, _, t') => extends_with (fun e => negb (is_destroy_call e)) t t'
  | inr (_, _, _, t') => extends_with (fun e => negb (is_destroy_call e)) t t'
  end.
Proof.
  unfold upload_texture, uploadEncodedImage_Deferred.
  destruct (smodel.imageDataSize _ =? 0); [apply extends_with_refl|].
  destruct (smodel.img_stbi _ _ _) as [[w h]|]; [|apply extends_with_refl].
  destruct ((w <=? 0) || (h <=? 0)); [apply extends_with_refl|].
  match goal with
  | |- context [uploadRGBA8_Deferred ?P ?c ?a ?px ?w ?h ?sr ?wu ?wv ?mn ?mg ?mp ?an ?t] =>
      pose proof (uploadRGBA8_Deferred_keeps_objects P c a px w h sr wu wv mn mg mp an t
                    eq_refl) as Hu;
      destruct (uploadRGBA8_Deferred P c a px w h sr wu wv mn mg mp an t)
        as [[[ok tex] up1] t1]
  end.
  cbn [snd] in Hu. destruct (negb ok); [exact Hu|].
  cbn. apply extends_with_cons; [reflexivity | exact Hu].
Qed.

Lemma texture_loop_keeps_objects P view i n th up s t :
  match iter_until (upload_texture P view) i n (th, up, s, t) with
  | inl (_, _, t') => extends_with (fun e => negb (is_destroy_call e)) t t'
  | inr (_, _, _, t') => extends_with (fun e => negb (is_destroy_call e)) t t'
  end.
Proof.
  pose proof (iter_until_ind
    (fun _ (st : TexLoop) => extends_with (fun e => negb (is_destroy_call e)) t st.2)
    (fun (f : UploadContext * AssetManager * Trace) =>
       extends_with (fun e => negb (is_destroy_call e)) t f.2)
    (upload_texture P view) i n (th, up, s, t)) as H.
  simpl in H.
  destruct (iter_until _ _ _ _) as [[[up' s'] t']|[[[th' up'] s'] t']];
    apply H; try apply extends_with_refl.
  all: intros j [[[th0 up0] s0] t0] _ Hk; simpl in Hk;
    pose proof (upload_texture_keeps_objects P view j th0 up0 s0 t0) as Hu;
    destruct (upload_texture P view j (th0, up0, s0, t0))
      as [[[up1 s1] t1]|[[[th1 up1] s1] t1]]; simpl;
    eapply extends_with_trans; eauto.
Qed.

Lemma createMesh_keeps_objects P data path r s t :
  extends_with (fun e => negb (is_destroy_call e)) t
    (createMeshFromData_Internal P data path r s t).2.
Proof.
  unfold createMeshFromData_Internal, call, call_void.
  destruct (negb (respond P t vkCreateCommandPool)); simpl;
    [apply extends_with_cons; [reflexivity | apply extends_with_refl]|].
  destruct (negb _); simpl;
    repeat (apply extends_with_cons; [reflexivity|]); apply extends_with_refl.
Qed.

Lemma create_mesh_keeps_objects P view path i mh s t :
  extends_with (fun e => negb (is_destroy_call e)) t
    (create_mesh P view path i (mh, s, t)).2.
Proof.
  unfold create_mesh.
  pose proof (createMesh_keeps_objects P
    (meshData_of_record (smodel.img_meshes (smodel.fileBytes view) i))
    (path +:+ "#mesh" +:+ pretty i) 0 s t) as H.
  destruct (createMeshFromData_Internal _ _ _ _ _ _) as [[h s1] t1]. exact H.
Qed.

Lemma create_material_keeps_objects view ths i mh s t :
  extends_with (fun e => negb (is_destroy_call e)) t
    (create_material view ths i (mh, s, t)).2.
Proof.
  unfold create_material. cbn -[getMaterial addRef_valid_Texture].
  apply extends_with_cons; [reflexivity | apply extends_with_refl].
Qed.

Lemma loadModel_build_keeps_objects P path view ths s t :
  extends_with (fun e => negb (is_destroy_call e)) t
    (loadModel_build P path view ths s t).2.
Proof.
  unfold loadModel_build.
  pose proof (loop3_trace (fun e => negb (is_destroy_call e)) (create_material view ths) 0
    (Z.to_nat (smodel.materialCount (smodel.header view)))
    (replicate (Z.to_nat (smodel.materialCount (smodel.header view))) Handle_default)
    s t (create_material_keeps_objects view ths)) as H1.
  destruct (iter_from (create_material view ths) _ _ _) as [[mats s1] t1].
  pose proof (loop3_trace (fun e => negb (is_destroy_call e)) (create_mesh P view path) 0
    (Z.to_nat (smodel.meshCount (smodel.header view)))
    (replicate (Z.to_nat (smodel.meshCount (smodel.header view))) Handle_default)
    s1 t1 (create_mesh_keeps_objects P view path)) as H2.
  destruct (iter_from (create_mesh P view path) _ _ _) as [[mhs s2] t2].
  destruct (iter_from (create_primitive view mhs mats) _ _ _) as [[[prims md] mt] s3].
  simpl in *. apply extends_with_cons; [reflexivity|].
  eapply extends_with_trans; eauto.
Qed.

(** X28.  Loading destroys nothing: whatever the platform answers and
    whatever the manager holds, [loadModel] and [loadMesh] make no
    [vkDestroySampler], [vkDestroyImageView], [vkDestroyImage],
    [vkFreeMemory] or [MeshAsset::destroy] call, so the GPU objects of the
    assets already registered outlive every load. *)
Theorem loads_destroy_nothing (P : Platform) (path : string) (s : AssetManager)
    (t : Trace) :
  extends_with (fun e => negb (is_destroy_call e)) t (loadModel P path s t).2
  /\ extends_with (fun e => negb (is_destroy_call e)) t (loadMesh P path s t).2.
Proof.
  split.
  - unfold loadModel. destruct (m_modelPathCache s !! path) as [h|];
      [apply extends_with_refl|].
    destruct (smodel.LoadSModelFile _ _ _) as [err|view]; [apply extends_with_refl|].
    unfold loadModel_upload, BeginUploadContext, EndSubmitAndWait, call, call_void.
    destruct (negb (respond P t vkCreateCommandPool)); cbn [fst snd];
      [apply extends_with_cons; [reflexivity | apply extends_with_refl]|].
    destruct (negb (respond P _ BeginUploadContext_call)); cbn [fst snd];
      [repeat (apply extends_with_cons; [reflexivity|]); apply extends_with_refl|].
    match goal with
    | |- context [iter_until (upload_texture P view) 0 ?n (?th, ?up, ?s0, ?t0)] =>
        pose proof (texture_loop_keeps_objects P view 0 n th up s0 t0) as Hl
    end.
    destruct (iter_until _ _ _ _) as [[[up1 s1] t3]|[[[ths up1] s1] t3]].
    + cbn. repeat (apply extends_with_cons; [reflexivity|]).
      eapply extends_with_trans; [|exact Hl].
      repeat (apply extends_with_cons; [reflexivity|]); apply extends_with_refl.
    + assert (Hpre : extends_with (fun e => negb (is_destroy_call e)) t
                (Gpu vkDestroyCommandPool true
                 :: Gpu EndSubmitAndWait_call (respond P t3 EndSubmitAndWait_call) :: t3)).
      { repeat (apply extends_with_cons; [reflexivity|]).
        eapply extends_with_trans; [|exact Hl].
        repeat (apply extends_with_cons; [reflexivity|]); apply extends_with_refl. }
      destruct (negb (respond P t3 EndSubmitAndWait_call)); cbn [fst snd]; [exact Hpre|].
      eapply extends_with_trans; [exact Hpre | apply loadModel_build_keeps_objects].
  - unfold loadMesh. destruct (m_meshPathCache s !! path) as [h|];
      [apply extends_with_refl|].
    destruct (smesh_files P path) as [data|]; [|apply extends_with_refl].
    pose proof (createMesh_keeps_objects P data path 1 s t) as H.
    destruct (createMeshFromData_Internal P data path 1 s t) as [[h s1] t1].
    destruct (isValid h); exact H.
Qed.
